(** * kanako / bakana: the incremental analysis pipeline

  A shallow embedding of the step state objects, the orchestrator and
  the helper routines of the repository, followed by the properties
  proved about them.  Each module is named after the source file it
  embeds and keeps the names of the functions it translates. *)

From Stdlib Require Import ZArith QArith List String Bool Lia DecimalString Sorted Permutation.
From stdpp Require Import base option list gmap strings.
Import ListNotations.

Set Warnings "-register-all".

Local Open Scope string_scope.
Local Open Scope list_scope.

(** ** Results of JavaScript calls

  A call either returns a value or throws.  The errors that matter
  here are the built-in [ReferenceError] (an identifier that is not
  declared in scope), [TypeError] (a property read on [undefined], or
  a call of something that is not a function) and user-level [Error]s
  carrying a message. *)

Inductive js_error : Type :=
| ReferenceError (name : string)
| TypeError (what : string)
| Error (message : string).

Inductive result (A : Type) : Type :=
| Ret (a : A)
| Throw (e : js_error).

Arguments Ret {A} a.
Arguments Throw {A} e.

Definition bind {A B : Type} (r : result A) (k : A -> result B) : result B :=
match r with
| Ret a => k a
| Throw e => Throw e
end.

Notation "x <- r ;; k" := (bind r (fun x => k))
(at level 100, r at next level, right associativity).

(** ** src/dump/List.js *)

Module DumpList.

(** The values [dump_internal] can be handed.  A JavaScript number is
    represented by an integer: no arithmetic is done on it here.
    Instances of classes (the WasmArrays included) are objects and are
    represented by [JObject] with their own enumerable properties. *)
Inductive jsval : Type :=
| JUndefined
| JNull
| JBool (b : bool)
| JNum (n : Z)
| JStr (s : string)
| JArray (xs : list jsval)
| JObject (props : list (string * jsval))
| JInt32Array (xs : list Z)
| JFloat64Array (xs : list Z).

(** The object built by [dump_internal], and what [dumpList] wraps it
    into: the compressed JSON text of the object, kept here as the
    object it encodes, together with the path of the metadata. *)
Inductive dumped : Type :=
| Dumped (type : string) (values : list dvalue) (names : option (list string))
with dvalue : Type :=
| DVNum (n : Z)
| DVStr (s : string)
| DVBool (b : bool)
| DVFile (path : string) (contents : dumped).

(** [path + "/simple.json.gz"], where an omitted [path] is [undefined]. *)
Definition metadata_path (path : option string) : string :=
  match path with
  | Some p => p ++ "/simple.json.gz"
  | None => "undefined/simple.json.gz"
  end.

(** The loop over the elements of a non-empty array: an element that is
    not [null] clears [all_strings] when it is not a string, and
    otherwise (it is a string, hence not a boolean) clears
    [all_bools]. *)
Definition scan_step (flags : bool * bool) (e : jsval) : bool * bool :=
  let '(all_strings, all_bools) := flags in
  match e with
  | JNull => (all_strings, all_bools)
  | JStr _ => (all_strings, false)
  | _ => (false, all_bools)
  end.

Definition scan (xs : list jsval) : bool * bool :=
  fold_left scan_step xs (true, true).

(** [Object.entries] of a typed array: the decimal indices with the
    elements. *)
Definition index_names {A : Type} (xs : list A) : list string :=
  map (fun i => NilEmpty.string_of_uint (Nat.to_uint i)) (seq 0 (length xs)).

(** [dumpList(v)] as called from the object branch: one argument, so
    [path] is [undefined]. *)
Definition wrap (path : option string) (r : result dumped) : result dvalue :=
  values <- r ;; Ret (DVFile (metadata_path path) values).

Fixpoint dump_internal (x : jsval) : result dumped :=
  match x with
  | JArray xs =>
      match xs with
      | [] => Ret (Dumped "list" [] None)
      | _ :: _ =>
          let '(all_strings, all_bools) := scan xs in
          if all_strings then
            (* output.type = "string"; output.values = v; *)
            Throw (ReferenceError "v")
          else if all_bools then
            (* output.type = "boolean"; output.values = v; *)
            Throw (ReferenceError "v")
          else
            (* for (const e of v) { ... } *)
            Throw (ReferenceError "v")
      end
  | JObject props =>
      (fix entries (ps : list (string * jsval)) (names : list string)
           (values : list dvalue) : result dumped :=
         match ps with
         | [] => Ret (Dumped "list" values (Some names))
         | (k, v) :: ps' =>
             d <- wrap None (dump_internal v) ;;
             entries ps' (names ++ [k]) (values ++ [d])
         end) props [] []
  | JInt32Array xs | JFloat64Array xs =>
      (* typed arrays are instances of Object: the object branch takes
         them, and each element is a number *)
      Ret (Dumped "list"
             (map (fun n => DVFile (metadata_path None)
                              (Dumped "number" [DVNum n] None)) xs)
             (Some (index_names xs)))
  | JNum n => Ret (Dumped "number" [DVNum n] None)
  | JStr s => Ret (Dumped "string" [DVStr s] None)
  | JBool b => Ret (Dumped "boolean" [DVBool b] None)
  | JUndefined | JNull =>
      (* throw new Error("don't know how to save entry '" + k + ...) *)
      Throw (ReferenceError "k")
  end.

Definition dumpList (x : jsval) (path : option string) : result dvalue :=
  wrap path (dump_internal x).

Definition is_string (e : jsval) : bool :=
  match e with JStr _ => true | _ => false end.

(** The values that reach the last [else] of [dump_internal]: neither
    an object nor a number, a string or a boolean. *)
Definition unsupported (x : jsval) : bool :=
  match x with JUndefined | JNull => true | _ => false end.

End DumpList.

(** ** src/readers/utils/features.js *)

Module Features.

(** A ScranMatrix is represented by its rows, a DataFrame by its named
    columns of strings. *)
Definition matrix : Type := list (list Z).
Definition DataFrame : Type := list (string * list string).

Record loaded_matrix : Type := {
  l_matrix : matrix;
  l_row_ids : option (list Z)
}.

(** Calls into scran.js made on the MultiMatrix of the output. *)
Inductive scran_call : Type :=
| CallSplitRows
| CallFree
| CallRename (from to : string).

Record split_output : Type := {
  o_matrix : list (string * matrix);
  o_row_ids : list (string * list Z);
  o_features : list (string * DataFrame)
}.

(** What [is_subset_noop] may be handed as [indices]: an array of
    numbers, a string, or [undefined]. *)
Inductive indexable : Type :=
| IdxNumbers (xs : list Z)
| IdxString (s : string)
| IdxUndefined.

Inductive element : Type :=
| ElNumber (n : Z)
| ElChar (c : Ascii.ascii)
| ElUndefined.

Definition idx_get (x : indexable) (i : nat) : element :=
  match x with
  | IdxNumbers xs => match nth_error xs i with Some n => ElNumber n | None => ElUndefined end
  | IdxString s => match String.get i s with Some c => ElChar c | None => ElUndefined end
  | IdxUndefined => ElUndefined
  end.

(** [i !== e] for a number [i]: strict inequality holds unless [e] is
    the same number. *)
Definition strict_neq (i : nat) (e : element) : bool :=
  match e with
  | ElNumber n => negb (Z.of_nat i =? n)%Z
  | ElChar _ | ElUndefined => true
  end.

Definition is_subset_noop (indices : indexable) (full_length : nat) : result bool :=
  match indices with
  | IdxUndefined => Throw (TypeError "indices.length")
  | IdxNumbers _ | IdxString _ =>
      let len := match indices with
                 | IdxNumbers xs => List.length xs
                 | IdxString s => String.length s
                 | IdxUndefined => 0
                 end in
      if negb (len =? full_length)%nat then Ret false
      else Ret (forallb (fun i => negb (strict_neq i (idx_get indices i)))
                        (seq 0 full_length))
  end.

(** bioc.presplitFactor: the positions of every level, the levels in
    order of first appearance. *)
Fixpoint add_position (level : string) (i : Z) (by_f : list (string * list Z))
  : list (string * list Z) :=
  match by_f with
  | [] => [(level, [i])]
  | (k, ids) :: rest =>
      if String.eqb k level then (k, ids ++ [i]) :: rest
      else (k, ids) :: add_position level i rest
  end.

Definition presplitFactor (factor : list string) : list (string * list Z) :=
  fold_left (fun by_f '(i, x) => add_position x (Z.of_nat i) by_f)
            (combine (seq 0 (List.length factor)) factor) [].

Definition lookup_key {A : Type} (k : string) (o : list (string * A)) : option A :=
  snd <$> List.find (fun kv => String.eqb (fst kv) k) o.

Definition pick {A : Type} (d : A) (xs : list A) (ids : list Z) : list A :=
  map (fun i => nth (Z.to_nat i) xs d) ids.

(** bioc.SLICE and bioc.SPLIT on data frames, arrays and matrices. *)
Definition SLICE_df (df : DataFrame) (ids : list Z) : DataFrame :=
  map (fun '(name, col) => (name, pick "" col ids)) df.

Definition SPLIT_df (df : DataFrame) (by_type : list (string * list Z))
  : list (string * DataFrame) :=
  map (fun '(k, ids) => (k, SLICE_df df ids)) by_type.

Definition SPLIT_ids (xs : list Z) (by_type : list (string * list Z))
  : list (string * list Z) :=
  map (fun '(k, ids) => (k, pick 0%Z xs ids)) by_type.

Definition splitRows (m : matrix) (by_type : list (string * list Z))
  : list (string * matrix) :=
  map (fun '(k, ids) => (k, pick [] m ids)) by_type.

(** The loop over [Object.entries(featureTypeMapping)]. *)
Definition select_types (mapping : list (string * option string))
    (by_type : list (string * list Z)) : list (string * list Z) :=
  fold_left (fun selected '(k, v) =>
               match v with
               | Some v' =>
                   match lookup_key v' by_type with
                   | Some ids => selected ++ [(k, ids)]
                   | None => selected
                   end
               | None => selected
               end) mapping [].

(** The body of the [try] block; the calls made on the matrix so far are
    returned with the outcome, so that the [catch] can add its own. *)
Definition split_body (loaded : loaded_matrix) (rawFeatures : DataFrame)
    (typeField : option string)
    (featureTypeMapping : option (list (string * option string)))
    (featureTypeDefault : string) : list scran_call * result split_output :=
  let out_mat := l_matrix loaded in
  let nrows := List.length out_mat in
  let '(current_features, out_ids) :=
    match l_row_ids loaded with
    | Some ids => (SLICE_df rawFeatures ids, ids)
    | None => (rawFeatures, map Z.of_nat (seq 0 nrows))
    end in
  match typeField with
  | Some field =>
      match lookup_key field current_features with
      | Some column =>
          let by_type0 := presplitFactor column in
          let by_type := match featureTypeMapping with
                         | Some mapping => select_types mapping by_type0
                         | None => by_type0
                         end in
          let type_keys := map fst by_type in
          (* is_subset_noop(type_keys[0], out_mat.numberOfRows()) *)
          let first_key := match type_keys with
                           | k :: _ => IdxString k
                           | [] => IdxUndefined
                           end in
          match is_subset_noop first_key nrows with
          | Throw e => ([], Throw e)
          | Ret skip_subset =>
              let rest := fun calls m =>
                (calls, Ret {| o_matrix := m;
                               (* delete current_features[typeField] removes
                                  no column of the data frame *)
                               o_features := SPLIT_df current_features by_type;
                               o_row_ids := SPLIT_ids out_ids by_type |}) in
              if (1 <? List.length type_keys)%nat || negb skip_subset then
                rest [CallSplitRows; CallFree] (splitRows out_mat by_type)
              else
                let k := hd "" type_keys in
                rest [CallRename "" k] [(k, out_mat)]
          end
      | None =>
          ([CallRename "" featureTypeDefault],
           Ret {| o_matrix := [(featureTypeDefault, out_mat)];
                  o_row_ids := [(featureTypeDefault, out_ids)];
                  o_features := [(featureTypeDefault, current_features)] |})
      end
  | None =>
      ([CallRename "" featureTypeDefault],
       Ret {| o_matrix := [(featureTypeDefault, out_mat)];
              o_row_ids := [(featureTypeDefault, out_ids)];
              o_features := [(featureTypeDefault, current_features)] |})
  end.

Definition splitScranMatrixAndFeatures (loaded : loaded_matrix)
    (rawFeatures : DataFrame) (typeField : option string)
    (featureTypeMapping : option (list (string * option string)))
    (featureTypeDefault : string) : list scran_call * result split_output :=
  match split_body loaded rawFeatures typeField featureTypeMapping featureTypeDefault with
  | (calls, Ret out) => (calls, Ret out)
  | (calls, Throw e) => (calls ++ [CallFree], Throw e)       (* catch (e) *)
  end.

(** The partition of the rows is the identity permutation: one group,
    holding every row in order. *)
Definition identity_partition (by_type : list (string * list Z)) (nrows : nat) : Prop :=
  exists k, by_type = [(k, map Z.of_nat (seq 0 nrows))].

End Features.

(** ** FeatureSetManager (steps/feature_set_enrichment.js) *)

Module FeatureSetManager.

(** The statistics and the p-values are JavaScript numbers; they are
    represented by rationals, so NaN is left out. *)

Record manager_cache : Type := {
  universe : list nat;             (* sorted row indices of the mapped genes *)
  mapping_to_sets : list (list nat);
  set_sizes : list Z
}.

(** A ScoreMarkersResults object seen through [markers[effect_size]]:
    the method of that name, if there is one, called with the group and
    the index of the summary. *)
Definition markers_object : Type := string -> option (nat -> option Z -> list Q).

Record overlap : Type := {
  id : nat;
  count : Z;
  pvalue : Q
}.

Record enrichment : Type := {
  set_ids : list nat;
  counts : list Z;
  pvalues : list Q;
  num_markers : nat
}.

(** mutils.summaries2int *)
Definition summaries2int (summary : string) : option Z :=
  if String.eqb summary "min" then Some 0%Z
  else if String.eqb summary "mean" then Some 1%Z
  else if String.eqb summary "min_rank" then Some 4%Z
  else None.

(** [overlaps.sort((a, b) => a.pvalue - b.pvalue)]: the sort is stable,
    an element goes before the first one whose p-value is not smaller. *)
Fixpoint insert_overlap (x : overlap) (sorted : list overlap) : list overlap :=
  match sorted with
  | [] => [x]
  | y :: rest =>
      if Qle_bool (pvalue x) (pvalue y) then x :: y :: rest
      else y :: insert_overlap x rest
  end.

Definition sort_overlaps (xs : list overlap) : list overlap :=
  fold_right insert_overlap [] xs.

Definition pvalue_le (a b : overlap) : Prop := (pvalue a <= pvalue b)%Q.

(** The threshold that the selection loop compares against. *)
Definition effective_threshold (use_largest : bool) (min_threshold threshold : Q) : Q :=
  if use_largest then
    if negb (Qle_bool min_threshold threshold) then min_threshold else threshold
  else threshold.

(** The positions of [curstats] for which [add] is called. *)
Definition selected_positions (use_largest : bool) (min_threshold threshold : Q)
    (curstats : list Q) : list nat :=
  let thr := effective_threshold use_largest min_threshold threshold in
  map fst
    (List.filter (fun '(i, x) => if use_largest then Qle_bool thr x else Qle_bool x thr)
                 (combine (seq 0 (List.length curstats)) curstats)).

Section WithCollaborators.

(** scran.computeTopThreshold, gesel.countSetOverlaps and
    gesel.testEnrichment belong to other packages. *)
Variable computeTopThreshold : list Q -> Z -> bool -> Q.
Variable countSetOverlaps : list (list nat) -> list (nat * Z).
Variable testEnrichment : Z -> Z -> Z -> Z -> Q.

Definition computeEnrichment (cache : manager_cache) (group : nat)
    (effect_size summary : string) (markers : markers_object) (top_markers : Z)
  : result enrichment :=
  let effect_size :=
    if String.eqb effect_size "delta_detected" then "deltaDetected" else effect_size in
  (* Avoid picking down-regulated genes in the marker set. *)
  let min_threshold : Q := if String.eqb effect_size "auc" then (1 # 2)%Q else 0%Q in
  (* Larger is better except for 'min_rank'. *)
  let use_largest := negb (String.eqb effect_size "min_rank") in
  let sumidx := summaries2int summary in
  match markers effect_size with
  | None => Throw (TypeError "markers[effect_size] is not a function")
  | Some method =>
      let stats := method group sumidx in
      let curstats := map (fun g => nth g stats 0%Q) (universe cache) in
      let threshold := computeTopThreshold curstats top_markers use_largest in
      let in_set :=
        map (fun i => nth (nth i (universe cache) 0%nat) (mapping_to_sets cache) [])
            (selected_positions use_largest min_threshold threshold curstats) in
      let num_top := List.length in_set in
      let overlaps :=
        map (fun '(i, c) =>
               {| id := i; count := c;
                  pvalue := testEnrichment c (Z.of_nat num_top)
                              (nth i (set_sizes cache) 0%Z)
                              (Z.of_nat (List.length (universe cache))) |})
            (countSetOverlaps in_set) in
      let sorted := sort_overlaps overlaps in
      Ret {| set_ids := map id sorted;
             counts := map count sorted;
             pvalues := map pvalue sorted;
             num_markers := num_top |}
  end.

End WithCollaborators.

(** The selection as the specification words it: at most the threshold
    for "min_rank", at least the threshold otherwise, the threshold
    being raised to 0.5 for "auc" only. *)
Definition spec_selected_positions (effect_size : string) (threshold : Q)
    (curstats : list Q) : list nat :=
  let keep (x : Q) :=
    if String.eqb effect_size "min_rank" then Qle_bool x threshold
    else if String.eqb effect_size "auc" then
      Qle_bool threshold x && Qle_bool (1 # 2)%Q x
    else Qle_bool threshold x in
  map fst (List.filter (fun '(i, x) => keep x)
                       (combine (seq 0 (List.length curstats)) curstats)).

(** A top-K threshold for the examples: the K-th largest (or K-th
    smallest) of the statistics. *)
Fixpoint insert_stat (largest : bool) (x : Q) (sorted : list Q) : list Q :=
  match sorted with
  | [] => [x]
  | y :: rest =>
      if (if largest then Qle_bool y x else Qle_bool x y) then x :: y :: rest
      else y :: insert_stat largest x rest
  end.

Definition kth_threshold (stats : list Q) (top : Z) (largest : bool) : Q :=
  nth (Z.to_nat (top - 1)) (fold_right (insert_stat largest) [] stats) 0%Q.

(** A two-gene universe with negative effect sizes. *)
Definition negative_stats : list Q := [(-1 # 1)%Q; (-2 # 1)%Q].

Definition two_gene_cache : manager_cache :=
  {| universe := [0%nat; 1%nat];
     mapping_to_sets := [[0%nat]; [0%nat]];
     set_sizes := [2%Z] |}.

Definition cohen_only (stats : list Q) : markers_object :=
  fun name => if String.eqb name "cohen" then Some (fun _ _ => stats) else None.

End FeatureSetManager.

(** ** Objects on the Wasm heap

    The matrices, typed arrays and result objects of scran.js live
    outside the JavaScript heap and are released by an explicit [free].
    The store keeps the arrays apart from the other objects; [calls]
    records the computations requested from scran.js. *)

Module Wasm.

Abbreviation addr := nat.

(** A ScranMatrix, by rows. *)
Definition matrix : Type := list (list Z).

Inductive scran_object : Type :=
| RunPCAResults (pcs : list (list Q))
| MultiMatrix (store : list (string * matrix)).

Inductive scran_call : Type :=
| RunPCA (num_pcs : Z) (block_method : string)
| FilterCells (modality : string)
| CloneMatrix (modality : string)
| FilterBlock.

Record heap : Type := {
  arrays : gmap addr (list Z);
  objects : gmap addr scran_object;
  next : addr;
  calls : list scran_call
}.

(** A WasmArray: the storage it refers to and, for a view, the array
    that owns the storage ([owner === null] for an owning array). *)
Record WasmArray : Type := {
  ptr : addr;
  owner : option addr
}.

Definition view (a : WasmArray) : WasmArray :=
  {| ptr := ptr a; owner := Some (ptr a) |}.

Definition read (h : heap) (a : WasmArray) : list Z :=
  default [] (arrays h !! ptr a).

Definition write (a : WasmArray) (vals : list Z) (h : heap) : heap :=
  {| arrays := <[ptr a := vals]> (arrays h); objects := objects h;
     next := next h; calls := calls h |}.

(** [x.free()] on an array: a view releases nothing. *)
Definition free_array (a : WasmArray) (h : heap) : heap :=
  match owner a with
  | None => {| arrays := delete (ptr a) (arrays h); objects := objects h;
               next := next h; calls := calls h |}
  | Some _ => h
  end.

Definition free_object (a : addr) (h : heap) : heap :=
  {| arrays := arrays h; objects := delete a (objects h);
     next := next h; calls := calls h |}.

Definition alloc_array (vals : list Z) (h : heap) : WasmArray * heap :=
  ({| ptr := next h; owner := None |},
   {| arrays := <[next h := vals]> (arrays h); objects := objects h;
      next := S (next h); calls := calls h |}).

Definition alloc_object (o : scran_object) (h : heap) : addr * heap :=
  (next h,
   {| arrays := arrays h; objects := <[next h := o]> (objects h);
      next := S (next h); calls := calls h |}).

Definition log (c : scran_call) (h : heap) : heap :=
  {| arrays := arrays h; objects := objects h; next := next h;
     calls := calls h ++ [c] |}.

(** Modelled from the spec: utils.freeCache of steps/utils/general.js,
    which is not among the sources.  It releases the buffer it is given
    and does nothing when the entry is missing or null. *)
Definition freeCache_array (x : option WasmArray) (h : heap) : heap :=
  match x with
  | Some a => free_array a h
  | None => h
  end.

Definition freeCache_object (x : option addr) (h : heap) : heap :=
  match x with
  | Some a => free_object a h
  | None => h
  end.

(** Modelled from the spec: utils.allocateCachedArray of
    steps/utils/general.js, which is not among the sources.  The cached
    buffer is used again when the cache owns it and it is live with the
    requested length; otherwise the old entry is released and a fresh
    buffer is allocated, whose content is whatever the memory held
    (zeros here). *)
Definition allocateCachedArray (size : nat) (entry : option WasmArray) (h : heap)
  : WasmArray * heap :=
  let fresh := alloc_array (repeat 0%Z size) (freeCache_array entry h) in
  match entry with
  | Some a =>
      match owner a, arrays h !! ptr a with
      | None, Some vals => if (List.length vals =? size)%nat then (a, h) else fresh
      | _, _ => fresh
      end
  | None => fresh
  end.

(** The outcome of a method that changes the state it is called on: the
    state is the one it left behind, whether it returned or threw. *)
Inductive outcome (S : Type) : Type :=
| Returned (s : S)
| Thrown (e : js_error) (s : S).

Arguments Returned {S} s.
Arguments Thrown {S} e s.

Definition final {S : Type} (o : outcome S) : S :=
  match o with Returned s | Thrown _ s => s end.

Definition thrown {S : Type} (o : outcome S) : option js_error :=
  match o with Returned _ => None | Thrown e _ => Some e end.

(** [x !== stored] for a parameter: a parameter that was never stored is
    [undefined] and differs from every value. *)
Definition differs {A : Type} `{EqDecision A} (x : A) (stored : option A) : bool :=
  match stored with
  | Some y => if decide (x = y) then false else true
  | None => true
  end.

End Wasm.

(** ** src/steps/crispr_pca.js *)

Module CrisprPca.
Import Wasm.

(** [this.#parameters]: empty after construction. *)
Record parameters : Type := {
  num_pcs : option Z;
  block_method : option string
}.

(** The argument of [compute]. *)
Record arguments : Type := {
  arg_num_pcs : Z;
  arg_block_method : string
}.

Record state : Type := {
  params : parameters;
  cache_pcs : option addr;              (* this.#cache.pcs *)
  changed : bool
}.

(** What [compute] reads from the two upstream steps. *)
Record upstream : Type := {
  norm_changed : bool;                  (* this.#norm.changed *)
  norm_valid : bool;                    (* this.#norm.valid() *)
  normalized_matrix : matrix;           (* this.#norm.fetchNormalizedMatrix() *)
  filtered_block : option (list Z)      (* this.#filter.fetchFilteredBlock() *)
}.

(** [new CrisprPcaState(filter, norm)] *)
Definition constructor : state :=
  {| params := {| num_pcs := None; block_method := None |};
     cache_pcs := None; changed := false |}.

Definition valid (up : upstream) : bool := norm_valid up.

Definition needs_update (up : upstream) (a : arguments) (st : state) : bool :=
  norm_changed up
  || differs (arg_num_pcs a) (num_pcs (params st))
  || differs (arg_block_method a) (block_method (params st)).

Definition store (a : arguments) : parameters :=
  {| num_pcs := Some (arg_num_pcs a); block_method := Some (arg_block_method a) |}.

Section WithScran.

(** scran.runPCA *)
Variable runPCA : matrix -> Z -> option (list Z) -> string -> result (list (list Q)).

Definition compute (up : upstream) (a : arguments) (st : state) (h : heap)
  : outcome (state * heap) :=
  let st := {| params := params st; cache_pcs := cache_pcs st; changed := false |} in
  if needs_update up a st then
    if valid up then
      let block := filtered_block up in
      let mat := normalized_matrix up in
      let h := freeCache_object (cache_pcs st) h in
      let h := log (RunPCA (arg_num_pcs a) (arg_block_method a)) h in
      match runPCA mat (arg_num_pcs a) block (arg_block_method a) with
      | Throw e => Thrown e (st, h)
      | Ret pcs =>
          let '(p, h) := alloc_object (RunPCAResults pcs) h in
          Returned ({| params := store a; cache_pcs := Some p; changed := true |}, h)
      end
    else
      Returned ({| params := store a; cache_pcs := cache_pcs st; changed := false |}, h)
  else Returned (st, h).

End WithScran.

(** The part of the state that the orchestrator and the downstream
    steps look at. *)
Record summary : Type := {
  s_params : parameters;
  s_changed : bool
}.

Definition summarize (st : state) : summary :=
  {| s_params := params st; s_changed := changed st |}.

Definition compute_summary (up_changed up_valid : bool) (a : arguments) (s : summary)
  : summary :=
  if up_changed
     || differs (arg_num_pcs a) (num_pcs (s_params s))
     || differs (arg_block_method a) (block_method (s_params s))
  then {| s_params := store a; s_changed := up_valid |}
  else {| s_params := s_params s; s_changed := false |}.



Definition with_crispr : upstream :=
  {| norm_changed := true; norm_valid := true;
     normalized_matrix := [[1%Z; 2%Z]; [3%Z; 4%Z]]; filtered_block := None |}.

Definition defaults : arguments :=
  {| arg_num_pcs := 20%Z; arg_block_method := "none" |}.

Definition empty_heap : heap :=
  {| arrays := ∅; objects := ∅; next := 0; calls := [] |}.

Definition failing_runPCA (mat : matrix) (num_pcs : Z) (block : option (list Z))
    (block_method : string) : result (list (list Q)) :=
  Throw (Error "failed to allocate memory on the Wasm heap").

Definition working_runPCA (mat : matrix) (num_pcs : Z) (block : option (list Z))
    (block_method : string) : result (list (list Q)) :=
  Ret [[(1 # 2)%Q]].

(** A state with a result of an earlier run, at address 0. *)
Definition computed_state : state :=
  {| params := {| num_pcs := Some 10%Z; block_method := Some "none" |};
     cache_pcs := Some 0; changed := true |}.

Definition computed_heap : heap :=
  {| arrays := ∅; objects := {[ 0 := RunPCAResults [[(1 # 3)%Q]] ]};
     next := 1; calls := [RunPCA 10 "none"] |}.

Definition failed_run : outcome (state * heap) :=
  compute failing_runPCA with_crispr defaults computed_state computed_heap.

Definition first_run : outcome (state * heap) :=
  compute working_runPCA with_crispr defaults constructor empty_heap.

End CrisprPca.

(** ** steps/cell_filtering.js (the second file of src/analysis.js) *)

Module CellFiltering.
Import Wasm.

Inductive modality : Type := RNA | ADT | CRISPR.

(** What the step reads from a quality control step. *)
Record qc_state : Type := {
  qc_valid : bool;                      (* valid() *)
  qc_changed : bool;                    (* changed *)
  qc_discards : WasmArray               (* fetchDiscards() *)
}.

(** [{ RNA: ..., ADT: ..., CRISPR: ... }] *)
Record qc_states : Type := {
  qc_RNA : qc_state;
  qc_ADT : qc_state;
  qc_CRISPR : qc_state
}.

Definition qc_get (qs : qc_states) (k : modality) : qc_state :=
  match k with RNA => qc_RNA qs | ADT => qc_ADT qs | CRISPR => qc_CRISPR qs end.

(** What the step reads from the inputs step. *)
Record inputs_state : Type := {
  inputs_changed : bool;                      (* changed *)
  count_matrix : list (string * matrix);      (* fetchCountMatrix(): available() and get() *)
  block : option WasmArray                    (* fetchBlock(), null without blocks *)
}.

Record parameters : Type := {
  use_rna : option bool;
  use_adt : option bool;
  use_crispr : option bool
}.

Record arguments : Type := {
  arg_use_rna : bool;
  arg_use_adt : bool;
  arg_use_crispr : bool
}.

(** [this.#cache]: an entry is [None] when the property is not in the
    cache; [block_buffer] may also be present and null. *)
Record cache_t : Type := {
  discard_buffer : option WasmArray;
  block_buffer : option (option WasmArray);
  filtered : option addr                      (* this.#cache.matrix *)
}.

Record state : Type := {
  params : parameters;
  cache : cache_t;
  changed : bool
}.

Definition constructor : state :=
  {| params := {| use_rna := None; use_adt := None; use_crispr := None |};
     cache := {| discard_buffer := None; block_buffer := None; filtered := None |};
     changed := false |}.

Definition in_use (a : arguments) (k : modality) : bool :=
  match k with
  | RNA => arg_use_rna a
  | ADT => arg_use_adt a
  | CRISPR => arg_use_crispr a
  end.

(** Modelled from the spec: utils.findValidUpstreamStates of
    steps/utils/general.js, which is not among the sources.  It lists
    the modalities whose upstream state is valid, in the order of the
    properties of [qc_states]. *)
Definition findValidUpstreamStates (qs : qc_states) : list modality :=
  List.filter (fun k => qc_valid (qc_get qs k)) [RNA; ADT; CRISPR].

Definition find_usable_upstream_states (qs : qc_states) (use : modality -> bool)
  : list qc_state :=
  map (qc_get qs) (List.filter use (findValidUpstreamStates qs)).

Definition store (a : arguments) : parameters :=
  {| use_rna := Some (arg_use_rna a);
     use_adt := Some (arg_use_adt a);
     use_crispr := Some (arg_use_crispr a) |}.

Definition parameters_differ (a : arguments) (p : parameters) : bool :=
  differs (arg_use_rna a) (use_rna p)
  || differs (arg_use_adt a) (use_adt p)
  || differs (arg_use_crispr a) (use_crispr p).

(** [disc_arr[i] |= y] for every element [y] of a discard vector, on a
    Uint8Array: an index outside the array is not written. *)
Fixpoint or_into (acc ys : list Z) : list Z :=
  match acc, ys with
  | x :: acc', y :: ys' => (Z.lor x y mod 256)%Z :: or_into acc' ys'
  | _, _ => acc
  end.

(** MultiMatrix.add and MultiMatrix.numberOfColumns *)
Definition add_matrix (m : addr) (name : string) (sub : matrix) (h : heap) : heap :=
  {| arrays := arrays h;
     objects := alter (fun o => match o with
                                | MultiMatrix st => MultiMatrix (st ++ [(name, sub)])
                                | RunPCAResults pcs => RunPCAResults pcs
                                end) m (objects h);
     next := next h; calls := calls h |}.

Definition numberOfColumns (h : heap) (m : option addr) : nat :=
  match m with
  | Some a =>
      match objects h !! a with
      | Some (MultiMatrix ((_, mat) :: _)) => List.length (hd [] mat)
      | _ => 0
      end
  | None => 0
  end.

Definition set_discard (c : cache_t) (d : option WasmArray) : cache_t :=
  {| discard_buffer := d; block_buffer := block_buffer c; filtered := filtered c |}.

Definition set_block (c : cache_t) (b : option (option WasmArray)) : cache_t :=
  {| discard_buffer := discard_buffer c; block_buffer := b; filtered := filtered c |}.

Definition set_filtered (c : cache_t) (m : option addr) : cache_t :=
  {| discard_buffer := discard_buffer c; block_buffer := block_buffer c; filtered := m |}.

Section WithScran.

(** scran.filterCells and scran.filterBlock, given the content of the
    discard vector. *)
Variable filterCells : matrix -> list Z -> result matrix.
Variable filterBlock : list Z -> list Z -> result (list Z).

(** The loop of [#raw_compute_matrix] over [inputs.available()]. *)
Fixpoint fill_matrix (m : addr) (discard : option WasmArray)
    (available : list (string * matrix)) (h : heap) : outcome heap :=
  match available with
  | [] => Returned h
  | (a, src) :: rest =>
      match discard with
      | Some d =>
          let h := log (FilterCells a) h in
          match filterCells src (read h d) with
          | Ret sub => fill_matrix m discard rest (add_matrix m a sub h)
          | Throw e => Thrown e h
          end
      | None =>
          let h := log (CloneMatrix a) h in
          fill_matrix m discard rest (add_matrix m a src h)
      end
  end.

Definition raw_compute_matrix (inputs : inputs_state) (c : cache_t) (h : heap)
  : outcome (cache_t * heap) :=
  let h := freeCache_object (filtered c) h in
  let '(m, h) := alloc_object (MultiMatrix []) h in
  let c := set_filtered c (Some m) in
  match fill_matrix m (discard_buffer c) (count_matrix inputs) h with
  | Returned h => Returned (c, h)
  | Thrown e h => Thrown e (c, h)
  end.

(** fetchFilteredMatrix(), for its effect on the cache. *)
Definition fetchFilteredMatrix (inputs : inputs_state) (c : cache_t) (h : heap)
  : outcome (cache_t * heap) :=
  match filtered c with
  | None => raw_compute_matrix inputs c h
  | Some _ => Returned (c, h)
  end.

Definition raw_compute_block (inputs : inputs_state) (c : cache_t) (h : heap)
  : outcome (cache_t * heap) :=
  let h := freeCache_array (mjoin (block_buffer c)) h in
  match block inputs with
  | Some blk =>
      match discard_buffer c with
      | Some d =>
          (* Filtering on the block. Might as well force a load of the matrix. *)
          match fetchFilteredMatrix inputs c h with
          | Thrown e s => Thrown e s
          | Returned (c, h) =>
              let filtered_ncols := numberOfColumns h (filtered c) in
              let '(bcache, h) :=
                allocateCachedArray filtered_ncols (mjoin (block_buffer c)) h in
              let c := set_block c (Some (Some bcache)) in
              let h := log FilterBlock h in
              match filterBlock (read h blk) (read h d) with
              | Ret vals => Returned (c, write bcache vals h)
              | Throw e => Thrown e (c, h)
              end
          end
      | None => Returned (set_block c (Some (Some (view blk))), h)
      end
  | None => Returned (set_block c (Some None), h)
  end.

(** The update of [discard_buffer] in [compute]. *)
Definition merge_discards (to_use : list qc_state) (c : cache_t) (h : heap)
  : cache_t * heap :=
  match to_use with
  | first_state :: others =>
      let first := qc_discards first_state in
      match others with
      | _ :: _ =>
          (* A discard signal in any modality causes the cell to be removed. *)
          let '(disc_buffer, h) :=
            allocateCachedArray (List.length (read h first)) (discard_buffer c) h in
          let h := write disc_buffer (repeat 0%Z (List.length (read h disc_buffer))) h in
          (set_discard c (Some disc_buffer),
           fold_left (fun h u =>
                        write disc_buffer
                          (or_into (read h disc_buffer) (read h (qc_discards u))) h)
                     to_use h)
      | [] =>
          (* only one valid modality: a view on it *)
          (set_discard c (Some (view first)), freeCache_array (discard_buffer c) h)
      end
  | [] =>
      (* Deleting this so that serialization will behave correctly. *)
      (set_discard c None, freeCache_array (discard_buffer c) h)
  end.

Definition compute (inputs : inputs_state) (qs : qc_states) (a : arguments)
    (st : state) (h : heap) : outcome (state * heap) :=
  let changed1 := inputs_changed inputs in
  let differ := parameters_differ a (params st) in
  let params' := if differ then store a else params st in
  let changed2 := changed1 || differ in
  let to_use := find_usable_upstream_states qs (in_use a) in
  let changed3 :=
    if negb changed2 then existsb qc_changed to_use else changed2 in
  if changed3 then
    let '(c, h) := merge_discards to_use (cache st) h in
    match raw_compute_matrix inputs c h with
    | Thrown e (c, h) =>
        Thrown e ({| params := params'; cache := c; changed := true |}, h)
    | Returned (c, h) =>
        match raw_compute_block inputs c h with
        | Thrown e (c, h) =>
            Thrown e ({| params := params'; cache := c; changed := true |}, h)
        | Returned (c, h) =>
            Returned ({| params := params'; cache := c; changed := true |}, h)
        end
    end
  else
    Returned ({| params := params'; cache := cache st; changed := false |}, h).

End WithScran.

(** [serialize]: the groups and datasets written under the handle. *)
Inductive h5_node : Type :=
| H5Group (children : list (string * h5_node))
| H5DataSet (type : string) (values : list Z).

Definition uint8_of_parameter (p : option bool) : list Z :=
  match p with
  | Some true => [1%Z]
  | Some false => [0%Z]
  | None => []
  end.

Definition serialize (st : state) (h : heap) : string * h5_node :=
  let phandle :=
    H5Group [("use_rna", H5DataSet "Uint8" (uint8_of_parameter (use_rna (params st))));
             ("use_adt", H5DataSet "Uint8" (uint8_of_parameter (use_adt (params st))));
             ("use_crispr", H5DataSet "Uint8" (uint8_of_parameter (use_crispr (params st))))] in
  let rhandle :=
    H5Group
      match discard_buffer (cache st) with
      | Some disc =>
          match owner disc with
          | None => [("discards", H5DataSet "Uint8" (read h disc))]
          | Some _ => []
          end
      | None => []
      end in
  ("cell_filtering", H5Group [("parameters", phandle); ("results", rhandle)]).

Definition children (n : h5_node) : list (string * h5_node) :=
  match n with
  | H5Group cs => cs
  | H5DataSet _ _ => []
  end.

Definition open (name : string) (n : h5_node) : option h5_node :=
  snd <$> List.find (fun kv => String.eqb (fst kv) name) (children n).

(** The part of the state that the orchestrator and the downstream
    steps look at, and [compute] on it; [flags] gives [valid()] and
    [changed] of each quality control step. *)
Record summary : Type := {
  s_params : parameters;
  s_changed : bool
}.

Definition summarize (st : state) : summary :=
  {| s_params := params st; s_changed := changed st |}.

Definition compute_summary (inputs_changed : bool) (flags : modality -> bool * bool)
    (a : arguments) (s : summary) : summary :=
  let differ := parameters_differ a (s_params s) in
  let to_use := List.filter (in_use a)
                  (List.filter (fun k => fst (flags k)) [RNA; ADT; CRISPR]) in
  {| s_params := if differ then store a else s_params s;
     s_changed := inputs_changed || differ || existsb (fun k => snd (flags k)) to_use |}.

(** Ownership.  The buffers owned by the cache were allocated earlier
    and are apart from each other and from the discard vectors of the
    quality control steps; those vectors are live Uint8 arrays with one
    entry per cell. *)
Definition owned (x : option WasmArray) (p : addr) : Prop :=
  exists a, x = Some a /\ owner a = None /\ ptr a = p.

Definition is_byte (v : Z) : Prop := (0 <= v < 256)%Z.

Record well_formed (qs : list qc_state) (c : cache_t) (h : heap) (ncells : nat)
  : Prop := {
  wf_qc_live : forall u, In u qs ->
      exists vals, arrays h !! ptr (qc_discards u) = Some vals /\
                   List.length vals = ncells /\ Forall is_byte vals;
  wf_qc_old : forall u, In u qs -> ptr (qc_discards u) < next h;
  wf_discard_old : forall p, owned (discard_buffer c) p -> p < next h;
  wf_discard_apart : forall p u,
      owned (discard_buffer c) p -> In u qs -> p <> ptr (qc_discards u);
  wf_block_old : forall p, owned (mjoin (block_buffer c)) p -> p < next h;
  wf_block_apart : forall p u,
      owned (mjoin (block_buffer c)) p -> In u qs -> p <> ptr (qc_discards u);
  wf_block_discard : forall p,
      owned (mjoin (block_buffer c)) p -> ~ owned (discard_buffer c) p
}.

(** The logical OR, at cell [c], of the discard vectors of the given
    quality control steps. *)
Definition discard_any (h : heap) (qs : list qc_state) (c : nat) : Z :=
  fold_left Z.lor (map (fun u => nth c (read h (qc_discards u)) 0%Z) qs) 0%Z.

(** The combined discard vector agrees with the quality control steps
    in use: absent when there is none, a view on the vector of the only
    one, and otherwise a buffer of its own holding the OR at every
    cell. *)
Definition discard_consistent (used : list qc_state) (c : cache_t) (h : heap)
    (ncells : nat) : Prop :=
  match used with
  | [] => discard_buffer c = None
  | u :: rest =>
      exists d,
        discard_buffer c = Some d /\
        (forall i, i < ncells -> nth i (read h d) 0%Z = discard_any h used i) /\
        match rest with
        | [] => d = view (qc_discards u)
        | _ :: _ => owner d = None /\
                    forall u', In u' used -> ptr d <> ptr (qc_discards u')
        end
  end.

(** Example: an RNA and an ADT modality over three cells. *)
Definition example_heap : heap :=
  {| arrays := <[1 := [1; 0; 0]%Z]> (<[0 := [0; 1; 0]%Z]> ∅);
     objects := ∅; next := 3; calls := [] |}.

Definition example_qc : qc_states :=
  {| qc_RNA := {| qc_valid := true; qc_changed := true;
                  qc_discards := {| ptr := 0; owner := None |} |};
     qc_ADT := {| qc_valid := true; qc_changed := true;
                  qc_discards := {| ptr := 1; owner := None |} |};
     qc_CRISPR := {| qc_valid := false; qc_changed := false;
                     qc_discards := {| ptr := 2; owner := None |} |} |}.

Definition example_inputs : inputs_state :=
  {| inputs_changed := true;
     count_matrix := [("RNA", [[5; 6; 7]; [8; 9; 10]]%Z); ("ADT", [[1; 2; 3]]%Z)];
     block := None |}.

Definition use_all : arguments :=
  {| arg_use_rna := true; arg_use_adt := true; arg_use_crispr := true |}.


(** scran.filterCells on rows: the columns whose discard entry is zero. *)
Definition keep_columns (m : matrix) (discard : list Z) : result matrix :=
  Ret (map (fun row => map fst (List.filter (fun '(_, d) => (d =? 0)%Z)
                                            (combine row discard))) m).

Definition keep_block (blk discard : list Z) : result (list Z) :=
  Ret (map fst (List.filter (fun '(_, d) => (d =? 0)%Z) (combine blk discard))).

Definition example_run (a : arguments) : outcome (state * heap) :=
  compute keep_columns keep_block example_inputs example_qc a constructor example_heap.

End CellFiltering.

(** ** src/steps/cell_labelling.js *)

Module CellLabelling.
Import Wasm.

Record parameters : Type := {
  human_references : option (list string);
  mouse_references : option (list string)
}.

Record arguments : Type := {
  arg_human_references : list string;
  arg_mouse_references : list string
}.

(** An entry of [inputs.fetchGeneTypes()]. *)
Record gene_type : Type := {
  gt_type : string;
  gt_species : string;
  gt_confidence : Q
}.

(** What [compute] reads from the two upstream steps. *)
Record upstream : Type := {
  inputs_changed : bool;                         (* this.#inputs.changed *)
  genes : list (string * list string);          (* this.#inputs.fetchGenes() *)
  gene_types : list (string * gene_type);       (* this.#inputs.fetchGeneTypes() *)
  markers_changed : bool;                        (* this.#markers.changed *)
  numberOfGroups : nat;                          (* this.#markers.numberOfGroups() *)
  group_means : nat -> list Z                    (* this.#markers.fetchGroupMeans(g, "RNA") *)
}.

(** The promises kept in the cache, by the work they stand for. *)
Inductive promise : Type :=
| BuildReference (name species : string) (rebuild : bool)
| LabelCells (reference : string)
| IntegrateReferences (references : list string)
| IntegrateCellLabels (references : list string).

Record cache_t : Type := {
  features : option (option (list string));
  feature_details : option (option gene_type);
  buffer : option WasmArray;
  results : list (string * promise);
  integrated : option promise;
  integrated_results : option promise;
  used : option (list string)
}.

Record state : Type := {
  params : parameters;
  cache : cache_t;
  changed : bool
}.

Definition constructor : state :=
  {| params := {| human_references := None; mouse_references := None |};
     cache := {| features := None; feature_details := None; buffer := None;
                 results := []; integrated := None; integrated_results := None;
                 used := None |};
     changed := false |}.

Definition compare_arrays (x y : option (list string)) : bool :=
  match x, y with
  | Some x, Some y =>
      if negb (List.length x =? List.length y)%nat then false
      else forallb (fun '(a, b) => String.eqb a b) (combine x y)
  | _, _ => false
  end.

(** The highest-confidence annotation; the first one wins a tie. *)
Definition choose_features (up : upstream) : option (list string) * option gene_type :=
  let '(best_feature, best) :=
    fold_left (fun '(best_feature, best) '(key, val) =>
                 match best with
                 | None => (Some key, Some val)
                 | Some b =>
                     if negb (Qle_bool (gt_confidence val) (gt_confidence b))
                     then (Some key, Some val)
                     else (best_feature, best)
                 end)
              (gene_types up) (None, None) in
  (match best_feature with
   | Some k => snd <$> List.find (fun kv => String.eqb (fst kv) k) (genes up)
   | None => None
   end, best).

(** [valid[ref] = ...] for every reference: a name that comes again
    keeps its place among the keys. *)
Definition assign {A : Type} (o : list (string * A)) (k : string) (v : A)
  : list (string * A) :=
  if existsb (fun kv => String.eqb (fst kv) k) o
  then map (fun kv => if String.eqb (fst kv) k then (k, v) else kv) o
  else o ++ [(k, v)].

Definition build_all (references : list string) (species : string) (rebuild : bool)
  : list (string * promise) :=
  fold_left (fun valid ref => assign valid ref (BuildReference ref species rebuild))
            references [].

Definition unchanged (up : upstream) (a : arguments) (st : state) : bool :=
  negb (inputs_changed up) && negb (markers_changed up)
  && compare_arrays (Some (arg_human_references a)) (human_references (params st))
  && compare_arrays (Some (arg_mouse_references a)) (mouse_references (params st)).

Definition compute (up : upstream) (a : arguments) (st : state) (h : heap)
  : outcome (state * heap) :=
  if unchanged up a st then
    Returned ({| params := params st; cache := cache st; changed := false |}, h)
  else
    let c := cache st in
    let '(feats, details) :=
      if inputs_changed up || negb (bool_decide (is_Some (features c)))
      then (let '(f, d) := choose_features up in (Some f, Some d))
      else (features c, feature_details c) in
    let c1 := {| features := feats; feature_details := details; buffer := buffer c;
                 results := results c; integrated := integrated c;
                 integrated_results := integrated_results c; used := used c |} in
    match mjoin details, mjoin feats with
    | None, _ =>
        Thrown (TypeError "this.#cache.feature_details.species")
               ({| params := params st; cache := c1; changed := changed st |}, h)
    | Some _, None =>
        Thrown (TypeError "this.#cache.features.length")
               ({| params := params st; cache := c1; changed := changed st |}, h)
    | Some d, Some fs =>
        let species := gt_species d in
        let valid :=
          if String.eqb species "human"
          then build_all (arg_human_references a) "human" (inputs_changed up)
          else if String.eqb species "mouse"
          then build_all (arg_mouse_references a) "mouse" (inputs_changed up)
          else [] in
        let ngenes := List.length fs in
        let ngroups := numberOfGroups up in
        let '(cluster_means, h) :=
          if markers_changed up || negb (bool_decide (is_Some (buffer c1))) then
            let '(b, h) := allocateCachedArray (ngroups * ngenes) (buffer c1) h in
            (Some b, write b (concat (map (group_means up) (seq 0 ngroups))) h)
          else (buffer c1, h) in
        let used_refs := map fst valid in
        let '(integ, integ_results) :=
          if (1 <? List.length used_refs)%nat then
            ((if inputs_changed up
                 || negb (compare_arrays (Some used_refs) (used c1))
                 || negb (bool_decide (is_Some (integrated c1)))
              then Some (IntegrateReferences used_refs) else integrated c1),
             Some (IntegrateCellLabels used_refs))
          else (integrated c1, None) in
        Returned
          ({| params := {| human_references := Some (arg_human_references a);
                           mouse_references := Some (arg_mouse_references a) |};
              cache := {| features := feats; feature_details := details;
                          buffer := cluster_means;
                          results := map (fun '(key, _) => (key, LabelCells key)) valid;
                          integrated := integ;
                          integrated_results := integ_results;
                          used := Some used_refs |};
              changed := true |}, h)
    end.

(** Example: a second call with the references of the first one. *)
Definition quiet_upstream : upstream :=
  {| inputs_changed := false; genes := []; gene_types := [];
     markers_changed := false; numberOfGroups := 0; group_means := fun _ => [] |}.

Definition blueprint : arguments :=
  {| arg_human_references := ["BlueprintEncode"]; arg_mouse_references := [] |}.

Definition labelled_state : state :=
  {| params := {| human_references := Some ["BlueprintEncode"];
                  mouse_references := Some [] |};
     cache := cache constructor;
     changed := true |}.

(** The part of the state that the orchestrator and the downstream
    steps look at, and [compute] on it. *)
Record summary : Type := {
  s_params : parameters;
  s_changed : bool
}.

Definition summarize (st : state) : summary :=
  {| s_params := params st; s_changed := changed st |}.

Definition compute_summary (inputs_changed markers_changed : bool) (a : arguments)
    (s : summary) : summary :=
  if negb inputs_changed && negb markers_changed
     && compare_arrays (Some (arg_human_references a)) (human_references (s_params s))
     && compare_arrays (Some (arg_mouse_references a)) (mouse_references (s_params s))
  then {| s_params := s_params s; s_changed := false |}
  else {| s_params := {| human_references := Some (arg_human_references a);
                         mouse_references := Some (arg_mouse_references a) |};
          s_changed := true |}.

End CellLabelling.

(** ** FeatureSetEnrichmentState (steps/feature_set_enrichment.js) *)

Module FeatureSetEnrichment.

(** [gene_id_column]: the name or the index of a column. *)
Inductive column : Type :=
| ColumnName (name : string)
| ColumnIndex (i : Z).

#[global] Instance column_eq_dec : EqDecision column.
Proof. solve_decision. Defined.

Record parameters : Type := {
  skip : option bool;
  automatic : option bool;
  species : option (list string);
  gene_id_column : option (option column);
  gene_id_type : option string;
  top_markers : option Z
}.

Record arguments : Type := {
  arg_skip : bool;
  arg_automatic : bool;
  arg_species : list string;
  arg_gene_id_column : option column;
  arg_gene_id_type : string;
  arg_top_markers : Z
}.

Definition empty : parameters :=
  {| skip := None; automatic := None; species := None; gene_id_column := None;
     gene_id_type := None; top_markers := None |}.

(** A guess of the feature types, as returned by
    [inputs.guessRnaFeatureTypes()]. *)
Record guess : Type := {
  g_type : string;
  g_species : string;
  g_confidence : Q
}.

#[global] Instance Q_eq_dec : EqDecision Q.
Proof. solve_decision. Defined.

#[global] Instance guess_eq_dec : EqDecision guess.
Proof. solve_decision. Defined.

Record guesses : Type := {
  row_names : option guess;
  columns : list (string * guess)
}.

#[global] Instance guesses_eq_dec : EqDecision guesses.
Proof. solve_decision. Defined.

Definition no_guesses : guesses := {| row_names := None; columns := [] |}.

Record upstream : Type := {
  inputs_changed : bool;                 (* this.#inputs.changed *)
  has_rna : bool;                        (* this.#inputs.fetchCountMatrix().has("RNA") *)
  feature_guesses : guesses              (* this.#inputs.guessRnaFeatureTypes() *)
}.

(** The arguments of the last [manager.prepare]. *)
Record prepared : Type := {
  p_species : list string;
  p_gene_id_column : option column;
  p_gene_id_type : string
}.

Record state : Type := {
  params : parameters;
  manager : option prepared;
  changed : bool
}.

Definition constructor : state :=
  {| params := empty; manager := None; changed := false |}.

Definition valid (up : upstream) : bool := has_rna up.

(** [toUpperCase] on ASCII text. *)
Fixpoint upper (s : string) : string :=
  match s with
  | EmptyString => EmptyString
  | String c rest =>
      let n := Ascii.nat_of_ascii c in
      String (if ((97 <=? n) && (n <=? 122))%nat then Ascii.ascii_of_nat (n - 32) else c)
             (upper rest)
  end.

Definition _configureFeatureParameters (g : guesses) : prepared :=
  let start := {| g_type := "symbol"; g_species := "human"; g_confidence := 0%Q |} in
  let best0 :=
    match row_names g with
    | Some val => if negb (Qle_bool (g_confidence val) (g_confidence start))
                  then val else start
    | None => start
    end in
  let '(best_key, best) :=
    fold_left (fun '(best_key, best) '(key, val) =>
                 if negb (Qle_bool (g_confidence val) (g_confidence best))
                 then (Some (ColumnName key), val) else (best_key, best))
              (columns g) (None, best0) in
  {| p_gene_id_column := best_key;
     p_gene_id_type := upper (g_type best);
     p_species := [g_species best] |}.

(** Modelled from the spec: utils.changedParameters of
    steps/utils/general.js, which is not among the sources.  The
    comparison is by value, element by element. *)
Definition changedParameters (old : option (list string)) (new : list string) : bool :=
  Wasm.differs new old.

Definition _buildCollections (old : parameters) (m : option prepared) (a : arguments)
    (up : upstream) : option prepared * bool :=
  if Wasm.differs (arg_automatic a) (automatic old)
     || (negb (arg_automatic a)
         && (Wasm.differs (arg_gene_id_column a) (gene_id_column old)
             || Wasm.differs (arg_gene_id_type a) (gene_id_type old)
             || changedParameters (species old) (arg_species a)))
  then
    (Some (if arg_automatic a then _configureFeatureParameters (feature_guesses up)
           else {| p_species := arg_species a;
                   p_gene_id_column := arg_gene_id_column a;
                   p_gene_id_type := arg_gene_id_type a |}),
     true)
  else (m, false).

Definition _transplantParameters (a : arguments) : parameters :=
  {| skip := Some (arg_skip a);
     automatic := Some (arg_automatic a);
     species := Some (arg_species a);
     gene_id_column := Some (arg_gene_id_column a);
     gene_id_type := Some (arg_gene_id_type a);
     top_markers := Some (arg_top_markers a) |}.

Definition compute (up : upstream) (a : arguments) (st : state) : state :=
  let changed1 := inputs_changed up in
  let changed2 := changed1 || Wasm.differs (arg_skip a) (skip (params st)) in
  if valid up && negb (arg_skip a) then
    (* Force an update. *)
    let old := if changed2 then empty else params st in
    let '(m, modified) := _buildCollections old (manager st) a up in
    let changed3 := changed2 || modified in
    let changed4 := changed3 || Wasm.differs (arg_top_markers a) (top_markers old) in
    {| params := _transplantParameters a; manager := m; changed := changed4 |}
  else
    {| params := _transplantParameters a; manager := manager st; changed := changed2 |}.

End FeatureSetEnrichment.

(** ** More of src/dump/List.js *)

Module DumpListMore.
Import DumpList.

(** The values that [dump_internal] goes through without reaching an
    undeclared identifier: no array with an element, no [undefined]
    and no [null], at any depth. *)
Fixpoint dumpable (x : jsval) : bool :=
  match x with
  | JArray xs => match xs with [] => true | _ :: _ => false end
  | JObject props =>
      (fix all (ps : list (string * jsval)) : bool :=
         match ps with
         | [] => true
         | (_, v) :: ps' => dumpable v && all ps'
         end) props
  | JInt32Array _ | JFloat64Array _ | JNum _ | JStr _ | JBool _ => true
  | JUndefined | JNull => false
  end.

(** The loop of [dump_internal] over the entries of an object, taken
    up at any entry, and [dumpable] for all the entries. *)
Fixpoint entries_loop (ps : list (string * jsval)) (names : list string)
    (values : list dvalue) : result dumped :=
  match ps with
  | [] => Ret (Dumped "list" values (Some names))
  | (k, v) :: ps' =>
      d <- wrap None (dump_internal v) ;;
      entries_loop ps' (names ++ [k]) (values ++ [d])
  end.

Fixpoint all_dumpable (ps : list (string * jsval)) : bool :=
  match ps with
  | [] => true
  | (_, v) :: ps' => dumpable v && all_dumpable ps'
  end.

End DumpListMore.

(** ** HDF5 handles of scran.js

    A group handle gives its children by name; [open] throws when there
    is no child of that name.  A data set that is opened with
    [{ load: true }] has its content in [values]; a group has no
    [values] property. *)

Module H5.

Inductive node (A : Type) : Type :=
| Group (children : list (string * node A))
| DataSet (type : string) (values : list A).

Arguments Group {A} children.
Arguments DataSet {A} type values.

Section Handles.
Context {A : Type}.

Definition lookup (name : string) (children : list (string * node A)) : option (node A) :=
  snd <$> List.find (fun kv => String.eqb (fst kv) name) children.

(** [name in handle.children] *)
Definition has (name : string) (children : list (string * node A)) : bool :=
  bool_decide (is_Some (lookup name children)).

(** [handle.open(name)] *)
Definition open (name : string) (children : list (string * node A)) : result (node A) :=
  match lookup name children with
  | Some n => Ret n
  | None => Throw (Error ("no child named '" ++ name ++ "'"))
  end.

(** [handle.open(name)] when a group is expected: a method called on
    the handle of a data set is not a function. *)
Definition open_group (name : string) (children : list (string * node A))
  : result (list (string * node A)) :=
  n <- open name children ;;
  match n with
  | Group cs => Ret cs
  | DataSet _ _ => Throw (TypeError "open is not a function")
  end.

(** [handle.open(name, { load: true }).values]: [None] is [undefined]. *)
Definition open_values (name : string) (children : list (string * node A))
  : result (option (list A)) :=
  n <- open name children ;;
  match n with
  | DataSet _ values => Ret (Some values)
  | Group _ => Ret None
  end.

(** [handle.writeDataSet(name, type, shape, values)] and
    [handle.createGroup(name)] followed by the writes into the new
    group. *)
Definition writeDataSet (name type : string) (values : list A)
    (children : list (string * node A)) : list (string * node A) :=
  children ++ [(name, DataSet type values)].

Definition createGroup (name : string) (content : list (string * node A))
    (children : list (string * node A)) : list (string * node A) :=
  children ++ [(name, Group content)].

End Handles.

End H5.

(** ** src/steps/utils/markers.js *)

Module Markers.

(** [dropUnusedBlocks(x)]: the array of block identifiers is rewritten
    in place; [mapping] is the object whose keys are the identifiers
    met so far.  The function returns nothing; the content of [x] after
    the call is what is returned here. *)
Fixpoint drop_loop (mapping : gmap Z Z) (counter : Z) (x : list Z) : list Z :=
  match x with
  | [] => []
  | y :: rest =>
      match mapping !! y with
      | None => counter :: drop_loop (<[y := counter]> mapping) (counter + 1)%Z rest
      | Some v => v :: drop_loop mapping counter rest
      end
  end.

Definition dropUnusedBlocks (x : list Z) : list Z := drop_loop ∅ 0%Z x.

(** The mapping assigns the numbers below the counter, each to one
    identifier. *)
Record numbering (mapping : gmap Z Z) (counter : Z) : Prop := {
  nb_counter : (0 <= counter)%Z;
  nb_range : forall y v, mapping !! y = Some v -> (0 <= v < counter)%Z;
  nb_onto : forall v, (0 <= v < counter)%Z -> exists y, mapping !! y = Some v;
  nb_inj : forall y1 y2 v, mapping !! y1 = Some v -> mapping !! y2 = Some v -> y1 = y2
}.

(** Block identifiers in order of first appearance: an element is a
    number met before, or the next unused number. *)
Inductive first_appearance : Z -> list Z -> Prop :=
| fa_nil c : first_appearance c []
| fa_old c v l : (0 <= v < c)%Z -> first_appearance c l -> first_appearance c (v :: l)
| fa_new c l : first_appearance (c + 1) l -> first_appearance c (c :: l).

(** A ScoreMarkersResults object of scran.js, seen through the methods
    that are called on it: the statistics of a group and, for an effect
    size, the summary of the given index.  A statistic is a rational
    number, so NaN is left out of the results. *)
Record ScoreMarkersResults : Type := {
  means : Z -> list Q;
  detected : Z -> list Q;
  cohen : Z -> Z -> list Q;
  auc : Z -> Z -> list Q;
  lfc : Z -> Z -> list Q;
  deltaDetected : Z -> Z -> list Q
}.

(** [s.match(/suffix$/)] and [s.match(/^prefix/)] for plain text. *)
Definition ends_with (suffix s : string) : bool :=
  (String.length suffix <=? String.length s)%nat
  && String.eqb (substring (String.length s - String.length suffix)
                           (String.length suffix) s) suffix.

Definition starts_with (p s : string) : bool := String.prefix p s.

(** [!rankEffect || rankEffect === undefined]: a missing or empty
    [rankEffect] is replaced by the default. *)
Definition rank_effect (rankEffect : option string) : string :=
  match rankEffect with
  | None | Some "" => "cohen-min-rank"
  | Some r => r
  end.

(** The summary chosen by the end of [rankEffect]: [increasing] and
    [index]. *)
Definition rank_summary (rankEffect : string) : bool * Z :=
  if ends_with "-min" rankEffect then (false, 0%Z)
  else if ends_with "-min-rank" rankEffect then (true, 4%Z)
  else (false, 1%Z).

(** The ranking statistic chosen by the start of [rankEffect]; [None]
    when the last [else] is reached. *)
Definition choose_ranking (results : ScoreMarkersResults) (group : Z)
    (rankEffect : string) : option (list Q) :=
  let index := snd (rank_summary rankEffect) in
  if starts_with "cohen-" rankEffect then Some (cohen results group index)
  else if starts_with "auc-" rankEffect then Some (auc results group index)
  else if starts_with "lfc-" rankEffect then Some (lfc results group index)
  else if starts_with "delta-d-" rankEffect then Some (deltaDetected results group index)
  else None.

(** [ordering.sort(...)]: the comparator is [ranking[f] - ranking[s]]
    when [increasing] and [ranking[s] - ranking[f]] otherwise; [f] may
    stay before [s] when the comparator is not positive.  The sort is
    stable. *)
Definition stays_before (increasing : bool) (ranking : list Q) (f s : nat) : bool :=
  if increasing then Qle_bool (nth f ranking 0%Q) (nth s ranking 0%Q)
  else Qle_bool (nth s ranking 0%Q) (nth f ranking 0%Q).

Fixpoint insert_index (increasing : bool) (ranking : list Q) (f : nat)
    (sorted : list nat) : list nat :=
  match sorted with
  | [] => [f]
  | s :: rest =>
      if stays_before increasing ranking f s then f :: s :: rest
      else s :: insert_index increasing ranking f rest
  end.

Definition sort_ordering (increasing : bool) (ranking : list Q) (ordering : list nat)
  : list nat :=
  fold_right (insert_index increasing ranking) [] ordering.

(** [reorder(stats)]: a Float64Array as long as [stats], filled from
    the front with [stats[ordering[i]]].  [None] stands for the NaN
    stored when [ordering[i]] lies outside [stats]; an entry beyond the
    end of [ordering] keeps its initial zero. *)
Definition reorder (ordering : list nat) (stats : list Q) : list (option Q) :=
  map (fun i => match nth_error ordering i with
                | Some o => nth_error stats o
                | None => Some 0%Q
                end)
      (seq 0 (List.length stats)).

Record formatted : Type := {
  f_ordering : list nat;
  f_means : list (option Q);
  f_detected : list (option Q);
  f_lfc : list (option Q);
  f_delta_detected : list (option Q)
}.

(** [formatMarkerResults]: the value thrown for an unknown rank type is
    a string, given on the left. *)
Definition formatMarkerResults (results : ScoreMarkersResults) (group : Z)
    (rankEffect : option string) : string + formatted :=
  let rankEffect := rank_effect rankEffect in
  let increasing := fst (rank_summary rankEffect) in
  match choose_ranking results group rankEffect with
  | None => inl ("unknown rank type '" ++ rankEffect ++ "'")%string
  | Some ranking =>
      let ordering :=
        sort_ordering increasing ranking (seq 0 (List.length ranking)) in
      inr {| f_ordering := ordering;
             f_means := reorder ordering (means results group);
             f_detected := reorder ordering (detected results group);
             f_lfc := reorder ordering (lfc results group 1%Z);
             f_delta_detected := reorder ordering (deltaDetected results group 1%Z) |}
  end.

(** The order that [formatMarkerResults] puts two genes in. *)
Definition ranked_before (increasing : bool) (ranking : list Q) (f s : nat) : Prop :=
  if increasing then (nth f ranking 0 <= nth s ranking 0)%Q
  else (nth s ranking 0 <= nth f ranking 0)%Q.

(** Example: three genes in a group. *)
Definition example_results : ScoreMarkersResults :=
  {| means := fun _ => [1; 2; 3]%Q;
     detected := fun _ => [4; 5; 6]%Q;
     cohen := fun _ index => if (index =? 4)%Z then [3; 1; 2]%Q else [10; 30; 20]%Q;
     auc := fun _ _ => [(1 # 2); (1 # 4); (3 # 4)]%Q;
     lfc := fun _ _ => [7; 8; 9]%Q;
     deltaDetected := fun _ _ => [0; 0; 0]%Q |}.

(** [cache.versus]: an object of objects of objects, keyed by the larger
    group, the smaller group and the feature type. *)
Abbreviation versus_cache := (gmap Z (gmap Z (gmap string ScoreMarkersResults))).

Inductive versus_outcome : Type :=
| Formatted (out : formatted)
| ThrownString (s : string)
| Failed (e : js_error).

Section Versus.

(** The callback that computes the comparison of two groups. *)
Variable generate : Z -> Z -> result ScoreMarkersResults.

(** [generateVersusResults]: the outcome, the cache ([None] without a
    [versus] property) and the objects that [generate] returned during
    the call. *)
Definition generateVersusResults (left right : Z) (rank_type feat_type : string)
    (cache : option versus_cache)
  : versus_outcome * option versus_cache * list ScoreMarkersResults :=
  let versus := default ∅ cache in
  let bigg := if (left <? right)%Z then right else left in
  let smal := if (left <? right)%Z then left else right in
  let biggversus := default ∅ (versus !! bigg) in
  let smalversus := default ∅ (biggversus !! smal) in
  let finish (res : ScoreMarkersResults) :=
    match formatMarkerResults res (if (left <? right)%Z then 0%Z else 1%Z)
                              (Some (rank_type ++ "-mean")%string) with
    | inr out => Formatted out
    | inl s => ThrownString s
    end in
  match smalversus !! feat_type with
  | Some res =>
      (finish res, Some (<[bigg := <[smal := smalversus]> biggversus]> versus), [])
  | None =>
      match generate smal bigg with
      | Ret res =>
          (finish res,
           Some (<[bigg := <[smal := <[feat_type := res]> smalversus]> biggversus]> versus),
           [res])
      | Throw e =>
          (Failed e, Some (<[bigg := <[smal := smalversus]> biggversus]> versus), [])
      end
  end.

(** A sequence of calls on the same cache, with the objects generated
    on the way. *)
Fixpoint generate_all (requests : list (Z * Z * string * string))
    (cache : option versus_cache) : option versus_cache * list ScoreMarkersResults :=
  match requests with
  | [] => (cache, [])
  | (l, r, rank_type, feat_type) :: rest =>
      let '(_, cache, made) := generateVersusResults l r rank_type feat_type cache in
      let '(cache, made') := generate_all rest cache in
      (cache, made ++ made')
  end.

End Versus.

(** [Object.values] of the three levels, one inside the other; the
    order of the keys is not modelled. *)
Definition by_type_values (by_type : gmap string ScoreMarkersResults)
  : list ScoreMarkersResults :=
  map snd (map_to_list by_type).

Definition by_smal_values (by_smal : gmap Z (gmap string ScoreMarkersResults))
  : list ScoreMarkersResults :=
  concat (map by_type_values (map snd (map_to_list by_smal))).

Definition cached_results (versus : versus_cache) : list ScoreMarkersResults :=
  concat (map by_smal_values (map snd (map_to_list versus))).

(** [freeVersusResults]: the cache afterwards and the objects handed to
    [scran.free]. *)
Definition freeVersusResults (cache : option versus_cache)
  : option versus_cache * list ScoreMarkersResults :=
  match cache with
  | Some versus => (None, cached_results versus)
  | None => (None, [])
  end.

(** [Object.entries(summaries2int)] *)
Definition summaries2int : list (string * Z) :=
  [("min", 0%Z); ("mean", 1%Z); ("min_rank", 4%Z)].

(** The effect sizes with [obj[i0]] applied to the group, [i0] being
    "deltaDetected" for "delta_detected". *)
Definition extractors (obj : ScoreMarkersResults) (group : Z)
  : list (string * (Z -> list Q)) :=
  [("lfc", lfc obj group); ("delta_detected", deltaDetected obj group);
   ("auc", auc obj group); ("cohen", cohen obj group)].

(** [serializeGroupStats]: the children of [ihandle] after the call. *)
Definition serializeGroupStats (ihandle : list (string * H5.node Q))
    (obj : ScoreMarkersResults) (group : Z) (no_summaries : bool)
  : list (string * H5.node Q) :=
  let ihandle := H5.writeDataSet "means" "Float64" (means obj group) ihandle in
  let ihandle := H5.writeDataSet "detected" "Float64" (detected obj group) ihandle in
  fold_left
    (fun ihandle '(i, extractor) =>
       if no_summaries then
         H5.writeDataSet i "Float64" (extractor 1%Z) ihandle
       else
         H5.createGroup i
           (fold_left (fun curhandle '(j, k) =>
                         H5.writeDataSet j "Float64" (extractor k) curhandle)
                      summaries2int [])
           ihandle)
    (extractors obj group) ihandle.

(** An effect size read back: the summaries by name, or the content of
    the data set ([None] when [values] is undefined). *)
Inductive effect : Type :=
| Summaries (current : list (string * list Q))
| NoSummaries (values : option (list Q)).

Record group_stats : Type := {
  g_means : list Q;
  g_detected : list Q;
  g_effects : list (string * effect)
}.

Section Unserialize.

(** The function that puts an array back into the order of the
    dataset, in place; it reads the array that it is given. *)
Variable permuter : list Q -> list Q.

Definition permuted (loaded : option (list Q)) : result (list Q) :=
  match loaded with
  | Some values => Ret (permuter values)
  | None => Throw (TypeError "permuter(undefined)")
  end.

Fixpoint read_summaries (names : list string) (rhandle : list (string * H5.node Q))
  : result (list (string * list Q)) :=
  match names with
  | [] => Ret []
  | j :: rest =>
      loaded <- H5.open_values j rhandle ;;
      values <- permuted loaded ;;
      current <- read_summaries rest rhandle ;;
      Ret ((j, values) :: current)
  end.

Fixpoint read_effects (names : list string) (no_summaries : bool)
    (handle : list (string * H5.node Q)) : result (list (string * effect)) :=
  match names with
  | [] => Ret []
  | i :: rest =>
      e <- (if no_summaries then
              loaded <- H5.open_values i handle ;; Ret (NoSummaries loaded)
            else
              rhandle <- H5.open_group i handle ;;
              current <- read_summaries (map fst summaries2int) rhandle ;;
              Ret (Summaries current)) ;;
      others <- read_effects rest no_summaries handle ;;
      Ret ((i, e) :: others)
  end.

Definition unserializeGroupStats (handle : list (string * H5.node Q))
    (no_summaries : bool) : result group_stats :=
  m <- H5.open_values "means" handle ;;
  m <- permuted m ;;
  d <- H5.open_values "detected" handle ;;
  d <- permuted d ;;
  effects <- read_effects ["lfc"; "delta_detected"; "auc"; "cohen"] no_summaries handle ;;
  Ret {| g_means := m; g_detected := d; g_effects := effects |}.

End Unserialize.

End Markers.

(** ** More of steps/cell_filtering.js *)

Module CellFilteringMore.
Import Wasm CellFiltering.

(** [!discard[i]]: an entry outside the discard vector is [undefined]. *)
Definition not_discarded (discard : list Z) (i : nat) : bool :=
  match nth_error discard i with
  | Some y => (y =? 0)%Z
  | None => true
  end.

(** [applyFilter(x)]; [expect_len] is what
    [this.#inputs.fetchCountMatrix().numberOfColumns()] returns, [None]
    for [null], which differs from every length. *)
Definition applyFilter {A : Type} (expect_len : option nat) (c : cache_t) (h : heap)
    (x : list A) : result (list A) :=
  if negb (bool_decide (expect_len = Some (List.length x))) then
    Throw (Error "length of 'x' should be equal to the number of cells in the unfiltered dataset")
  else
    match discard_buffer c with
    | None => Ret x                                          (* making a copy *)
    | Some d =>
        let discard := read h d in
        Ret (map snd (List.filter (fun '(i, _) => not_discarded discard i)
                                  (combine (seq 0 (List.length x)) x)))
    end.

(** The indices pushed on [keep] by [undoFilter]. *)
Definition keep_positions (discard : list Z) : list Z :=
  map (fun '(i, _) => Z.of_nat i)
      (List.filter (fun '(_, x) => (x =? 0)%Z)
                   (combine (seq 0 (List.length discard)) discard)).

Definition out_of_range (max_index : nat) (x : Z) : bool :=
  (x <? 0)%Z || (Z.of_nat max_index <=? x)%Z.

Section WithScran.

Variable filterCells : matrix -> list Z -> result matrix.

(** [undoFilter(indices)]: the array is changed in place, so its
    content is part of the outcome; an entry is [None] when [keep[x]]
    is [undefined]. *)
Definition undoFilter (inputs : inputs_state) (c : cache_t) (h : heap)
    (indices : list Z) : outcome (list (option Z) * cache_t * heap) :=
  match fetchFilteredMatrix filterCells inputs c h with
  | Thrown e (c, h) => Thrown e (map Some indices, c, h)
  | Returned (c, h) =>
      let max_index := numberOfColumns h (filtered c) in
      if existsb (out_of_range max_index) indices then
        Thrown (Error "entries of 'indices' should be less than the number of cells in the filtered dataset")
               (map Some indices, c, h)
      else
        match discard_buffer c with
        | None => Returned (map Some indices, c, h)
        | Some d =>
            let keep := keep_positions (read h d) in
            Returned (map (fun x => nth_error keep (Z.to_nat x)) indices, c, h)
        end
  end.

End WithScran.

(** [values[0] > 0] on the content of a data set: [undefined > 0] is
    false. *)
Definition first_positive (values : list Z) : bool :=
  match values with
  | v :: _ => (0 <? v)%Z
  | [] => false
  end.

(** [phandle.open(name, { load: true }).values[0] > 0] *)
Definition load_flag (name : string) (phandle : h5_node) : result bool :=
  match open name phandle with
  | Some (H5DataSet _ values) => Ret (first_positive values)
  | Some (H5Group _) => Throw (TypeError "values[0]")
  | None => Throw (Error ("no child named '" ++ name ++ "'"))
  end.

(** [name in handle.children]: a data set handle has no [children]. *)
Definition children_of (n : h5_node) : result (list (string * h5_node)) :=
  match n with
  | H5Group cs => Ret cs
  | H5DataSet _ _ => Throw (TypeError "children")
  end.

(** The part of [unserialize] that reads the file: the parameters, and
    the content of "discards" when it is there. *)
Definition read_file (handle : h5_node) : result (arguments * option (list Z)) :=
  let defaults := {| arg_use_rna := true; arg_use_adt := true; arg_use_crispr := true |} in
  match open "cell_filtering" handle with
  | Some ghandle =>
      gchildren <- children_of ghandle ;;
      parameters <-
        match open "parameters" ghandle with
        | Some phandle =>
            use_rna <- load_flag "use_rna" phandle ;;
            use_adt <- load_flag "use_adt" phandle ;;
            use_crispr <- load_flag "use_crispr" phandle ;;
            Ret {| arg_use_rna := use_rna; arg_use_adt := use_adt;
                   arg_use_crispr := use_crispr |}
        | None => Ret defaults
        end ;;
      rhandle <- match open "results" ghandle with
                 | Some n => Ret n
                 | None => Throw (Error "no child named 'results'")
                 end ;;
      rchildren <- children_of rhandle ;;
      match open "discards" rhandle with
      | Some (H5DataSet _ values) => Ret (parameters, Some values)
      | Some (H5Group _) => Throw (TypeError "discards.length")
      | None => Ret (parameters, None)
      end
  | None => Ret (defaults, None)
  end.

(** [unserialize(handle, inputs, qc_states)]: nothing is allocated
    before a [throw], so the [catch] has nothing to release. *)
Definition unserialize (handle : h5_node) (qs : qc_states) (h : heap)
  : result (state * heap) :=
  loaded <- read_file handle ;;
  let '(parameters, discards) := loaded in
  let finish (discard : option WasmArray) (h : heap) :=
    Ret ({| params := store parameters;
            cache := {| discard_buffer := discard; block_buffer := None;
                        filtered := None |};
            changed := false |}, h) in
  match discards with
  | Some values =>
      let '(buffer, h) := alloc_array values h in
      finish (Some buffer) h
  | None =>
      match find_usable_upstream_states qs (in_use parameters) with
      | [u] => finish (Some (view (qc_discards u))) h
      | [] => finish None h
      | _ :: _ :: _ =>
          Throw (Error "no more than one upstream QC state should be valid if 'discards' is not available")
      end
  end.

End CellFilteringMore.

(** ** More of src/steps/cell_labelling.js *)

Module CellLabellingMore.
Import CellLabelling.

(** [fetchParameters()]: [out[key].slice()] for "human_references" and
    then for "mouse_references"; a parameter that was never stored is
    [undefined], which has no [slice]. *)
Definition fetchParameters (st : state) : result arguments :=
  match human_references (params st) with
  | None => Throw (TypeError "out[key].slice")
  | Some human =>
      match mouse_references (params st) with
      | None => Throw (TypeError "out[key].slice")
      | Some mouse =>
          Ret {| arg_human_references := human; arg_mouse_references := mouse |}
      end
  end.

(** The loop of [choose_features] over [Object.entries(types)]. *)
Definition best_type (types : list (string * gene_type)) : option string * option gene_type :=
  fold_left (fun '(best_feature, best) '(key, val) =>
               match best with
               | None => (Some key, Some val)
               | Some b =>
                   if negb (Qle_bool (gt_confidence val) (gt_confidence b))
                   then (Some key, Some val)
                   else (best_feature, best)
               end)
            types (None, None).

(** Example: gene symbols that are recognised with less confidence than
    the Ensembl identifiers. *)
Definition two_annotations : upstream :=
  {| inputs_changed := true;
     genes := [("symbol", ["SNAP25"; "MALAT1"]); ("id", ["ENSG00000132639"; "ENSG00000251562"])];
     gene_types :=
       [("symbol", {| gt_type := "symbol"; gt_species := "human"; gt_confidence := (3 # 4)%Q |});
        ("id", {| gt_type := "ensembl"; gt_species := "human"; gt_confidence := 1%Q |})];
     markers_changed := true;
     numberOfGroups := 0;
     group_means := fun _ => [] |}.

(** Example: a reference that is asked for twice. *)
Definition repeated_references : arguments :=
  {| arg_human_references := ["BlueprintEncode"; "HPCA"; "BlueprintEncode"];
     arg_mouse_references := ["ImmGen"] |}.

End CellLabellingMore.

(** ** FeatureSetEnrichmentStandalone (steps/feature_set_enrichment.js) *)

Module Standalone.
Import FeatureSetEnrichment.

(** The arguments of a call of [manager.prepare], after the
    annotations; an argument may be [undefined]. *)
Record prepare_call : Type := {
  c_species : option (list string);
  c_gene_id_column : option (option column);
  c_gene_id_type : option string
}.

(** [this.#parameters] and [this.#manager]: a manager is [null] or
    an object, given by the calls of [prepare] made on it. *)
Record state : Type := {
  sa_parameters : parameters;
  sa_manager : option (list prepare_call)
}.

(** [FeatureSetEnrichmentState.defaults()] *)
Definition defaults : parameters :=
  {| skip := Some false; automatic := Some true; species := Some [];
     gene_id_column := Some None; gene_id_type := Some "ENSEMBL";
     top_markers := Some 100%Z |}.

Definition constructor : state :=
  {| sa_parameters := defaults; sa_manager := None |}.

(** [setParameters(parameters)]: the five properties are taken from the
    argument, where any of them may be missing. *)
Definition setParameters (p : parameters) (s : state) : state :=
  {| sa_parameters :=
       {| skip := skip (sa_parameters s);
          automatic := automatic p;
          species := species p;
          gene_id_column := gene_id_column p;
          gene_id_type := gene_id_type p;
          top_markers := top_markers p |};
     sa_manager := sa_manager s |}.

(** [if (automatic)] and [!automatic] on a value that may be
    [undefined]. *)
Definition is_true (b : option bool) : bool :=
  match b with
  | Some true => true
  | _ => false
  end.

Section Ready.

(** utils.changedParameters of steps/utils/general.js, on the old and
    the new value. *)
Variable changedParameters : option (list string) -> option (list string) -> bool.

(** [_buildCollections] with arguments that may be [undefined]: the
    call of [manager.prepare] it makes, if it makes one. *)
Definition _buildCollections (old_parameters : parameters) (automatic' : option bool)
    (species' : option (list string)) (gene_id_column' : option (option column))
    (gene_id_type' : option string) (g : guesses) : option prepare_call :=
  if negb (bool_decide (automatic' = automatic old_parameters))
     || (negb (is_true automatic')
         && (negb (bool_decide (gene_id_column old_parameters = gene_id_column'))
             || negb (bool_decide (gene_id_type old_parameters = gene_id_type'))
             || changedParameters (species old_parameters) species'))
  then
    Some (if is_true automatic' then
            let auto := _configureFeatureParameters g in
            {| c_species := Some (p_species auto);
               c_gene_id_column := Some (p_gene_id_column auto);
               c_gene_id_type := Some (p_gene_id_type auto) |}
          else
            {| c_species := species';
               c_gene_id_column := gene_id_column';
               c_gene_id_type := gene_id_type' |})
  else None.

(** [ready()]: the state afterwards and the call of [prepare] that was
    made, if any; [g] is what [#guessFeatureTypes()] returns. *)
Definition ready (g : guesses) (s : state) : state * option prepare_call :=
  let q := sa_parameters s in
  let s := match sa_manager s with
           | None => {| sa_parameters := empty; sa_manager := Some [] |}
           | Some _ => s
           end in
  match _buildCollections (sa_parameters s) (automatic q) (species q)
          (gene_id_column q) (gene_id_type q) g with
  | Some call =>
      ({| sa_parameters := sa_parameters s;
          sa_manager := (fun calls => calls ++ [call]) <$> sa_manager s |},
       Some call)
  | None => (s, None)
  end.

End Ready.

(** The loop of [computePerCellScores] over [this.#backmap]: a Float64Array
    as long as the scores, filled with NaN (given as [None]), in which
    [backfilled[x] = output.scores[i]] is stored; a write outside the
    array is dropped. *)
Definition backfill (backmap : list nat) (scores : list Q) : list (option Q) :=
  fold_left (fun backfilled '(i, x) => <[x := nth_error scores i]> backfilled)
            (combine (seq 0 (List.length backmap)) backmap)
            (repeat None (List.length scores)).

(** [computePerCellScores(set_id)], given the scores that the manager
    computed on the matrix kept by the constructor; [normalized] tells
    whether there is such a matrix. *)
Definition computePerCellScores (normalized : bool) (backmap : option (list nat))
    (scores : list Q) : result (list (option Q)) :=
  if negb normalized then Throw (Error "no normalized matrix supplied in constructor")
  else
    match backmap with
    | Some retain => Ret (backfill retain scores)
    | None => Ret (map Some scores)
    end.

End Standalone.

(** ** More of src/readers/utils/features.js *)

Module FeaturesMore.
Import Features.

(** [copy.$removeColumn(typeField)] *)
Definition removeColumn (name : string) (df : DataFrame) : DataFrame :=
  List.filter (fun kv => negb (String.eqb (fst kv) name)) df.

(** [create_solo_default_object(value, modality)] *)
Definition create_solo_default_object {A : Type} (value : A) (modality : string)
  : list (string * A) :=
  [(modality, value)].

Definition reportFeatures (rawFeatures : DataFrame) (typeField : string)
  : list (string * DataFrame) :=
  match lookup_key typeField rawFeatures with
  | Some column =>
      let by_type := presplitFactor column in
      let copy := removeColumn typeField rawFeatures in
      SPLIT_df copy by_type
  | None => create_solo_default_object rawFeatures ""
  end.

(** The entries of a column on the rows of one feature type. *)
Definition rows_of_type {A : Type} (type : string) (types : list string) (column : list A)
  : list A :=
  map snd (List.filter (fun '(t, _) => String.eqb t type) (combine types column)).

(** The positions of a feature type in the type column, counted from
    [start]. *)
Fixpoint positions_from (start : nat) (type : string) (types : list string) : list Z :=
  match types with
  | [] => []
  | t :: rest =>
      if String.eqb t type then Z.of_nat start :: positions_from (S start) type rest
      else positions_from (S start) type rest
  end.

(** The row identifiers before the split: those of the loaded matrix,
    or the positions of its rows. *)
Definition out_ids (loaded : loaded_matrix) : list Z :=
  match l_row_ids loaded with
  | Some ids => ids
  | None => map Z.of_nat (seq 0 (List.length (l_matrix loaded)))
  end.

(** The annotation that is split: the rows of the loaded matrix. *)
Definition current_features (loaded : loaded_matrix) (rawFeatures : DataFrame) : DataFrame :=
  match l_row_ids loaded with
  | Some ids => SLICE_df rawFeatures ids
  | None => rawFeatures
  end.

End FeaturesMore.

(** ** src/steps/utils/viz_parent.js *)

Module VizParent.

(** The allocations of scran.js that [computeNeighbors] makes on the
    Wasm heap: the search results and three arrays. *)
Inductive block : Type :=
| NeighborResults
| Int32Array (length : nat)
| Float64Array (length : nat).

Record wasm : Type := {
  live : gmap nat block;
  next : nat
}.

(** What [results.serialize] writes into the three arrays. *)
Record neighbors : Type := {
  numberOfCells : nat;
  size : nat;
  runs : list Z;
  indices : list Z;
  distances : list Q
}.

Record output : Type := {
  o_num_obs : nat;
  o_size : nat;
  o_runs : list Z;
  o_indices : list Z;
  o_distances : list Q
}.

Definition allocate (b : block) (h : wasm) : nat * wasm :=
  (next h, {| live := <[next h := b]> (live h); next := S (next h) |}).

Definition free (p : nat) (h : wasm) : wasm :=
  {| live := delete p (live h); next := next h |}.

(** [if (x !== null) { x.free(); }] *)
Definition free_unless_null (x : option nat) (h : wasm) : wasm :=
  match x with
  | Some p => free p h
  | None => h
  end.

Section ComputeNeighbors.

(** scran.findNearestNeighbors on the index of the step, and whether
    the heap has room left for an array of some length. *)
Variable findNearestNeighbors : nat -> result neighbors.
Variable has_room : wasm -> nat -> bool.

Definition create (b : nat -> block) (length : nat) (h : wasm) : result (nat * wasm) :=
  if has_room h length then Ret (allocate (b length) h)
  else Throw (Error "failed to allocate memory on the Wasm heap").

(** The variables [results], [rbuf], [ibuf] and [dbuf] when the [try]
    block is left, with what it computed or threw. *)
Record locals : Type := {
  l_results : option nat;
  l_rbuf : option nat;
  l_ibuf : option nat;
  l_dbuf : option nat
}.

Definition try_block (num_obs k : nat) (h : wasm) : result output * locals * wasm :=
  match findNearestNeighbors k with
  | Throw e =>
      (Throw e, {| l_results := None; l_rbuf := None; l_ibuf := None; l_dbuf := None |}, h)
  | Ret found =>
      let '(results, h) := allocate NeighborResults h in
      match create Int32Array (numberOfCells found) h with
      | Throw e =>
          (Throw e, {| l_results := Some results; l_rbuf := None; l_ibuf := None;
                       l_dbuf := None |}, h)
      | Ret (rbuf, h) =>
          match create Int32Array (size found) h with
          | Throw e =>
              (Throw e, {| l_results := Some results; l_rbuf := Some rbuf; l_ibuf := None;
                           l_dbuf := None |}, h)
          | Ret (ibuf, h) =>
              match create Float64Array (size found) h with
              | Throw e =>
                  (Throw e, {| l_results := Some results; l_rbuf := Some rbuf;
                               l_ibuf := Some ibuf; l_dbuf := None |}, h)
              | Ret (dbuf, h) =>
                  (Ret {| o_num_obs := num_obs; o_size := size found;
                          o_runs := runs found; o_indices := indices found;
                          o_distances := distances found |},
                   {| l_results := Some results; l_rbuf := Some rbuf;
                      l_ibuf := Some ibuf; l_dbuf := Some dbuf |}, h)
              end
          end
      end
  end.

(** [computeNeighbors(index, k)]; [num_obs] is the number of cells of
    the index. *)
Definition computeNeighbors (num_obs k : nat) (h : wasm) : result output * wasm :=
  let '(outcome, l, h) := try_block num_obs k h in
  (* finally *)
  let h := free_unless_null (l_results l) h in
  let h := free_unless_null (l_rbuf l) h in
  let h := free_unless_null (l_ibuf l) h in
  let h := free_unless_null (l_dbuf l) h in
  (outcome, h).

End ComputeNeighbors.

(** The workers.  [worker_registry] holds the workers, [null] once
    killed, and [worker_cache_registry] their caches: the counter of
    the tasks and the promises that are not settled yet, by the
    identifier of their task. *)
Record cache : Type := {
  counter : nat;
  promises : gset nat
}.

(** A message that a worker posts: [msg.data.type] and [msg.data.id]. *)
Record message : Type := {
  m_type : string;
  m_id : nat
}.

(** What the callback does with a message. *)
Inductive effect : Type :=
| Animate (name : string)             (* animateFun(type.slice(0, -5), ...) *)
| Resolve (id : nat)                  (* fun.resolve(msg.data.data) *)
| Reject (id : nat).                  (* fun.reject(msg.data.error) *)

Section Workers.

(** The workers and the payloads of the tasks are not looked into. *)
Variables worker payload : Type.

Record registry : Type := {
  worker_registry : list (option worker);
  worker_cache_registry : list cache;
  posted : list (nat * nat * payload)   (* the tasks sent: worker, identifier, payload *)
}.

Definition no_workers : registry :=
  {| worker_registry := []; worker_cache_registry := []; posted := [] |}.

(** [sendTask(worker_id, payload)]: the identifier of the task, which
    names its promise, and the registry afterwards. *)
Definition sendTask (worker_id : nat) (p : payload) (r : registry)
  : result (nat * registry) :=
  match worker_cache_registry r !! worker_id with
  | None => Throw (TypeError "cache.counter")
  | Some c =>
      let i := counter c in
      let c := {| counter := S i; promises := {[ i ]} ∪ promises c |} in
      Ret (i, {| worker_registry := worker_registry r;
                 worker_cache_registry := <[worker_id := c]> (worker_cache_registry r);
                 posted := posted r ++ [(worker_id, i, p)] |})
  end.

(** [initializeWorker(worker, scranOptions)]; [init] is the payload of
    the "INIT" task. *)
Definition initializeWorker (w : worker) (init : payload) (r : registry)
  : result (nat * nat * registry) :=
  let n := List.length (worker_registry r) in
  let r := {| worker_registry := worker_registry r ++ [Some w];
              worker_cache_registry :=
                worker_cache_registry r ++ [{| counter := 0; promises := ∅ |}];
              posted := posted r |} in
  sent <- sendTask n init r ;;
  Ret (n, fst sent, snd sent).

(** The callback registered for a worker, on the cache of that
    worker. *)
Definition callback (c : cache) (msg : message) : result (effect * cache) :=
  let type := m_type msg in
  if Markers.ends_with "_iter" type then
    Ret (Animate (substring 0 (String.length type - 5) type), c)
  else
    let id := m_id msg in
    if bool_decide (id ∈ promises c) then
      Ret (if String.eqb type "error" then Reject id else Resolve id,
           {| counter := counter c; promises := promises c ∖ {[ id ]} |})
    else Throw (TypeError "fun is undefined").

(** A message arrives from the worker [worker_id]. *)
Definition receive (worker_id : nat) (msg : message) (r : registry)
  : result (effect * registry) :=
  match worker_cache_registry r !! worker_id with
  | None => Throw (TypeError "no such worker")
  | Some c =>
      done <- callback c msg ;;
      Ret (fst done,
           {| worker_registry := worker_registry r;
              worker_cache_registry := <[worker_id := snd done]> (worker_cache_registry r);
              posted := posted r |})
  end.

(** What can happen to the registry, and a run of such steps; a step
    that throws leaves the registry as it was. *)
Inductive step : Type :=
| Initialize (w : worker) (init : payload)
| Send (worker_id : nat) (p : payload)
| Receive (worker_id : nat) (msg : message).

Definition do_step (r : registry) (s : step) : registry :=
  match s with
  | Initialize w init =>
      match initializeWorker w init r with
      | Ret (_, _, r') => r'
      | Throw _ => r
      end
  | Send worker_id p =>
      match sendTask worker_id p r with
      | Ret (_, r') => r'
      | Throw _ => r
      end
  | Receive worker_id msg =>
      match receive worker_id msg r with
      | Ret (_, r') => r'
      | Throw _ => r
      end
  end.

Definition run (steps : list step) : registry := fold_left do_step steps no_workers.

(** A task by the worker it was sent to and its identifier. *)
Definition task_key (t : nat * nat * payload) : nat * nat := (fst (fst t), snd (fst t)).

(** Every identifier in use for a worker is below the counter of that
    worker, and no two tasks of a worker share an identifier. *)
Record counted (r : registry) : Prop := {
  counted_posted : forall w i p, In (w, i, p) (posted r) ->
      exists c, worker_cache_registry r !! w = Some c /\ i < counter c;
  counted_pending : forall w c i, worker_cache_registry r !! w = Some c ->
      i ∈ promises c -> i < counter c;
  counted_nodup : NoDup (map task_key (posted r))
}.

End Workers.

End VizParent.


(** ** FeatureSetManager.prepare (steps/feature_set_enrichment.js) *)

Module FeatureSetManagerPrepare.

(** An entry of [gesel.fetchAllSets] and of [gesel.fetchAllCollections]. *)
Record set_details : Type := {
  sd_name : string;
  sd_description : string;
  sd_collection : Z
}.

Record collection_details : Type := {
  cd_name : string;
  cd_description : string
}.

Record set_tables : Type := {
  names : list string;
  descriptions : list string;
  sets : list (list nat);
  sizes : list Z;
  collections : list Z
}.

Record collection_tables : Type := {
  c_names : list string;
  c_descriptions : list string;
  c_species : list string
}.

(** What [prepare] stores in [this.#cache]. *)
Record prepared : Type := {
  universe : list Z;
  p_sets : set_tables;
  p_collections : collection_tables;
  mapping_to_sets : list (list Z)
}.

(** A number stored in an Int32Array. *)
Definition to_int32 (z : Z) : Z := ((z + 2 ^ 31) mod 2 ^ 32 - 2 ^ 31)%Z.

(** [toLowerCase] on ASCII text. *)
Fixpoint lower (s : string) : string :=
  match s with
  | EmptyString => EmptyString
  | String c rest =>
      let n := Ascii.nat_of_ascii c in
      String (if ((65 <=? n) && (n <=? 90))%nat then Ascii.ascii_of_nat (n + 32) else c)
             (lower rest)
  end.

(** The numeric sort of a typed array. *)
Fixpoint insert_number (x : Z) (sorted : list Z) : list Z :=
  match sorted with
  | [] => [x]
  | y :: rest => if (x <=? y)%Z then x :: y :: rest else y :: insert_number x rest
  end.

Definition sort_numbers (xs : list Z) : list Z := fold_right insert_number [] xs.

(** The variables of the loop over the species. *)
Record loop_state : Type := {
  collection_offset : Z;
  all_collection_names : list (list string);
  all_collection_descriptions : list (list string);
  all_collection_species : list (list string);
  set_offset : Z;
  all_set_names : list (list string);
  all_set_descriptions : list (list string);
  all_set_indices : list (list (list nat));
  all_set_sizes : list (list Z);
  all_set_collections : list (list Z);
  mapped_genes : gset nat;
  remapped : list (list (list Z))
}.

Definition initial (rows : nat) : loop_state :=
  {| collection_offset := 0;
     all_collection_names := [[]];
     all_collection_descriptions := [[]];
     all_collection_species := [[]];
     set_offset := 0;
     all_set_names := [[]];
     all_set_descriptions := [[]];
     all_set_indices := [[]];
     all_set_sizes := [[]];
     all_set_collections := [[]];
     mapped_genes := ∅;
     remapped := repeat [] rows |}.

(** [mapped_genes.add(i)] for every row with a gene. *)
Definition add_mapped (gene_mapping : list (list nat)) (mapped : gset nat) : gset nat :=
  fold_left (fun acc '(i, genes) =>
               if (0 <? List.length genes)%nat then {[ i ]} ∪ acc else acc)
            (combine (seq 0 (List.length gene_mapping)) gene_mapping) mapped.

(** The loop over the sets of a species: name, description, collection
    and size of the set at [i] and of those after it. *)
Fixpoint describe_sets (collection_offset : Z) (set_indices : list (list nat)) (i : nat)
    (all_sets : list set_details) : result (list (string * string * Z * Z)) :=
  match all_sets with
  | [] => Ret []
  | current :: rest =>
      match set_indices !! i with
      | None => Throw (TypeError "set_indices[i].length")
      | Some genes =>
          later <- describe_sets collection_offset set_indices (S i) rest ;;
          Ret ((sd_name current, sd_description current,
                to_int32 (sd_collection current + collection_offset),
                to_int32 (Z.of_nat (List.length genes))) :: later)
      end
  end.

Section Prepare.

(** gesel belongs to another package.  Its downloads are awaited and
    may fail; the arrays that [reindexSetsForAllGenes] returns are its
    own, and [store] is what an assignment to one of their elements
    keeps of a number (the number itself for a plain array, its
    remainder modulo 2^32 for a Uint32Array). *)
Variable ids : Type.
Variable searchGenes : string -> option ids -> list string -> result (list (list nat)).
Variable fetchGenesForAllSets : string -> result (list (list nat)).
Variable reindexGenesForAllSets : list (list nat) -> list (list nat) -> list (list nat).
Variable fetchAllSets : string -> result (list set_details).
Variable fetchSetsForAllGenes : string -> result (list (list nat)).
Variable reindexSetsForAllGenes : list (list nat) -> list (list nat) -> list (list Z).
Variable fetchAllCollections : string -> result (list collection_details).
Variable store : Z -> Z.

(** The annotation of the features, a bioc.DataFrame, by the methods
    called on it. *)
Record annotation : Type := {
  rowNames : option ids;
  column : FeatureSetEnrichment.column -> result ids;
  numberOfRows : nat
}.

(** The loop over the rows that shifts the set identifiers of a species
    and appends them to those of the species before. *)
Fixpoint remap_loop (set_offset : Z) (current_remapped : list (list Z)) (todo i : nat)
    (remapped : list (list (list Z))) : result (list (list (list Z))) :=
  match todo with
  | O => Ret remapped
  | S todo =>
      match current_remapped !! i with
      | None => Throw (TypeError "current.length")
      | Some current =>
          let current := map (fun x => store (x + set_offset)%Z) current in
          match remapped !! i with
          | None => Throw (TypeError "remapped[i].push")
          | Some row =>
              remap_loop set_offset current_remapped todo (S i)
                         (<[ i := row ++ [current] ]> remapped)
          end
      end
  end.

(** The body of the loop over the species. *)
Definition species_step (data_id_col : option ids) (search_types : list string)
    (st : loop_state) (spec : string) : result loop_state :=
  gene_mapping <- searchGenes spec data_id_col search_types ;;
  let mapped := add_mapped gene_mapping (mapped_genes st) in
  all_sets2genes <- fetchGenesForAllSets spec ;;
  let set_indices := reindexGenesForAllSets gene_mapping all_sets2genes in
  all_sets <- fetchAllSets spec ;;
  let nsets := List.length all_sets in
  described <- describe_sets (collection_offset st) set_indices 0 all_sets ;;
  all_genes2sets <- fetchSetsForAllGenes spec ;;
  let current_remapped := reindexSetsForAllGenes gene_mapping all_genes2sets in
  remapped' <- remap_loop (set_offset st) current_remapped (List.length gene_mapping) 0
                          (remapped st) ;;
  all_collections <- fetchAllCollections spec ;;
  let ncollections := List.length all_collections in
  Ret {| collection_offset := collection_offset st + Z.of_nat ncollections;
         all_collection_names := all_collection_names st ++ [map cd_name all_collections];
         all_collection_descriptions :=
           all_collection_descriptions st ++ [map cd_description all_collections];
         all_collection_species :=
           all_collection_species st ++ [map (fun _ => spec) all_collections];
         set_offset := set_offset st + Z.of_nat nsets;
         all_set_names := all_set_names st ++ [map (fun d => fst (fst (fst d))) described];
         all_set_descriptions :=
           all_set_descriptions st ++ [map (fun d => snd (fst (fst d))) described];
         all_set_indices := all_set_indices st ++ [set_indices];
         all_set_sizes := all_set_sizes st ++ [map snd described];
         all_set_collections := all_set_collections st ++ [map (fun d => snd (fst d)) described];
         mapped_genes := mapped;
         remapped := remapped' |}.

Fixpoint species_loop (data_id_col : option ids) (search_types : list string)
    (st : loop_state) (species : list string) : result loop_state :=
  match species with
  | [] => Ret st
  | spec :: rest =>
      st' <- species_step data_id_col search_types st spec ;;
      species_loop data_id_col search_types st' rest
  end.

(** The identifiers that are searched and the species that are gone
    through: no species when there are no identifiers at all. *)
Definition identifiers (feats : annotation) (species : list string)
    (gene_id_column : option FeatureSetEnrichment.column)
  : result (option ids * list string) :=
  match gene_id_column with
  | None =>
      match rowNames feats with
      | None => Ret (None, [])
      | Some names => Ret (Some names, species)
      end
  | Some c =>
      data_id_col <- column feats c ;;
      Ret (Some data_id_col, species)
  end.

(** [prepare] returns what it assigns to the cache; the cache is left
    as it was when it throws. *)
Definition prepare (feats : annotation) (species : list string)
    (gene_id_column : option FeatureSetEnrichment.column) (gene_id_type : string)
  : result prepared :=
  found <- identifiers feats species gene_id_column ;;
  let data_id_col := fst found in
  let species := snd found in
  let search_types := [lower gene_id_type] in
  st <- species_loop data_id_col search_types (initial (numberOfRows feats)) species ;;
  Ret {| universe :=
           sort_numbers (map (fun i => to_int32 (Z.of_nat i)) (elements (mapped_genes st)));
         p_sets := {| names := concat (all_set_names st);
                      descriptions := concat (all_set_descriptions st);
                      sets := concat (all_set_indices st);
                      sizes := concat (all_set_sizes st);
                      collections := concat (all_set_collections st) |};
         p_collections := {| c_names := concat (all_collection_names st);
                             c_descriptions := concat (all_collection_descriptions st);
                             c_species := concat (all_collection_species st) |};
         mapping_to_sets :=
           if (0 <? List.length species)%nat
           then map (fun row => concat row) (remapped st)
           else map (fun _ => []) (remapped st) |}.

(** The number of sets and of collections of the species before the
    one at [k]. *)
Definition number_of_sets (spec : string) : nat :=
  match fetchAllSets spec with
  | Ret all_sets => List.length all_sets
  | Throw _ => 0
  end.

Definition number_of_collections (spec : string) : nat :=
  match fetchAllCollections spec with
  | Ret all_collections => List.length all_collections
  | Throw _ => 0
  end.

(** The offsets count what has been collected so far. *)
Definition balanced (st : loop_state) : Prop :=
  collection_offset st = Z.of_nat (List.length (concat (all_collection_names st))) /\
  List.length (concat (all_collection_species st))
  = List.length (concat (all_collection_names st)) /\
  List.length (concat (all_set_collections st))
  = List.length (concat (all_set_names st)).

Definition sets_before (species : list string) (k : nat) : nat :=
  list_sum (map number_of_sets (firstn k species)).

Definition collections_before (species : list string) (k : nat) : nat :=
  list_sum (map number_of_collections (firstn k species)).

End Prepare.

(** Example: two human sets in two collections, one mouse set in one
    collection, and two genes. *)
Definition example_sets (spec : string) : result (list set_details) :=
  if String.eqb spec "human" then
    Ret [ {| sd_name := "h1"; sd_description := "first"; sd_collection := 0 |};
          {| sd_name := "h2"; sd_description := "second"; sd_collection := 1 |} ]
  else if String.eqb spec "mouse" then
    Ret [ {| sd_name := "m1"; sd_description := "third"; sd_collection := 0 |} ]
  else Throw (Error "unknown species").

Definition example_collections (spec : string) : result (list collection_details) :=
  if String.eqb spec "human" then
    Ret [ {| cd_name := "A"; cd_description := "a" |};
          {| cd_name := "B"; cd_description := "b" |} ]
  else if String.eqb spec "mouse" then
    Ret [ {| cd_name := "C"; cd_description := "c" |} ]
  else Throw (Error "unknown species").

Definition example_genes (spec : string) (names : option (list string)) (types : list string)
  : result (list (list nat)) :=
  if String.eqb spec "human" then Ret [[7]; []]
  else if String.eqb spec "mouse" then Ret [[]; [3]]
  else Throw (Error "unknown species").

Definition example_sets_of_genes (spec : string) : result (list (list nat)) :=
  if String.eqb spec "human" then Ret [[0; 1]; []]
  else if String.eqb spec "mouse" then Ret [[]; [0]]
  else Throw (Error "unknown species").

Definition example_genes_of_sets (spec : string) : result (list (list nat)) :=
  if String.eqb spec "human" then Ret [[0]; [0]]
  else if String.eqb spec "mouse" then Ret [[1]]
  else Throw (Error "unknown species").

Definition example_annotation : annotation (list string) :=
  {| rowNames := Some ["g1"; "g2"];
     column := fun _ => Throw (Error "no such column");
     numberOfRows := 2 |}.

Definition example_prepare : result prepared :=
  prepare (list string) example_genes example_genes_of_sets (fun _ sets => sets)
          example_sets example_sets_of_genes (fun _ genes => map (map Z.of_nat) genes)
          example_collections (fun x => (x mod 2 ^ 32)%Z)
          example_annotation ["human"; "mouse"] None "SYMBOL".

Definition example_cache : prepared :=
  {| universe := [0; 1]%Z;
     p_sets := {| names := ["h1"; "h2"; "m1"];
                  descriptions := ["first"; "second"; "third"];
                  sets := [[0]; [0]; [1]]%nat;
                  sizes := [1; 1; 1]%Z;
                  collections := [0; 1; 2]%Z |};
     p_collections := {| c_names := ["A"; "B"; "C"];
                         c_descriptions := ["a"; "b"; "c"];
                         c_species := ["human"; "human"; "mouse"] |};
     mapping_to_sets := [[0; 1]; [2]]%Z |}.

End FeatureSetManagerPrepare.
(** ** src/analysis.js: the orchestrator

    [runAnalysis] computes the steps in a fixed order and hands each
    one [params[step]], the parameter object of the step.  The steps
    hold references to the steps before them and read their [changed]
    flags.  The callbacks [startFun] and [finishFun] are left at
    [null], and the calls into scran.js are taken to return. *)

Module Analysis.

(** A parameter object: plain keys and values, compared by value.  A
    number is named by an integer, since parameters are only compared. *)
Inductive value : Type :=
| VNull
| VBool (b : bool)
| VNumber (n : Z)
| VString (s : string)
| VStrings (xs : list string).

#[global] Instance value_eq_dec : EqDecision value.
Proof. solve_decision. Defined.

Definition record : Type := list (string * value).

#[global] Instance gene_type_eq_dec : EqDecision CellLabelling.gene_type.
Proof. solve_decision. Defined.

(** A dataset, by what identifies it, the modalities it holds, the gene
    identifiers with their guessed types, and the guesses made on its
    RNA feature annotation. *)
Record dataset : Type := {
  ds_id : Z;
  ds_rna : bool;
  ds_adt : bool;
  ds_crispr : bool;
  ds_genes : list (string * list string);
  ds_gene_types : list (string * CellLabelling.gene_type);
  ds_guesses : FeatureSetEnrichment.guesses
}.

#[global] Instance dataset_eq_dec : EqDecision dataset.
Proof. solve_decision. Defined.

(** Modelled from the spec: the Inputs step (steps/inputs.js is not
    among the sources).  It loads or refreshes the datasets; [null]
    datasets stand for the ones already loaded.  It reports a change
    when the datasets or its parameters differ from the stored ones. *)
Record inputs_step : Type := {
  in_datasets : option dataset;
  in_params : option record;
  in_changed : bool
}.

Definition inputs_compute (datasets : option dataset) (p : record) (s : inputs_step)
  : inputs_step :=
  let datasets' := match datasets with Some d => Some d | None => in_datasets s end in
  {| in_datasets := datasets';
     in_params := Some p;
     in_changed :=
       (if decide (datasets' = in_datasets s) then false else true)
       || Wasm.differs p (in_params s) |}.

(** Modelled from the spec: [valid()] of the steps of a modality, whose
    sources are not among the files, holds when the loaded dataset has
    that modality. *)
Definition has_modality (s : inputs_step) (k : CellFiltering.modality) : bool :=
  match in_datasets s with
  | Some d =>
      match k with
      | CellFiltering.RNA => ds_rna d
      | CellFiltering.ADT => ds_adt d
      | CellFiltering.CRISPR => ds_crispr d
      end
  | None => false
  end.

(** Modelled from the spec: a step whose source is not among the files
    (quality control, normalization, feature selection, RNA and ADT
    PCA, combined embeddings, batch correction, neighbor index, t-SNE,
    UMAP, marker detection, custom selections).  It recomputes when an
    upstream step changed, a parameter differs by value or its results
    are absent; otherwise [changed] is false and the cache and the
    parameters stay. *)
Record step : Type := {
  st_params : option record;
  st_results : bool;
  st_changed : bool
}.

Definition fresh : step :=
  {| st_params := None; st_results := false; st_changed := false |}.

Definition step_compute (upstream_changed : bool) (p : record) (s : step) : step :=
  if upstream_changed || Wasm.differs p (st_params s) || negb (st_results s)
  then {| st_params := Some p; st_results := true; st_changed := true |}
  else {| st_params := st_params s; st_results := st_results s; st_changed := false |}.

(** Modelled from the spec: the two clustering steps
    (steps/kmeans_cluster.js and steps/snn_graph_cluster.js are not
    among the sources).  Both are attempted on every run; the results
    are computed only when the step is the chosen method ([run_me]),
    persist while the step is not invalidated, and are invalidated by
    the step's own upstream and parameters only. *)
Definition cluster_compute (run_me upstream_changed : bool) (p : record) (s : step)
  : step :=
  if upstream_changed || Wasm.differs p (st_params s) || (run_me && negb (st_results s))
  then {| st_params := Some p; st_results := run_me; st_changed := true |}
  else {| st_params := st_params s; st_results := st_results s; st_changed := false |}.

(** Modelled from the spec: the choice of the clustering
    (steps/choose_clustering.js is not among the sources).  It changes
    when the method differs or the clustering of the chosen method
    changed. *)
Record choice_step : Type := {
  ch_method : option string;
  ch_changed : bool
}.

Definition choice_compute (snn_changed kmeans_changed : bool) (method : string)
    (s : choice_step) : choice_step :=
  {| ch_method := Some method;
     ch_changed :=
       Wasm.differs method (ch_method s)
       || (if String.eqb method "snn_graph" then snn_changed
           else if String.eqb method "kmeans" then kmeans_changed
           else snn_changed || kmeans_changed) |}.

(** [params[step]] is an object, and an object is known by its
    reference: a copy with the same content is another object. *)
Record object (A : Type) : Type := {
  ref : nat;
  content : A
}.

Arguments ref {A} o.
Arguments content {A} o.

(** *** The cell filtering step, as [runAnalysis] calls it

    [CellFilteringState.compute(use_rna, use_adt, use_crispr)] takes its
    parameters one by one, and [runAnalysis] calls
    [state[step].compute(params[step])]: the parameter object arrives
    as [use_rna], and [use_adt] and [use_crispr] are [undefined].  An
    argument, and so a stored parameter, is [undefined], a boolean or an
    object. *)
Inductive argument : Type :=
| Undefined
| Boolean (b : bool)
| Reference (r : nat).

#[global] Instance argument_eq_dec : EqDecision argument.
Proof. solve_decision. Defined.

(** [x !== y]: no coercion, and two objects are equal only when they
    are the same object. *)
Definition strictly_differs (x y : argument) : bool :=
  if decide (x = y) then false else true.

(** [if (in_use[k])] *)
Definition truthy (x : argument) : bool :=
  match x with
  | Undefined => false
  | Boolean b => b
  | Reference _ => true
  end.

Record filter_parameters : Type := {
  use_rna : argument;
  use_adt : argument;
  use_crispr : argument
}.

(** The part of the CellFilteringState that the orchestrator and the
    downstream steps look at. *)
Record filter_step : Type := {
  f_params : filter_parameters;
  f_changed : bool
}.

(** [new CellFilteringState(inputs, qc_states)]: [this.#parameters] is
    empty. *)
Definition filter_constructor : filter_step :=
  {| f_params := {| use_rna := Undefined; use_adt := Undefined; use_crispr := Undefined |};
     f_changed := false |}.

Definition filter_in_use (a : filter_parameters) (k : CellFiltering.modality) : bool :=
  truthy match k with
         | CellFiltering.RNA => use_rna a
         | CellFiltering.ADT => use_adt a
         | CellFiltering.CRISPR => use_crispr a
         end.

Definition filter_parameters_differ (a stored : filter_parameters) : bool :=
  strictly_differs (use_rna stored) (use_rna a)
  || strictly_differs (use_adt stored) (use_adt a)
  || strictly_differs (use_crispr stored) (use_crispr a).

(** [compute] on that part; [flags] gives [valid()] and [changed] of
    each quality control step. *)
Definition filter_compute (inputs_changed : bool)
    (flags : CellFiltering.modality -> bool * bool)
    (a : filter_parameters) (s : filter_step) : filter_step :=
  let differ := filter_parameters_differ a (f_params s) in
  let to_use :=
    List.filter (filter_in_use a)
      (List.filter (fun k => fst (flags k))
         [CellFiltering.RNA; CellFiltering.ADT; CellFiltering.CRISPR]) in
  {| f_params := if differ then a else f_params s;
     f_changed := inputs_changed || differ || existsb (fun k => snd (flags k)) to_use |}.

(** What [runAnalysis] passes: the parameter object and nothing else. *)
Definition filter_call (o : object CellFiltering.arguments) : filter_parameters :=
  {| use_rna := Reference (ref o); use_adt := Undefined; use_crispr := Undefined |}.

(** Booleans passed one by one, as the documentation of [compute] has
    it, and the parameters of [CellFiltering] as arguments. *)
Definition as_argument (x : option bool) : argument :=
  match x with
  | Some b => Boolean b
  | None => Undefined
  end.

Definition of_arguments (a : CellFiltering.arguments) : filter_parameters :=
  {| use_rna := Boolean (CellFiltering.arg_use_rna a);
     use_adt := Boolean (CellFiltering.arg_use_adt a);
     use_crispr := Boolean (CellFiltering.arg_use_crispr a) |}.

Definition of_parameters (p : CellFiltering.parameters) : filter_parameters :=
  {| use_rna := as_argument (CellFiltering.use_rna p);
     use_adt := as_argument (CellFiltering.use_adt p);
     use_crispr := as_argument (CellFiltering.use_crispr p) |}.

Definition of_summary (s : CellFiltering.summary) : filter_step :=
  {| f_params := of_parameters (CellFiltering.s_params s);
     f_changed := CellFiltering.s_changed s |}.

(** *** The cell labelling step, as [runAnalysis] calls it

    [CellLabellingState.compute(human_references, mouse_references)]
    takes two arrays, and [runAnalysis] calls
    [state[step].compute(params[step])]: the parameter object arrives
    as [human_references], and [mouse_references] is [undefined].  An
    argument is [undefined], a parameter object (which has no [length]
    and no [slice]) or an array of strings. *)
Inductive reference_argument : Type :=
| NoReferences
| ParameterObject (r : nat)
| ReferenceList (xs : list string).

(** The part of the state that [compute] reads and writes up to the
    copies of the reference lists, with the flag. *)
Record labelling_step : Type := {
  lb_params : CellLabelling.parameters;
  lb_features : option (option (list string));             (* this.#cache.features *)
  lb_feature_details : option (option CellLabelling.gene_type);
  lb_changed : bool
}.

Definition labelling_constructor : labelling_step :=
  {| lb_params := {| CellLabelling.human_references := None;
                     CellLabelling.mouse_references := None |};
     lb_features := None; lb_feature_details := None; lb_changed := false |}.

Definition labelling_of (st : CellLabelling.state) : labelling_step :=
  {| lb_params := CellLabelling.params st;
     lb_features := CellLabelling.features (CellLabelling.cache st);
     lb_feature_details := CellLabelling.feature_details (CellLabelling.cache st);
     lb_changed := CellLabelling.changed st |}.

(** [compare_arrays(x, y)]: false when [x] is [undefined]; a parameter
    object is not [undefined] and its [length] is, which differs from
    the length of a stored array. *)
Definition compare_call (x : reference_argument) (y : option (list string)) : bool :=
  match x with
  | NoReferences => false
  | ParameterObject _ =>
      match y with
      | None => false
      | Some _ => false
      end
  | ReferenceList xs => CellLabelling.compare_arrays (Some xs) y
  end.

(** [x.slice()] *)
Definition slice_call (name : string) (x : reference_argument) : result (list string) :=
  match x with
  | NoReferences => Throw (TypeError ("Cannot read properties of undefined (reading 'slice')"))
  | ParameterObject _ => Throw (TypeError (name ++ ".slice is not a function"))
  | ReferenceList xs => Ret xs
  end.

(** [compute] on that part: the test for an early return, the choice of
    the features, the species, the copies of the two arguments, and,
    when the call gets that far and then returns, the new parameters
    and the flag. *)
Definition labelling_compute (up : CellLabelling.upstream)
    (human_references mouse_references : reference_argument) (s : labelling_step)
  : Wasm.outcome labelling_step :=
  if negb (CellLabelling.inputs_changed up) && negb (CellLabelling.markers_changed up)
     && compare_call human_references (CellLabelling.human_references (lb_params s))
     && compare_call mouse_references (CellLabelling.mouse_references (lb_params s))
  then
    Wasm.Returned {| lb_params := lb_params s; lb_features := lb_features s;
                     lb_feature_details := lb_feature_details s; lb_changed := false |}
  else
    let '(feats, details) :=
      if CellLabelling.inputs_changed up || negb (bool_decide (is_Some (lb_features s)))
      then (let '(f, d) := CellLabelling.choose_features up in (Some f, Some d))
      else (lb_features s, lb_feature_details s) in
    let s1 := {| lb_params := lb_params s; lb_features := feats;
                 lb_feature_details := details; lb_changed := lb_changed s |} in
    match mjoin details with
    | None => Wasm.Thrown (TypeError "this.#cache.feature_details.species") s1
    | Some _ =>
        match slice_call "human_references" human_references with
        | Throw e => Wasm.Thrown e s1
        | Ret human =>
            match slice_call "mouse_references" mouse_references with
            | Throw e => Wasm.Thrown e s1
            | Ret mouse =>
                match mjoin feats with
                | None => Wasm.Thrown (TypeError "this.#cache.features.length") s1
                | Some _ =>
                    Wasm.Returned
                      {| lb_params := {| CellLabelling.human_references := Some human;
                                         CellLabelling.mouse_references := Some mouse |};
                         lb_features := feats; lb_feature_details := details;
                         lb_changed := true |}
                end
            end
        end
    end.

(** The analysis state: one entry per step, and the [_loaded] flag. *)
Record state : Type := {
  inputs : inputs_step;
  rna_quality_control : step;
  adt_quality_control : step;
  crispr_quality_control : step;
  cell_filtering : filter_step;
  rna_normalization : step;
  adt_normalization : step;
  crispr_normalization : step;
  feature_selection : step;
  rna_pca : step;
  adt_pca : step;
  crispr_pca : CrisprPca.summary;
  combine_embeddings : step;
  batch_correction : step;
  neighbor_index : step;
  tsne : step;
  umap : step;
  kmeans_cluster : step;
  snn_graph_cluster : step;
  choose_clustering : choice_step;
  marker_detection : step;
  cell_labelling : labelling_step;
  custom_selections : step;
  feature_set_enrichment : FeatureSetEnrichment.state;
  load_flag : bool
}.

(** The [params] argument of [runAnalysis]: an object with one
    parameter object per step.  The reference is kept for the steps
    that receive the object as an argument; the other steps read its
    properties only. *)
Record parameters : Type := {
  p_inputs : record;
  p_rna_quality_control : record;
  p_adt_quality_control : record;
  p_crispr_quality_control : record;
  p_cell_filtering : object CellFiltering.arguments;
  p_rna_normalization : record;
  p_adt_normalization : record;
  p_crispr_normalization : record;
  p_feature_selection : record;
  p_rna_pca : record;
  p_adt_pca : record;
  p_crispr_pca : CrisprPca.arguments;
  p_combine_embeddings : record;
  p_batch_correction : record;
  p_neighbor_index : record;
  p_tsne : record;
  p_umap : record;
  p_kmeans_cluster : record;
  p_snn_graph_cluster : record;
  p_choose_clustering_method : string;
  p_marker_detection : record;
  p_cell_labelling : object CellLabelling.arguments;
  p_custom_selections : record;
  p_feature_set_enrichment : FeatureSetEnrichment.arguments
}.

(** [create_analysis(new inputs.InputsState)] *)
Definition create_analysis : state :=
  {| inputs := {| in_datasets := None; in_params := None; in_changed := false |};
     rna_quality_control := fresh;
     adt_quality_control := fresh;
     crispr_quality_control := fresh;
     cell_filtering := filter_constructor;
     rna_normalization := fresh;
     adt_normalization := fresh;
     crispr_normalization := fresh;
     feature_selection := fresh;
     rna_pca := fresh;
     adt_pca := fresh;
     crispr_pca := CrisprPca.summarize CrisprPca.constructor;
     combine_embeddings := fresh;
     batch_correction := fresh;
     neighbor_index := fresh;
     tsne := fresh;
     umap := fresh;
     kmeans_cluster := fresh;
     snn_graph_cluster := fresh;
     choose_clustering := {| ch_method := None; ch_changed := false |};
     marker_detection := fresh;
     cell_labelling := labelling_constructor;
     custom_selections := fresh;
     feature_set_enrichment := FeatureSetEnrichment.constructor;
     load_flag := false |}.

(** [runAnalysis].  The steps are computed in the order of the source;
    each definition below is what one step is left as, given the state
    [s] before the run and the steps that the run has computed before
    it.  A step whose [compute] takes a parameter object reads its
    properties; the cell filtering and the cell labelling receive the
    object itself. *)

Section Run.

Variable s : state.
Variable datasets : option dataset.
Variable p : parameters.

(** Loading.  After a reload ([load_flag in state]) the flag of the
    inputs is forced to true: "Force recompute for all downstream
    steps". *)
Definition run_inputs : inputs_step :=
  let i := inputs_compute datasets (p_inputs p) (inputs s) in
  if load_flag s
  then {| in_datasets := in_datasets i; in_params := in_params i; in_changed := true |}
  else i.

(** Preprocessing steps *)
Definition run_rna_quality_control : step :=
  step_compute (in_changed run_inputs) (p_rna_quality_control p) (rna_quality_control s).

Definition run_adt_quality_control : step :=
  step_compute (in_changed run_inputs) (p_adt_quality_control p) (adt_quality_control s).

Definition run_crispr_quality_control : step :=
  step_compute (in_changed run_inputs) (p_crispr_quality_control p)
    (crispr_quality_control s).

Definition qc_flags (k : CellFiltering.modality) : bool * bool :=
  (has_modality run_inputs k,
   match k with
   | CellFiltering.RNA => st_changed run_rna_quality_control
   | CellFiltering.ADT => st_changed run_adt_quality_control
   | CellFiltering.CRISPR => st_changed run_crispr_quality_control
   end).

Definition run_cell_filtering : filter_step :=
  filter_compute (in_changed run_inputs) qc_flags (filter_call (p_cell_filtering p))
    (cell_filtering s).

Definition filter_changed : bool := f_changed run_cell_filtering.

Definition run_rna_normalization : step :=
  step_compute (st_changed run_rna_quality_control || filter_changed)
    (p_rna_normalization p) (rna_normalization s).

Definition run_adt_normalization : step :=
  step_compute (st_changed run_adt_quality_control || filter_changed)
    (p_adt_normalization p) (adt_normalization s).

Definition run_crispr_normalization : step :=
  step_compute (st_changed run_crispr_quality_control || filter_changed)
    (p_crispr_normalization p) (crispr_normalization s).

Definition run_feature_selection : step :=
  step_compute (filter_changed || st_changed run_rna_normalization)
    (p_feature_selection p) (feature_selection s).

Definition run_rna_pca : step :=
  step_compute (filter_changed || st_changed run_rna_normalization
                || st_changed run_feature_selection)
    (p_rna_pca p) (rna_pca s).

Definition run_adt_pca : step :=
  step_compute (filter_changed || st_changed run_adt_normalization)
    (p_adt_pca p) (adt_pca s).

Definition run_crispr_pca : CrisprPca.summary :=
  CrisprPca.compute_summary (st_changed run_crispr_normalization)
    (has_modality run_inputs CellFiltering.CRISPR) (p_crispr_pca p) (crispr_pca s).

Definition run_combine_embeddings : step :=
  step_compute (st_changed run_rna_pca || st_changed run_adt_pca
                || CrisprPca.s_changed run_crispr_pca)
    (p_combine_embeddings p) (combine_embeddings s).

Definition run_batch_correction : step :=
  step_compute (filter_changed || st_changed run_combine_embeddings)
    (p_batch_correction p) (batch_correction s).

Definition run_neighbor_index : step :=
  step_compute (st_changed run_batch_correction) (p_neighbor_index p) (neighbor_index s).

(** Visualization *)
Definition run_tsne : step :=
  step_compute (st_changed run_neighbor_index) (p_tsne p) (tsne s).

Definition run_umap : step :=
  step_compute (st_changed run_neighbor_index) (p_umap p) (umap s).

(** Clustering *)
Definition method : string := p_choose_clustering_method p.

Definition run_kmeans_cluster : step :=
  cluster_compute (String.eqb method "kmeans") (st_changed run_batch_correction)
    (p_kmeans_cluster p) (kmeans_cluster s).

Definition run_snn_graph_cluster : step :=
  cluster_compute (String.eqb method "snn_graph") (st_changed run_neighbor_index)
    (p_snn_graph_cluster p) (snn_graph_cluster s).

Definition run_choose_clustering : choice_step :=
  choice_compute (st_changed run_snn_graph_cluster) (st_changed run_kmeans_cluster)
    method (choose_clustering s).

(** Markers and labels *)
Definition norms_changed : bool :=
  st_changed run_rna_normalization || st_changed run_adt_normalization
  || st_changed run_crispr_normalization.

Definition run_marker_detection : step :=
  step_compute (filter_changed || norms_changed || ch_changed run_choose_clustering)
    (p_marker_detection p) (marker_detection s).

(** What the cell labelling reads from the inputs and from the marker
    detection; the groups and their means are not read before the
    copies of the reference lists are made. *)
Definition labelling_upstream : CellLabelling.upstream :=
  {| CellLabelling.inputs_changed := in_changed run_inputs;
     CellLabelling.genes :=
       match in_datasets run_inputs with Some d => ds_genes d | None => [] end;
     CellLabelling.gene_types :=
       match in_datasets run_inputs with Some d => ds_gene_types d | None => [] end;
     CellLabelling.markers_changed := st_changed run_marker_detection;
     CellLabelling.numberOfGroups := 0;
     CellLabelling.group_means := fun _ => [] |}.

Definition run_cell_labelling : Wasm.outcome labelling_step :=
  labelling_compute labelling_upstream (ParameterObject (ref (p_cell_labelling p)))
    NoReferences (cell_labelling s).

(** The custom selections are computed before the enrichment step and
    see the flag that its last run left. *)
Definition run_custom_selections : step :=
  step_compute (filter_changed || norms_changed
                || FeatureSetEnrichment.changed (feature_set_enrichment s))
    (p_custom_selections p) (custom_selections s).

Definition run_feature_set_enrichment : FeatureSetEnrichment.state :=
  FeatureSetEnrichment.compute
    {| FeatureSetEnrichment.inputs_changed := in_changed run_inputs;
       FeatureSetEnrichment.has_rna := has_modality run_inputs CellFiltering.RNA;
       FeatureSetEnrichment.feature_guesses :=
         match in_datasets run_inputs with
         | Some d => ds_guesses d
         | None => FeatureSetEnrichment.no_guesses
         end |}
    (p_feature_set_enrichment p) (feature_set_enrichment s).

(** The state that the run leaves when the cell labelling throws: the
    steps after it have not been computed. *)
Definition stopped_at_labelling (l : labelling_step) : state :=
  {| inputs := run_inputs;
     rna_quality_control := run_rna_quality_control;
     adt_quality_control := run_adt_quality_control;
     crispr_quality_control := run_crispr_quality_control;
     cell_filtering := run_cell_filtering;
     rna_normalization := run_rna_normalization;
     adt_normalization := run_adt_normalization;
     crispr_normalization := run_crispr_normalization;
     feature_selection := run_feature_selection;
     rna_pca := run_rna_pca;
     adt_pca := run_adt_pca;
     crispr_pca := run_crispr_pca;
     combine_embeddings := run_combine_embeddings;
     batch_correction := run_batch_correction;
     neighbor_index := run_neighbor_index;
     tsne := run_tsne;
     umap := run_umap;
     kmeans_cluster := run_kmeans_cluster;
     snn_graph_cluster := run_snn_graph_cluster;
     choose_clustering := run_choose_clustering;
     marker_detection := run_marker_detection;
     cell_labelling := l;
     custom_selections := custom_selections s;
     feature_set_enrichment := feature_set_enrichment s;
     (* delete state[load_flag] *)
     load_flag := false |}.

Definition completed (l : labelling_step) : state :=
  {| inputs := run_inputs;
     rna_quality_control := run_rna_quality_control;
     adt_quality_control := run_adt_quality_control;
     crispr_quality_control := run_crispr_quality_control;
     cell_filtering := run_cell_filtering;
     rna_normalization := run_rna_normalization;
     adt_normalization := run_adt_normalization;
     crispr_normalization := run_crispr_normalization;
     feature_selection := run_feature_selection;
     rna_pca := run_rna_pca;
     adt_pca := run_adt_pca;
     crispr_pca := run_crispr_pca;
     combine_embeddings := run_combine_embeddings;
     batch_correction := run_batch_correction;
     neighbor_index := run_neighbor_index;
     tsne := run_tsne;
     umap := run_umap;
     kmeans_cluster := run_kmeans_cluster;
     snn_graph_cluster := run_snn_graph_cluster;
     choose_clustering := run_choose_clustering;
     marker_detection := run_marker_detection;
     cell_labelling := l;
     custom_selections := run_custom_selections;
     feature_set_enrichment := run_feature_set_enrichment;
     (* delete state[load_flag] *)
     load_flag := false |}.

(** The promise of [runAnalysis]: rejected with what the cell labelling
    throws, resolved otherwise; the state is changed in place either
    way. *)
Definition runAnalysis : Wasm.outcome state :=
  match run_cell_labelling with
  | Wasm.Thrown e l => Wasm.Thrown e (stopped_at_labelling l)
  | Wasm.Returned l => Wasm.Returned (completed l)
  end.

End Run.

(** *** [loadAnalysis]

    Every step is rebuilt by the [unserialize] function of its module,
    which is given the handle of the state file and the steps that the
    new step refers to; a step is stored under its name as soon as it
    is made, and the first [unserialize] that throws rejects the
    promise.  The functions are listed in the order of the calls. *)
Record unserializers : Type := {
  inputs_unserialize : result inputs_step;
  qc_unserialize : inputs_step -> result step;
  qcadt_unserialize : inputs_step -> result step;
  qccrispr_unserialize : inputs_step -> result step;
  filters_unserialize : inputs_step -> step -> step -> step -> result filter_step;
  normalization_unserialize : step -> filter_step -> result step;
  normadt_unserialize : step -> filter_step -> result step;
  normcrispr_unserialize : step -> filter_step -> result step;
  variance_unserialize : filter_step -> step -> result step;
  pca_unserialize : filter_step -> step -> step -> result step;
  pcaadt_unserialize : filter_step -> step -> result step;
  pcacrispr_unserialize : filter_step -> step -> result CrisprPca.summary;
  combine_unserialize : step -> step -> CrisprPca.summary -> result step;
  correct_unserialize : filter_step -> step -> result step;
  index_unserialize : step -> result step;
  tsne_unserialize : step -> result step;
  umap_unserialize : step -> result step;
  kmeans_cluster_unserialize : step -> result step;
  snn_cluster_unserialize : step -> result step;
  cluster_choice_unserialize : step -> step -> result choice_step;
  cluster_markers_unserialize : filter_step -> step -> step -> step -> choice_step
                                -> result step;
  label_cells_unserialize : inputs_step -> step -> result labelling_step;
  feature_set_enrichment_unserialize : inputs_step -> filter_step -> step -> step
                                       -> result FeatureSetEnrichment.state;
  custom_markers_unserialize : filter_step -> step -> step -> step
                               -> FeatureSetEnrichment.state -> result step
}.

Definition loadAnalysis (u : unserializers) : result state :=
  (* Loading *)
  i <- inputs_unserialize u ;;
  (* Quality control *)
  qc <- qc_unserialize u i ;;
  qc_adt <- qcadt_unserialize u i ;;
  qc_crispr <- qccrispr_unserialize u i ;;
  filter <- filters_unserialize u i qc qc_adt qc_crispr ;;
  (* Normalization *)
  norm <- normalization_unserialize u qc filter ;;
  norm_adt <- normadt_unserialize u qc_adt filter ;;
  norm_crispr <- normcrispr_unserialize u qc_crispr filter ;;
  (* Feature selection *)
  feat <- variance_unserialize u filter norm ;;
  (* Dimensionality reduction *)
  pcs <- pca_unserialize u filter norm feat ;;
  pcs_adt <- pcaadt_unserialize u filter norm_adt ;;
  pcs_crispr <- pcacrispr_unserialize u filter norm_crispr ;;
  combined <- combine_unserialize u pcs pcs_adt pcs_crispr ;;
  corrected <- correct_unserialize u filter combined ;;
  (* Nearest neighbors *)
  neighbors <- index_unserialize u corrected ;;
  (* Visualization *)
  t <- tsne_unserialize u neighbors ;;
  um <- umap_unserialize u neighbors ;;
  (* Clustering *)
  kmeans <- kmeans_cluster_unserialize u corrected ;;
  snn <- snn_cluster_unserialize u neighbors ;;
  choice <- cluster_choice_unserialize u snn kmeans ;;
  (* Markers and labels *)
  markers <- cluster_markers_unserialize u filter norm norm_adt norm_crispr choice ;;
  labels <- label_cells_unserialize u i markers ;;
  enrichment <- feature_set_enrichment_unserialize u i filter norm markers ;;
  custom <- custom_markers_unserialize u filter norm norm_adt norm_crispr enrichment ;;
  Ret {| inputs := i;
         rna_quality_control := qc;
         adt_quality_control := qc_adt;
         crispr_quality_control := qc_crispr;
         cell_filtering := filter;
         rna_normalization := norm;
         adt_normalization := norm_adt;
         crispr_normalization := norm_crispr;
         feature_selection := feat;
         rna_pca := pcs;
         adt_pca := pcs_adt;
         crispr_pca := pcs_crispr;
         combine_embeddings := combined;
         batch_correction := corrected;
         neighbor_index := neighbors;
         tsne := t;
         umap := um;
         kmeans_cluster := kmeans;
         snn_graph_cluster := snn;
         choose_clustering := choice;
         marker_detection := markers;
         cell_labelling := labels;
         custom_selections := custom;
         feature_set_enrichment := enrichment;
         (* Adding a tripwire for runAnalysis. *)
         load_flag := true |}.

(** *** The [unserialize] functions that are among the sources

    They are given on the part of the state that the orchestrator looks
    at.  The group of a step in the state file is given by the data
    sets that [unserialize] reads, each with the content that
    [serialize] writes; a group or a data set that the file does not
    have is [None], and opening it throws. *)
Definition open_child {A : Type} (name : string) (child : option A) : result A :=
  match child with
  | Some a => Ret a
  | None => Throw (Error ("no child named '" ++ name ++ "'"))
  end.

(** steps/cell_filtering.js.  The file is read as in
    [CellFilteringMore.unserialize]; without saved discards, more than
    one usable quality control step is an error. *)
Definition cell_filtering_unserialize (handle : CellFiltering.h5_node)
    (valid : CellFiltering.modality -> bool) : result filter_step :=
  loaded <- CellFilteringMore.read_file handle ;;
  let parameters := fst loaded in
  let output :=
    Ret {| f_params := of_arguments parameters; f_changed := false |} in
  match snd loaded with
  | Some discards => output
  | None =>
      match List.filter (CellFiltering.in_use parameters)
                        (List.filter valid
                           [CellFiltering.RNA; CellFiltering.ADT; CellFiltering.CRISPR]) with
      | _ :: _ :: _ =>
          Throw (Error "no more than one upstream QC state should be valid if 'discards' is not available")
      | _ => output
      end
  end.

(** steps/crispr_pca.js *)
Record crispr_pca_parameters_group : Type := {
  g_num_pcs : option (list Z);
  g_block_method : option (list string)
}.

Record crispr_pca_results_group : Type := {
  g_var_exp : option (list Q);
  g_pcs : option (list Q)
}.

Record crispr_pca_group : Type := {
  g_crispr_pca_parameters : option crispr_pca_parameters_group;
  g_crispr_pca_results : option crispr_pca_results_group
}.

Definition crispr_pca_unserialize (group : option crispr_pca_group)
  : result CrisprPca.summary :=
  match group with
  | Some ghandle =>
      phandle <- open_child "parameters" (g_crispr_pca_parameters ghandle) ;;
      num_pcs <- open_child "num_pcs" (g_num_pcs phandle) ;;
      block_method <- open_child "block_method" (g_block_method phandle) ;;
      rhandle <- open_child "results" (g_crispr_pca_results ghandle) ;;
      pcs <- match g_var_exp rhandle with
             | Some var_exp => open_child "pcs" (g_pcs rhandle)
             | None => Ret []
             end ;;
      Ret {| CrisprPca.s_params :=
               {| CrisprPca.num_pcs := head num_pcs;
                  CrisprPca.block_method := head block_method |};
             CrisprPca.s_changed := false |}
  | None =>
      Ret {| CrisprPca.s_params := CrisprPca.store CrisprPca.defaults;
             CrisprPca.s_changed := false |}
  end.

(** steps/cell_labelling.js *)
Record cell_labelling_parameters_group : Type := {
  g_mouse_references : option (list string);
  g_human_references : option (list string)
}.

Record cell_labelling_results_group : Type := {
  g_per_reference : option (list (string * list string));
  g_integrated : option (list string)
}.

Record cell_labelling_group : Type := {
  g_cell_labelling_parameters : option cell_labelling_parameters_group;
  g_cell_labelling_results : option cell_labelling_results_group
}.

Definition cell_labelling_unserialize (group : option cell_labelling_group)
  : result labelling_step :=
  match group with
  | Some ghandle =>
      phandle <- open_child "parameters" (g_cell_labelling_parameters ghandle) ;;
      mouse_references <- open_child "mouse_references" (g_mouse_references phandle) ;;
      human_references <- open_child "human_references" (g_human_references phandle) ;;
      rhandle <- open_child "results" (g_cell_labelling_results ghandle) ;;
      perhandle <- open_child "per_reference" (g_per_reference rhandle) ;;
      Ret {| lb_params :=
               {| CellLabelling.human_references := Some human_references;
                  CellLabelling.mouse_references := Some mouse_references |};
             lb_features := None; lb_feature_details := None; lb_changed := false |}
  | None =>
      (* Protect against old analysis states that don't have cell_labelling. *)
      Ret {| lb_params :=
               {| CellLabelling.human_references := Some [];
                  CellLabelling.mouse_references := Some [] |};
             lb_features := None; lb_feature_details := None; lb_changed := false |}
  end.

(** steps/feature_set_enrichment.js.  The parameters also get the
    property [collections], which [compute] does not read and the
    record of the parameters has no field for; the manager is a new
    one. *)
Record enrichment_parameters_group : Type := {
  g_collections : option (list string);
  g_gene_id_column : option (list FeatureSetEnrichment.column);
  g_gene_id_type : option (list string);
  g_top_markers : option (list Z)
}.

Record enrichment_group : Type := {
  g_enrichment_parameters : option enrichment_parameters_group
}.

Definition enrichment_unserialize (group : option enrichment_group)
  : result FeatureSetEnrichment.state :=
  match group with
  | Some ghandle =>
      phandle <- open_child "parameters" (g_enrichment_parameters ghandle) ;;
      collections <- open_child "collections" (g_collections phandle) ;;
      gene_id_column <- open_child "gene_id_column" (g_gene_id_column phandle) ;;
      gene_id_type <- open_child "gene_id_type" (g_gene_id_type phandle) ;;
      top_markers <- open_child "top_markers" (g_top_markers phandle) ;;
      Ret {| FeatureSetEnrichment.params :=
               {| FeatureSetEnrichment.skip := None;
                  FeatureSetEnrichment.automatic := None;
                  FeatureSetEnrichment.species := None;
                  FeatureSetEnrichment.gene_id_column := Some <$> head gene_id_column;
                  FeatureSetEnrichment.gene_id_type := head gene_id_type;
                  FeatureSetEnrichment.top_markers := head top_markers |};
             FeatureSetEnrichment.manager := None;
             FeatureSetEnrichment.changed := false |}
  | None => Ret FeatureSetEnrichment.constructor
  end.

(** The groups of the state file that these four functions read. *)
Record state_file : Type := {
  file_handle : CellFiltering.h5_node;
  file_crispr_pca : option crispr_pca_group;
  file_cell_labelling : option cell_labelling_group;
  file_feature_set_enrichment : option enrichment_group
}.

(** Modelled from the spec: the [unserialize] functions of the steps
    whose source is not among the files rebuild the step from the
    persisted container without recomputing: parameters and results are
    the persisted ones and [changed] is false.  What the container
    holds for these steps is given by the entries of a saved state. *)
Definition unserialize_step (saved : step) : step :=
  {| st_params := st_params saved; st_results := st_results saved; st_changed := false |}.

Definition unserialize_inputs (saved : inputs_step) : inputs_step :=
  {| in_datasets := in_datasets saved; in_params := in_params saved; in_changed := false |}.

Definition unserialize_choice (saved : choice_step) : choice_step :=
  {| ch_method := ch_method saved; ch_changed := false |}.

(** The functions that [loadAnalysis] calls on a state file. *)
Definition source_unserializers (file : state_file) (saved : state) : unserializers :=
  {| inputs_unserialize := Ret (unserialize_inputs (inputs saved));
     qc_unserialize := fun _ => Ret (unserialize_step (rna_quality_control saved));
     qcadt_unserialize := fun _ => Ret (unserialize_step (adt_quality_control saved));
     qccrispr_unserialize := fun _ => Ret (unserialize_step (crispr_quality_control saved));
     filters_unserialize := fun i _ _ _ =>
       cell_filtering_unserialize (file_handle file) (has_modality i);
     normalization_unserialize := fun _ _ => Ret (unserialize_step (rna_normalization saved));
     normadt_unserialize := fun _ _ => Ret (unserialize_step (adt_normalization saved));
     normcrispr_unserialize := fun _ _ =>
       Ret (unserialize_step (crispr_normalization saved));
     variance_unserialize := fun _ _ => Ret (unserialize_step (feature_selection saved));
     pca_unserialize := fun _ _ _ => Ret (unserialize_step (rna_pca saved));
     pcaadt_unserialize := fun _ _ => Ret (unserialize_step (adt_pca saved));
     pcacrispr_unserialize := fun _ _ => crispr_pca_unserialize (file_crispr_pca file);
     combine_unserialize := fun _ _ _ => Ret (unserialize_step (combine_embeddings saved));
     correct_unserialize := fun _ _ => Ret (unserialize_step (batch_correction saved));
     index_unserialize := fun _ => Ret (unserialize_step (neighbor_index saved));
     tsne_unserialize := fun _ => Ret (unserialize_step (tsne saved));
     umap_unserialize := fun _ => Ret (unserialize_step (umap saved));
     kmeans_cluster_unserialize := fun _ => Ret (unserialize_step (kmeans_cluster saved));
     snn_cluster_unserialize := fun _ => Ret (unserialize_step (snn_graph_cluster saved));
     cluster_choice_unserialize := fun _ _ =>
       Ret (unserialize_choice (choose_clustering saved));
     cluster_markers_unserialize := fun _ _ _ _ _ =>
       Ret (unserialize_step (marker_detection saved));
     label_cells_unserialize := fun _ _ =>
       cell_labelling_unserialize (file_cell_labelling file);
     feature_set_enrichment_unserialize := fun _ _ _ _ =>
       enrichment_unserialize (file_feature_set_enrichment file);
     custom_markers_unserialize := fun _ _ _ _ _ =>
       Ret (unserialize_step (custom_selections saved)) |}.

(** The [changed] flags of all the steps after the inputs. *)
Definition downstream_changed (s : state) : list (string * bool) :=
  [("rna_quality_control", st_changed (rna_quality_control s));
   ("adt_quality_control", st_changed (adt_quality_control s));
   ("crispr_quality_control", st_changed (crispr_quality_control s));
   ("cell_filtering", f_changed (cell_filtering s));
   ("rna_normalization", st_changed (rna_normalization s));
   ("adt_normalization", st_changed (adt_normalization s));
   ("crispr_normalization", st_changed (crispr_normalization s));
   ("feature_selection", st_changed (feature_selection s));
   ("rna_pca", st_changed (rna_pca s));
   ("adt_pca", st_changed (adt_pca s));
   ("crispr_pca", CrisprPca.s_changed (crispr_pca s));
   ("combine_embeddings", st_changed (combine_embeddings s));
   ("batch_correction", st_changed (batch_correction s));
   ("neighbor_index", st_changed (neighbor_index s));
   ("tsne", st_changed (tsne s));
   ("umap", st_changed (umap s));
   ("kmeans_cluster", st_changed (kmeans_cluster s));
   ("snn_graph_cluster", st_changed (snn_graph_cluster s));
   ("choose_clustering", ch_changed (choose_clustering s));
   ("marker_detection", st_changed (marker_detection s));
   ("cell_labelling", lb_changed (cell_labelling s));
   ("custom_selections", st_changed (custom_selections s));
   ("feature_set_enrichment", FeatureSetEnrichment.changed (feature_set_enrichment s))].

(** The flags of the steps that a run computes before it reaches the
    cell labelling. *)
Definition computed_changed (s : state) : list (string * bool) :=
  [("rna_quality_control", st_changed (rna_quality_control s));
   ("adt_quality_control", st_changed (adt_quality_control s));
   ("crispr_quality_control", st_changed (crispr_quality_control s));
   ("cell_filtering", f_changed (cell_filtering s));
   ("rna_normalization", st_changed (rna_normalization s));
   ("adt_normalization", st_changed (adt_normalization s));
   ("crispr_normalization", st_changed (crispr_normalization s));
   ("feature_selection", st_changed (feature_selection s));
   ("rna_pca", st_changed (rna_pca s));
   ("adt_pca", st_changed (adt_pca s));
   ("crispr_pca", CrisprPca.s_changed (crispr_pca s));
   ("combine_embeddings", st_changed (combine_embeddings s));
   ("batch_correction", st_changed (batch_correction s));
   ("neighbor_index", st_changed (neighbor_index s));
   ("tsne", st_changed (tsne s));
   ("umap", st_changed (umap s));
   ("kmeans_cluster", st_changed (kmeans_cluster s));
   ("snn_graph_cluster", st_changed (snn_graph_cluster s));
   ("choose_clustering", ch_changed (choose_clustering s));
   ("marker_detection", st_changed (marker_detection s))].

(** Two parameter sets agree on the inputs and on every step up to the
    embeddings; for the cell filtering, they hold the same object. *)
Definition same_basic (p p' : parameters) : Prop :=
  p_inputs p' = p_inputs p /\
  p_rna_quality_control p' = p_rna_quality_control p /\
  p_adt_quality_control p' = p_adt_quality_control p /\
  p_crispr_quality_control p' = p_crispr_quality_control p /\
  p_cell_filtering p' = p_cell_filtering p /\
  p_rna_normalization p' = p_rna_normalization p /\
  p_adt_normalization p' = p_adt_normalization p /\
  p_crispr_normalization p' = p_crispr_normalization p /\
  p_feature_selection p' = p_feature_selection p /\
  p_rna_pca p' = p_rna_pca p /\
  p_adt_pca p' = p_adt_pca p /\
  p_crispr_pca p' = p_crispr_pca p /\
  p_combine_embeddings p' = p_combine_embeddings p /\
  p_batch_correction p' = p_batch_correction p /\
  p_neighbor_index p' = p_neighbor_index p /\
  p_tsne p' = p_tsne p /\
  p_umap p' = p_umap p.

(** The flags of the inputs and of every step up to the embeddings. *)
Definition basic_changed (s : state) : list bool :=
  [in_changed (inputs s);
   st_changed (rna_quality_control s);
   st_changed (adt_quality_control s);
   st_changed (crispr_quality_control s);
   f_changed (cell_filtering s);
   st_changed (rna_normalization s);
   st_changed (adt_normalization s);
   st_changed (crispr_normalization s);
   st_changed (feature_selection s);
   st_changed (rna_pca s);
   st_changed (adt_pca s);
   CrisprPca.s_changed (crispr_pca s);
   st_changed (combine_embeddings s);
   st_changed (batch_correction s);
   st_changed (neighbor_index s);
   st_changed (tsne s);
   st_changed (umap s)].

(** The parameter object changed in place: another clustering method,
    or other parameters for the SNN graph clustering. *)
Definition with_method (p : parameters) (method : string) : parameters :=
  {| p_inputs := p_inputs p;
     p_rna_quality_control := p_rna_quality_control p;
     p_adt_quality_control := p_adt_quality_control p;
     p_crispr_quality_control := p_crispr_quality_control p;
     p_cell_filtering := p_cell_filtering p;
     p_rna_normalization := p_rna_normalization p;
     p_adt_normalization := p_adt_normalization p;
     p_crispr_normalization := p_crispr_normalization p;
     p_feature_selection := p_feature_selection p;
     p_rna_pca := p_rna_pca p;
     p_adt_pca := p_adt_pca p;
     p_crispr_pca := p_crispr_pca p;
     p_combine_embeddings := p_combine_embeddings p;
     p_batch_correction := p_batch_correction p;
     p_neighbor_index := p_neighbor_index p;
     p_tsne := p_tsne p;
     p_umap := p_umap p;
     p_kmeans_cluster := p_kmeans_cluster p;
     p_snn_graph_cluster := p_snn_graph_cluster p;
     p_choose_clustering_method := method;
     p_marker_detection := p_marker_detection p;
     p_cell_labelling := p_cell_labelling p;
     p_custom_selections := p_custom_selections p;
     p_feature_set_enrichment := p_feature_set_enrichment p |}.

Definition with_snn (p : parameters) (snn : record) : parameters :=
  {| p_inputs := p_inputs p;
     p_rna_quality_control := p_rna_quality_control p;
     p_adt_quality_control := p_adt_quality_control p;
     p_crispr_quality_control := p_crispr_quality_control p;
     p_cell_filtering := p_cell_filtering p;
     p_rna_normalization := p_rna_normalization p;
     p_adt_normalization := p_adt_normalization p;
     p_crispr_normalization := p_crispr_normalization p;
     p_feature_selection := p_feature_selection p;
     p_rna_pca := p_rna_pca p;
     p_adt_pca := p_adt_pca p;
     p_crispr_pca := p_crispr_pca p;
     p_combine_embeddings := p_combine_embeddings p;
     p_batch_correction := p_batch_correction p;
     p_neighbor_index := p_neighbor_index p;
     p_tsne := p_tsne p;
     p_umap := p_umap p;
     p_kmeans_cluster := p_kmeans_cluster p;
     p_snn_graph_cluster := snn;
     p_choose_clustering_method := p_choose_clustering_method p;
     p_marker_detection := p_marker_detection p;
     p_cell_labelling := p_cell_labelling p;
     p_custom_selections := p_custom_selections p;
     p_feature_set_enrichment := p_feature_set_enrichment p |}.

(** The parameters with another object for the cell filtering. *)
Definition with_filter (p : parameters) (o : object CellFiltering.arguments)
  : parameters :=
  {| p_inputs := p_inputs p;
     p_rna_quality_control := p_rna_quality_control p;
     p_adt_quality_control := p_adt_quality_control p;
     p_crispr_quality_control := p_crispr_quality_control p;
     p_cell_filtering := o;
     p_rna_normalization := p_rna_normalization p;
     p_adt_normalization := p_adt_normalization p;
     p_crispr_normalization := p_crispr_normalization p;
     p_feature_selection := p_feature_selection p;
     p_rna_pca := p_rna_pca p;
     p_adt_pca := p_adt_pca p;
     p_crispr_pca := p_crispr_pca p;
     p_combine_embeddings := p_combine_embeddings p;
     p_batch_correction := p_batch_correction p;
     p_neighbor_index := p_neighbor_index p;
     p_tsne := p_tsne p;
     p_umap := p_umap p;
     p_kmeans_cluster := p_kmeans_cluster p;
     p_snn_graph_cluster := p_snn_graph_cluster p;
     p_choose_clustering_method := p_choose_clustering_method p;
     p_marker_detection := p_marker_detection p;
     p_cell_labelling := p_cell_labelling p;
     p_custom_selections := p_custom_selections p;
     p_feature_set_enrichment := p_feature_set_enrichment p |}.

(** Example: a dataset with RNA only, and default-like parameters. *)
Definition rna_only : dataset :=
  {| ds_id := 1%Z; ds_rna := true; ds_adt := false; ds_crispr := false;
     ds_genes := [("id", ["ENSG00000132639"; "ENSG00000251562"])];
     ds_gene_types :=
       [("id", {| CellLabelling.gt_type := "ensembl"; CellLabelling.gt_species := "human";
                  CellLabelling.gt_confidence := 1%Q |})];
     ds_guesses := FeatureSetEnrichment.no_guesses |}.

Definition base_parameters : parameters :=
  {| p_inputs := [("block_factor", VNull)];
     p_rna_quality_control := [("nmads", VNumber 3)];
     p_adt_quality_control := [("nmads", VNumber 3)];
     p_crispr_quality_control := [("nmads", VNumber 3)];
     p_cell_filtering := {| ref := 1; content := CellFiltering.use_all |};
     p_rna_normalization := [];
     p_adt_normalization := [];
     p_crispr_normalization := [];
     p_feature_selection := [("span", VNumber 3)];
     p_rna_pca := [("num_pcs", VNumber 20)];
     p_adt_pca := [("num_pcs", VNumber 20)];
     p_crispr_pca := CrisprPca.defaults;
     p_combine_embeddings := [];
     p_batch_correction := [("method", VString "none")];
     p_neighbor_index := [("approximate", VBool true)];
     p_tsne := [("perplexity", VNumber 30)];
     p_umap := [("num_neighbors", VNumber 15)];
     p_kmeans_cluster := [("k", VNumber 10)];
     p_snn_graph_cluster := [("k", VNumber 10); ("resolution", VNumber 1)];
     p_choose_clustering_method := "snn_graph";
     p_marker_detection := [];
     p_cell_labelling := {| ref := 2; content := CellLabelling.blueprint |};
     p_custom_selections := [];
     p_feature_set_enrichment :=
       {| FeatureSetEnrichment.arg_skip := false;
          FeatureSetEnrichment.arg_automatic := true;
          FeatureSetEnrichment.arg_species := [];
          FeatureSetEnrichment.arg_gene_id_column := None;
          FeatureSetEnrichment.arg_gene_id_type := "ENSEMBL";
          FeatureSetEnrichment.arg_top_markers := 100%Z |} |}.

(** A copy of the parameter object of the cell filtering. *)
Definition filter_copy : object CellFiltering.arguments :=
  {| ref := 3; content := CellFiltering.use_all |}.

(** The state that a first run on that dataset leaves, and a state file
    without the groups of the four steps. *)
Definition saved_rna_only : state :=
  Wasm.final (runAnalysis create_analysis (Some rna_only) base_parameters).

Definition old_file : state_file :=
  {| file_handle := CellFiltering.H5Group [];
     file_crispr_pca := None;
     file_cell_labelling := None;
     file_feature_set_enrichment := None |}.

Definition reloaded_rna_only : result state :=
  loadAnalysis (source_unserializers old_file saved_rna_only).

End Analysis.

(* ================================================================== *)
(** * Properties *)
(* ================================================================== *)

Section DumpListFacts.
Import DumpList.

Lemma scan_all_strings xs b :
  forallb is_string xs = true ->
  fold_left scan_step xs (true, b) = (true, match xs with [] => b | _ => false end).
Proof.
  revert b. induction xs as [|e xs IH]; intros b H; [reflexivity|].
  cbn in H. apply andb_true_iff in H as [He Hxs].
  destruct e; try discriminate. cbn [fold_left scan_step].
  rewrite (IH false Hxs). destruct xs; reflexivity.
Qed.

Lemma scan_no_strings xs a :
  forallb (fun e => negb (is_string e)) xs = true ->
  snd (fold_left scan_step xs (a, true)) = true.
Proof.
  revert a. induction xs as [|e xs IH]; intros a H; [reflexivity|].
  cbn in H. apply andb_true_iff in H as [He Hxs].
  destruct e; try discriminate; cbn [fold_left scan_step]; apply IH; exact Hxs.
Qed.

Lemma dump_internal_nonempty_array xs :
  xs <> [] -> dump_internal (JArray xs) = Throw (ReferenceError "v").
Proof.
  intros Hne. destruct xs as [|e xs]; [congruence|].
  cbn [dump_internal]. destruct (scan (e :: xs)) as [[] []]; reflexivity.
Qed.

End DumpListFacts.

(** C10.  A non-empty array whose elements are all strings keeps the
  all-strings flag, one that holds no string keeps the all-booleans
  flag; in both cases [dump_internal], and with it [dumpList], throws
  the ReferenceError for the undeclared [v] and returns nothing.  A
  value of an unsupported type makes the last branch throw the
  ReferenceError for the undeclared [k] in place of its own error. *)
Theorem C10_dump_internal_throws :
(forall xs path,
    xs <> [] ->
    (forallb DumpList.is_string xs = true \/
     forallb (fun e => negb (DumpList.is_string e)) xs = true) ->
    (forallb DumpList.is_string xs = true -> fst (DumpList.scan xs) = true) /\
    (forallb (fun e => negb (DumpList.is_string e)) xs = true ->
     snd (DumpList.scan xs) = true) /\
    DumpList.dump_internal (DumpList.JArray xs) = Throw (ReferenceError "v") /\
    DumpList.dumpList (DumpList.JArray xs) path = Throw (ReferenceError "v")) /\
(forall x path,
    DumpList.unsupported x = true ->
    DumpList.dump_internal x = Throw (ReferenceError "k") /\
    DumpList.dumpList x path = Throw (ReferenceError "k")).
Proof.
split.
- intros xs path Hne _. repeat split.
  + intros H. unfold DumpList.scan. rewrite (scan_all_strings xs true H). reflexivity.
  + intros H. unfold DumpList.scan. apply scan_no_strings. exact H.
  + apply dump_internal_nonempty_array. exact Hne.
  + unfold DumpList.dumpList. rewrite (dump_internal_nonempty_array xs Hne). reflexivity.
- intros x path H. destruct x; try discriminate; split; reflexivity.
Qed.

Lemma C10_dump_internal_throws_witness :
DumpList.dumpList (DumpList.JArray [DumpList.JStr "a"; DumpList.JStr "b"]) (Some "out")
  = Throw (ReferenceError "v") /\
DumpList.dumpList (DumpList.JArray [DumpList.JBool true; DumpList.JNull]) (Some "out")
  = Throw (ReferenceError "v") /\
DumpList.dump_internal DumpList.JNull = Throw (ReferenceError "k").
Proof.
destruct C10_dump_internal_throws as [Harr Hfb].
split; [|split].
- apply (Harr [DumpList.JStr "a"; DumpList.JStr "b"] (Some "out")).
  + discriminate.
  + left. reflexivity.
- apply (Harr [DumpList.JBool true; DumpList.JNull] (Some "out")).
  + discriminate.
  + right. reflexivity.
- apply (Hfb DumpList.JNull None). reflexivity.
Defined.

Section FeaturesFacts.
Import Features.

Lemma is_subset_noop_identity n :
  is_subset_noop (IdxNumbers (map Z.of_nat (seq 0 n))) n = Ret true.
Proof.
  unfold is_subset_noop. rewrite length_map, length_seq, Nat.eqb_refl. cbn [negb].
  f_equal. apply forallb_forall. intros i Hi. apply in_seq in Hi.
  unfold idx_get. rewrite nth_error_map, nth_error_seq.
  destruct (Nat.ltb_spec i n) as [_|Hge]; [|lia].
  cbn. rewrite Z.eqb_refl. reflexivity.
Qed.

Lemma is_subset_noop_string s n :
  n <> 0 -> is_subset_noop (IdxString s) n = Ret false.
Proof.
  intros Hn. unfold is_subset_noop.
  destruct (String.length s =? n)%nat eqn:Hlen; cbn [negb]; [|reflexivity].
  apply Nat.eqb_eq in Hlen. f_equal.
  destruct n as [|n]; [congruence|]. cbn [seq forallb].
  destruct s as [|c s]; [discriminate|]. reflexivity.
Qed.

Lemma presplit_constant_aux t (n start : nat) (acc : list Z) :
  fold_left (fun by_f '(i, x) => add_position x (Z.of_nat i) by_f)
            (combine (seq start n) (repeat t n)) [(t, acc)]
  = [(t, acc ++ map Z.of_nat (seq start n))].
Proof.
  revert start acc. induction n as [|n IH]; intros start acc; cbn.
  - rewrite app_nil_r. reflexivity.
  - rewrite String.eqb_refl. rewrite IH. rewrite <- app_assoc. reflexivity.
Qed.

Lemma presplit_constant t n :
  n <> 0 -> presplitFactor (repeat t n) = [(t, map Z.of_nat (seq 0 n))].
Proof.
  intros Hn. unfold presplitFactor. rewrite repeat_length.
  destruct n as [|n]; [congruence|].
  change (fold_left (fun by_f '(i, x) => add_position x (Z.of_nat i) by_f)
            (combine (seq 1 n) (repeat t n)) [(t, [0%Z])]
          = [(t, map Z.of_nat (seq 0 (S n)))]).
  rewrite (presplit_constant_aux t n 1 [0%Z]). reflexivity.
Qed.

End FeaturesFacts.

(** C8 (the code departs from it).  When the type column puts every row
    in one group, in order, the partition is the identity permutation;
    the short-circuit test is then run on the name of the group, not on
    its indices, and fails as soon as there is a row: the rows are split
    and the original matrix is freed, nothing is renamed. *)
Theorem C8_identity_partition_is_split :
  forall (m : Features.matrix) (raw : Features.DataFrame) (field t default : string),
    m <> [] ->
    Features.lookup_key field raw = Some (repeat t (List.length m)) ->
    Features.identity_partition (Features.presplitFactor (repeat t (List.length m)))
                                (List.length m) /\
    Features.is_subset_noop
      (Features.IdxNumbers (map Z.of_nat (seq 0 (List.length m)))) (List.length m) = Ret true /\
    fst (Features.splitScranMatrixAndFeatures
           {| Features.l_matrix := m; Features.l_row_ids := None |}
           raw (Some field) None default)
    = [Features.CallSplitRows; Features.CallFree].
Proof.
  intros m raw field t default Hm Hcol.
  assert (Hn : List.length m <> 0) by (destruct m; [congruence|discriminate]).
  split; [|split].
  - exists t. apply presplit_constant. exact Hn.
  - apply is_subset_noop_identity.
  - unfold Features.splitScranMatrixAndFeatures, Features.split_body.
    cbn [Features.l_matrix Features.l_row_ids]. rewrite Hcol.
    rewrite (presplit_constant t _ Hn). cbn [map fst].
    rewrite (is_subset_noop_string t _ Hn). reflexivity.
Qed.

Lemma C8_identity_partition_is_split_witness :
  fst (Features.splitScranMatrixAndFeatures
         {| Features.l_matrix := [[1%Z; 0%Z]; [0%Z; 2%Z]]; Features.l_row_ids := None |}
         [("id", ["g1"; "g2"]); ("type", ["Gene Expression"; "Gene Expression"])]
         (Some "type") None "RNA")
  = [Features.CallSplitRows; Features.CallFree].
Proof.
  apply (C8_identity_partition_is_split
           [[1%Z; 0%Z]; [0%Z; 2%Z]]
           [("id", ["g1"; "g2"]); ("type", ["Gene Expression"; "Gene Expression"])]
           "type" "Gene Expression" "RNA").
  - discriminate.
  - reflexivity.
Defined.

Section FeatureSetManagerFacts.
Import FeatureSetManager.

Lemma insert_overlap_Forall (P : overlap -> Prop) x l :
  P x -> Forall P l -> Forall P (insert_overlap x l).
Proof.
  intros Hx Hl. induction Hl as [|y l Hy Hl IH]; cbn.
  - constructor; [exact Hx|constructor].
  - destruct (Qle_bool (pvalue x) (pvalue y)).
    + constructor; [exact Hx|]. constructor; assumption.
    + constructor; assumption.
Qed.

Lemma insert_overlap_sorted x l :
  StronglySorted pvalue_le l -> StronglySorted pvalue_le (insert_overlap x l).
Proof.
  induction 1 as [|y l Hs IH Hy]; cbn.
  - constructor; constructor.
  - destruct (Qle_bool (pvalue x) (pvalue y)) eqn:Hxy.
    + apply Qle_bool_iff in Hxy. constructor.
      * constructor; assumption.
      * constructor; [exact Hxy|].
        eapply List.Forall_impl; [|exact Hy]. intros z Hz.
        unfold pvalue_le in *. eapply Qle_trans; eassumption.
    + constructor; [exact IH|].
      apply insert_overlap_Forall; [|exact Hy].
      unfold pvalue_le. destruct (Qlt_le_dec (pvalue y) (pvalue x)) as [Hlt|Hle].
      * apply Qlt_le_weak. exact Hlt.
      * apply Qle_bool_iff in Hle. congruence.
Qed.

Lemma sort_overlaps_sorted xs : StronglySorted pvalue_le (sort_overlaps xs).
Proof.
  induction xs as [|x xs IH]; cbn.
  - constructor.
  - apply insert_overlap_sorted. exact IH.
Qed.

Lemma insert_overlap_perm x l : Permutation (x :: l) (insert_overlap x l).
Proof.
  induction l as [|y l IH]; cbn.
  - apply Permutation_refl.
  - destruct (Qle_bool (pvalue x) (pvalue y)).
    + apply Permutation_refl.
    + eapply Permutation_trans; [apply perm_swap|]. apply perm_skip. exact IH.
Qed.

Lemma sort_overlaps_perm xs : Permutation xs (sort_overlaps xs).
Proof.
  induction xs as [|x xs IH]; cbn.
  - apply Permutation_refl.
  - eapply Permutation_trans; [apply perm_skip; exact IH|]. apply insert_overlap_perm.
Qed.

Lemma StronglySorted_map_pvalue l :
  StronglySorted pvalue_le l -> StronglySorted Qle (map pvalue l).
Proof.
  induction 1 as [|y l Hs IH Hy]; cbn; constructor.
  - exact IH.
  - apply List.Forall_map. exact Hy.
Qed.

Lemma in_filter_positions (keep : Q -> bool) (stats : list Q) (start i : nat) :
  In i (map fst (List.filter (fun '(i, x) => keep x)
                  (combine (seq start (List.length stats)) stats)))
  <-> exists x, nth_error stats (i - start) = Some x /\ start <= i /\ keep x = true.
Proof.
  revert start. induction stats as [|y stats IH]; intros start; cbn [List.length seq combine List.filter].
  - cbn. split; [tauto|]. intros (x & Hx & _). destruct (i - start); discriminate.
  - assert (Htail : In i (map fst (List.filter (fun '(i, x) => keep x)
                       (combine (seq (S start) (List.length stats)) stats)))
                    <-> exists x, nth_error (y :: stats) (i - start) = Some x /\
                                  S start <= i /\ keep x = true).
    { rewrite IH. split; intros (x & Hx & Hle & Hk); exists x; repeat split; try assumption.
      - replace (i - start) with (S (i - S start)) by lia. exact Hx.
      - replace (i - start) with (S (i - S start)) in Hx by lia. exact Hx. }
    destruct (keep y) eqn:Hy; cbn [map fst In]; rewrite Htail.
    + split.
      * intros [<-|(x & Hx & Hle & Hk)].
        -- exists y. rewrite Nat.sub_diag. repeat split; [lia|exact Hy].
        -- exists x. repeat split; [exact Hx|lia|exact Hk].
      * intros (x & Hx & Hle & Hk).
        destruct (Nat.eq_dec start i) as [->|Hne]; [left; reflexivity|].
        right. exists x. repeat split; [exact Hx|lia|exact Hk].
    + split.
      * intros (x & Hx & Hle & Hk). exists x. repeat split; [exact Hx|lia|exact Hk].
      * intros (x & Hx & Hle & Hk). exists x. repeat split; [exact Hx| |exact Hk].
        destruct (Nat.eq_dec start i) as [->|Hne]; [|lia].
        rewrite Nat.sub_diag in Hx. cbn in Hx. congruence.
Qed.

Lemma selected_positions_spec use_largest (floor threshold : Q) curstats i :
  In i (selected_positions use_largest floor threshold curstats)
  <-> exists x, nth_error curstats i = Some x /\
        if use_largest then (threshold <= x)%Q /\ (floor <= x)%Q
        else (x <= threshold)%Q.
Proof.
  unfold selected_positions. rewrite in_filter_positions. rewrite Nat.sub_0_r.
  unfold effective_threshold.
  split; intros (x & Hx & H); exists x; (split; [exact Hx|]).
  - destruct H as [_ H]. destruct use_largest.
    + destruct (Qle_bool floor threshold) eqn:Hft; cbn [negb] in H;
        apply Qle_bool_iff in H.
      * apply Qle_bool_iff in Hft. split; [exact H|]. eapply Qle_trans; eassumption.
      * split; [|exact H].
        destruct (Qlt_le_dec threshold floor) as [Hlt|Hle].
        -- eapply Qle_trans; [apply Qlt_le_weak; exact Hlt|exact H].
        -- apply Qle_bool_iff in Hle. congruence.
    + apply Qle_bool_iff in H. exact H.
  - split; [lia|]. destruct use_largest.
    + destruct H as [Ht Hf].
      destruct (Qle_bool floor threshold); cbn [negb]; apply Qle_bool_iff; assumption.
    + apply Qle_bool_iff. exact H.
Qed.

End FeatureSetManagerFacts.

Section SelectionFacts.
Import FeatureSetManager.

Lemma filter_positions_increasing (keep : Q -> bool) (stats : list Q) :
  forall start,
    StronglySorted lt
      (map fst (List.filter (fun '(i, x) => keep x)
                            (combine (seq start (List.length stats)) stats))).
Proof.
  induction stats as [|y stats IH]; intros start; cbn [List.length seq combine List.filter].
  - constructor.
  - destruct (keep y); cbn [map fst]; [|apply IH].
    constructor; [apply IH|].
    apply List.Forall_forall. intros i Hi.
    apply in_filter_positions in Hi as (x & _ & Hle & _). lia.
Qed.

Lemma selected_positions_increasing use_largest floor threshold curstats :
  StronglySorted lt (selected_positions use_largest floor threshold curstats).
Proof. unfold selected_positions. apply filter_positions_increasing. Qed.

End SelectionFacts.

(** C9, as the code has it by design.  For an effect size among
    "cohen", "auc", "lfc" and "delta_detected" and the summary "min" or
    "mean", the statistics of the mapped universe are those of the
    method named by the effect size, and the top markers are the genes
    whose statistic reaches both the top-K threshold and the floor,
    which is 0.5 for "auc" and 0 for the other effect sizes.  The result
    reports their number, and its three arrays list the overlaps of
    their sets, each with the p-value of its enrichment test, in
    ascending order of p-value. *)
Theorem C9_selection_and_order :
  forall (computeTopThreshold : list Q -> Z -> bool -> Q)
         (countSetOverlaps : list (list nat) -> list (nat * Z))
         (testEnrichment : Z -> Z -> Z -> Z -> Q)
         (cache : FeatureSetManager.manager_cache) (group : nat)
         (effect_size summary : string) (markers : FeatureSetManager.markers_object)
         (top_markers : Z) (method : nat -> option Z -> list Q),
    In effect_size ["cohen"; "auc"; "lfc"; "delta_detected"] ->
    In summary ["min"; "mean"] ->
    let effect :=
      if String.eqb effect_size "delta_detected" then "deltaDetected" else effect_size in
    let floor := if String.eqb effect_size "auc" then (1 # 2)%Q else 0%Q in
    let curstats :=
      map (fun g => nth g (method group (FeatureSetManager.summaries2int summary)) 0%Q)
          (FeatureSetManager.universe cache) in
    let threshold := computeTopThreshold curstats top_markers true in
    markers effect = Some method ->
    exists (e : FeatureSetManager.enrichment) (selected : list nat)
           (sorted : list FeatureSetManager.overlap),
      FeatureSetManager.computeEnrichment computeTopThreshold countSetOverlaps
        testEnrichment cache group effect_size summary markers top_markers = Ret e /\
      StronglySorted lt selected /\
      (forall i, In i selected <->
         exists x, nth_error curstats i = Some x /\
                   (threshold <= x)%Q /\ (floor <= x)%Q) /\
      FeatureSetManager.num_markers e = List.length selected /\
      Permutation sorted
        (map (fun ic =>
                {| FeatureSetManager.id := fst ic;
                   FeatureSetManager.count := snd ic;
                   FeatureSetManager.pvalue :=
                     testEnrichment (snd ic) (Z.of_nat (List.length selected))
                       (nth (fst ic) (FeatureSetManager.set_sizes cache) 0%Z)
                       (Z.of_nat (List.length (FeatureSetManager.universe cache))) |})
             (countSetOverlaps
                (map (fun i => nth (nth i (FeatureSetManager.universe cache) 0%nat)
                                   (FeatureSetManager.mapping_to_sets cache) [])
                     selected))) /\
      StronglySorted FeatureSetManager.pvalue_le sorted /\
      FeatureSetManager.set_ids e = map FeatureSetManager.id sorted /\
      FeatureSetManager.counts e = map FeatureSetManager.count sorted /\
      FeatureSetManager.pvalues e = map FeatureSetManager.pvalue sorted.
Proof.
  intros cTT cSO tE cache group effect_size summary markers top method He Hs
         effect floor curstats threshold Hm.
  assert (Hrank : String.eqb effect "min_rank" = false).
  { subst effect. cbn [In] in He.
    destruct He as [<-|[<-|[<-|[<-|[]]]]]; reflexivity. }
  assert (Hauc : String.eqb effect "auc" = String.eqb effect_size "auc").
  { subst effect. cbn [In] in He.
    destruct He as [<-|[<-|[<-|[<-|[]]]]]; reflexivity. }
  unfold FeatureSetManager.computeEnrichment. fold effect. rewrite Hm, Hrank, Hauc.
  cbn [negb]. fold floor curstats threshold.
  set (selected := FeatureSetManager.selected_positions true floor threshold curstats).
  set (in_set := map (fun i => nth (nth i (FeatureSetManager.universe cache) 0%nat)
                                   (FeatureSetManager.mapping_to_sets cache) [])
                     selected).
  assert (Hlen : List.length in_set = List.length selected) by apply List.length_map.
  match goal with
  | |- context [FeatureSetManager.sort_overlaps ?o] =>
      exists {| FeatureSetManager.set_ids :=
                  map FeatureSetManager.id (FeatureSetManager.sort_overlaps o);
                FeatureSetManager.counts :=
                  map FeatureSetManager.count (FeatureSetManager.sort_overlaps o);
                FeatureSetManager.pvalues :=
                  map FeatureSetManager.pvalue (FeatureSetManager.sort_overlaps o);
                FeatureSetManager.num_markers := List.length in_set |},
             selected, (FeatureSetManager.sort_overlaps o)
  end.
  cbn [FeatureSetManager.num_markers FeatureSetManager.pvalues FeatureSetManager.set_ids
       FeatureSetManager.counts].
  split_and!; try reflexivity.
  - apply selected_positions_increasing.
  - intros i. apply (selected_positions_spec true).
  - exact Hlen.
  - symmetry. etransitivity; [|apply sort_overlaps_perm].
    rewrite Hlen. apply Permutation_refl'. apply map_ext. intros [i c]. reflexivity.
  - apply sort_overlaps_sorted.
Qed.

Lemma C9_selection_and_order_witness :
  exists e,
    FeatureSetManager.computeEnrichment FeatureSetManager.kth_threshold
      (fun in_set => [(0%nat, Z.of_nat (List.length in_set))])
      (fun _ _ _ _ => (1 # 20)%Q)
      {| FeatureSetManager.universe := [0%nat; 1%nat];
         FeatureSetManager.mapping_to_sets := [[0%nat]; [0%nat]];
         FeatureSetManager.set_sizes := [2%Z] |}
      0 "auc" "mean"
      (fun name => if String.eqb name "auc" then Some (fun _ _ => [(9 # 10)%Q; (3 # 10)%Q])
                   else None)
      2 = Ret e /\
    FeatureSetManager.num_markers e = 1%nat /\
    FeatureSetManager.counts e = [1%Z] /\
    FeatureSetManager.pvalues e = [(1 # 20)%Q].
Proof.
  destruct (C9_selection_and_order FeatureSetManager.kth_threshold
      (fun in_set => [(0%nat, Z.of_nat (List.length in_set))])
      (fun _ _ _ _ => (1 # 20)%Q)
      {| FeatureSetManager.universe := [0%nat; 1%nat];
         FeatureSetManager.mapping_to_sets := [[0%nat]; [0%nat]];
         FeatureSetManager.set_sizes := [2%Z] |}
      0%nat "auc" "mean"
      (fun name => if String.eqb name "auc" then Some (fun _ _ => [(9 # 10)%Q; (3 # 10)%Q])
                   else None)
      2%Z (fun _ _ => [(9 # 10)%Q; (3 # 10)%Q]))
    as (e & selected & sorted & He & _ & _ & Hn & _).
  - right. left. reflexivity.
  - right. left. reflexivity.
  - reflexivity.
  - exists e. split; [exact He|].
    injection He as <-. split_and!; reflexivity.
Defined.

(** C9 as stated fails: with the effect size "cohen", the statistics -1
    and -2 and one top marker, the top-K threshold is -1 and the claim
    selects the first gene, while the code raises the threshold to 0
    and selects none. *)
Lemma C9_floor_counterexample :
  FeatureSetManager.spec_selected_positions "cohen"
    (FeatureSetManager.kth_threshold FeatureSetManager.negative_stats 1 true)
    FeatureSetManager.negative_stats = [0%nat] /\
  (FeatureSetManager.num_markers <$>
     match FeatureSetManager.computeEnrichment FeatureSetManager.kth_threshold
             (fun _ => []) (fun _ _ _ _ => 0%Q) FeatureSetManager.two_gene_cache
             0 "cohen" "mean"
             (FeatureSetManager.cohen_only FeatureSetManager.negative_stats) 1 with
     | Ret e => Some e
     | Throw _ => None
     end) = Some 0%nat.
Proof. split; reflexivity. Qed.

(** ** Facts about the Wasm heap *)

Section WasmFacts.
Import Wasm.

Lemma differs_false {A : Type} `{EqDecision A} (x : A) (stored : option A) :
  differs x stored = false <-> stored = Some x.
Proof.
  unfold differs. destruct stored as [y|]; [|split; discriminate].
  destruct (decide (x = y)) as [->|Hne]; split; intros H0; try reflexivity; try discriminate.
  congruence.
Qed.

Lemma differs_same {A : Type} `{EqDecision A} (x : A) : differs x (Some x) = false.
Proof. apply differs_false. reflexivity. Qed.

Lemma lor_byte (x y : Z) :
  (0 <= x < 256)%Z -> (0 <= y < 256)%Z ->
  (Z.lor x y mod 256 = Z.lor x y)%Z /\ (0 <= Z.lor x y < 256)%Z.
Proof.
  intros Hx Hy.
  assert (Hlor : (Z.lor x y mod 2 ^ 8 = Z.lor x y)%Z).
  { apply Z.bits_inj'. intros n Hn.
    destruct (Z_lt_le_dec n 8) as [Hlt|Hge].
    - apply Z.mod_pow2_bits_low. lia.
    - rewrite Z.mod_pow2_bits_high by lia.
      rewrite Z.lor_spec.
      rewrite <- (Z.mod_small x (2 ^ 8)) by (change (2 ^ 8)%Z with 256%Z; lia).
      rewrite <- (Z.mod_small y (2 ^ 8)) by (change (2 ^ 8)%Z with 256%Z; lia).
      rewrite !Z.mod_pow2_bits_high by lia. reflexivity. }
  change (2 ^ 8)%Z with 256%Z in Hlor. split; [exact Hlor|].
  rewrite <- Hlor. apply Z.mod_pos_bound. lia.
Qed.

End WasmFacts.

(** ** Facts about the cell filtering step *)

Section CellFilteringFacts.
Import Wasm CellFiltering.

Variable filterCells : matrix -> list Z -> result matrix.
Variable filterBlock : list Z -> list Z -> result (list Z).

Lemma fill_matrix_frame m d avail h :
  arrays (final (fill_matrix filterCells m d avail h)) = arrays h /\
  next (final (fill_matrix filterCells m d avail h)) = next h.
Proof.
  revert h. induction avail as [|[a src] rest IH]; intros h; cbn [fill_matrix].
  - split; reflexivity.
  - destruct d as [d|].
    + destruct (filterCells src (read (log (FilterCells a) h) d)) as [sub|e].
      * destruct (IH (add_matrix m a sub (log (FilterCells a) h))) as [Ha Hn].
        rewrite Ha, Hn. split; reflexivity.
      * split; reflexivity.
    + destruct (IH (add_matrix m a src (log (CloneMatrix a) h))) as [Ha Hn].
      rewrite Ha, Hn. split; reflexivity.
Qed.

Lemma raw_compute_matrix_frame inputs c h :
  let o := final (raw_compute_matrix filterCells inputs c h) in
  arrays (snd o) = arrays h /\ next (snd o) = S (next h) /\
  discard_buffer (fst o) = discard_buffer c /\
  block_buffer (fst o) = block_buffer c /\
  filtered (fst o) = Some (next h).
Proof.
  unfold raw_compute_matrix. cbn [alloc_object].
  match goal with |- context [fill_matrix _ ?m ?d ?av ?h0] =>
    pose proof (fill_matrix_frame m d av h0) as [Ha Hn];
    destruct (fill_matrix filterCells m d av h0) as [h1|e h1] end;
    cbn [final fst snd] in *; rewrite Ha, Hn; cbn;
    destruct (filtered c); cbn; repeat split; reflexivity.
Qed.

Lemma allocateCachedArray_spec size entry h a h' :
  allocateCachedArray size entry h = (a, h') ->
  owner a = None /\
  (exists vals, arrays h' !! ptr a = Some vals /\ List.length vals = size) /\
  ((owned entry (ptr a) /\ h' = h) \/ (ptr a = next h /\ next h' = S (next h))) /\
  next h <= next h' /\
  (forall p, p < next h -> ~ owned entry p -> ptr a <> p /\ arrays h' !! p = arrays h !! p).
Proof.
  assert (Hfresh : forall a0 h0,
             alloc_array (repeat 0%Z size) (freeCache_array entry h) = (a0, h0) ->
             owner a0 = None /\
             (exists vals, arrays h0 !! ptr a0 = Some vals /\ List.length vals = size) /\
             ((owned entry (ptr a0) /\ h0 = h) \/
              (ptr a0 = next h /\ next h0 = S (next h))) /\
             next h <= next h0 /\
             (forall p, p < next h -> ~ owned entry p ->
                        ptr a0 <> p /\ arrays h0 !! p = arrays h !! p)).
  { intros a0 h0 Heq. unfold alloc_array in Heq.
    assert (Hnext : next (freeCache_array entry h) = next h).
    { destruct entry as [e|]; [|reflexivity]. cbn. unfold free_array.
      destruct (owner e); reflexivity. }
    injection Heq as <- <-. cbn [ptr owner arrays next]. rewrite Hnext.
    split; [reflexivity|]. split.
    { exists (repeat 0%Z size). rewrite lookup_insert_eq. split; [reflexivity|].
      apply repeat_length. }
    split; [right; split; reflexivity|]. split; [lia|].
    intros p Hp Hown. split; [lia|].
    rewrite lookup_insert_ne by lia.
    destruct entry as [e|]; [|reflexivity]. cbn. unfold free_array.
    destruct (owner e) eqn:Ho; [reflexivity|]. cbn [arrays].
    apply lookup_delete_ne. intros Heq. apply Hown. exists e. auto. }
  unfold allocateCachedArray. destruct entry as [e|] eqn:He; [|apply Hfresh].
  destruct (owner e) eqn:Ho; [apply Hfresh|].
  destruct (arrays h !! ptr e) as [vals|] eqn:Hl; [|apply Hfresh].
  destruct (List.length vals =? size)%nat eqn:Hlen; [|apply Hfresh].
  intros Heq. injection Heq as <- <-. apply Nat.eqb_eq in Hlen.
  split; [exact Ho|]. split; [exists vals; auto|].
  split; [left; split; [exists e; auto|reflexivity]|]. split; [lia|].
  intros p Hp Hown. split; [|reflexivity].
  intros Heq. apply Hown. exists e. auto.
Qed.

Lemma raw_compute_block_frame inputs c h :
  let o := final (raw_compute_block filterCells filterBlock inputs c h) in
  discard_buffer (fst o) = discard_buffer c /\
  (forall p, p < next h -> ~ owned (mjoin (block_buffer c)) p ->
             arrays (snd o) !! p = arrays h !! p).
Proof.
  unfold raw_compute_block.
  set (h0 := freeCache_array (mjoin (block_buffer c)) h).
  assert (Hn0 : next h0 = next h).
  { unfold h0. destruct (mjoin (block_buffer c)) as [b|]; [|reflexivity].
    cbn. unfold free_array. destruct (owner b); reflexivity. }
  assert (Hfree : forall p, ~ owned (mjoin (block_buffer c)) p ->
                            arrays h0 !! p = arrays h !! p).
  { intros p Hp. unfold h0. destruct (mjoin (block_buffer c)) as [b|]; [|reflexivity].
    cbn. unfold free_array. destruct (owner b) eqn:Ho; [reflexivity|]. cbn.
    apply lookup_delete_ne. intros Heq. apply Hp. exists b. auto. }
  destruct (block inputs) as [blk|]; [|cbn; split; [reflexivity|]; intros; auto].
  destruct (discard_buffer c) as [d|] eqn:Hd;
    [|cbn; rewrite Hd; split; [reflexivity|]; intros; auto].
  assert (Hfetch : let o := final (fetchFilteredMatrix filterCells inputs c h0) in
                   arrays (snd o) = arrays h0 /\ next h0 <= next (snd o) /\
                   discard_buffer (fst o) = discard_buffer c /\
                   block_buffer (fst o) = block_buffer c).
  { unfold fetchFilteredMatrix. destruct (filtered c).
    - cbn. repeat split; auto.
    - destruct (raw_compute_matrix_frame inputs c h0) as (Ha & Hn & Hdd & Hbb & _).
      cbn zeta. rewrite Ha, Hn, Hdd, Hbb. repeat split; auto. }
  destruct (fetchFilteredMatrix filterCells inputs c h0) as [[c1 h1]|e [c1 h1]];
    cbn [final fst snd] in Hfetch; destruct Hfetch as (Ha1 & Hn1 & Hd1 & Hb1).
  2:{ cbn [final fst snd]. split; [congruence|]. intros p Hp Hown.
      rewrite Ha1. auto. }
  destruct (allocateCachedArray (numberOfColumns h1 (filtered c1))
              (mjoin (block_buffer c1)) h1) as [bcache h2] eqn:Halloc.
  apply allocateCachedArray_spec in Halloc as (Hbo & _ & Hwhere & Hn2 & Hframe).
  assert (Hkeep : forall p, p < next h -> ~ owned (mjoin (block_buffer c)) p ->
                            ptr bcache <> p /\ arrays h2 !! p = arrays h !! p).
  { intros p Hp Hown. rewrite <- Hb1 in Hown.
    destruct (Hframe p ltac:(lia) Hown) as [Hne Heq]. split; [exact Hne|].
    rewrite Heq, Ha1. apply Hfree. rewrite <- Hb1. exact Hown. }
  destruct (filterBlock (read (log FilterBlock h2) blk) (read (log FilterBlock h2) d))
    as [vals|e]; cbn [final fst snd set_block discard_buffer].
  - split; [congruence|]. intros p Hp Hown.
    destruct (Hkeep p Hp Hown) as [Hne Heq]. cbn [write arrays log].
    rewrite lookup_insert_ne by exact Hne. exact Heq.
  - split; [congruence|]. intros p Hp Hown.
    destruct (Hkeep p Hp Hown) as [Hne Heq]. exact Heq.
Qed.

Lemma or_into_spec acc ys :
  List.length ys = List.length acc -> Forall is_byte acc -> Forall is_byte ys ->
  List.length (or_into acc ys) = List.length acc /\
  Forall is_byte (or_into acc ys) /\
  forall c, nth c (or_into acc ys) 0%Z = Z.lor (nth c acc 0%Z) (nth c ys 0%Z).
Proof.
  revert ys. induction acc as [|x acc IH]; intros [|y ys] Hlen Hacc Hys;
    try discriminate; cbn [or_into].
  - repeat split; auto. intros [|c]; reflexivity.
  - injection Hlen as Hlen.
    apply Forall_cons in Hacc as [Hx Hacc]. apply Forall_cons in Hys as [Hy Hys].
    destruct (IH ys Hlen Hacc Hys) as (Hl & Hb & Hn).
    destruct (lor_byte x y Hx Hy) as [Hmod Hrange].
    split; [cbn; f_equal; exact Hl|]. split.
    + constructor; [rewrite Hmod; exact Hrange|exact Hb].
    + intros [|c]; cbn [nth]; [exact Hmod|apply Hn].
Qed.

Lemma or_fold_spec (vals : qc_state -> list Z) us acc c :
  (forall u, In u us -> List.length (vals u) = List.length acc /\ Forall is_byte (vals u)) ->
  Forall is_byte acc ->
  List.length (fold_left (fun acc u => or_into acc (vals u)) us acc) = List.length acc /\
  nth c (fold_left (fun acc u => or_into acc (vals u)) us acc) 0%Z
  = fold_left Z.lor (map (fun u => nth c (vals u) 0%Z) us) (nth c acc 0%Z).
Proof.
  revert acc. induction us as [|u us IH]; intros acc Hus Hacc; cbn [fold_left map].
  - split; reflexivity.
  - destruct (Hus u (or_introl eq_refl)) as [Hlen Hb].
    destruct (or_into_spec acc (vals u) Hlen Hacc Hb) as (Hl & Hbo & Hn).
    destruct (IH (or_into acc (vals u))) as [IHl IHn].
    + intros u' Hu'. destruct (Hus u' (or_intror Hu')) as [Hlen' Hb'].
      split; [congruence|exact Hb'].
    + exact Hbo.
    + rewrite IHl, IHn, Hn, Hl. split; reflexivity.
Qed.

Lemma or_fold_heap (disc : WasmArray) us h0 :
  (forall u, In u us -> ptr (qc_discards u) <> ptr disc) ->
  is_Some (arrays h0 !! ptr disc) ->
  let hN := fold_left (fun h u =>
                         write disc (or_into (read h disc) (read h (qc_discards u))) h)
                      us h0 in
  (forall p, p <> ptr disc -> arrays hN !! p = arrays h0 !! p) /\
  next hN = next h0 /\
  arrays hN !! ptr disc
  = Some (fold_left (fun acc u => or_into acc (read h0 (qc_discards u))) us (read h0 disc)).
Proof.
  revert h0. induction us as [|u us IH]; intros h0 Hne Hlive; cbn [fold_left].
  - repeat split; auto. unfold read. destruct Hlive as [v Hv]. rewrite Hv. reflexivity.
  - set (h1 := write disc (or_into (read h0 disc) (read h0 (qc_discards u))) h0).
    destruct (IH h1) as (Hframe & Hnext & Hval).
    + intros u' Hu'. apply Hne. right. exact Hu'.
    + unfold h1. cbn. rewrite lookup_insert_eq. eexists. reflexivity.
    + split; [|split].
      * intros p Hp. rewrite (Hframe p Hp). unfold h1. cbn.
        apply lookup_insert_ne. congruence.
      * rewrite Hnext. reflexivity.
      * rewrite Hval. f_equal.
        assert (Hread : read h1 disc = or_into (read h0 disc) (read h0 (qc_discards u))).
        { unfold read at 1, h1. cbn. rewrite lookup_insert_eq. reflexivity. }
        rewrite Hread.
        assert (Hext : forall (l : list qc_state) acc,
                   (forall u', In u' l -> ptr (qc_discards u') <> ptr disc) ->
                   fold_left (fun acc u0 => or_into acc (read h1 (qc_discards u0))) l acc
                   = fold_left (fun acc u0 => or_into acc (read h0 (qc_discards u0))) l acc).
        { induction l as [|u' l IHl]; intros acc Hl; cbn [fold_left]; [reflexivity|].
          rewrite IHl by (intros; apply Hl; right; assumption).
          f_equal. f_equal. unfold read, h1. cbn.
          rewrite lookup_insert_ne; [reflexivity|].
          intros Heq. apply (Hl u' (or_introl eq_refl)). congruence. }
        apply Hext. intros u' Hu'. apply Hne. right. exact Hu'.
Qed.

Lemma freeCache_array_frame entry h :
  next (freeCache_array entry h) = next h /\
  forall p, ~ owned entry p -> arrays (freeCache_array entry h) !! p = arrays h !! p.
Proof.
  destruct entry as [e|]; cbn; [|split; auto]. unfold free_array.
  destruct (owner e) eqn:Ho; cbn; [split; auto|]. split; [reflexivity|].
  intros p Hp. apply lookup_delete_ne. intros Heq. apply Hp. exists e. auto.
Qed.

Lemma merge_discards_spec used c h ncells c1 h1 :
  well_formed used c h ncells ->
  merge_discards used c h = (c1, h1) ->
  block_buffer c1 = block_buffer c /\
  next h <= next h1 /\
  (forall u, In u used ->
     arrays h1 !! ptr (qc_discards u) = arrays h !! ptr (qc_discards u)) /\
  (forall d, discard_buffer c1 = Some d ->
     ptr d < next h1 /\ ~ owned (mjoin (block_buffer c)) (ptr d)) /\
  match used with
  | [] => discard_buffer c1 = None
  | [u] => discard_buffer c1 = Some (view (qc_discards u))
  | _ :: _ :: _ =>
      exists d vals,
        discard_buffer c1 = Some d /\ owner d = None /\
        (forall u, In u used -> ptr d <> ptr (qc_discards u)) /\
        arrays h1 !! ptr d = Some vals /\ List.length vals = ncells /\
        forall i, nth i vals 0%Z = discard_any h used i
  end.
Proof.
  intros Hwf Hm.
  destruct used as [|u [|u2 rest]]; cbv beta iota zeta delta [merge_discards] in Hm.
  - injection Hm as <- <-.
    destruct (freeCache_array_frame (discard_buffer c) h) as [Hn Hf].
    split; [reflexivity|]. split; [lia|]. split; [intros ? []|].
    split; [discriminate|reflexivity].
  - injection Hm as <- <-.
    destruct (freeCache_array_frame (discard_buffer c) h) as [Hn Hf].
    split; [reflexivity|]. split; [lia|]. split.
    { intros u' Hu'. apply Hf. intros Hown.
      exact (wf_discard_apart _ _ _ _ Hwf _ u' Hown Hu' eq_refl). }
    split; [|reflexivity].
    intros d Hd. cbn in Hd. injection Hd as <-. cbn [view ptr]. split.
    + rewrite Hn. apply (wf_qc_old _ _ _ _ Hwf). left. reflexivity.
    + intros Hown. exact (wf_block_apart _ _ _ _ Hwf _ u Hown (or_introl eq_refl) eq_refl).
  - set (used := u :: u2 :: rest) in *.
    destruct (allocateCachedArray (List.length (read h (qc_discards u)))
                (discard_buffer c) h) as [disc h0] eqn:Halloc.
    apply pair_equal_spec in Hm. destruct Hm as [<- <-].
    apply allocateCachedArray_spec in Halloc
      as (Ho & (vals0 & Hv0 & Hl0) & Hwhere & Hn0 & Hframe).
    assert (Hqc : forall u', In u' used ->
                    ptr disc <> ptr (qc_discards u') /\
                    arrays h0 !! ptr (qc_discards u') = arrays h !! ptr (qc_discards u')).
    { intros u' Hu'. apply Hframe.
      - apply (wf_qc_old _ _ _ _ Hwf). exact Hu'.
      - intros Hown. exact (wf_discard_apart _ _ _ _ Hwf _ u' Hown Hu' eq_refl). }
    assert (Hncells : List.length (read h (qc_discards u)) = ncells).
    { destruct (wf_qc_live _ _ _ _ Hwf u (or_introl eq_refl)) as (v & Hv & Hl & _).
      unfold read. rewrite Hv. exact Hl. }
    set (hz := write disc (repeat 0%Z (List.length (read h0 disc))) h0).
    assert (Hrz : read h0 disc = vals0) by (unfold read; rewrite Hv0; reflexivity).
    destruct (or_fold_heap disc used hz) as (Hff & Hfn & Hfv).
    { intros u' Hu'. destruct (Hqc u' Hu') as [Hne _]. congruence. }
    { unfold hz. cbn. rewrite lookup_insert_eq. eexists. reflexivity. }
    cbn zeta in Hff, Hfn, Hfv.
    assert (Hreadz : forall u', In u' used ->
                       read hz (qc_discards u') = read h (qc_discards u')).
    { intros u' Hu'. destruct (Hqc u' Hu') as [Hne Heq]. unfold read, hz. cbn.
      rewrite lookup_insert_ne by exact Hne. rewrite Heq. reflexivity. }
    assert (Hzero : read hz disc = repeat 0%Z ncells).
    { unfold read at 1, hz. cbn. rewrite lookup_insert_eq. cbn.
      rewrite Hrz, Hl0, Hncells. reflexivity. }
    split; [reflexivity|]. split; [rewrite Hfn; unfold hz; cbn; exact Hn0|]. split.
    { intros u' Hu'. destruct (Hqc u' Hu') as [Hne Heq].
      rewrite Hff by congruence. unfold hz. cbn.
      rewrite lookup_insert_ne by exact Hne. exact Heq. }
    split.
    { intros d Hd. cbn in Hd. injection Hd as <-. rewrite Hfn. unfold hz. cbn [write next].
      destruct Hwhere as [[Hown ->]|[Hp Hn]].
      - split; [exact (wf_discard_old _ _ _ _ Hwf _ Hown)|].
        intros Hb. exact (wf_block_discard _ _ _ _ Hwf _ Hb Hown).
      - split; [lia|]. intros Hb.
        pose proof (wf_block_old _ _ _ _ Hwf _ Hb). lia. }
    eexists disc, _. split; [reflexivity|]. split; [exact Ho|].
    split; [intros u' Hu'; apply (Hqc u' Hu')|].
    split; [exact Hfv|].
    destruct (or_fold_spec (fun u' => read hz (qc_discards u')) used (read hz disc) 0)
      as [Hlen _].
    { intros u' Hu'. rewrite (Hreadz u' Hu'), Hzero, repeat_length.
      destruct (wf_qc_live _ _ _ _ Hwf u' Hu') as (v & Hv & Hl & Hb).
      unfold read. rewrite Hv. cbn. split; assumption. }
    { rewrite Hzero. apply List.Forall_forall. intros x Hx. apply repeat_spec in Hx.
      subst x. unfold is_byte. lia. }
    split; [rewrite Hlen, Hzero; apply repeat_length|].
    intros i.
    destruct (or_fold_spec (fun u' => read hz (qc_discards u')) used (read hz disc) i)
      as [_ Hnth].
    { intros u' Hu'. rewrite (Hreadz u' Hu'), Hzero, repeat_length.
      destruct (wf_qc_live _ _ _ _ Hwf u' Hu') as (v & Hv & Hl & Hb).
      unfold read. rewrite Hv. cbn. split; assumption. }
    { rewrite Hzero. apply List.Forall_forall. intros x Hx. apply repeat_spec in Hx.
      subst x. unfold is_byte. lia. }
    rewrite Hnth. rewrite Hzero. unfold discard_any.
    assert (Hz : nth i (repeat 0%Z ncells) 0%Z = 0%Z).
    { destruct (Nat.lt_ge_cases i ncells).
      - apply nth_repeat_lt. assumption.
      - apply nth_overflow. rewrite repeat_length. assumption. }
    rewrite Hz. f_equal. apply map_ext_in. intros u' Hu'.
    rewrite (Hreadz u' Hu'). reflexivity.
Qed.

Lemma compute_unchanged inputs qs a st h st' h' :
  compute filterCells filterBlock inputs qs a st h = Returned (st', h') ->
  changed st' = false ->
  cache st' = cache st /\ h' = h /\ params st' = params st /\
  inputs_changed inputs = false /\ parameters_differ a (params st) = false /\
  existsb qc_changed (find_usable_upstream_states qs (in_use a)) = false.
Proof.
  unfold compute. intros Hc Hch.
  destruct (inputs_changed inputs); cbn [orb negb] in Hc.
  - destruct (merge_discards _ _ _) as [c1 h1].
    destruct (raw_compute_matrix _ _ _ _) as [[c2 h2]|e [c2 h2]]; [|discriminate].
    destruct (raw_compute_block _ _ _ _ _) as [[c3 h3]|e [c3 h3]]; [|discriminate].
    injection Hc as <- <-. discriminate.
  - destruct (parameters_differ a (params st)); cbn [orb negb] in Hc.
    + destruct (merge_discards _ _ _) as [c1 h1].
      destruct (raw_compute_matrix _ _ _ _) as [[c2 h2]|e [c2 h2]]; [|discriminate].
      destruct (raw_compute_block _ _ _ _ _) as [[c3 h3]|e [c3 h3]]; [|discriminate].
      injection Hc as <- <-. discriminate.
    + destruct (existsb qc_changed _).
      * destruct (merge_discards _ _ _) as [c1 h1].
        destruct (raw_compute_matrix _ _ _ _) as [[c2 h2]|e [c2 h2]]; [|discriminate].
        destruct (raw_compute_block _ _ _ _ _) as [[c3 h3]|e [c3 h3]]; [|discriminate].
        injection Hc as <- <-. discriminate.
      * injection Hc as <- <-. cbn. repeat split; reflexivity.
Qed.

Lemma compute_recomputed inputs qs a st h st' h' :
  compute filterCells filterBlock inputs qs a st h = Returned (st', h') ->
  changed st' = true ->
  exists c1 h1,
    merge_discards (find_usable_upstream_states qs (in_use a)) (cache st) h = (c1, h1) /\
    discard_buffer (cache st') = discard_buffer c1 /\
    (forall p, p < next h1 -> ~ owned (mjoin (block_buffer c1)) p ->
               arrays h' !! p = arrays h1 !! p).
Proof.
  unfold compute. intros Hc Hch.
  match type of Hc with (if ?b then _ else _) = _ => destruct b end.
  2:{ injection Hc as <- <-. discriminate. }
  destruct (merge_discards _ _ _) as [c1 h1]. exists c1, h1.
  split; [reflexivity|].
  pose proof (raw_compute_matrix_frame inputs c1 h1) as Hm.
  destruct (raw_compute_matrix _ _ _ _) as [[c2 h2]|e [c2 h2]]; [|discriminate].
  cbn [final fst snd] in Hm. destruct Hm as (Ha2 & Hn2 & Hd2 & Hb2 & _).
  pose proof (raw_compute_block_frame inputs c2 h2) as Hb.
  destruct (raw_compute_block _ _ _ _ _) as [[c3 h3]|e [c3 h3]]; [|discriminate].
  cbn [final fst snd] in Hb. destruct Hb as (Hd3 & Hf3).
  injection Hc as <- <-. cbn [cache]. split; [congruence|].
  intros p Hp Hown. rewrite Hf3; [rewrite Ha2; reflexivity|lia|].
  rewrite Hb2. exact Hown.
Qed.

Lemma find_usable_spec qs a u :
  In u (find_usable_upstream_states qs (in_use a)) <->
  exists k, u = qc_get qs k /\ qc_valid (qc_get qs k) = true /\ in_use a k = true.
Proof.
  unfold find_usable_upstream_states, findValidUpstreamStates.
  rewrite in_map_iff. split.
  - intros (k & <- & Hk). apply filter_In in Hk as [Hk Hu].
    apply filter_In in Hk as [_ Hv]. exists k. auto.
  - intros (k & -> & Hv & Hu). exists k. split; [reflexivity|].
    apply filter_In. split; [|exact Hu]. apply filter_In. split; [|exact Hv].
    destruct k; cbn; auto.
Qed.

End CellFilteringFacts.

(** C2.  After [compute], the combined discard vector agrees with the
    quality control steps in use, the valid ones whose [use_] flag is
    set: it holds at every cell the OR of their discard vectors, and
    when exactly one is in use it is the view made on that step's
    vector, sharing its storage and owning nothing.  [compute]
    establishes this whenever it recomputes, keeps it otherwise, and
    leaves the discard vectors of the quality control steps as they
    were. *)
Theorem C2_discard_merge :
  forall filterCells filterBlock inputs qs a st h st' h' ncells,
    let used := CellFiltering.find_usable_upstream_states qs (CellFiltering.in_use a) in
    CellFiltering.well_formed used (CellFiltering.cache st) h ncells ->
    CellFiltering.compute filterCells filterBlock inputs qs a st h
      = Wasm.Returned (st', h') ->
    CellFiltering.changed st' = true \/
      CellFiltering.discard_consistent used (CellFiltering.cache st) h ncells ->
    CellFiltering.discard_consistent used (CellFiltering.cache st') h' ncells /\
    (forall u, In u used ->
       Wasm.read h' (CellFiltering.qc_discards u) = Wasm.read h (CellFiltering.qc_discards u)) /\
    (forall u, In u used <->
       exists k, u = CellFiltering.qc_get qs k /\
                 CellFiltering.qc_valid (CellFiltering.qc_get qs k) = true /\
                 CellFiltering.in_use a k = true) /\
    (forall u d, used = [u] -> CellFiltering.discard_buffer (CellFiltering.cache st') = Some d ->
       Wasm.ptr d = Wasm.ptr (CellFiltering.qc_discards u) /\ Wasm.owner d <> None).
Proof.
  intros fC fB inputs qs a st h st' h' ncells used Hwf Hc Hor.
  assert (Hcases : CellFiltering.changed st' = true \/
                   (CellFiltering.changed st' = false /\
                    CellFiltering.discard_consistent used (CellFiltering.cache st) h ncells)).
  { destruct (CellFiltering.changed st'); [left; reflexivity|].
    destruct Hor as [Hd|Hd]; [discriminate|right; auto]. }
  clear Hor.
  assert (Hmain : CellFiltering.discard_consistent used (CellFiltering.cache st') h' ncells /\
                  forall u, In u used ->
                    Wasm.arrays h' !! Wasm.ptr (CellFiltering.qc_discards u)
                    = Wasm.arrays h !! Wasm.ptr (CellFiltering.qc_discards u)).
  { destruct Hcases as [Hch|[Hch Hcons]].
    2:{ destruct (compute_unchanged fC fB inputs qs a st h st' h' Hc Hch) as (-> & -> & _).
        split; [exact Hcons|reflexivity]. }
    destruct (compute_recomputed fC fB inputs qs a st h st' h' Hc Hch)
      as (c1 & h1 & Hm & Hd & Hframe). fold used in Hm.
    destruct (merge_discards_spec used (CellFiltering.cache st) h ncells c1 h1 Hwf Hm)
      as (Hb1 & Hn1 & Hqc1 & Hd1 & Hshape).
    assert (Hqc : forall u, In u used ->
              Wasm.arrays h' !! Wasm.ptr (CellFiltering.qc_discards u)
              = Wasm.arrays h !! Wasm.ptr (CellFiltering.qc_discards u)).
    { intros u Hu. rewrite Hframe; [apply Hqc1; exact Hu| |].
      - pose proof (CellFiltering.wf_qc_old _ _ _ _ Hwf u Hu). lia.
      - rewrite Hb1. intros Hown.
        exact (CellFiltering.wf_block_apart _ _ _ _ Hwf _ u Hown Hu eq_refl). }
    split; [|exact Hqc].
    assert (Hany : forall i, CellFiltering.discard_any h' used i
                             = CellFiltering.discard_any h used i).
    { intros i. unfold CellFiltering.discard_any. f_equal. apply map_ext_in.
      intros u Hu. unfold Wasm.read. rewrite (Hqc u Hu). reflexivity. }
    unfold CellFiltering.discard_consistent.
    destruct used as [|u [|u2 rest]] eqn:Hused.
    - rewrite Hd. exact Hshape.
    - exists (Wasm.view (CellFiltering.qc_discards u)).
      split; [rewrite Hd; exact Hshape|]. split; [|reflexivity].
      intros i Hi. unfold CellFiltering.discard_any. cbn [map fold_left Z.lor].
      unfold Wasm.read. cbn [Wasm.view Wasm.ptr]. reflexivity.
    - destruct Hshape as (d & vals & Hdd & Ho & Hne & Hv & Hl & Hnth).
      exists d. split; [rewrite Hd; exact Hdd|]. split; [|split; assumption].
      intros i Hi. rewrite Hany, <- Hnth. unfold Wasm.read.
      destruct (Hd1 d Hdd) as [Hlt Hnb].
      assert (Hnb1 : ~ CellFiltering.owned (mjoin (CellFiltering.block_buffer c1)) (Wasm.ptr d))
        by (rewrite Hb1; exact Hnb).
      rewrite (Hframe (Wasm.ptr d) Hlt Hnb1), Hv. reflexivity. }
  destruct Hmain as [Hcons Hqc].
  split; [exact Hcons|]. split.
  { intros u Hu. unfold Wasm.read. rewrite (Hqc u Hu). reflexivity. }
  split; [intros u; apply find_usable_spec|].
  intros u d Hu Hd. unfold CellFiltering.discard_consistent in Hcons.
  rewrite Hu in Hcons. destruct Hcons as (d' & Hd' & _ & ->).
  rewrite Hd in Hd'. injection Hd' as ->. cbn. split; [reflexivity|discriminate].
Qed.

Lemma C2_discard_merge_witness :
  CellFiltering.discard_consistent
    [CellFiltering.qc_RNA CellFiltering.example_qc; CellFiltering.qc_ADT CellFiltering.example_qc]
    (CellFiltering.cache (fst (Wasm.final (CellFiltering.example_run CellFiltering.use_all))))
    (snd (Wasm.final (CellFiltering.example_run CellFiltering.use_all))) 3.
Proof.
  destruct (C2_discard_merge CellFiltering.keep_columns CellFiltering.keep_block
              CellFiltering.example_inputs CellFiltering.example_qc CellFiltering.use_all
              CellFiltering.constructor CellFiltering.example_heap
              (fst (Wasm.final (CellFiltering.example_run CellFiltering.use_all)))
              (snd (Wasm.final (CellFiltering.example_run CellFiltering.use_all))) 3)
    as (H & _).
  - constructor.
    + intros u [<-|[<-|[]]]; eexists; (split; [vm_compute; reflexivity|]);
        (split; [reflexivity|]); repeat constructor; unfold CellFiltering.is_byte; lia.
    + intros u [<-|[<-|[]]]; cbn; lia.
    + intros p (a & Ha & _). discriminate.
    + intros p u (a & Ha & _). discriminate.
    + intros p (a & Ha & _). discriminate.
    + intros p u (a & Ha & _). discriminate.
    + intros p (a & Ha & _). discriminate.
  - vm_compute. reflexivity.
  - left. reflexivity.
  - exact H.
Defined.

(** ** Facts about the CRISPR PCA step *)

Section CrisprPcaFacts.
Import Wasm CrisprPca.

Variable runPCA : matrix -> Z -> option (list Z) -> string -> result (list (list Q)).

Lemma crispr_compute_cases up a st h :
  let o := compute runPCA up a st h in
  if needs_update up a st then
    if norm_valid up then
      match runPCA (normalized_matrix up) (arg_num_pcs a) (filtered_block up)
                   (arg_block_method a) with
      | Ret pcs =>
          let h1 := log (RunPCA (arg_num_pcs a) (arg_block_method a))
                        (freeCache_object (cache_pcs st) h) in
          o = Returned ({| params := store a; cache_pcs := Some (next h);
                           changed := true |},
                        snd (alloc_object (RunPCAResults pcs) h1))
      | Throw e =>
          o = Thrown e ({| params := params st; cache_pcs := cache_pcs st;
                           changed := false |},
                        log (RunPCA (arg_num_pcs a) (arg_block_method a))
                            (freeCache_object (cache_pcs st) h))
      end
    else o = Returned ({| params := store a; cache_pcs := cache_pcs st;
                          changed := false |}, h)
  else o = Returned ({| params := params st; cache_pcs := cache_pcs st;
                        changed := false |}, h).
Proof.
  unfold compute, valid. cbn [params cache_pcs].
  change (needs_update up a {| params := params st; cache_pcs := cache_pcs st;
                               changed := false |})
    with (needs_update up a st).
  destruct (needs_update up a st); [|reflexivity].
  destruct (norm_valid up); [|reflexivity].
  destruct (runPCA _ _ _ _); [|reflexivity].
  cbn. destruct (cache_pcs st); reflexivity.
Qed.


Lemma crispr_refines up a st h st' h' :
  compute runPCA up a st h = Returned (st', h') ->
  summarize st' = compute_summary (norm_changed up) (norm_valid up) a (summarize st).
Proof.
  pose proof (crispr_compute_cases up a st h) as H. cbn zeta in H.
  unfold compute_summary, summarize. cbn [s_params s_changed].
  fold (needs_update up a st).
  destruct (needs_update up a st).
  - destruct (norm_valid up).
    + destruct (runPCA _ _ _ _); rewrite H; intros Heq; [|discriminate].
      injection Heq as <- <-. reflexivity.
    + rewrite H. intros Heq. injection Heq as <- <-. reflexivity.
  - rewrite H. intros Heq. injection Heq as <- <-. reflexivity.
Qed.

Lemma crispr_idempotent up1 up2 a st h st1 h1 :
  compute runPCA up1 a st h = Returned (st1, h1) ->
  norm_changed up2 = false ->
  compute runPCA up2 a st1 h1
  = Returned ({| params := params st1; cache_pcs := cache_pcs st1; changed := false |}, h1).
Proof.
  intros H1 Hup.
  assert (Hp : needs_update up1 a st = true -> params st1 = store a).
  { pose proof (crispr_compute_cases up1 a st h) as H. cbn zeta in H.
    intros Hn. rewrite Hn in H. destruct (norm_valid up1).
    - destruct (runPCA _ _ _ _); rewrite H in H1; [|discriminate].
      injection H1 as <- <-. reflexivity.
    - rewrite H in H1. injection H1 as <- <-. reflexivity. }
  assert (Hq : needs_update up1 a st = false -> params st1 = params st).
  { pose proof (crispr_compute_cases up1 a st h) as H. cbn zeta in H.
    intros Hn. rewrite Hn in H. rewrite H in H1. injection H1 as <- <-. reflexivity. }
  assert (Hno : needs_update up2 a st1 = false).
  { unfold needs_update. rewrite Hup. cbn [orb].
    destruct (needs_update up1 a st) eqn:Hn.
    - rewrite (Hp eq_refl). cbn [store num_pcs block_method]. rewrite !differs_same. reflexivity.
    - rewrite (Hq eq_refl). unfold needs_update in Hn.
      apply orb_false_iff in Hn as [Hn Hb]. apply orb_false_iff in Hn as [_ Hn].
      rewrite Hn, Hb. reflexivity. }
  pose proof (crispr_compute_cases up2 a st1 h1) as H. cbn zeta in H.
  rewrite Hno in H. exact H.
Qed.

End CrisprPcaFacts.

(** ** More facts about the cell filtering step *)

Section CellFilteringStepFacts.
Import Wasm CellFiltering.

Variable filterCells : matrix -> list Z -> result matrix.
Variable filterBlock : list Z -> list Z -> result (list Z).

Lemma cf_changed inputs qs a st h :
  changed (fst (final (compute filterCells filterBlock inputs qs a st h)))
  = inputs_changed inputs || parameters_differ a (params st)
    || existsb qc_changed (find_usable_upstream_states qs (in_use a)).
Proof.
  unfold compute.
  destruct (inputs_changed inputs), (parameters_differ a (params st)); cbn [orb negb];
    try (destruct (merge_discards _ _ _) as [c1 h1];
         destruct (raw_compute_matrix _ _ _ _) as [[c2 h2]|e [c2 h2]]; [|reflexivity];
         destruct (raw_compute_block _ _ _ _ _) as [[c3 h3]|e [c3 h3]]; reflexivity).
  destruct (existsb qc_changed _); [|reflexivity].
  destruct (merge_discards _ _ _) as [c1 h1].
  destruct (raw_compute_matrix _ _ _ _) as [[c2 h2]|e [c2 h2]]; [|reflexivity].
  destruct (raw_compute_block _ _ _ _ _) as [[c3 h3]|e [c3 h3]]; reflexivity.
Qed.

Lemma cf_params inputs qs a st h :
  params (fst (final (compute filterCells filterBlock inputs qs a st h)))
  = if parameters_differ a (params st) then store a else params st.
Proof.
  unfold compute.
  match goal with |- context [if ?b then _ else Returned _] => destruct b end.
  - destruct (merge_discards _ _ _) as [c1 h1].
    destruct (raw_compute_matrix _ _ _ _) as [[c2 h2]|e [c2 h2]]; [|reflexivity].
    destruct (raw_compute_block _ _ _ _ _) as [[c3 h3]|e [c3 h3]]; reflexivity.
  - reflexivity.
Qed.

Lemma existsb_usable qs use :
  existsb qc_changed (find_usable_upstream_states qs use)
  = existsb (fun k => qc_changed (qc_get qs k))
      (List.filter use (List.filter (fun k => qc_valid (qc_get qs k)) [RNA; ADT; CRISPR])).
Proof.
  unfold find_usable_upstream_states, findValidUpstreamStates.
  induction (List.filter use _) as [|k l IH]; cbn; [reflexivity|].
  rewrite IH. reflexivity.
Qed.

Lemma cf_refines inputs qs a st h st' h' :
  compute filterCells filterBlock inputs qs a st h = Returned (st', h') ->
  summarize st' =
    compute_summary (inputs_changed inputs)
      (fun k => (qc_valid (qc_get qs k), qc_changed (qc_get qs k))) a (summarize st).
Proof.
  intros Hc.
  pose proof (cf_changed inputs qs a st h) as Hch.
  pose proof (cf_params inputs qs a st h) as Hp.
  rewrite Hc in Hch, Hp. cbn [final fst] in Hch, Hp.
  unfold summarize, compute_summary. cbn [s_params s_changed fst snd].
  rewrite Hch, Hp, existsb_usable. reflexivity.
Qed.

Lemma parameters_differ_store a : parameters_differ a (store a) = false.
Proof.
  unfold parameters_differ, store. cbn [use_rna use_adt use_crispr].
  rewrite !differs_same. reflexivity.
Qed.

Lemma cf_idempotent inputs1 qs1 inputs2 qs2 a st h st1 h1 :
  compute filterCells filterBlock inputs1 qs1 a st h = Returned (st1, h1) ->
  inputs_changed inputs2 = false ->
  existsb qc_changed (find_usable_upstream_states qs2 (in_use a)) = false ->
  compute filterCells filterBlock inputs2 qs2 a st1 h1
  = Returned ({| params := params st1; cache := cache st1; changed := false |}, h1).
Proof.
  intros H1 Hi Hq.
  pose proof (cf_params inputs1 qs1 a st h) as Hp.
  rewrite H1 in Hp. cbn [final fst] in Hp.
  assert (Hd : parameters_differ a (params st1) = false).
  { rewrite Hp. destruct (parameters_differ a (params st)) eqn:Hd; [|exact Hd].
    apply parameters_differ_store. }
  unfold compute. rewrite Hi, Hd, Hq. reflexivity.
Qed.

Lemma fill_matrix_objects m d avail h st0 :
  objects h !! m = Some (MultiMatrix st0) ->
  let o := fill_matrix filterCells m d avail h in
  exists st1,
    objects (final o) !! m = Some (MultiMatrix (st0 ++ st1)) /\
    (forall p, p <> m -> objects (final o) !! p = objects h !! p) /\
    (thrown o <> None -> List.length st1 < List.length avail) /\
    (thrown o = None -> map fst st1 = map fst avail).
Proof.
  revert h st0. induction avail as [|[a src] rest IH]; intros h st0 Hm; cbn [fill_matrix].
  - exists []. rewrite app_nil_r. cbn. repeat split; auto. intros Hc. congruence.
  - assert (Hadd : forall sub h0, objects h0 = objects h ->
               objects (add_matrix m a sub h0) !! m = Some (MultiMatrix (st0 ++ [(a, sub)])) /\
               forall p, p <> m -> objects (add_matrix m a sub h0) !! p = objects h !! p).
    { intros sub h0 Hh0. unfold add_matrix. cbn [objects]. rewrite Hh0. split.
      - rewrite lookup_alter_eq, Hm. reflexivity.
      - intros p Hp. apply lookup_alter_ne. congruence. }
    destruct d as [d|].
    + destruct (filterCells src (read (log (FilterCells a) h) d)) as [sub|e].
      * destruct (Hadd sub (log (FilterCells a) h) eq_refl) as [Hm' Hf'].
        destruct (IH _ _ Hm') as (st1 & Hs & Hf & Ht & Hr).
        exists ((a, sub) :: st1). rewrite <- app_assoc in Hs. cbn zeta.
        split; [exact Hs|]. split; [intros p Hp; rewrite (Hf p Hp); apply Hf'; exact Hp|].
        split; [intros Hc; cbn; apply Ht in Hc; lia|].
        intros Hc. cbn. f_equal. apply Hr. exact Hc.
      * exists []. rewrite app_nil_r. cbn. repeat split; auto; try lia. discriminate.
    + destruct (Hadd src (log (CloneMatrix a) h) eq_refl) as [Hm' Hf'].
      destruct (IH _ _ Hm') as (st1 & Hs & Hf & Ht & Hr).
      exists ((a, src) :: st1). rewrite <- app_assoc in Hs. cbn zeta.
      split; [exact Hs|]. split; [intros p Hp; rewrite (Hf p Hp); apply Hf'; exact Hp|].
      split; [intros Hc; cbn; apply Ht in Hc; lia|].
      intros Hc. cbn. f_equal. apply Hr. exact Hc.
Qed.

Lemma raw_compute_matrix_replaces inputs c h :
  let o := raw_compute_matrix filterCells inputs c h in
  filtered (fst (final o)) = Some (next h) /\
  (forall old, filtered c = Some old -> old < next h ->
               objects (snd (final o)) !! old = None) /\
  exists st1,
    objects (snd (final o)) !! next h = Some (MultiMatrix st1) /\
    (thrown o <> None -> List.length st1 < List.length (count_matrix inputs)) /\
    (thrown o = None -> map fst st1 = map fst (count_matrix inputs)).
Proof.
  unfold raw_compute_matrix. cbn [alloc_object].
  set (h0 := {| arrays := arrays (freeCache_object (filtered c) h);
                objects := <[next (freeCache_object (filtered c) h) := MultiMatrix []]>
                             (objects (freeCache_object (filtered c) h));
                next := S (next (freeCache_object (filtered c) h));
                calls := calls (freeCache_object (filtered c) h) |}).
  assert (Hn : next (freeCache_object (filtered c) h) = next h)
    by (destruct (filtered c); reflexivity).
  assert (Hm : objects h0 !! next h = Some (MultiMatrix [])).
  { unfold h0. cbn [objects]. rewrite Hn. apply lookup_insert_eq. }
  destruct (fill_matrix_objects (next h) (discard_buffer c) (count_matrix inputs) h0 [] Hm)
    as (st1 & Hs & Hf & Ht & Hr).
  cbn zeta in *. rewrite Hn.
  assert (Hold : forall old, filtered c = Some old -> old < next h ->
                   objects h0 !! old = None).
  { intros old Ho Hlt. unfold h0. cbn [objects]. rewrite Hn, Ho.
    rewrite lookup_insert_ne by lia. cbn. apply lookup_delete_eq. }
  change (discard_buffer (set_filtered c (Some (next h)))) with (discard_buffer c).
  destruct (fill_matrix filterCells (next h) (discard_buffer c) (count_matrix inputs) h0)
    as [h1|e h1]; cbn [final fst snd thrown set_filtered filtered] in *.
  - split; [reflexivity|]. split.
    + intros old Ho Hlt. rewrite Hf by lia. apply Hold; assumption.
    + exists st1. repeat split; assumption.
  - split; [reflexivity|]. split.
    + intros old Ho Hlt. rewrite Hf by lia. apply Hold; assumption.
    + exists st1. repeat split; assumption.
Qed.

End CellFilteringStepFacts.

(** ** Facts about the cell labelling and the enrichment steps *)

Section DownstreamFacts.
Import Wasm.

Lemma compare_arrays_spec (x : list string) (y : option (list string)) :
  CellLabelling.compare_arrays (Some x) y = true <-> y = Some x.
Proof.
  unfold CellLabelling.compare_arrays. destruct y as [y|]; [|split; discriminate].
  destruct (List.length x =? List.length y)%nat eqn:Hlen; cbn [negb].
  - apply Nat.eqb_eq in Hlen. split.
    + intros H. f_equal. revert y Hlen H.
      induction x as [|a x IH]; intros [|b y] Hlen H; try discriminate; [reflexivity|].
      cbn in H. apply andb_true_iff in H as [Hab H]. apply String.eqb_eq in Hab.
      subst b. f_equal. apply IH; [cbn in Hlen; lia|exact H].
    + intros Heq. injection Heq as ->. clear Hlen.
      induction x as [|a x IH]; cbn; [reflexivity|].
      rewrite String.eqb_refl. exact IH.
  - split; [discriminate|]. intros Heq. injection Heq as ->.
    rewrite Nat.eqb_refl in Hlen. discriminate.
Qed.

Lemma compare_arrays_refl x : CellLabelling.compare_arrays (Some x) (Some x) = true.
Proof. apply compare_arrays_spec. reflexivity. Qed.

Lemma labelling_returned up a st h st' h' :
  CellLabelling.compute up a st h = Returned (st', h') ->
  (CellLabelling.unchanged up a st = true /\
   st' = {| CellLabelling.params := CellLabelling.params st;
            CellLabelling.cache := CellLabelling.cache st;
            CellLabelling.changed := false |} /\ h' = h) \/
  (CellLabelling.unchanged up a st = false /\
   CellLabelling.changed st' = true /\
   CellLabelling.params st' =
     {| CellLabelling.human_references := Some (CellLabelling.arg_human_references a);
        CellLabelling.mouse_references := Some (CellLabelling.arg_mouse_references a) |}).
Proof.
  unfold CellLabelling.compute.
  destruct (CellLabelling.unchanged up a st).
  - intros H. injection H as <- <-. left. auto.
  - intros H. right. split; [reflexivity|].
    destruct (_ || _) in H.
    + destruct (CellLabelling.choose_features up) as [f d]. cbn [mjoin option_join] in H.
      destruct d as [d|]; [|discriminate]. destruct f as [f|]; [|discriminate].
      repeat match type of H with
             | context [let '(_, _) := ?x in _] => destruct x
             | context [if ?b then _ else _] => destruct b
             end; injection H as <- <-; split; reflexivity.
    + destruct (mjoin (CellLabelling.feature_details (CellLabelling.cache st)));
        [|discriminate].
      destruct (mjoin (CellLabelling.features (CellLabelling.cache st))); [|discriminate].
      repeat match type of H with
             | context [let '(_, _) := ?x in _] => destruct x
             | context [if ?b then _ else _] => destruct b
             end; injection H as <- <-; split; reflexivity.
Qed.

Lemma labelling_refines up a st h st' h' :
  CellLabelling.compute up a st h = Returned (st', h') ->
  CellLabelling.summarize st' =
    CellLabelling.compute_summary (CellLabelling.inputs_changed up)
      (CellLabelling.markers_changed up) a (CellLabelling.summarize st).
Proof.
  intros H. apply labelling_returned in H.
  unfold CellLabelling.summarize, CellLabelling.compute_summary.
  cbn [CellLabelling.s_params CellLabelling.s_changed].
  fold (CellLabelling.unchanged up a st).
  destruct H as [(Hu & -> & _)|(Hu & Hc & Hp)]; rewrite Hu; cbn.
  - reflexivity.
  - rewrite Hc, Hp. reflexivity.
Qed.

Lemma labelling_idempotent up1 up2 a st h st1 h1 :
  CellLabelling.compute up1 a st h = Returned (st1, h1) ->
  CellLabelling.inputs_changed up2 = false ->
  CellLabelling.markers_changed up2 = false ->
  CellLabelling.compute up2 a st1 h1
  = Returned ({| CellLabelling.params := CellLabelling.params st1;
                 CellLabelling.cache := CellLabelling.cache st1;
                 CellLabelling.changed := false |}, h1).
Proof.
  intros H Hi Hm. apply labelling_returned in H.
  assert (Hu : CellLabelling.unchanged up2 a st1 = true).
  { unfold CellLabelling.unchanged. rewrite Hi, Hm. cbn [negb andb].
    destruct H as [(Hu & -> & _)|(_ & _ & Hp)].
    - cbn [CellLabelling.params]. unfold CellLabelling.unchanged in Hu.
      apply andb_true_iff in Hu as [Hu Hb]. apply andb_true_iff in Hu as [_ Ha].
      rewrite Ha, Hb. reflexivity.
    - rewrite Hp. cbn [CellLabelling.human_references CellLabelling.mouse_references].
      rewrite !compare_arrays_refl. reflexivity. }
  unfold CellLabelling.compute. rewrite Hu. reflexivity.
Qed.


Lemma enrichment_idempotent up1 up2 a st :
  FeatureSetEnrichment.inputs_changed up2 = false ->
  FeatureSetEnrichment.compute up2 a (FeatureSetEnrichment.compute up1 a st)
  = {| FeatureSetEnrichment.params :=
         FeatureSetEnrichment.params (FeatureSetEnrichment.compute up1 a st);
       FeatureSetEnrichment.manager :=
         FeatureSetEnrichment.manager (FeatureSetEnrichment.compute up1 a st);
       FeatureSetEnrichment.changed := false |}.
Proof.
  intros Hi.
  assert (Hp : FeatureSetEnrichment.params (FeatureSetEnrichment.compute up1 a st)
               = FeatureSetEnrichment._transplantParameters a).
  { unfold FeatureSetEnrichment.compute.
    destruct (_ && _); [|reflexivity].
    destruct (FeatureSetEnrichment._buildCollections _ _ a up1). reflexivity. }
  set (st1 := FeatureSetEnrichment.compute up1 a st) in *.
  unfold FeatureSetEnrichment.compute at 1. rewrite Hi, Hp.
  cbn [FeatureSetEnrichment._transplantParameters FeatureSetEnrichment.skip orb].
  assert (Hs : differs (FeatureSetEnrichment.arg_skip a)
                 (Some (FeatureSetEnrichment.arg_skip a)) = false)
    by apply differs_same.
  rewrite !Hs.
  destruct (FeatureSetEnrichment.valid up2 && negb (FeatureSetEnrichment.arg_skip a));
    [|reflexivity].
  unfold FeatureSetEnrichment._buildCollections, FeatureSetEnrichment.changedParameters,
    FeatureSetEnrichment._transplantParameters.
  cbn [FeatureSetEnrichment.automatic FeatureSetEnrichment.gene_id_column
       FeatureSetEnrichment.gene_id_type FeatureSetEnrichment.species
       FeatureSetEnrichment.top_markers].
  rewrite !differs_same. cbn [orb]. rewrite andb_false_r. reflexivity.
Qed.

End DownstreamFacts.

(** ** The claims about the step state objects *)





(** C3, as the code has it.  When [scran.runPCA] throws inside
    [CrisprPcaState.compute] the error reaches the caller, [changed] is
    false and the stored parameters and the cache entry are the old
    ones, but the result the entry names has already been released;
    the step throws for no other reason.  When the PCA succeeds the
    cache holds the new result and the old one is released.  In
    [#raw_compute_matrix] of the cell filtering the old matrix is
    released and replaced by an empty MultiMatrix before the modalities
    are filtered, so that a failure leaves a MultiMatrix with fewer
    modalities than the inputs. *)
Theorem C3_failure_releases_cache :
  (forall runPCA up a st h e,
     CrisprPca.needs_update up a st = true ->
     CrisprPca.norm_valid up = true ->
     runPCA (CrisprPca.normalized_matrix up) (CrisprPca.arg_num_pcs a)
            (CrisprPca.filtered_block up) (CrisprPca.arg_block_method a) = Throw e ->
     exists st' h',
       CrisprPca.compute runPCA up a st h = Wasm.Thrown e (st', h') /\
       CrisprPca.changed st' = false /\
       CrisprPca.params st' = CrisprPca.params st /\
       CrisprPca.cache_pcs st' = CrisprPca.cache_pcs st /\
       forall p, CrisprPca.cache_pcs st = Some p -> Wasm.objects h' !! p = None) /\
  (forall runPCA up a st h e s,
     CrisprPca.compute runPCA up a st h = Wasm.Thrown e s ->
     runPCA (CrisprPca.normalized_matrix up) (CrisprPca.arg_num_pcs a)
            (CrisprPca.filtered_block up) (CrisprPca.arg_block_method a) = Throw e) /\
  (forall runPCA up a st h pcs,
     CrisprPca.needs_update up a st = true ->
     CrisprPca.norm_valid up = true ->
     runPCA (CrisprPca.normalized_matrix up) (CrisprPca.arg_num_pcs a)
            (CrisprPca.filtered_block up) (CrisprPca.arg_block_method a) = Ret pcs ->
     (forall p, CrisprPca.cache_pcs st = Some p -> p < Wasm.next h) ->
     exists st' h',
       CrisprPca.compute runPCA up a st h = Wasm.Returned (st', h') /\
       CrisprPca.changed st' = true /\
       CrisprPca.params st' = CrisprPca.store a /\
       CrisprPca.cache_pcs st' = Some (Wasm.next h) /\
       Wasm.objects h' !! Wasm.next h = Some (Wasm.RunPCAResults pcs) /\
       forall p, CrisprPca.cache_pcs st = Some p -> Wasm.objects h' !! p = None) /\
  (forall filterCells inputs c h,
     let o := CellFiltering.raw_compute_matrix filterCells inputs c h in
     CellFiltering.filtered (fst (Wasm.final o)) = Some (Wasm.next h) /\
     (forall old, CellFiltering.filtered c = Some old -> old < Wasm.next h ->
                  Wasm.objects (snd (Wasm.final o)) !! old = None) /\
     exists store,
       Wasm.objects (snd (Wasm.final o)) !! Wasm.next h = Some (Wasm.MultiMatrix store) /\
       (Wasm.thrown o <> None ->
        List.length store < List.length (CellFiltering.count_matrix inputs)) /\
       (Wasm.thrown o = None ->
        map fst store = map fst (CellFiltering.count_matrix inputs))).
Proof.
  split; [|split; [|split]].
  - intros runPCA up a st h e Hn Hv Hr.
    pose proof (crispr_compute_cases runPCA up a st h) as H. cbn zeta in H.
    rewrite Hn, Hv, Hr in H. eexists _, _. split; [exact H|].
    cbn. repeat split. intros p Hp. rewrite Hp. cbn. apply lookup_delete_eq.
  - intros runPCA up a st h e s Hc.
    pose proof (crispr_compute_cases runPCA up a st h) as H. cbn zeta in H.
    destruct (CrisprPca.needs_update up a st); [|congruence].
    destruct (CrisprPca.norm_valid up); [|congruence].
    destruct (runPCA _ _ _ _) as [pcs|e']; [congruence|].
    rewrite H in Hc. injection Hc as -> _. reflexivity.
  - intros runPCA up a st h pcs Hn Hv Hr Hold.
    pose proof (crispr_compute_cases runPCA up a st h) as H. cbn zeta in H.
    rewrite Hn, Hv, Hr in H. eexists _, _. split; [exact H|].
    assert (Hnext : Wasm.next (Wasm.freeCache_object (CrisprPca.cache_pcs st) h)
                    = Wasm.next h) by (destruct (CrisprPca.cache_pcs st); reflexivity).
    cbn [CrisprPca.changed CrisprPca.params CrisprPca.cache_pcs Wasm.alloc_object snd
         Wasm.log Wasm.objects Wasm.next]. rewrite Hnext.
    repeat split.
    + apply lookup_insert_eq.
    + intros p Hp. pose proof (Hold p Hp). rewrite lookup_insert_ne by lia.
      rewrite Hp. cbn. apply lookup_delete_eq.
  - intros filterCells inputs c h. apply raw_compute_matrix_replaces.
Qed.

Lemma C3_failure_releases_cache_witness :
  exists st' h',
    CrisprPca.failed_run
      = Wasm.Thrown (Error "failed to allocate memory on the Wasm heap") (st', h') /\
    CrisprPca.changed st' = false /\
    CrisprPca.params st' = CrisprPca.params CrisprPca.computed_state /\
    Wasm.objects h' !! 0 = None.
Proof.
  destruct C3_failure_releases_cache as (H & _).
  destruct (H CrisprPca.failing_runPCA CrisprPca.with_crispr CrisprPca.defaults
              CrisprPca.computed_state CrisprPca.computed_heap
              (Error "failed to allocate memory on the Wasm heap")
              eq_refl eq_refl eq_refl)
    as (st' & h' & Hc & Hch & Hp & _ & Hfree).
  exists st', h'. repeat split; try assumption. apply Hfree. reflexivity.
Defined.

(** C3 as stated fails: a PCA result is cached at address 0 and live;
    the next [compute] throws out of [scran.runPCA]; afterwards the
    cache still names address 0 but the result has been freed. *)
Lemma C3_failed_pca_counterexample :
  Wasm.objects CrisprPca.computed_heap !! 0 = Some (Wasm.RunPCAResults [[(1 # 3)%Q]]) /\
  CrisprPca.cache_pcs CrisprPca.computed_state = Some 0 /\
  Wasm.thrown CrisprPca.failed_run
    = Some (Error "failed to allocate memory on the Wasm heap") /\
  CrisprPca.cache_pcs (fst (Wasm.final CrisprPca.failed_run)) = Some 0 /\
  Wasm.objects (snd (Wasm.final CrisprPca.failed_run)) !! 0 = None.
Proof. repeat split; vm_compute; reflexivity. Qed.

(** C6.  A second [compute] with the parameters of the call before and
    no upstream change returns with [changed] false: the parameters and
    the cache are those left by the first call, the same buffers at the
    same addresses, and the heap is untouched, which includes the record
    of the computations requested from scran.js. *)
Theorem C6_noop_compute :
  (forall runPCA up1 up2 a st h st1 h1,
     CrisprPca.compute runPCA up1 a st h = Wasm.Returned (st1, h1) ->
     CrisprPca.norm_changed up2 = false ->
     CrisprPca.compute runPCA up2 a st1 h1
     = Wasm.Returned ({| CrisprPca.params := CrisprPca.params st1;
                         CrisprPca.cache_pcs := CrisprPca.cache_pcs st1;
                         CrisprPca.changed := false |}, h1)) /\
  (forall up1 up2 a st h st1 h1,
     CellLabelling.compute up1 a st h = Wasm.Returned (st1, h1) ->
     CellLabelling.inputs_changed up2 = false ->
     CellLabelling.markers_changed up2 = false ->
     CellLabelling.compute up2 a st1 h1
     = Wasm.Returned ({| CellLabelling.params := CellLabelling.params st1;
                         CellLabelling.cache := CellLabelling.cache st1;
                         CellLabelling.changed := false |}, h1)) /\
  (forall filterCells filterBlock inputs1 qs1 inputs2 qs2 a st h st1 h1,
     CellFiltering.compute filterCells filterBlock inputs1 qs1 a st h
       = Wasm.Returned (st1, h1) ->
     CellFiltering.inputs_changed inputs2 = false ->
     existsb CellFiltering.qc_changed
       (CellFiltering.find_usable_upstream_states qs2 (CellFiltering.in_use a)) = false ->
     CellFiltering.compute filterCells filterBlock inputs2 qs2 a st1 h1
     = Wasm.Returned ({| CellFiltering.params := CellFiltering.params st1;
                         CellFiltering.cache := CellFiltering.cache st1;
                         CellFiltering.changed := false |}, h1)) /\
  (forall up1 up2 a st,
     FeatureSetEnrichment.inputs_changed up2 = false ->
     FeatureSetEnrichment.compute up2 a (FeatureSetEnrichment.compute up1 a st)
     = {| FeatureSetEnrichment.params :=
            FeatureSetEnrichment.params (FeatureSetEnrichment.compute up1 a st);
          FeatureSetEnrichment.manager :=
            FeatureSetEnrichment.manager (FeatureSetEnrichment.compute up1 a st);
          FeatureSetEnrichment.changed := false |}).
Proof.
  split; [|split; [|split]].
  - apply crispr_idempotent.
  - apply labelling_idempotent.
  - apply cf_idempotent.
  - apply enrichment_idempotent.
Qed.

Lemma C6_noop_compute_witness :
  CrisprPca.compute CrisprPca.working_runPCA
    {| CrisprPca.norm_changed := false; CrisprPca.norm_valid := true;
       CrisprPca.normalized_matrix := [[1%Z; 2%Z]; [3%Z; 4%Z]];
       CrisprPca.filtered_block := None |}
    CrisprPca.defaults
    (fst (Wasm.final CrisprPca.first_run)) (snd (Wasm.final CrisprPca.first_run))
  = Wasm.Returned
      ({| CrisprPca.params := CrisprPca.params (fst (Wasm.final CrisprPca.first_run));
          CrisprPca.cache_pcs := Some 0;
          CrisprPca.changed := false |},
       snd (Wasm.final CrisprPca.first_run)).
Proof.
  destruct C6_noop_compute as (H & _).
  apply (H CrisprPca.working_runPCA CrisprPca.with_crispr _ CrisprPca.defaults
           CrisprPca.constructor CrisprPca.empty_heap).
  - reflexivity.
  - reflexivity.
Defined.


(** ** Facts about the orchestrator *)

Section AnalysisFacts.
Import Analysis.

Lemma existsb_all_false {A : Type} (f : A -> bool) (l : list A) :
  (forall x, f x = false) -> existsb f l = false.
Proof.
  intros Hf. induction l as [|x l IH]; cbn; [reflexivity|]. rewrite Hf, IH. reflexivity.
Qed.

Lemma step_compute_forced p s : st_changed (step_compute true p s) = true.
Proof. reflexivity. Qed.

Lemma step_compute_settled u p s :
  st_params (step_compute u p s) = Some p /\ st_results (step_compute u p s) = true.
Proof.
  unfold step_compute. destruct u; cbn [orb]; [split; reflexivity|].
  destruct (Wasm.differs p (st_params s)) eqn:Hd; cbn [orb]; [split; reflexivity|].
  destruct (st_results s) eqn:Hr; cbn [negb]; [|split; reflexivity].
  cbn. apply differs_false in Hd. split; auto.
Qed.

Lemma step_twice u1 u2 p s :
  st_changed (step_compute u2 p (step_compute u1 p s)) = u2.
Proof.
  destruct (step_compute_settled u1 p s) as [Hp Hr].
  unfold step_compute at 1. rewrite Hp, Hr, differs_same.
  destruct u2; reflexivity.
Qed.

Lemma cluster_compute_params r u p s : st_params (cluster_compute r u p s) = Some p.
Proof.
  unfold cluster_compute. destruct u; cbn [orb]; [reflexivity|].
  destruct (Wasm.differs p (st_params s)) eqn:Hd; cbn [orb]; [reflexivity|].
  apply differs_false in Hd. destruct (r && negb (st_results s)); [reflexivity|exact Hd].
Qed.

Lemma cluster_again r u p s :
  st_params s = Some p ->
  cluster_compute r u p s
  = if u || (r && negb (st_results s))
    then {| st_params := Some p; st_results := r; st_changed := true |}
    else {| st_params := Some p; st_results := st_results s; st_changed := false |}.
Proof.
  intros Hp. unfold cluster_compute. rewrite Hp, differs_same.
  destruct u, (r && negb (st_results s)); reflexivity.
Qed.

(** *** The cell filtering, called with any arguments *)

Lemma strictly_differs_same x : strictly_differs x x = false.
Proof. unfold strictly_differs. rewrite decide_True by reflexivity. reflexivity. Qed.

Lemma filter_parameters_differ_same a : filter_parameters_differ a a = false.
Proof. unfold filter_parameters_differ. rewrite !strictly_differs_same. reflexivity. Qed.

Lemma filter_compute_settled ic fl a s :
  filter_parameters_differ a (f_params (filter_compute ic fl a s)) = false.
Proof.
  unfold filter_compute. cbn [f_params].
  destruct (filter_parameters_differ a (f_params s)) eqn:Hd;
    [apply filter_parameters_differ_same|exact Hd].
Qed.

Lemma filter_again ic1 fl1 ic2 fl2 a s :
  f_changed (filter_compute ic2 fl2 a (filter_compute ic1 fl1 a s))
  = ic2 || existsb (fun k => snd (fl2 k))
             (List.filter (filter_in_use a)
                (List.filter (fun k => fst (fl2 k))
                   [CellFiltering.RNA; CellFiltering.ADT; CellFiltering.CRISPR])).
Proof.
  unfold filter_compute at 1. cbn [f_changed].
  rewrite filter_compute_settled, orb_false_r. reflexivity.
Qed.

(** With the booleans passed one by one, the cell filtering is the one
    of [CellFiltering]. *)
Lemma filter_compute_booleans ic fl a s :
  filter_compute ic fl (of_arguments a) (of_summary s)
  = of_summary (CellFiltering.compute_summary ic fl a s).
Proof.
  unfold filter_compute, CellFiltering.compute_summary, of_summary.
  cbn [f_params f_changed CellFiltering.s_params CellFiltering.s_changed].
  assert (Hd : filter_parameters_differ (of_arguments a)
                 (of_parameters (CellFiltering.s_params s))
               = CellFiltering.parameters_differ a (CellFiltering.s_params s)).
  { unfold filter_parameters_differ, CellFiltering.parameters_differ, of_arguments,
      of_parameters, strictly_differs, Wasm.differs.
    cbn [use_rna use_adt use_crispr].
    destruct a as [a1 a2 a3], (CellFiltering.s_params s) as [[b1|] [b2|] [b3|]];
      cbn [as_argument CellFiltering.arg_use_rna CellFiltering.arg_use_adt
           CellFiltering.arg_use_crispr CellFiltering.use_rna CellFiltering.use_adt
           CellFiltering.use_crispr];
      destruct a1, a2, a3; try destruct b1; try destruct b2; try destruct b3; reflexivity. }
  rewrite Hd. f_equal.
  - destruct (CellFiltering.parameters_differ a (CellFiltering.s_params s)); reflexivity.
  - f_equal. f_equal. apply filter_ext. intros []; reflexivity.
Qed.

(** Another object for the parameters is a changed parameter, whatever
    it holds. *)
Lemma filter_other_object ic fl (o o' : object CellFiltering.arguments) s :
  f_params s = filter_call o ->
  ref o' <> ref o ->
  f_changed (filter_compute ic fl (filter_call o') s) = true.
Proof.
  intros Hs Hne. unfold filter_compute. cbn [f_changed].
  rewrite Hs. unfold filter_parameters_differ, filter_call, strictly_differs.
  cbn [use_rna]. rewrite decide_False by congruence.
  cbn [orb]. rewrite orb_true_r. reflexivity.
Qed.

Lemma crispr_summary_twice u1 v1 u2 v2 a s :
  CrisprPca.s_changed
    (CrisprPca.compute_summary u2 v2 a (CrisprPca.compute_summary u1 v1 a s))
  = u2 && v2.
Proof.
  assert (Hd : Wasm.differs (CrisprPca.arg_num_pcs a)
                 (CrisprPca.num_pcs (CrisprPca.s_params (CrisprPca.compute_summary u1 v1 a s)))
               = false /\
               Wasm.differs (CrisprPca.arg_block_method a)
                 (CrisprPca.block_method
                    (CrisprPca.s_params (CrisprPca.compute_summary u1 v1 a s))) = false).
  { unfold CrisprPca.compute_summary.
    destruct (u1 || _ || _) eqn:Hn; cbn [CrisprPca.s_params].
    - cbn [CrisprPca.store CrisprPca.num_pcs CrisprPca.block_method].
      rewrite !differs_same. split; reflexivity.
    - apply orb_false_iff in Hn as [Hn Hb]. apply orb_false_iff in Hn as [_ Hn].
      split; assumption. }
  destruct Hd as [Hn Hb].
  unfold CrisprPca.compute_summary at 1. rewrite Hn, Hb.
  destruct u2; cbn; [reflexivity|reflexivity].
Qed.

(** *** The cell labelling, called with any arguments *)

(** With the parameter object as its first argument and no second
    argument, [compute] throws a TypeError and leaves the parameters and
    the flag as they were. *)
Lemma labelling_object_throws up r s :
  exists what l,
    labelling_compute up (ParameterObject r) NoReferences s
    = Wasm.Thrown (TypeError what) l /\
    lb_params l = lb_params s /\ lb_changed l = lb_changed s.
Proof.
  unfold labelling_compute.
  replace (compare_call (ParameterObject r) _) with false
    by (cbn; destruct (CellLabelling.human_references (lb_params s)); reflexivity).
  rewrite andb_false_r. cbn [andb].
  destruct (CellLabelling.inputs_changed up || _).
  - destruct (CellLabelling.choose_features up) as [f [d|]]; cbn;
      eexists _, _; split_and!; reflexivity.
  - destruct (mjoin (lb_feature_details s)); cbn;
      eexists _, _; split_and!; reflexivity.
Qed.

(** With two arrays, as the documentation of [compute] has it, the
    cell labelling is the one of [CellLabelling]. *)
Lemma labelling_compute_lists up a st h :
  labelling_of (fst (Wasm.final (CellLabelling.compute up a st h)))
  = Wasm.final (labelling_compute up
                  (ReferenceList (CellLabelling.arg_human_references a))
                  (ReferenceList (CellLabelling.arg_mouse_references a))
                  (labelling_of st)).
Proof.
  unfold CellLabelling.compute, labelling_compute, CellLabelling.unchanged, labelling_of.
  cbn [lb_params lb_features lb_feature_details lb_changed compare_call slice_call].
  destruct (negb (CellLabelling.inputs_changed up) && _ && _ && _); [reflexivity|].
  destruct (CellLabelling.inputs_changed up || _).
  - destruct (CellLabelling.choose_features up) as [f d]. cbn [mjoin option_join].
    destruct d as [d|]; [|reflexivity]. destruct f as [f|]; [|reflexivity].
    repeat match goal with
           | |- context [let '(_, _) := ?x in _] => destruct x
           | |- context [if ?b then _ else _] => destruct b
           end; reflexivity.
  - destruct (mjoin (CellLabelling.feature_details (CellLabelling.cache st)));
      [|reflexivity].
    destruct (mjoin (CellLabelling.features (CellLabelling.cache st))); [|reflexivity].
    repeat match goal with
           | |- context [let '(_, _) := ?x in _] => destruct x
           | |- context [if ?b then _ else _] => destruct b
           end; reflexivity.
Qed.

(** *** The run *)

(** Every run stops at the cell labelling: the promise is rejected with
    a TypeError, the steps before it have been computed, and the cell
    labelling keeps its parameters and its flag. *)
Lemma runAnalysis_rejects s datasets p :
  exists what l,
    runAnalysis s datasets p
    = Wasm.Thrown (TypeError what) (stopped_at_labelling s datasets p l) /\
    lb_params l = lb_params (cell_labelling s) /\
    lb_changed l = lb_changed (cell_labelling s).
Proof.
  unfold runAnalysis, run_cell_labelling.
  destruct (labelling_object_throws (labelling_upstream s datasets p)
              (ref (p_cell_labelling p)) (cell_labelling s))
    as (what & l & -> & Hp & Hc).
  exists what, l. split_and!; [reflexivity|exact Hp|exact Hc].
Qed.

Lemma run_inputs_loaded s d p :
  in_datasets (run_inputs s (Some d) p) = Some d /\
  in_params (run_inputs s (Some d) p) = Some (p_inputs p).
Proof. unfold run_inputs. destruct (load_flag s); split; reflexivity. Qed.

Lemma run_inputs_again s d p l p' :
  p_inputs p' = p_inputs p ->
  in_changed (run_inputs (stopped_at_labelling s (Some d) p l) (Some d) p') = false.
Proof.
  intros Hp. destruct (run_inputs_loaded s d p) as [Hd Hq].
  unfold run_inputs at 1. cbn [load_flag stopped_at_labelling inputs].
  unfold inputs_compute. cbn [in_changed]. rewrite Hd, Hq, Hp, differs_same.
  rewrite decide_True by reflexivity. reflexivity.
Qed.

(** A run with the datasets and the basic parameters of the run before
    leaves the inputs and every step up to the embeddings unchanged. *)
Lemma rerun_basic s d p l p' l' :
  same_basic p p' ->
  Forall (fun b => b = false)
         (basic_changed (stopped_at_labelling (stopped_at_labelling s (Some d) p l)
                                              (Some d) p' l')).
Proof.
  intros (Hi & Hq & Hqa & Hqc & Hf & Hn & Hna & Hnc & Hfs & Hp & Hpa & Hpc & Hce & Hbc
          & Hni & Ht & Hu).
  set (s1 := stopped_at_labelling s (Some d) p l).
  assert (Hin : in_changed (run_inputs s1 (Some d) p') = false)
    by (apply run_inputs_again; exact Hi).
  assert (Hqc1 : st_changed (run_rna_quality_control s1 (Some d) p') = false).
  { unfold run_rna_quality_control at 1. rewrite Hin, Hq. apply step_twice. }
  assert (Hqc2 : st_changed (run_adt_quality_control s1 (Some d) p') = false).
  { unfold run_adt_quality_control at 1. rewrite Hin, Hqa. apply step_twice. }
  assert (Hqc3 : st_changed (run_crispr_quality_control s1 (Some d) p') = false).
  { unfold run_crispr_quality_control at 1. rewrite Hin, Hqc. apply step_twice. }
  assert (Hfilter : filter_changed s1 (Some d) p' = false).
  { unfold filter_changed, run_cell_filtering. rewrite Hin, Hf.
    cbn [cell_filtering s1 stopped_at_labelling]. unfold run_cell_filtering at 1.
    rewrite filter_again. cbn [orb]. unfold qc_flags. cbn [snd fst].
    rewrite Hqc1, Hqc2, Hqc3. apply existsb_all_false. intros []; reflexivity. }
  assert (Hnorm1 : st_changed (run_rna_normalization s1 (Some d) p') = false).
  { unfold run_rna_normalization at 1. rewrite Hqc1, Hfilter, Hn. apply step_twice. }
  assert (Hnorm2 : st_changed (run_adt_normalization s1 (Some d) p') = false).
  { unfold run_adt_normalization at 1. rewrite Hqc2, Hfilter, Hna. apply step_twice. }
  assert (Hnorm3 : st_changed (run_crispr_normalization s1 (Some d) p') = false).
  { unfold run_crispr_normalization at 1. rewrite Hqc3, Hfilter, Hnc. apply step_twice. }
  assert (Hfeat : st_changed (run_feature_selection s1 (Some d) p') = false).
  { unfold run_feature_selection at 1. rewrite Hfilter, Hnorm1, Hfs. apply step_twice. }
  assert (Hpca1 : st_changed (run_rna_pca s1 (Some d) p') = false).
  { unfold run_rna_pca at 1. rewrite Hfilter, Hnorm1, Hfeat, Hp. apply step_twice. }
  assert (Hpca2 : st_changed (run_adt_pca s1 (Some d) p') = false).
  { unfold run_adt_pca at 1. rewrite Hfilter, Hnorm2, Hpa. apply step_twice. }
  assert (Hpca3 : CrisprPca.s_changed (run_crispr_pca s1 (Some d) p') = false).
  { unfold run_crispr_pca at 1. rewrite Hnorm3, Hpc.
    cbn [crispr_pca s1 stopped_at_labelling]. unfold run_crispr_pca at 1.
    rewrite crispr_summary_twice. reflexivity. }
  assert (Hcomb : st_changed (run_combine_embeddings s1 (Some d) p') = false).
  { unfold run_combine_embeddings at 1. rewrite Hpca1, Hpca2, Hpca3, Hce. apply step_twice. }
  assert (Hcorr : st_changed (run_batch_correction s1 (Some d) p') = false).
  { unfold run_batch_correction at 1. rewrite Hfilter, Hcomb, Hbc. apply step_twice. }
  assert (Hnei : st_changed (run_neighbor_index s1 (Some d) p') = false).
  { unfold run_neighbor_index at 1. rewrite Hcorr, Hni. apply step_twice. }
  assert (Htsne : st_changed (run_tsne s1 (Some d) p') = false).
  { unfold run_tsne at 1. rewrite Hnei, Ht. apply step_twice. }
  assert (Humap : st_changed (run_umap s1 (Some d) p') = false).
  { unfold run_umap at 1. rewrite Hnei, Hu. apply step_twice. }
  unfold basic_changed.
  cbn [stopped_at_labelling inputs rna_quality_control adt_quality_control
       crispr_quality_control cell_filtering rna_normalization adt_normalization
       crispr_normalization feature_selection rna_pca adt_pca crispr_pca combine_embeddings
       batch_correction neighbor_index tsne umap].
  repeat constructor; assumption.
Qed.

End AnalysisFacts.

Section ClusteringFacts.
Import Analysis.

Lemma cluster_fresh r u p :
  cluster_compute r u p fresh
  = {| st_params := Some p; st_results := r; st_changed := true |}.
Proof. unfold cluster_compute. destruct u; reflexivity. Qed.

Lemma basic_changed_false s :
  Forall (fun b => b = false) (basic_changed s) ->
  in_changed (inputs s) = false /\
  st_changed (rna_quality_control s) = false /\
  st_changed (adt_quality_control s) = false /\
  st_changed (crispr_quality_control s) = false /\
  f_changed (cell_filtering s) = false /\
  st_changed (rna_normalization s) = false /\
  st_changed (adt_normalization s) = false /\
  st_changed (crispr_normalization s) = false /\
  st_changed (feature_selection s) = false /\
  st_changed (rna_pca s) = false /\
  st_changed (adt_pca s) = false /\
  CrisprPca.s_changed (crispr_pca s) = false /\
  st_changed (combine_embeddings s) = false /\
  st_changed (batch_correction s) = false /\
  st_changed (neighbor_index s) = false /\
  st_changed (tsne s) = false /\
  st_changed (umap s) = false.
Proof.
  unfold basic_changed. intros H.
  repeat (apply Forall_cons in H as [? H]). repeat split; assumption.
Qed.

(** After a run with the same datasets and the same basic parameters,
    the marker detection changes with the choice of the clustering. *)
Lemma rerun_markers s d p l p' :
  same_basic p p' ->
  p_marker_detection p' = p_marker_detection p ->
  let s1 := stopped_at_labelling s (Some d) p l in
  st_changed (run_marker_detection s1 (Some d) p')
  = ch_changed (run_choose_clustering s1 (Some d) p').
Proof.
  intros Hb Hm s1.
  destruct (basic_changed_false _ (rerun_basic s d p l p' l Hb))
    as (_ & _ & _ & _ & Hf & Hn1 & Hn2 & Hn3 & _).
  cbn [stopped_at_labelling cell_filtering rna_normalization adt_normalization
       crispr_normalization] in Hf, Hn1, Hn2, Hn3.
  fold s1 in Hf, Hn1, Hn2, Hn3.
  unfold run_marker_detection at 1. unfold filter_changed, norms_changed.
  rewrite Hf, Hn1, Hn2, Hn3, Hm. cbn [orb]. apply step_twice.
Qed.

Lemma differs_other {A : Type} `{EqDecision A} (x y : A) :
  x <> y -> Wasm.differs x (Some y) = true.
Proof. intros Hne. unfold Wasm.differs. destruct (decide (x = y)); [contradiction|reflexivity]. Qed.

Lemma same_basic_with_method p m : same_basic p (with_method p m).
Proof. repeat split. Qed.

Lemma same_basic_with_snn p r : same_basic p (with_snn p r).
Proof. repeat split. Qed.

Variable d : dataset.
Variable p : parameters.
Variable snn' : record.
Variables l1 l2 l3 : labelling_step.
Hypothesis Hmethod : p_choose_clustering_method p = "snn_graph".
Hypothesis Hsnn' : snn' <> p_snn_graph_cluster p.

Let s1 := stopped_at_labelling create_analysis (Some d) p l1.
Let p2 := with_method p "kmeans".
Let s2 := stopped_at_labelling s1 (Some d) p2 l2.
Let p3 := with_snn p2 snn'.
Let s3 := stopped_at_labelling s2 (Some d) p3 l3.

Lemma first_run_clusters :
  kmeans_cluster s1
    = {| st_params := Some (p_kmeans_cluster p); st_results := false; st_changed := true |} /\
  snn_graph_cluster s1
    = {| st_params := Some (p_snn_graph_cluster p); st_results := true; st_changed := true |} /\
  ch_method (choose_clustering s1) = Some "snn_graph".
Proof.
  cbn [s1 stopped_at_labelling kmeans_cluster snn_graph_cluster choose_clustering].
  unfold run_kmeans_cluster, run_snn_graph_cluster, run_choose_clustering, method.
  rewrite Hmethod. cbn [create_analysis kmeans_cluster snn_graph_cluster].
  rewrite !cluster_fresh. repeat split.
Qed.

Lemma second_run_clusters :
  kmeans_cluster s2
    = {| st_params := Some (p_kmeans_cluster p); st_results := true; st_changed := true |} /\
  snn_graph_cluster s2
    = {| st_params := Some (p_snn_graph_cluster p); st_results := true; st_changed := false |} /\
  choose_clustering s2 = {| ch_method := Some "kmeans"; ch_changed := true |}.
Proof.
  destruct first_run_clusters as (Hk & Hs & Hc).
  destruct (basic_changed_false _ (rerun_basic create_analysis d p l1 p2 l2
                                     (same_basic_with_method p "kmeans")))
    as (_ & _ & _ & _ & _ & _ & _ & _ & _ & _ & _ & _ & _ & Hcorr & Hnei & _).
  fold s1 in Hcorr, Hnei.
  cbn [stopped_at_labelling batch_correction neighbor_index] in Hcorr, Hnei.
  assert (Hk2 : kmeans_cluster s2 = {| st_params := Some (p_kmeans_cluster p);
                                       st_results := true; st_changed := true |}).
  { cbn [s2 stopped_at_labelling kmeans_cluster]. unfold run_kmeans_cluster.
    rewrite Hcorr. cbn [p2 with_method p_kmeans_cluster method p_choose_clustering_method].
    rewrite cluster_again by (rewrite Hk; reflexivity). rewrite Hk. reflexivity. }
  assert (Hs2 : snn_graph_cluster s2 = {| st_params := Some (p_snn_graph_cluster p);
                                          st_results := true; st_changed := false |}).
  { cbn [s2 stopped_at_labelling snn_graph_cluster]. unfold run_snn_graph_cluster.
    rewrite Hnei. cbn [p2 with_method p_snn_graph_cluster method p_choose_clustering_method].
    rewrite cluster_again by (rewrite Hs; reflexivity). rewrite Hs. reflexivity. }
  split; [exact Hk2|]. split; [exact Hs2|].
  cbn [s2 stopped_at_labelling choose_clustering]. unfold run_choose_clustering, choice_compute.
  cbn [p2 with_method method p_choose_clustering_method]. rewrite Hc. reflexivity.
Qed.

Lemma third_run_clusters :
  st_changed (kmeans_cluster s3) = false /\ st_results (kmeans_cluster s3) = true /\
  st_changed (snn_graph_cluster s3) = true /\
  ch_changed (choose_clustering s3) = false /\
  st_changed (marker_detection s3) = false.
Proof.
  destruct second_run_clusters as (Hk & Hs & Hc).
  destruct (basic_changed_false _ (rerun_basic s1 d p2 l2 p3 l3 (same_basic_with_snn p2 snn')))
    as (_ & _ & _ & _ & _ & _ & _ & _ & _ & _ & _ & _ & _ & Hcorr & Hnei & _).
  fold s2 in Hcorr, Hnei.
  cbn [stopped_at_labelling batch_correction neighbor_index] in Hcorr, Hnei.
  assert (Hk3 : kmeans_cluster s3 = {| st_params := Some (p_kmeans_cluster p);
                                       st_results := true; st_changed := false |}).
  { cbn [s3 stopped_at_labelling kmeans_cluster]. unfold run_kmeans_cluster.
    rewrite Hcorr.
    cbn [p3 p2 with_snn with_method p_kmeans_cluster method p_choose_clustering_method].
    rewrite cluster_again by (rewrite Hk; reflexivity). rewrite Hk. reflexivity. }
  assert (Hs3 : st_changed (snn_graph_cluster s3) = true).
  { cbn [s3 stopped_at_labelling snn_graph_cluster].
    unfold run_snn_graph_cluster, cluster_compute.
    rewrite Hnei.
    cbn [p3 p2 with_snn with_method p_snn_graph_cluster method p_choose_clustering_method].
    rewrite Hs. cbn [st_params]. rewrite (differs_other _ _ Hsnn'). reflexivity. }
  assert (Hc3 : ch_changed (choose_clustering s3) = false).
  { cbn [s3 stopped_at_labelling choose_clustering].
    unfold run_choose_clustering, choice_compute.
    cbn [p3 p2 with_snn with_method method p_choose_clustering_method ch_changed].
    fold p2 p3. change (run_kmeans_cluster s2 (Some d) p3) with (kmeans_cluster s3).
    rewrite Hk3, Hc. reflexivity. }
  rewrite Hk3. cbn [st_changed st_results]. split_and!; try reflexivity;
    [exact Hs3|exact Hc3|].
  cbn [s3 stopped_at_labelling marker_detection].
  pose proof (rerun_markers s1 d p2 l2 p3 (same_basic_with_snn p2 snn') eq_refl) as Hm.
  cbv zeta in Hm. fold s2 in Hm. rewrite Hm. exact Hc3.
Qed.

Lemma active_snn_run :
  let s3' := stopped_at_labelling s1 (Some d) (with_snn p snn') l3 in
  st_changed (snn_graph_cluster s3') = true /\
  ch_changed (choose_clustering s3') = true /\
  st_changed (kmeans_cluster s3') = false.
Proof.
  destruct first_run_clusters as (Hk & Hs & Hc).
  destruct (basic_changed_false _ (rerun_basic create_analysis d p l1 (with_snn p snn') l3
                                     (same_basic_with_snn p snn')))
    as (_ & _ & _ & _ & _ & _ & _ & _ & _ & _ & _ & _ & _ & Hcorr & Hnei & _).
  fold s1 in Hcorr, Hnei.
  cbn [stopped_at_labelling batch_correction neighbor_index] in Hcorr, Hnei.
  cbn zeta.
  assert (Hs3 : st_changed (run_snn_graph_cluster s1 (Some d) (with_snn p snn')) = true).
  { unfold run_snn_graph_cluster, cluster_compute. rewrite Hnei.
    cbn [with_snn p_snn_graph_cluster method p_choose_clustering_method].
    rewrite Hs. cbn [st_params]. rewrite (differs_other _ _ Hsnn'). reflexivity. }
  assert (Hk3 : st_changed (run_kmeans_cluster s1 (Some d) (with_snn p snn')) = false).
  { unfold run_kmeans_cluster. rewrite Hcorr.
    cbn [with_snn p_kmeans_cluster method p_choose_clustering_method].
    rewrite cluster_again by (rewrite Hk; reflexivity).
    rewrite Hk, Hmethod. reflexivity. }
  cbn [stopped_at_labelling snn_graph_cluster choose_clustering kmeans_cluster].
  split; [exact Hs3|]. split; [|exact Hk3].
  unfold run_choose_clustering, choice_compute. cbn [ch_changed].
  rewrite Hs3. unfold method. cbn [with_snn p_choose_clustering_method].
  rewrite Hmethod, Hc. reflexivity.
Qed.

(** The run with the method switched, when the parameters of the cell
    filtering are another object than in the first run. *)
Lemma copied_filter_run (copy : object CellFiltering.arguments) :
  ref copy <> ref (p_cell_filtering p) ->
  let s2' := stopped_at_labelling s1 (Some d) (with_filter p2 copy) l2 in
  f_changed (cell_filtering s2') = true /\
  st_changed (rna_pca s2') = true /\
  st_changed (tsne s2') = true /\
  st_changed (umap s2') = true /\
  st_changed (snn_graph_cluster s2') = true /\
  st_results (snn_graph_cluster s2') = false.
Proof.
  intros Hne. cbn zeta.
  set (q := with_filter p2 copy).
  assert (Hf : filter_changed s1 (Some d) q = true).
  { unfold filter_changed, run_cell_filtering.
    apply (filter_other_object _ _ (p_cell_filtering p)); [|exact Hne].
    cbn [s1 stopped_at_labelling cell_filtering]. unfold run_cell_filtering, filter_compute.
    cbn [f_params create_analysis cell_filtering filter_constructor].
    reflexivity. }
  assert (Hpca : st_changed (run_rna_pca s1 (Some d) q) = true).
  { unfold run_rna_pca. rewrite Hf. reflexivity. }
  assert (Hadt : st_changed (run_adt_pca s1 (Some d) q) = true).
  { unfold run_adt_pca. rewrite Hf. reflexivity. }
  assert (Hcomb : st_changed (run_combine_embeddings s1 (Some d) q) = true).
  { unfold run_combine_embeddings. rewrite Hpca. reflexivity. }
  assert (Hcorr : st_changed (run_batch_correction s1 (Some d) q) = true).
  { unfold run_batch_correction. rewrite Hf. reflexivity. }
  assert (Hnei : st_changed (run_neighbor_index s1 (Some d) q) = true).
  { unfold run_neighbor_index. rewrite Hcorr. reflexivity. }
  cbn [stopped_at_labelling cell_filtering rna_pca tsne umap snn_graph_cluster].
  split_and!.
  - exact Hf.
  - exact Hpca.
  - unfold run_tsne. rewrite Hnei. reflexivity.
  - unfold run_umap. rewrite Hnei. reflexivity.
  - unfold run_snn_graph_cluster. rewrite Hnei. reflexivity.
  - unfold run_snn_graph_cluster. rewrite Hnei. reflexivity.
Qed.

End ClusteringFacts.

(** ** The claims about the orchestrator *)

(** C4, evaluated on the code.  [runAnalysis] hands the whole parameter
    object of a step to [compute], while the [compute] methods of the
    cell filtering and of the cell labelling take their parameters one
    by one.  So every run is rejected with a TypeError at the cell
    labelling.  The steps before it behave as the claim says only while
    the caller passes the very same object for the cell filtering: a
    first run with the method "snn_graph" computes the SNN clustering
    and no k-means clustering; a run with only the method switched to
    "kmeans" leaves the inputs and every step up to the embeddings with
    [changed] false, computes the k-means clustering and keeps the SNN
    results; a change of the SNN parameters afterwards marks the SNN
    clustering and no other step as changed; with SNN as the active
    method the same change also marks the choice of the clustering.
    With an equal copy of the cell filtering parameters in another
    object, the switch to "kmeans" marks the cell filtering, the PCA,
    t-SNE, UMAP and the SNN clustering as changed, and the SNN results
    are gone. *)
Theorem C4_clustering_switch :
  forall (d : Analysis.dataset) (p : Analysis.parameters) (snn' : Analysis.record)
         (copy : Analysis.object CellFiltering.arguments),
    Analysis.p_choose_clustering_method p = "snn_graph" ->
    snn' <> Analysis.p_snn_graph_cluster p ->
    Analysis.content copy = Analysis.content (Analysis.p_cell_filtering p) ->
    Analysis.ref copy <> Analysis.ref (Analysis.p_cell_filtering p) ->
    let r1 := Analysis.runAnalysis Analysis.create_analysis (Some d) p in
    let s1 := Wasm.final r1 in
    let p2 := Analysis.with_method p "kmeans" in
    let r2 := Analysis.runAnalysis s1 (Some d) p2 in
    let s2 := Wasm.final r2 in
    let s3 := Wasm.final (Analysis.runAnalysis s2 (Some d) (Analysis.with_snn p2 snn')) in
    let s3' := Wasm.final (Analysis.runAnalysis s1 (Some d) (Analysis.with_snn p snn')) in
    let s2' := Wasm.final (Analysis.runAnalysis s1 (Some d) (Analysis.with_filter p2 copy)) in
    ((exists what, Wasm.thrown r1 = Some (TypeError what)) /\
     (exists what, Wasm.thrown r2 = Some (TypeError what))) /\
    (Analysis.st_results (Analysis.snn_graph_cluster s1) = true /\
     Analysis.st_results (Analysis.kmeans_cluster s1) = false) /\
    (Forall (fun b => b = false) (Analysis.basic_changed s2) /\
     Analysis.st_changed (Analysis.kmeans_cluster s2) = true /\
     Analysis.st_results (Analysis.kmeans_cluster s2) = true /\
     Analysis.st_changed (Analysis.snn_graph_cluster s2) = false /\
     Analysis.st_results (Analysis.snn_graph_cluster s2) = true /\
     Analysis.ch_changed (Analysis.choose_clustering s2) = true) /\
    (Analysis.in_changed (Analysis.inputs s3) = false /\
     (forall name b, In (name, b) (Analysis.downstream_changed s3) ->
                     b = String.eqb name "snn_graph_cluster") /\
     Analysis.st_results (Analysis.kmeans_cluster s3) = true) /\
    (Analysis.st_changed (Analysis.snn_graph_cluster s3') = true /\
     Analysis.ch_changed (Analysis.choose_clustering s3') = true /\
     Analysis.st_changed (Analysis.kmeans_cluster s3') = false) /\
    (Analysis.f_changed (Analysis.cell_filtering s2') = true /\
     Analysis.st_changed (Analysis.rna_pca s2') = true /\
     Analysis.st_changed (Analysis.tsne s2') = true /\
     Analysis.st_changed (Analysis.umap s2') = true /\
     Analysis.st_changed (Analysis.snn_graph_cluster s2') = true /\
     Analysis.st_results (Analysis.snn_graph_cluster s2') = false).
Proof.
  intros d p snn' copy Hm Hs _ Hcopy. cbv zeta.
  destruct (runAnalysis_rejects Analysis.create_analysis (Some d) p)
    as (w1 & l1 & -> & _ & Hl1).
  cbn [Wasm.final Wasm.thrown].
  set (s1 := Analysis.stopped_at_labelling Analysis.create_analysis (Some d) p l1).
  set (p2 := Analysis.with_method p "kmeans").
  destruct (runAnalysis_rejects s1 (Some d) p2) as (w2 & l2 & -> & _ & Hl2).
  cbn [Wasm.final Wasm.thrown].
  set (s2 := Analysis.stopped_at_labelling s1 (Some d) p2 l2).
  destruct (runAnalysis_rejects s2 (Some d) (Analysis.with_snn p2 snn'))
    as (w3 & l3 & -> & _ & Hl3).
  destruct (runAnalysis_rejects s1 (Some d) (Analysis.with_snn p snn'))
    as (w4 & l4 & -> & _ & _).
  destruct (runAnalysis_rejects s1 (Some d) (Analysis.with_filter p2 copy))
    as (w5 & l5 & -> & _ & _).
  cbn [Wasm.final].
  set (s3 := Analysis.stopped_at_labelling s2 (Some d) (Analysis.with_snn p2 snn') l3).
  destruct (first_run_clusters d p l1 Hm) as (Hk1 & Hs1 & _).
  destruct (second_run_clusters d p l1 l2 Hm) as (Hk2 & Hs2 & Hc2).
  destruct (third_run_clusters d p snn' l1 l2 l3 Hm Hs) as (Hk3 & Hkr3 & Hs3 & Hc3 & Hm3).
  pose proof (rerun_basic Analysis.create_analysis d p l1 p2 l2
                (same_basic_with_method p "kmeans")) as Hb2.
  pose proof (basic_changed_false _
                (rerun_basic s1 d p2 l2 (Analysis.with_snn p2 snn') l3
                   (same_basic_with_snn p2 snn'))) as Hb3.
  fold s1 in Hk1, Hs1. fold s1 p2 s2 in Hk2, Hs2, Hc2, Hb2.
  fold s1 p2 s2 s3 in Hk3, Hkr3, Hs3, Hc3, Hm3, Hb3.
  destruct Hb3 as (Hin3 & H1 & H2 & H3 & H4 & H5 & H6 & H7 & H8 & H9 & H10 & H11 & H12
                   & H13 & H14 & H15 & H16).
  assert (Hlab : Analysis.lb_changed (Analysis.cell_labelling s3) = false).
  { cbn [s3 Analysis.stopped_at_labelling Analysis.cell_labelling].
    rewrite Hl3. cbn [s2 Analysis.stopped_at_labelling Analysis.cell_labelling].
    rewrite Hl2. cbn [s1 Analysis.stopped_at_labelling Analysis.cell_labelling].
    rewrite Hl1. reflexivity. }
  assert (Hcus : Analysis.st_changed (Analysis.custom_selections s3) = false)
    by reflexivity.
  assert (Hen : FeatureSetEnrichment.changed (Analysis.feature_set_enrichment s3) = false)
    by reflexivity.
  split_and!.
  - exists w1. reflexivity.
  - exists w2. reflexivity.
  - rewrite Hs1. reflexivity.
  - rewrite Hk1. reflexivity.
  - exact Hb2.
  - rewrite Hk2. reflexivity.
  - rewrite Hk2. reflexivity.
  - rewrite Hs2. reflexivity.
  - rewrite Hs2. reflexivity.
  - rewrite Hc2. reflexivity.
  - exact Hin3.
  - intros name b Hin. unfold Analysis.downstream_changed in Hin. cbn [In] in Hin.
    repeat (destruct Hin as [Hin|Hin];
            [injection Hin as <- <-; etransitivity; [eassumption|reflexivity]|]).
    destruct Hin.
  - exact Hkr3.
  - exact (proj1 (active_snn_run d p snn' l1 l4 Hm Hs)).
  - exact (proj1 (proj2 (active_snn_run d p snn' l1 l4 Hm Hs))).
  - exact (proj2 (proj2 (active_snn_run d p snn' l1 l4 Hm Hs))).
  - exact (proj1 (copied_filter_run d p l1 l5 copy Hcopy)).
  - exact (proj1 (proj2 (copied_filter_run d p l1 l5 copy Hcopy))).
  - exact (proj1 (proj2 (proj2 (copied_filter_run d p l1 l5 copy Hcopy)))).
  - exact (proj1 (proj2 (proj2 (proj2 (copied_filter_run d p l1 l5 copy Hcopy))))).
  - exact (proj1 (proj2 (proj2 (proj2 (proj2 (copied_filter_run d p l1 l5 copy Hcopy)))))).
  - exact (proj2 (proj2 (proj2 (proj2 (proj2 (copied_filter_run d p l1 l5 copy Hcopy)))))).
Qed.

Lemma C4_clustering_switch_witness :
  (exists what,
     Wasm.thrown (Analysis.runAnalysis Analysis.create_analysis (Some Analysis.rna_only)
                    Analysis.base_parameters) = Some (TypeError what)) /\
  Analysis.f_changed
    (Analysis.cell_filtering
       (Wasm.final
          (Analysis.runAnalysis
             (Wasm.final
                (Analysis.runAnalysis Analysis.create_analysis (Some Analysis.rna_only)
                   Analysis.base_parameters))
             (Some Analysis.rna_only)
             (Analysis.with_filter (Analysis.with_method Analysis.base_parameters "kmeans")
                Analysis.filter_copy))))
  = true.
Proof.
  destruct (C4_clustering_switch Analysis.rna_only Analysis.base_parameters
              [("k", Analysis.VNumber 10); ("resolution", Analysis.VNumber 77)]
              Analysis.filter_copy)
    as ((H1 & _) & _ & _ & _ & _ & (H & _)).
  - reflexivity.
  - discriminate.
  - reflexivity.
  - discriminate.
  - split; [exact H1|exact H].
Defined.

(** C5, as the code has it.  A state returned by [loadAnalysis] carries
    the reloaded marker.  The next [runAnalysis] removes it and sets the
    [changed] flag of the inputs before the steps are computed, so that
    every step that the run computes, from the quality control to the
    marker detection, reports a change, except that the CRISPR PCA does
    so only when the dataset holds the CRISPR modality.  The runs after
    that find no marker and detect changes as usual: the inputs are
    compared with the stored datasets and parameters, and with the same
    datasets and parameters the inputs and every step up to the
    embeddings are unchanged.  The cell labelling and the steps after
    it are not part of this statement. *)
Theorem C5_reload_marker :
  (forall (u : Analysis.unserializers) (s0 : Analysis.state),
     Analysis.loadAnalysis u = Ret s0 -> Analysis.load_flag s0 = true) /\
  (forall (s0 : Analysis.state) (datasets : option Analysis.dataset)
          (p : Analysis.parameters),
     Analysis.load_flag s0 = true ->
     let s1 := Wasm.final (Analysis.runAnalysis s0 datasets p) in
     Analysis.load_flag s1 = false /\
     Analysis.in_changed (Analysis.inputs s1) = true /\
     (forall name b, In (name, b) (Analysis.computed_changed s1) ->
                     b = if String.eqb name "crispr_pca"
                         then Analysis.has_modality (Analysis.inputs s1) CellFiltering.CRISPR
                         else true) /\
     (forall d p',
        let s2 := Wasm.final (Analysis.runAnalysis s1 d p') in
        Analysis.load_flag s2 = false /\
        Analysis.inputs s2 = Analysis.inputs_compute d (Analysis.p_inputs p')
                               (Analysis.inputs s1)) /\
     (forall d, Forall (fun b => b = false)
                  (Analysis.basic_changed
                     (Wasm.final
                        (Analysis.runAnalysis
                           (Wasm.final (Analysis.runAnalysis s0 (Some d) p))
                           (Some d) p))))).
Proof.
  split.
  - intros u s0 H. unfold Analysis.loadAnalysis in H.
    repeat match type of H with
           | bind ?r _ = Ret _ => destruct r; cbn [bind] in H; [|discriminate H]
           end.
    injection H as <-. reflexivity.
  - intros s0 datasets p Hflag. cbv zeta.
    destruct (runAnalysis_rejects s0 datasets p) as (w1 & l1 & -> & _ & _).
    cbn [Wasm.final].
    set (s1 := Analysis.stopped_at_labelling s0 datasets p l1).
    assert (Hin : Analysis.in_changed (Analysis.run_inputs s0 datasets p) = true).
    { unfold Analysis.run_inputs. rewrite Hflag. reflexivity. }
    assert (Hqc : Analysis.st_changed (Analysis.run_rna_quality_control s0 datasets p) = true).
    { unfold Analysis.run_rna_quality_control. rewrite Hin. reflexivity. }
    assert (Hqa : Analysis.st_changed (Analysis.run_adt_quality_control s0 datasets p) = true).
    { unfold Analysis.run_adt_quality_control. rewrite Hin. reflexivity. }
    assert (Hqr : Analysis.st_changed (Analysis.run_crispr_quality_control s0 datasets p) = true).
    { unfold Analysis.run_crispr_quality_control. rewrite Hin. reflexivity. }
    assert (Hf : Analysis.filter_changed s0 datasets p = true).
    { unfold Analysis.filter_changed, Analysis.run_cell_filtering, Analysis.filter_compute.
      rewrite Hin. reflexivity. }
    assert (Hn : Analysis.st_changed (Analysis.run_rna_normalization s0 datasets p) = true).
    { unfold Analysis.run_rna_normalization. rewrite Hqc. reflexivity. }
    assert (Hna : Analysis.st_changed (Analysis.run_adt_normalization s0 datasets p) = true).
    { unfold Analysis.run_adt_normalization. rewrite Hqa. reflexivity. }
    assert (Hnc : Analysis.st_changed (Analysis.run_crispr_normalization s0 datasets p) = true).
    { unfold Analysis.run_crispr_normalization. rewrite Hqr. reflexivity. }
    assert (Hfs : Analysis.st_changed (Analysis.run_feature_selection s0 datasets p) = true).
    { unfold Analysis.run_feature_selection. rewrite Hf. reflexivity. }
    assert (Hp : Analysis.st_changed (Analysis.run_rna_pca s0 datasets p) = true).
    { unfold Analysis.run_rna_pca. rewrite Hf. reflexivity. }
    assert (Hpa : Analysis.st_changed (Analysis.run_adt_pca s0 datasets p) = true).
    { unfold Analysis.run_adt_pca. rewrite Hf. reflexivity. }
    assert (Hpc : CrisprPca.s_changed (Analysis.run_crispr_pca s0 datasets p)
                  = Analysis.has_modality (Analysis.run_inputs s0 datasets p)
                      CellFiltering.CRISPR).
    { unfold Analysis.run_crispr_pca, CrisprPca.compute_summary. rewrite Hnc.
      cbn [orb]. destruct (Analysis.has_modality _ _); reflexivity. }
    assert (Hce : Analysis.st_changed (Analysis.run_combine_embeddings s0 datasets p) = true).
    { unfold Analysis.run_combine_embeddings. rewrite Hp. reflexivity. }
    assert (Hbc : Analysis.st_changed (Analysis.run_batch_correction s0 datasets p) = true).
    { unfold Analysis.run_batch_correction. rewrite Hf. reflexivity. }
    assert (Hni : Analysis.st_changed (Analysis.run_neighbor_index s0 datasets p) = true).
    { unfold Analysis.run_neighbor_index. rewrite Hbc. reflexivity. }
    assert (Ht : Analysis.st_changed (Analysis.run_tsne s0 datasets p) = true).
    { unfold Analysis.run_tsne. rewrite Hni. reflexivity. }
    assert (Hu : Analysis.st_changed (Analysis.run_umap s0 datasets p) = true).
    { unfold Analysis.run_umap. rewrite Hni. reflexivity. }
    assert (Hkm : Analysis.st_changed (Analysis.run_kmeans_cluster s0 datasets p) = true).
    { unfold Analysis.run_kmeans_cluster. rewrite Hbc. reflexivity. }
    assert (Hsnn : Analysis.st_changed (Analysis.run_snn_graph_cluster s0 datasets p) = true).
    { unfold Analysis.run_snn_graph_cluster. rewrite Hni. reflexivity. }
    assert (Hch : Analysis.ch_changed (Analysis.run_choose_clustering s0 datasets p) = true).
    { unfold Analysis.run_choose_clustering, Analysis.choice_compute.
      cbn [Analysis.ch_changed]. rewrite Hsnn, Hkm.
      destruct (Wasm.differs _ _), (String.eqb (Analysis.method p) "snn_graph"),
               (String.eqb (Analysis.method p) "kmeans"); reflexivity. }
    assert (Hmk : Analysis.st_changed (Analysis.run_marker_detection s0 datasets p) = true).
    { unfold Analysis.run_marker_detection. rewrite Hf. reflexivity. }
    split_and!.
    + reflexivity.
    + exact Hin.
    + intros name b Hi. unfold Analysis.computed_changed in Hi.
      cbn [In s1 Analysis.stopped_at_labelling Analysis.rna_quality_control
           Analysis.adt_quality_control Analysis.crispr_quality_control
           Analysis.cell_filtering Analysis.rna_normalization Analysis.adt_normalization
           Analysis.crispr_normalization Analysis.feature_selection Analysis.rna_pca
           Analysis.adt_pca Analysis.crispr_pca Analysis.combine_embeddings
           Analysis.batch_correction Analysis.neighbor_index Analysis.tsne Analysis.umap
           Analysis.kmeans_cluster Analysis.snn_graph_cluster Analysis.choose_clustering
           Analysis.marker_detection Analysis.inputs] in Hi |- *.
      repeat (destruct Hi as [Hi|Hi];
              [injection Hi as <- <-; cbn [String.eqb Ascii.eqb Bool.eqb];
               first [assumption | exact Hf]|]).
      destruct Hi.
    + intros d p'. cbv zeta.
      destruct (runAnalysis_rejects s1 d p') as (w2 & l2 & -> & _ & _).
      split; reflexivity.
    + intros d.
      destruct (runAnalysis_rejects s0 (Some d) p) as (w2 & l2 & -> & _ & _).
      cbn [Wasm.final].
      destruct (runAnalysis_rejects (Analysis.stopped_at_labelling s0 (Some d) p l2)
                  (Some d) p) as (w3 & l3 & -> & _ & _).
      cbn [Wasm.final]. apply rerun_basic. repeat split.
Qed.

Lemma C5_reload_marker_witness :
  exists s0,
    Analysis.reloaded_rna_only = Ret s0 /\
    Analysis.load_flag s0 = true /\
    Analysis.in_changed
      (Analysis.inputs
         (Wasm.final (Analysis.runAnalysis s0 (Some Analysis.rna_only)
                        Analysis.base_parameters))) = true.
Proof.
  destruct C5_reload_marker as [H1 H2].
  eexists. split; [reflexivity|].
  split.
  - apply (H1 (Analysis.source_unserializers Analysis.old_file Analysis.saved_rna_only)).
    reflexivity.
  - refine (proj1 (proj2 (H2 _ (Some Analysis.rna_only) Analysis.base_parameters _))).
    reflexivity.
Defined.

(** C5 as stated fails: after a reload, a run on a dataset without the
    CRISPR modality leaves the CRISPR PCA with [changed] false. *)
Lemma C5_invalid_crispr_counterexample :
  exists s0,
    Analysis.reloaded_rna_only = Ret s0 /\
    Analysis.load_flag s0 = true /\
    CrisprPca.s_changed
      (Analysis.crispr_pca
         (Wasm.final (Analysis.runAnalysis s0 (Some Analysis.rna_only)
                        Analysis.base_parameters))) = false.
Proof. eexists. split; [reflexivity|]. split; reflexivity. Qed.




(** ** Facts about the marker utilities *)

Section MarkersFacts.
Import Markers.

Lemma numbering_empty : numbering ∅ 0.
Proof.
  split; try lia.
  - intros y v H. rewrite lookup_empty in H. discriminate.
  - intros y1 y2 v H. rewrite lookup_empty in H. discriminate.
Qed.

Lemma numbering_insert m c y :
  numbering m c -> m !! y = None -> numbering (<[y := c]> m) (c + 1).
Proof.
  intros [Hc Hr Ho Hi] Hy. split.
  - lia.
  - intros y' v. destruct (decide (y' = y)) as [->|Hne].
    + rewrite lookup_insert_eq. intros [= <-]. lia.
    + rewrite lookup_insert_ne by congruence. intros H. apply Hr in H. lia.
  - intros v Hv. destruct (decide (v = c)) as [->|Hne].
    + exists y. apply lookup_insert_eq.
    + destruct (Ho v) as [y' Hy']; [lia|]. exists y'.
      rewrite lookup_insert_ne; [exact Hy'|]. intros ->. congruence.
  - intros y1 y2 v.
    destruct (decide (y1 = y)) as [->|H1], (decide (y2 = y)) as [->|H2]; auto.
    + rewrite lookup_insert_eq, lookup_insert_ne by congruence.
      intros [= <-] H. apply Hr in H. lia.
    + rewrite lookup_insert_eq, lookup_insert_ne by congruence.
      intros H [= <-]. apply Hr in H. lia.
    + rewrite !lookup_insert_ne by congruence. apply Hi.
Qed.

(** The loop looks every element up in the mapping it ends with. *)
Lemma drop_loop_final m c x :
  numbering m c ->
  exists m' c',
    m ⊆ m' /\ numbering m' c' /\ (c <= c' <= c + Z.of_nat (List.length x))%Z /\
    Forall2 (fun y v => m' !! y = Some v) x (drop_loop m c x) /\
    (forall y v, m' !! y = Some v -> m !! y = Some v \/ In y x).
Proof.
  revert m c. induction x as [|y rest IH]; intros m c Hn; cbn [drop_loop].
  - exists m, c. split_and!; auto; cbn; try lia.
  - destruct (m !! y) as [v|] eqn:Hy.
    + destruct (IH m c Hn) as (m' & c' & Hsub & Hn' & Hc & Hall & Hdom).
      exists m', c'. split_and!; auto; try (cbn [List.length]; lia).
      * constructor; [|exact Hall]. eapply lookup_weaken; eauto.
      * intros y' v' H'. destruct (Hdom y' v' H'); [left|right; right]; auto.
    + destruct (IH _ _ (numbering_insert m c y Hn Hy))
        as (m' & c' & Hsub & Hn' & Hc & Hall & Hdom).
      exists m', c'. split_and!; auto; try (cbn [List.length]; lia).
      * etrans; [|exact Hsub]. apply insert_subseteq. exact Hy.
      * constructor; [|exact Hall].
        eapply lookup_weaken; [|exact Hsub]. apply lookup_insert_eq.
      * intros y' v' H'. destruct (Hdom y' v' H') as [H|H]; [|right; right; exact H].
        destruct (decide (y' = y)) as [->|Hne]; [right; left; reflexivity|].
        rewrite lookup_insert_ne in H by congruence. left. exact H.
Qed.

Lemma drop_loop_length m c x : List.length (drop_loop m c x) = List.length x.
Proof.
  revert m c. induction x as [|y rest IH]; intros m c; cbn [drop_loop]; [reflexivity|].
  destruct (m !! y); cbn; rewrite IH; reflexivity.
Qed.

Lemma drop_loop_first_appearance m c x :
  numbering m c -> first_appearance c (drop_loop m c x).
Proof.
  revert m c. induction x as [|y rest IH]; intros m c Hn; cbn [drop_loop].
  - constructor.
  - destruct (m !! y) as [v|] eqn:Hy.
    + apply fa_old; [eapply nb_range; eauto|apply IH; exact Hn].
    + apply fa_new. apply IH. apply numbering_insert; assumption.
Qed.

Lemma first_appearance_fixed m c l :
  (forall v, (0 <= v < c)%Z -> m !! v = Some v) ->
  (forall v, (c <= v)%Z -> m !! v = None) ->
  first_appearance c l -> drop_loop m c l = l.
Proof.
  intros Hlow Hhigh Hl. revert m Hlow Hhigh.
  induction Hl as [c|c v l Hv Hl IH|c l Hl IH]; intros m Hlow Hhigh; cbn [drop_loop].
  - reflexivity.
  - rewrite (Hlow v Hv). f_equal. apply IH; assumption.
  - rewrite (Hhigh c) by lia. f_equal. apply IH.
    + intros v Hv. destruct (decide (v = c)) as [->|Hne].
      * apply lookup_insert_eq.
      * rewrite lookup_insert_ne by congruence. apply Hlow. lia.
    + intros v Hv. rewrite lookup_insert_ne by lia. apply Hhigh. lia.
Qed.

End MarkersFacts.

(** X1.  [dropUnusedBlocks] keeps the blocks: two cells have the same
    identifier afterwards exactly when they had the same identifier
    before. *)
Theorem dropUnusedBlocks_keeps_blocks :
  forall (x : list Z) (i j : nat),
    i < List.length x -> j < List.length x ->
    (nth i (Markers.dropUnusedBlocks x) 0%Z = nth j (Markers.dropUnusedBlocks x) 0%Z
     <-> nth i x 0%Z = nth j x 0%Z).
Proof.
  intros x i j Hi Hj. unfold Markers.dropUnusedBlocks.
  destruct (drop_loop_final ∅ 0%Z x numbering_empty)
    as (m' & c' & _ & Hn & _ & Hall & _).
  assert (Hlook : forall k, k < List.length x ->
            m' !! nth k x 0%Z = Some (nth k (Markers.drop_loop ∅ 0 x) 0%Z)).
  { intros k Hk.
    destruct (lookup_lt_is_Some_2 x k Hk) as [a Ha].
    destruct (Forall2_lookup_l _ _ _ _ _ Hall Ha) as (b & Hb & Hab).
    rewrite (nth_lookup_Some _ _ _ _ Ha), (nth_lookup_Some _ _ _ _ Hb). exact Hab. }
  pose proof (Hlook i Hi) as Hli. pose proof (Hlook j Hj) as Hlj. split.
  - intros Heq. rewrite Heq in Hli. eapply Markers.nb_inj; eauto.
  - intros Heq. rewrite Heq in Hli. congruence.
Qed.

Lemma dropUnusedBlocks_keeps_blocks_witness :
  (nth 0 (Markers.dropUnusedBlocks [7; 3; 7]%Z) 0%Z = nth 2 (Markers.dropUnusedBlocks [7; 3; 7]%Z) 0%Z
   <-> nth 0 [7; 3; 7]%Z 0%Z = nth 2 [7; 3; 7]%Z 0%Z).
Proof.
  apply (dropUnusedBlocks_keeps_blocks [7; 3; 7]%Z 0 2); cbn; lia.
Defined.

(** X2.  After [dropUnusedBlocks] the identifiers in use are exactly
    the numbers from 0 up to the number of blocks: no identifier is
    left unused. *)
Theorem dropUnusedBlocks_compact :
  forall x : list Z,
    exists k : Z,
      (0 <= k <= Z.of_nat (List.length x))%Z /\
      forall v, In v (Markers.dropUnusedBlocks x) <-> (0 <= v < k)%Z.
Proof.
  intros x. unfold Markers.dropUnusedBlocks.
  destruct (drop_loop_final ∅ 0%Z x numbering_empty)
    as (m' & c' & _ & Hn & Hc & Hall & Hdom).
  exists c'. split; [lia|].
  - intros v. split.
    + intros Hv. apply list_elem_of_In, list_elem_of_lookup in Hv. destruct Hv as [k Hk].
      destruct (Forall2_lookup_r _ _ _ _ _ Hall Hk) as (y & _ & Hy).
      eapply Markers.nb_range; eauto.
    + intros Hv. destruct (Markers.nb_onto _ _ Hn v Hv) as [y Hy].
      destruct (Hdom y v Hy) as [H|H]; [rewrite lookup_empty in H; discriminate|].
      apply list_elem_of_In, list_elem_of_lookup in H. destruct H as [k Hk].
      destruct (Forall2_lookup_l _ _ _ _ _ Hall Hk) as (b & Hb & Hyb).
      apply list_elem_of_In, list_elem_of_lookup. exists k. congruence.
Qed.

(** X3.  [dropUnusedBlocks] is idempotent: identifiers that were
    already compacted are left as they are. *)
Theorem dropUnusedBlocks_idempotent :
  forall x : list Z,
    Markers.dropUnusedBlocks (Markers.dropUnusedBlocks x) = Markers.dropUnusedBlocks x.
Proof.
  intros x. unfold Markers.dropUnusedBlocks.
  apply first_appearance_fixed.
  - intros v Hv. lia.
  - intros v _. apply lookup_empty.
  - apply drop_loop_first_appearance. apply numbering_empty.
Qed.


Section RankingFacts.
Import Markers.

Lemma ranked_before_total inc ranking f s :
  stays_before inc ranking f s = false -> ranked_before inc ranking s f.
Proof.
  unfold stays_before, ranked_before. destruct inc; intros H.
  - destruct (Qlt_le_dec (nth s ranking 0%Q) (nth f ranking 0%Q)) as [Hlt|Hle].
    + apply Qlt_le_weak. exact Hlt.
    + apply Qle_bool_iff in Hle. congruence.
  - destruct (Qlt_le_dec (nth f ranking 0%Q) (nth s ranking 0%Q)) as [Hlt|Hle].
    + apply Qlt_le_weak. exact Hlt.
    + apply Qle_bool_iff in Hle. congruence.
Qed.

Lemma ranked_before_trans inc ranking f s t :
  ranked_before inc ranking f s -> ranked_before inc ranking s t ->
  ranked_before inc ranking f t.
Proof.
  unfold ranked_before. destruct inc; intros H1 H2; eapply Qle_trans; eassumption.
Qed.

Lemma insert_index_Forall (P : nat -> Prop) inc ranking f l :
  P f -> Forall P l -> Forall P (insert_index inc ranking f l).
Proof.
  intros Hf Hl. induction Hl as [|s l Hs Hl IH]; cbn.
  - constructor; [exact Hf|constructor].
  - destruct (stays_before inc ranking f s); constructor; auto.
Qed.

Lemma insert_index_sorted inc ranking f l :
  StronglySorted (ranked_before inc ranking) l ->
  StronglySorted (ranked_before inc ranking) (insert_index inc ranking f l).
Proof.
  induction 1 as [|s l Hs IH Hall]; cbn.
  - constructor; constructor.
  - destruct (stays_before inc ranking f s) eqn:Hfs.
    + assert (Hb : ranked_before inc ranking f s).
      { unfold stays_before in Hfs. unfold ranked_before.
        destruct inc; apply Qle_bool_iff; exact Hfs. }
      constructor; [constructor; assumption|].
      constructor; [exact Hb|].
      eapply List.Forall_impl; [|exact Hall]. intros t Ht.
      eapply ranked_before_trans; eassumption.
    + constructor; [exact IH|].
      apply insert_index_Forall; [|exact Hall].
      apply ranked_before_total. exact Hfs.
Qed.

Lemma insert_index_perm inc ranking f l :
  Permutation (f :: l) (insert_index inc ranking f l).
Proof.
  induction l as [|s l IH]; cbn.
  - apply Permutation_refl.
  - destruct (stays_before inc ranking f s).
    + apply Permutation_refl.
    + eapply Permutation_trans; [apply perm_swap|]. apply perm_skip. exact IH.
Qed.

Lemma sort_ordering_sorted inc ranking l :
  StronglySorted (ranked_before inc ranking) (sort_ordering inc ranking l).
Proof.
  induction l as [|f l IH]; cbn; [constructor|]. apply insert_index_sorted. exact IH.
Qed.

Lemma sort_ordering_perm inc ranking l : Permutation (sort_ordering inc ranking l) l.
Proof.
  induction l as [|f l IH]; cbn; [apply Permutation_refl|].
  eapply Permutation_trans; [apply Permutation_sym, insert_index_perm|].
  apply perm_skip. exact IH.
Qed.

(** With one entry of [ordering] for each statistic, all of them inside
    [stats], [reorder] picks the statistics in that order. *)
Lemma reorder_full ordering stats :
  List.length ordering = List.length stats ->
  Forall (fun o => o < List.length stats) ordering ->
  reorder ordering stats = map (fun o => Some (nth o stats 0%Q)) ordering.
Proof.
  intros Hlen Hin. unfold reorder. rewrite <- Hlen.
  apply nth_error_ext. intros i.
  rewrite !nth_error_map.
  destruct (nth_error ordering i) as [o|] eqn:Ho.
  - assert (Hi : i < List.length ordering) by (apply nth_error_Some; congruence).
    rewrite nth_error_seq. destruct (Nat.ltb_spec i (List.length ordering)); [|lia].
    cbn. rewrite Ho.
    f_equal. apply nth_error_nth'.
    rewrite List.Forall_forall in Hin. apply Hin. eapply nth_error_In; eauto.
  - assert (Hi : List.length ordering <= i) by (apply nth_error_None; exact Ho).
    rewrite nth_error_seq. destruct (Nat.ltb_spec i (List.length ordering)); [lia|].
    reflexivity.
Qed.

End RankingFacts.

(** X4.  [formatMarkerResults] orders the genes by the chosen ranking
    statistic: the ordering is a permutation of the gene indices, it
    runs from the largest statistic to the smallest (from the smallest
    to the largest for a min-rank), and every reported statistic is
    listed in that order. *)
Theorem formatMarkerResults_ordering :
  forall (results : Markers.ScoreMarkersResults) (group : Z)
         (rankEffect : option string) (out : Markers.formatted),
    Markers.formatMarkerResults results group rankEffect = inr out ->
    exists ranking : list Q,
      Markers.choose_ranking results group (Markers.rank_effect rankEffect) = Some ranking /\
      Permutation (Markers.f_ordering out) (seq 0 (List.length ranking)) /\
      StronglySorted
        (Markers.ranked_before
           (fst (Markers.rank_summary (Markers.rank_effect rankEffect))) ranking)
        (Markers.f_ordering out) /\
      (List.length (Markers.means results group) = List.length ranking ->
       Markers.f_means out
       = map (fun o => Some (nth o (Markers.means results group) 0%Q))
             (Markers.f_ordering out)) /\
      (List.length (Markers.detected results group) = List.length ranking ->
       Markers.f_detected out
       = map (fun o => Some (nth o (Markers.detected results group) 0%Q))
             (Markers.f_ordering out)).
Proof.
  intros results group rankEffect out H.
  unfold Markers.formatMarkerResults in H.
  destruct (Markers.choose_ranking results group (Markers.rank_effect rankEffect))
    as [ranking|] eqn:Hr; [|discriminate].
  injection H as <-. cbn [Markers.f_ordering Markers.f_means Markers.f_detected].
  set (inc := fst (Markers.rank_summary (Markers.rank_effect rankEffect))).
  set (n := List.length ranking).
  assert (Hperm : Permutation (Markers.sort_ordering inc ranking (seq 0 n)) (seq 0 n))
    by apply sort_ordering_perm.
  assert (Hall : Forall (fun o => o < n) (Markers.sort_ordering inc ranking (seq 0 n))).
  { eapply Permutation_Forall; [apply Permutation_sym; exact Hperm|].
    apply List.Forall_forall. intros o Ho. apply in_seq in Ho. lia. }
  assert (Hlen : List.length (Markers.sort_ordering inc ranking (seq 0 n)) = n).
  { rewrite (Permutation_length Hperm). apply length_seq. }
  exists ranking. split_and!.
  - reflexivity.
  - exact Hperm.
  - apply sort_ordering_sorted.
  - intros Hm. apply reorder_full; rewrite Hm; assumption.
  - intros Hm. apply reorder_full; rewrite Hm; assumption.
Qed.

Lemma formatMarkerResults_ordering_witness :
  exists ranking : list Q,
    Markers.choose_ranking Markers.example_results 0%Z (Markers.rank_effect None)
    = Some ranking /\
    Permutation [1; 2; 0] (seq 0 (List.length ranking)) /\
    StronglySorted
      (Markers.ranked_before (fst (Markers.rank_summary (Markers.rank_effect None))) ranking)
      [1; 2; 0] /\
    (List.length (Markers.means Markers.example_results 0%Z) = List.length ranking ->
     [Some 2%Q; Some 3%Q; Some 1%Q]
     = map (fun o => Some (nth o (Markers.means Markers.example_results 0%Z) 0%Q)) [1; 2; 0]) /\
    (List.length (Markers.detected Markers.example_results 0%Z) = List.length ranking ->
     [Some 5%Q; Some 6%Q; Some 4%Q]
     = map (fun o => Some (nth o (Markers.detected Markers.example_results 0%Z) 0%Q))
           [1; 2; 0]).
Proof.
  apply (formatMarkerResults_ordering Markers.example_results 0%Z None
           {| Markers.f_ordering := [1; 2; 0];
              Markers.f_means := [Some 2%Q; Some 3%Q; Some 1%Q];
              Markers.f_detected := [Some 5%Q; Some 6%Q; Some 4%Q];
              Markers.f_lfc := [Some 8%Q; Some 9%Q; Some 7%Q];
              Markers.f_delta_detected := [Some 0%Q; Some 0%Q; Some 0%Q] |}).
  reflexivity.
Defined.

(** X5.  [formatMarkerResults] throws exactly when the rank type starts
    with none of "cohen-", "auc-", "lfc-" and "delta-d-"; in particular
    a rank type that starts with "delta_detected-" is refused. *)
Theorem formatMarkerResults_rank_types :
  forall (results : Markers.ScoreMarkersResults) (group : Z),
    (forall rankEffect : option string,
        let r := Markers.rank_effect rankEffect in
        (exists thrown, Markers.formatMarkerResults results group rankEffect = inl thrown)
        <-> Markers.starts_with "cohen-" r || Markers.starts_with "auc-" r
            || Markers.starts_with "lfc-" r || Markers.starts_with "delta-d-" r = false) /\
    (forall summary : string,
        Markers.formatMarkerResults results group (Some ("delta_detected-" ++ summary)%string)
        = inl ("unknown rank type 'delta_detected-" ++ summary ++ "'")%string).
Proof.
  intros results group. split.
  - intros rankEffect r. unfold Markers.formatMarkerResults, Markers.choose_ranking.
    fold r.
    destruct (Markers.starts_with "cohen-" r); cbn [orb].
    { split; [intros [t Ht]; discriminate|discriminate]. }
    destruct (Markers.starts_with "auc-" r); cbn [orb].
    { split; [intros [t Ht]; discriminate|discriminate]. }
    destruct (Markers.starts_with "lfc-" r); cbn [orb].
    { split; [intros [t Ht]; discriminate|discriminate]. }
    destruct (Markers.starts_with "delta-d-" r); cbn [orb].
    { split; [intros [t Ht]; discriminate|discriminate]. }
    split; [reflexivity|]. intros _. eexists. reflexivity.
  - intros summary. reflexivity.
Qed.

Section VersusFacts.
Import Markers.

Lemma concat_map_perm {A B : Type} (f : A -> list B) (l l' : list A) :
  Permutation l l' -> Permutation (concat (map f l)) (concat (map f l')).
Proof.
  induction 1 as [|x l l' H IH|x y l|l l' l'' H1 IH1 H2 IH2]; cbn.
  - apply Permutation_refl.
  - apply Permutation_app_head. exact IH.
  - rewrite !app_assoc. apply Permutation_app_tail. apply Permutation_app_comm.
  - eapply Permutation_trans; eassumption.
Qed.

(** The values below one key of an object, and below the other keys. *)
Lemma values_insert {K : Type} `{Countable K} {V B : Type} (f : V -> list B)
    (m : gmap K V) (k : K) (x' : V) :
  Permutation (concat (map f (map snd (map_to_list (<[k := x']> m)))))
              (f x' ++ concat (map f (map snd (map_to_list (delete k m))))).
Proof.
  rewrite <- insert_delete_eq.
  apply (concat_map_perm f (map snd (map_to_list (<[k := x']> (delete k m))))
                         (x' :: map snd (map_to_list (delete k m)))).
  apply (Permutation_map snd (l' := (k, x') :: map_to_list (delete k m))).
  apply map_to_list_insert. apply lookup_delete_eq.
Qed.

Lemma values_lookup {K : Type} `{Countable K} {V B : Type} (f : V -> list B)
    (m : gmap K V) (k : K) (d : V) :
  f d = [] ->
  Permutation (concat (map f (map snd (map_to_list m))))
              (f (default d (m !! k)) ++ concat (map f (map snd (map_to_list (delete k m))))).
Proof.
  intros Hd. destruct (m !! k) as [x|] eqn:Hk; simpl.
  - apply (concat_map_perm f (map snd (map_to_list m))
                           (x :: map snd (map_to_list (delete k m)))).
    apply (Permutation_map snd (l' := (k, x) :: map_to_list (delete k m))).
    apply Permutation_sym. apply map_to_list_delete. exact Hk.
  - rewrite Hd, delete_id by exact Hk. apply Permutation_refl.
Qed.

Lemma values_extend {K : Type} `{Countable K} {V B : Type} (f : V -> list B)
    (m : gmap K V) (k : K) (d x' : V) (extra : list B) :
  f d = [] ->
  Permutation (f x') (extra ++ f (default d (m !! k))) ->
  Permutation (concat (map f (map snd (map_to_list (<[k := x']> m)))))
              (extra ++ concat (map f (map snd (map_to_list m)))).
Proof.
  intros Hd Hx.
  eapply Permutation_trans; [apply values_insert|].
  eapply Permutation_trans; [apply Permutation_app_tail; exact Hx|].
  rewrite <- app_assoc. apply Permutation_app_head.
  apply Permutation_sym. apply values_lookup. exact Hd.
Qed.

Lemma cached_results_insert (versus : versus_cache) bigg smal feat_type res :
  default ∅ (default ∅ (versus !! bigg) !! smal) !! feat_type = None ->
  Permutation
    (cached_results
       (<[bigg := <[smal := <[feat_type := res]>
                              (default ∅ (default ∅ (versus !! bigg) !! smal))]>
                    (default ∅ (versus !! bigg))]> versus))
    (res :: cached_results versus).
Proof.
  intros Hnone. unfold cached_results.
  apply (values_extend by_smal_values versus bigg ∅ _ [res]).
  { unfold by_smal_values. rewrite map_to_list_empty. reflexivity. }
  apply (values_extend by_type_values (default ∅ (versus !! bigg)) smal ∅ _ [res]).
  { unfold by_type_values. rewrite map_to_list_empty. reflexivity. }
  unfold by_type_values.
  eapply Permutation_trans.
  { apply Permutation_map. apply map_to_list_insert. exact Hnone. }
  apply Permutation_refl.
Qed.

Lemma versus_keep (versus : versus_cache) bigg smal :
  default ∅ (default ∅ (versus !! bigg) !! smal) <> ∅ ->
  <[bigg := <[smal := default ∅ (default ∅ (versus !! bigg) !! smal)]>
               (default ∅ (versus !! bigg))]> versus = versus.
Proof.
  intros Hne.
  destruct (versus !! bigg) as [bv|] eqn:Hb; simpl in *.
  - destruct (bv !! smal) as [sv|] eqn:Hs; simpl in *.
    + rewrite (insert_id bv smal sv Hs). apply insert_id. exact Hb.
    + congruence.
  - rewrite lookup_empty in Hne. cbn in Hne. congruence.
Qed.

Variable generate : Z -> Z -> result ScoreMarkersResults.

Lemma generateVersusResults_values left right rank_type feat_type cache :
  let '(_, cache', made) :=
    generateVersusResults generate left right rank_type feat_type cache in
  Permutation (snd (freeVersusResults cache')) (made ++ snd (freeVersusResults cache)).
Proof.
  unfold generateVersusResults.
  set (versus := default ∅ cache).
  set (bigg := if (left <? right)%Z then right else left).
  set (smal := if (left <? right)%Z then left else right).
  assert (Hcache : snd (freeVersusResults cache) = cached_results versus).
  { destruct cache; [reflexivity|]. unfold versus.
    change (default ∅ None) with (∅ : versus_cache).
    unfold cached_results. rewrite map_to_list_empty. reflexivity. }
  rewrite Hcache.
  assert (Hsame : Permutation
            (cached_results
               (<[bigg := <[smal := default ∅ (default ∅ (versus !! bigg) !! smal)]>
                            (default ∅ (versus !! bigg))]> versus))
            (cached_results versus)).
  { unfold cached_results.
    apply (values_extend by_smal_values versus bigg ∅ _ []).
    { unfold by_smal_values. rewrite map_to_list_empty. reflexivity. }
    apply (values_extend by_type_values (default ∅ (versus !! bigg)) smal ∅ _ []).
    { unfold by_type_values. rewrite map_to_list_empty. reflexivity. }
    apply Permutation_refl. }
  destruct (default ∅ (default ∅ (versus !! bigg) !! smal) !! feat_type) as [res|] eqn:Hres.
  - cbn [snd freeVersusResults app]. exact Hsame.
  - destruct (generate smal bigg) as [res|e].
    + cbn [snd freeVersusResults app]. apply cached_results_insert. exact Hres.
    + cbn [snd freeVersusResults app]. exact Hsame.
Qed.

Lemma generate_all_values requests cache :
  Permutation (snd (freeVersusResults (fst (generate_all generate requests cache))))
              (snd (generate_all generate requests cache) ++ snd (freeVersusResults cache)).
Proof.
  revert cache. induction requests as [|[[[l r] rank_type] feat_type] rest IH]; intros cache.
  - apply Permutation_refl.
  - cbn [generate_all].
    pose proof (generateVersusResults_values l r rank_type feat_type cache) as Hstep.
    destruct (generateVersusResults generate l r rank_type feat_type cache)
      as [[o cache1] made].
    specialize (IH cache1).
    destruct (generate_all generate rest cache1) as [cache2 made'].
    cbn [fst snd] in *.
    eapply Permutation_trans; [exact IH|].
    eapply Permutation_trans; [apply Permutation_app_head; exact Hstep|].
    rewrite !app_assoc. apply Permutation_app_tail. apply Permutation_app_comm.
Qed.

End VersusFacts.

(** X6.  [freeVersusResults] hands to [scran.free] exactly the objects
    that [generate] returned during the calls of
    [generateVersusResults] on the cache, each of them once, and leaves
    the cache without its [versus] property. *)
Theorem freeVersusResults_frees_generated :
  forall (generate : Z -> Z -> result Markers.ScoreMarkersResults)
         (requests : list (Z * Z * string * string)),
    fst (Markers.freeVersusResults (fst (Markers.generate_all generate requests None)))
    = None /\
    Permutation
      (snd (Markers.freeVersusResults (fst (Markers.generate_all generate requests None))))
      (snd (Markers.generate_all generate requests None)).
Proof.
  intros generate requests. split.
  - destruct (fst (Markers.generate_all generate requests None)); reflexivity.
  - pose proof (generate_all_values generate requests None) as H.
    cbn [Markers.freeVersusResults snd] in H. rewrite app_nil_r in H. exact H.
Qed.

(** X7.  Once [generateVersusResults] has compared two groups for a
    feature type, a later call for the same two groups, in either
    order and with any rank type, finds the comparison in the cache:
    it does not call [generate] and leaves the cache as it is. *)
Theorem generateVersusResults_cached :
  forall (generate generate' : Z -> Z -> result Markers.ScoreMarkersResults)
         (left right : Z) (rank_type rank_type' feat_type : string)
         (cache cache' : option Markers.versus_cache)
         (out : Markers.versus_outcome) (made : list Markers.ScoreMarkersResults),
    Markers.generateVersusResults generate left right rank_type feat_type cache
    = (out, cache', made) ->
    (forall e, out <> Markers.Failed e) ->
    (exists out', Markers.generateVersusResults generate' left right rank_type' feat_type cache'
                  = (out', cache', [])) /\
    (exists out', Markers.generateVersusResults generate' right left rank_type' feat_type cache'
                  = (out', cache', [])).
Proof.
  intros generate generate' left right rank_type rank_type' feat_type cache cache' out made
         Hcall Hok.
  assert (Hkeys : forall a b : Z,
             (a = left /\ b = right) \/ (a = right /\ b = left) ->
             (if (a <? b)%Z then b else a) = (if (left <? right)%Z then right else left) /\
             (if (a <? b)%Z then a else b) = (if (left <? right)%Z then left else right)).
  { intros a b [[-> ->]|[-> ->]]; [split; reflexivity|].
    destruct (Z.ltb_spec right left), (Z.ltb_spec left right); split; lia. }
  unfold Markers.generateVersusResults in Hcall.
  set (versus := default ∅ cache) in Hcall.
  set (bigg := if (left <? right)%Z then right else left) in *.
  set (smal := if (left <? right)%Z then left else right) in *.
  assert (Hhit : exists versus' bv sv res,
             cache' = Some versus' /\ versus' !! bigg = Some bv /\
             bv !! smal = Some sv /\ sv !! feat_type = Some res).
  { destruct (default ∅ (default ∅ (versus !! bigg) !! smal) !! feat_type)
      as [res|] eqn:Hres.
    - injection Hcall as _ <- _.
      eexists _, _, _, res. split; [reflexivity|].
      rewrite lookup_insert_eq. split; [reflexivity|].
      rewrite lookup_insert_eq. split; [reflexivity|]. exact Hres.
    - destruct (generate smal bigg) as [res|e].
      + injection Hcall as _ <- _.
        eexists _, _, _, res. split; [reflexivity|].
        rewrite lookup_insert_eq. split; [reflexivity|].
        rewrite lookup_insert_eq. split; [reflexivity|]. apply lookup_insert_eq.
      + injection Hcall as <- _ _. exfalso. apply (Hok e). reflexivity. }
  destruct Hhit as (versus' & bv & sv & res & -> & Hb & Hs & Hr).
  assert (Hagain : forall a b : Z,
             (a = left /\ b = right) \/ (a = right /\ b = left) ->
             exists out', Markers.generateVersusResults generate' a b rank_type' feat_type
                            (Some versus') = (out', Some versus', [])).
  { intros a b Hab. destruct (Hkeys a b Hab) as [Hbigg Hsmal].
    unfold Markers.generateVersusResults. rewrite Hbigg, Hsmal. fold bigg smal.
    simpl default. rewrite Hb. simpl default. rewrite Hs. simpl default. rewrite Hr.
    rewrite (insert_id bv smal sv Hs), (insert_id versus' bigg bv Hb).
    eexists. reflexivity. }
  split; apply Hagain; [left|right]; split; reflexivity.
Qed.

Lemma generateVersusResults_cached_witness :
  (exists out', Markers.generateVersusResults (fun _ _ => Throw (Error "not called"))
                  2%Z 5%Z "auc" "RNA"
                  (snd (fst (Markers.generateVersusResults
                               (fun _ _ => Ret Markers.example_results)
                               2%Z 5%Z "cohen" "RNA" None)))
                = (out',
                   snd (fst (Markers.generateVersusResults
                               (fun _ _ => Ret Markers.example_results)
                               2%Z 5%Z "cohen" "RNA" None)), [])) /\
  (exists out', Markers.generateVersusResults (fun _ _ => Throw (Error "not called"))
                  5%Z 2%Z "auc" "RNA"
                  (snd (fst (Markers.generateVersusResults
                               (fun _ _ => Ret Markers.example_results)
                               2%Z 5%Z "cohen" "RNA" None)))
                = (out',
                   snd (fst (Markers.generateVersusResults
                               (fun _ _ => Ret Markers.example_results)
                               2%Z 5%Z "cohen" "RNA" None)), [])).
Proof.
  apply (generateVersusResults_cached
           (fun _ _ => Ret Markers.example_results)
           (fun _ _ => Throw (Error "not called"))
           2%Z 5%Z "cohen" "auc" "RNA" None _
           (fst (fst (Markers.generateVersusResults
                        (fun _ _ => Ret Markers.example_results)
                        2%Z 5%Z "cohen" "RNA" None)))
           [Markers.example_results]).
  - reflexivity.
  - intros e. discriminate.
Defined.

Section GroupStatsFacts.
Import Markers.

Lemma h5_lookup_app {A : Type} name (cs cs' : list (string * H5.node A)) :
  H5.lookup name (cs ++ cs') =
  match H5.lookup name cs with
  | Some n => Some n
  | None => H5.lookup name cs'
  end.
Proof.
  unfold H5.lookup. induction cs as [|[k n] cs IH]; cbn; [reflexivity|].
  destruct (String.eqb k name); [reflexivity|exact IH].
Qed.

End GroupStatsFacts.

(** X8.  What [serializeGroupStats] writes is read back by
    [unserializeGroupStats] called with the same [no_summaries]: the
    means, the detected proportions and every summary of every effect
    size come back, passed through [permuter]; without summaries the
    effect sizes come back as they were written, not passed through
    [permuter]. *)
Theorem group_stats_round_trip :
  forall (ihandle : list (string * H5.node Q)) (obj : Markers.ScoreMarkersResults)
         (group : Z) (no_summaries : bool) (permuter : list Q -> list Q),
    Forall (fun name => H5.lookup name ihandle = None)
           ["means"; "detected"; "lfc"; "delta_detected"; "auc"; "cohen"] ->
    Markers.unserializeGroupStats permuter
      (Markers.serializeGroupStats ihandle obj group no_summaries) no_summaries
    = Ret {| Markers.g_means := permuter (Markers.means obj group);
             Markers.g_detected := permuter (Markers.detected obj group);
             Markers.g_effects :=
               map (fun '(i, extractor) =>
                      (i, if no_summaries then Markers.NoSummaries (Some (extractor 1%Z))
                          else Markers.Summaries
                                 [("min", permuter (extractor 0%Z));
                                  ("mean", permuter (extractor 1%Z));
                                  ("min_rank", permuter (extractor 4%Z))]))
                   (Markers.extractors obj group) |}.
Proof.
  intros ihandle obj group no_summaries permuter Hfresh.
  repeat (apply Forall_cons_1 in Hfresh; destruct Hfresh as [? Hfresh]).
  unfold Markers.unserializeGroupStats, Markers.serializeGroupStats, Markers.extractors,
    Markers.read_effects, Markers.read_summaries, H5.open_values, H5.open_group, H5.open,
    H5.writeDataSet, H5.createGroup.
  destruct no_summaries; cbn [fold_left map fst Markers.summaries2int];
    repeat (rewrite !h5_lookup_app;
            repeat match goal with H : H5.lookup _ ihandle = None |- _ => rewrite H end;
            cbn); reflexivity.
Qed.

Lemma group_stats_round_trip_witness :
  Markers.unserializeGroupStats (fun x => x)
    (Markers.serializeGroupStats [] Markers.example_results 0%Z true) true
  = Ret {| Markers.g_means := Markers.means Markers.example_results 0%Z;
           Markers.g_detected := Markers.detected Markers.example_results 0%Z;
           Markers.g_effects :=
             map (fun '(i, extractor) => (i, Markers.NoSummaries (Some (extractor 1%Z))))
                 (Markers.extractors Markers.example_results 0%Z) |}.
Proof.
  apply (group_stats_round_trip [] Markers.example_results 0%Z true (fun x => x)).
  repeat constructor.
Defined.

(** ** More facts about src/dump/List.js *)

Section DumpListMoreFacts.
Import DumpList DumpListMore.

Lemma entries_loop_fix ps names values :
  (fix entries (ps : list (string * jsval)) (names : list string)
       (values : list dvalue) : result dumped :=
     match ps with
     | [] => Ret (Dumped "list" values (Some names))
     | (k, v) :: ps' =>
         d <- wrap None (dump_internal v) ;;
         entries ps' (names ++ [k]) (values ++ [d])
     end) ps names values
  = entries_loop ps names values.
Proof.
  revert names values. induction ps as [|[k v] ps IH]; intros names values; cbn;
    [reflexivity|].
  destruct (wrap None (dump_internal v)); cbn; [apply IH|reflexivity].
Qed.

Lemma dump_object_loop props :
  dump_internal (JObject props) = entries_loop props [] [].
Proof. cbn [dump_internal]. apply entries_loop_fix. Qed.

Lemma all_dumpable_fix ps :
  (fix all (ps : list (string * jsval)) : bool :=
     match ps with
     | [] => true
     | (_, v) :: ps' => dumpable v && all ps'
     end) ps
  = all_dumpable ps.
Proof.
  induction ps as [|[k v] ps IH]; cbn; [reflexivity|]. rewrite IH. reflexivity.
Qed.

Lemma dumpable_object props : dumpable (JObject props) = all_dumpable props.
Proof. cbn [dumpable]. apply all_dumpable_fix. Qed.

Lemma dump_dumpable :
  forall x, (exists d, dump_internal x = Ret d) <-> dumpable x = true.
Proof.
  fix IH 1. intros x. destruct x as [| | b | n | s | xs | props | xs | xs].
  - cbn. split; [intros [d H]; discriminate|discriminate].
  - cbn. split; [intros [d H]; discriminate|discriminate].
  - cbn. split; [reflexivity|eexists; reflexivity].
  - cbn. split; [reflexivity|eexists; reflexivity].
  - cbn. split; [reflexivity|eexists; reflexivity].
  - destruct xs as [|e xs].
    + cbn. split; [reflexivity|eexists; reflexivity].
    + cbn [dump_internal dumpable]. destruct (scan (e :: xs)) as [[] []];
        (split; [intros [d H]; discriminate|discriminate]).
  - rewrite dump_object_loop, dumpable_object.
    generalize (@nil string) at 1. generalize (@nil dvalue) at 1.
    induction props as [|[k v] ps IHps]; intros values names; cbn [entries_loop all_dumpable].
    + split; [reflexivity|eexists; reflexivity].
    + destruct (IH v) as [Hv1 Hv2].
      destruct (dump_internal v) as [c|e] eqn:Hc; cbn [wrap bind].
      * rewrite (Hv1 (ex_intro _ c eq_refl)). cbn [andb]. apply IHps.
      * destruct (dumpable v) eqn:Hd.
        -- destruct (Hv2 eq_refl) as [c' Hc']. discriminate.
        -- cbn [andb]. split; [intros [d H]; discriminate|discriminate].
  - cbn. split; [reflexivity|eexists; reflexivity].
  - cbn. split; [reflexivity|eexists; reflexivity].
Qed.

Lemma entries_loop_result ps names values d :
  entries_loop ps names values = Ret d ->
  exists vs,
    d = Dumped "list" (values ++ vs) (Some (names ++ map fst ps)) /\
    Forall2 (fun kv dv => exists c, dump_internal (snd kv) = Ret c /\
                                    dv = DVFile "undefined/simple.json.gz" c) ps vs.
Proof.
  revert names values. induction ps as [|[k v] ps IH]; intros names values H;
    cbn [entries_loop] in H.
  - injection H as <-. exists []. rewrite !app_nil_r. split; [reflexivity|constructor].
  - destruct (dump_internal v) as [c|e] eqn:Hc; cbn [wrap bind] in H; [|discriminate].
    apply IH in H. destruct H as (vs & -> & Hall).
    exists (DVFile (metadata_path None) c :: vs). split.
    + cbn [map fst]. rewrite <- !app_assoc. reflexivity.
    + constructor; [|exact Hall]. exists c. split; [exact Hc|reflexivity].
Qed.

End DumpListMoreFacts.

(** X9.  [dumpList] returns exactly on the values without an array
    that has an element, without [undefined] and without [null] at any
    depth; on every other value it throws. *)
Theorem dumpList_returns_iff :
  forall (x : DumpList.jsval) (path : option string),
    (exists out, DumpList.dumpList x path = Ret out) <-> DumpListMore.dumpable x = true.
Proof.
  intros x path. rewrite <- dump_dumpable. unfold DumpList.dumpList, DumpList.wrap.
  split.
  - intros [out H]. destruct (DumpList.dump_internal x) as [d|e]; [|discriminate].
    exists d. reflexivity.
  - intros [d H]. rewrite H. eexists. reflexivity.
Qed.

(** X10.  For an object, [dumpList] lists the keys in their order
    under [names] and puts one file per entry under [values]; each of
    these files is the dump of the value of the entry, and its path is
    "undefined/simple.json.gz" whatever the path of the call. *)
Theorem dumpList_object_entries :
  forall (props : list (string * DumpList.jsval)) (path : option string)
         (out : DumpList.dvalue),
    DumpList.dumpList (DumpList.JObject props) path = Ret out ->
    exists values,
      out = DumpList.DVFile (DumpList.metadata_path path)
              (DumpList.Dumped "list" values (Some (map fst props))) /\
      Forall2 (fun kv dv =>
                 exists c, DumpList.dump_internal (snd kv) = Ret c /\
                           dv = DumpList.DVFile "undefined/simple.json.gz" c)
              props values.
Proof.
  intros props path out H. unfold DumpList.dumpList, DumpList.wrap in H.
  rewrite dump_object_loop in H.
  destruct (DumpListMore.entries_loop props [] []) as [d|e] eqn:Hd; [|discriminate].
  injection H as <-. apply entries_loop_result in Hd. destruct Hd as (vs & -> & Hall).
  exists vs. split; [reflexivity|exact Hall].
Qed.

Lemma dumpList_object_entries_witness :
  exists values,
    DumpList.DVFile "out/simple.json.gz"
      (DumpList.Dumped "list"
         [DumpList.DVFile "undefined/simple.json.gz"
            (DumpList.Dumped "number" [DumpList.DVNum 20] None)]
         (Some ["num_pcs"]))
    = DumpList.DVFile (DumpList.metadata_path (Some "out"))
        (DumpList.Dumped "list" values
           (Some (map fst [("num_pcs", DumpList.JNum 20)]))) /\
    Forall2 (fun kv dv =>
               exists c, DumpList.dump_internal (snd kv) = Ret c /\
                         dv = DumpList.DVFile "undefined/simple.json.gz" c)
            [("num_pcs", DumpList.JNum 20)] values.
Proof.
  apply (dumpList_object_entries [("num_pcs", DumpList.JNum 20)] (Some "out")).
  reflexivity.
Defined.

(** ** Facts about saving, loading and the filter of steps/cell_filtering.js *)

Section CellFilteringMoreFacts.
Import Wasm CellFiltering CellFilteringMore.

Lemma read_file_serialize a st h :
  params st = store a ->
  read_file (H5Group [serialize st h])
  = Ret (a, match discard_buffer (cache st) with
            | Some disc => match owner disc with
                           | None => Some (read h disc)
                           | Some _ => None
                           end
            | None => None
            end).
Proof.
  intros Hp. unfold read_file, serialize. rewrite Hp.
  destruct a as [[] [] []]; cbn;
    destruct (discard_buffer (cache st)) as [[p [o|]]|]; reflexivity.
Qed.

End CellFilteringMoreFacts.

(** X11.  A state saved by [serialize] comes back from [unserialize]
    with the same parameters and the same combined discard vector: a
    buffer of its own with the saved content when several quality
    control steps were in use, the view on the vector of the only step
    in use when there was one, and none when there was none.  Nothing
    else on the Wasm heap is touched. *)
Theorem cell_filtering_round_trip :
  forall (qs : CellFiltering.qc_states) (a : CellFiltering.arguments)
         (st : CellFiltering.state) (h : Wasm.heap) (ncells : nat),
    CellFiltering.params st = CellFiltering.store a ->
    CellFiltering.discard_consistent
      (CellFiltering.find_usable_upstream_states qs (CellFiltering.in_use a))
      (CellFiltering.cache st) h ncells ->
    exists st' h',
      CellFilteringMore.unserialize
        (CellFiltering.H5Group [CellFiltering.serialize st h]) qs h = Ret (st', h') /\
      CellFiltering.params st' = CellFiltering.params st /\
      CellFiltering.changed st' = false /\
      (forall p, p <> Wasm.next h -> Wasm.arrays h' !! p = Wasm.arrays h !! p) /\
      match CellFiltering.discard_buffer (CellFiltering.cache st) with
      | None => CellFiltering.discard_buffer (CellFiltering.cache st') = None
      | Some d =>
          exists d', CellFiltering.discard_buffer (CellFiltering.cache st') = Some d' /\
                     Wasm.owner d' = Wasm.owner d /\
                     Wasm.read h' d' = Wasm.read h d
      end.
Proof.
  intros qs a st h ncells Hp Hcons.
  unfold CellFilteringMore.unserialize. rewrite (read_file_serialize a st h Hp).
  cbn [bind]. rewrite Hp.
  unfold CellFiltering.discard_consistent in Hcons.
  destruct (CellFiltering.find_usable_upstream_states qs (CellFiltering.in_use a))
    as [|u [|u2 rest]] eqn:Hused.
  - rewrite Hcons. eexists _, h. split_and!; reflexivity.
  - destruct Hcons as (d & Hd & _ & ->). rewrite Hd. cbn [Wasm.view Wasm.owner].
    eexists _, h. split_and!; try reflexivity.
    cbn. eexists. split_and!; reflexivity.
  - destruct Hcons as (d & Hd & _ & Ho & _). rewrite Hd, Ho.
    cbn [Wasm.alloc_array].
    eexists _, _. split_and!; try reflexivity.
    + intros p Hne. cbn. rewrite lookup_insert_ne by congruence. reflexivity.
    + cbn. eexists. split; [reflexivity|]. split.
      * reflexivity.
      * unfold Wasm.read. cbn. rewrite lookup_insert_eq. reflexivity.
Qed.

Lemma cell_filtering_round_trip_witness :
  exists st' h',
    CellFilteringMore.unserialize
      (CellFiltering.H5Group
         [CellFiltering.serialize
            (fst (Wasm.final (CellFiltering.example_run CellFiltering.use_all)))
            (snd (Wasm.final (CellFiltering.example_run CellFiltering.use_all)))])
      CellFiltering.example_qc
      (snd (Wasm.final (CellFiltering.example_run CellFiltering.use_all)))
    = Ret (st', h') /\
    CellFiltering.params st'
    = CellFiltering.params (fst (Wasm.final (CellFiltering.example_run CellFiltering.use_all))) /\
    CellFiltering.changed st' = false /\
    (forall p, p <> Wasm.next (snd (Wasm.final (CellFiltering.example_run CellFiltering.use_all))) ->
       Wasm.arrays h' !! p
       = Wasm.arrays (snd (Wasm.final (CellFiltering.example_run CellFiltering.use_all))) !! p) /\
    match CellFiltering.discard_buffer
            (CellFiltering.cache
               (fst (Wasm.final (CellFiltering.example_run CellFiltering.use_all)))) with
    | None => CellFiltering.discard_buffer (CellFiltering.cache st') = None
    | Some d =>
        exists d', CellFiltering.discard_buffer (CellFiltering.cache st') = Some d' /\
                   Wasm.owner d' = Wasm.owner d /\
                   Wasm.read h' d'
                   = Wasm.read (snd (Wasm.final (CellFiltering.example_run CellFiltering.use_all))) d
    end.
Proof.
  apply (cell_filtering_round_trip CellFiltering.example_qc CellFiltering.use_all
           (fst (Wasm.final (CellFiltering.example_run CellFiltering.use_all)))
           (snd (Wasm.final (CellFiltering.example_run CellFiltering.use_all))) 3).
  - reflexivity.
  - exists {| Wasm.ptr := 3; Wasm.owner := None |}.
    split; [vm_compute; reflexivity|]. split.
    + intros i Hi. destruct i as [|[|[|i]]]; [vm_compute; reflexivity..|lia].
    + split; [reflexivity|]. intros u' [<-|[<-|[]]]; cbn; lia.
Defined.

Section FilterFacts.
Import Wasm CellFiltering CellFilteringMore.

(** Two arrays of the same length filtered by position: what is kept of
    the one and of the other sits at the same positions. *)
Lemma filter_by_position {A B : Type} (P : nat -> bool) (x : list A) (y : list B) (s : nat) :
  List.length x = List.length y ->
  Forall2 (fun ia jb => fst ia = fst jb /\ s <= fst ia /\
                        nth_error x (fst ia - s) = Some (snd ia) /\
                        nth_error y (fst ia - s) = Some (snd jb))
          (List.filter (fun p => P (fst p)) (combine (seq s (List.length x)) x))
          (List.filter (fun p => P (fst p)) (combine (seq s (List.length y)) y)).
Proof.
  revert y s. induction x as [|a x IH]; intros [|b y] s Hlen; try discriminate.
  - constructor.
  - cbn [List.length seq combine List.filter fst].
    assert (Htail : Forall2 (fun ia jb => fst ia = fst jb /\ s <= fst ia /\
                        nth_error (a :: x) (fst ia - s) = Some (snd ia) /\
                        nth_error (b :: y) (fst ia - s) = Some (snd jb))
          (List.filter (fun p => P (fst p)) (combine (seq (S s) (List.length x)) x))
          (List.filter (fun p => P (fst p)) (combine (seq (S s) (List.length y)) y))).
    { eapply Forall2_impl; [apply (IH y (S s)); cbn in Hlen; lia|].
      intros [i a'] [j b'] (Hij & Hs & Ha & Hb). cbn [fst snd] in *.
      replace (i - s) with (S (i - S s)) by lia. cbn [nth_error].
      split_and!; auto. lia. }
    destruct (P s); [|exact Htail].
    constructor; [|exact Htail]. cbn [fst snd]. rewrite Nat.sub_diag. cbn.
    split_and!; auto.
Qed.

Lemma nth_error_lookup {A : Type} (l : list A) (i : nat) : nth_error l i = l !! i.
Proof.
  revert i. induction l as [|a l IH]; intros [|i]; cbn; auto.
Qed.

Lemma keep_positions_filter discard :
  keep_positions discard
  = map (fun p => Z.of_nat (fst p))
        (List.filter (fun p => not_discarded discard (fst p))
                     (combine (seq 0 (List.length discard)) discard)).
Proof.
  unfold keep_positions.
  rewrite (List.filter_ext_in
             (fun '(_, x) => (x =? 0)%Z)
             (fun p : nat * Z => not_discarded discard (fst p))).
  - apply map_ext. intros [i v]. reflexivity.
  - intros [i v] Hin. cbn [fst]. unfold not_discarded.
    assert (Hnth : nth_error discard i = Some v).
    { assert (H : forall s, In (i, v) (combine (seq s (List.length discard)) discard) ->
                            nth_error discard (i - s) = Some v /\ s <= i).
      { clear Hin. induction discard as [|d ds IH]; intros s Hs; [destruct Hs|].
        cbn [List.length seq combine] in Hs. destruct Hs as [[= <- <-]|Hs].
        - rewrite Nat.sub_diag. split; [reflexivity|lia].
        - destruct (IH (S s) Hs) as [Hn Hs'].
          replace (i - s) with (S (i - S s)) by lia. split; [exact Hn|lia]. }
      destruct (H 0 Hin) as [Hn _]. rewrite Nat.sub_0_r in Hn. exact Hn. }
    rewrite Hnth. reflexivity.
Qed.

End FilterFacts.

(** X12.  [undoFilter] inverts [applyFilter]: with a discard vector in
    the cache, an index into the filtered data is replaced by the index
    of the cell that the filtered entry came from, and that cell is not
    discarded; an index beyond the cells that were kept is replaced by
    [undefined]. *)
Theorem undoFilter_inverts_applyFilter :
  forall (A : Type) (filterCells : Wasm.matrix -> list Z -> result Wasm.matrix)
         (inputs : CellFiltering.inputs_state) (c : CellFiltering.cache_t) (h : Wasm.heap)
         (m : Wasm.addr) (d : Wasm.WasmArray) (x : list A) (indices : list Z),
    CellFiltering.filtered c = Some m ->
    CellFiltering.discard_buffer c = Some d ->
    List.length (Wasm.read h d) = List.length x ->
    existsb (CellFilteringMore.out_of_range (CellFiltering.numberOfColumns h (Some m)))
            indices = false ->
    exists (ys : list A) (indices' : list (option Z)),
      CellFilteringMore.applyFilter (Some (List.length x)) c h x = Ret ys /\
      CellFilteringMore.undoFilter filterCells inputs c h indices
      = Wasm.Returned (indices', c, h) /\
      Forall2 (fun j k' =>
                 match k' with
                 | Some k =>
                     nth_error ys (Z.to_nat j) = nth_error x (Z.to_nat k) /\
                     is_Some (nth_error x (Z.to_nat k)) /\
                     nth_error (Wasm.read h d) (Z.to_nat k) = Some 0%Z
                 | None => List.length ys <= Z.to_nat j
                 end)
              indices indices'.
Proof.
  intros A fC inputs c h m d x indices Hm Hd Hlen Hrange.
  unfold CellFilteringMore.applyFilter, CellFilteringMore.undoFilter,
    CellFiltering.fetchFilteredMatrix.
  rewrite Hm. cbv beta iota zeta. rewrite Hm, Hd, Hrange.
  rewrite bool_decide_eq_true_2 by reflexivity. cbn [negb].
  eexists _, _. split; [reflexivity|]. split; [reflexivity|].
  set (discard := Wasm.read h d) in *.
  rewrite (List.filter_ext (fun '(i, _) => CellFilteringMore.not_discarded discard i)
             (fun p : nat * A => CellFilteringMore.not_discarded discard (fst p)))
    by (intros [i a]; reflexivity).
  rewrite keep_positions_filter.
  pose proof (filter_by_position (CellFilteringMore.not_discarded discard) x discard 0
                (eq_sym Hlen)) as Hpos.
  set (Fx := List.filter (fun p : nat * A => CellFilteringMore.not_discarded discard (fst p))
               (combine (seq 0 (List.length x)) x)) in *.
  pose proof (filter_In (fun p : nat * Z => CellFilteringMore.not_discarded discard (fst p)))
    as Hfilter.
  set (Fd := List.filter (fun p : nat * Z => CellFilteringMore.not_discarded discard (fst p))
               (combine (seq 0 (List.length discard)) discard)) in *.
  apply Forall2_fmap_r. apply Forall_Forall2_diag. apply List.Forall_forall.
  intros j _. unfold compose. rewrite nth_error_map.
  destruct (nth_error Fd (Z.to_nat j)) as [[i v]|] eqn:Hj; cbn [option_map fst].
  - destruct (Forall2_lookup_r _ _ _ _ _ Hpos (eq_trans (eq_sym (nth_error_lookup _ _)) Hj))
      as ([i' a] & Ha & Hi & _ & Hx & Hv).
    cbn [fst snd] in *. subst i'. rewrite Nat.sub_0_r in Hx, Hv.
    rewrite Nat2Z.id. rewrite nth_error_map.
    rewrite nth_error_lookup, Ha. cbn [option_map snd].
    rewrite Hx. split; [reflexivity|]. split; [eexists; reflexivity|].
    assert (Hin : In (i, v) Fd) by (eapply nth_error_In; exact Hj).
    apply Hfilter in Hin. destruct Hin as [_ Hkeep]. cbn [fst] in Hkeep.
    unfold CellFilteringMore.not_discarded in Hkeep. rewrite Hv in Hkeep.
    apply Z.eqb_eq in Hkeep. rewrite Hv, Hkeep. reflexivity.
  - apply nth_error_None in Hj. rewrite length_map.
    rewrite (Forall2_length _ _ _ Hpos). exact Hj.
Qed.

Lemma undoFilter_inverts_applyFilter_witness :
  exists (ys : list string) (indices' : list (option Z)),
    CellFilteringMore.applyFilter (Some 3)
      (CellFiltering.cache (fst (Wasm.final (CellFiltering.example_run CellFiltering.use_all))))
      (snd (Wasm.final (CellFiltering.example_run CellFiltering.use_all)))
      ["a"; "b"; "c"] = Ret ys /\
    CellFilteringMore.undoFilter CellFiltering.keep_columns CellFiltering.example_inputs
      (CellFiltering.cache (fst (Wasm.final (CellFiltering.example_run CellFiltering.use_all))))
      (snd (Wasm.final (CellFiltering.example_run CellFiltering.use_all))) [0%Z]
    = Wasm.Returned
        (indices',
         CellFiltering.cache (fst (Wasm.final (CellFiltering.example_run CellFiltering.use_all))),
         snd (Wasm.final (CellFiltering.example_run CellFiltering.use_all))) /\
    Forall2 (fun j k' =>
               match k' with
               | Some k =>
                   nth_error ys (Z.to_nat j) = nth_error ["a"; "b"; "c"] (Z.to_nat k) /\
                   is_Some (nth_error ["a"; "b"; "c"] (Z.to_nat k)) /\
                   nth_error
                     (Wasm.read (snd (Wasm.final (CellFiltering.example_run CellFiltering.use_all)))
                                {| Wasm.ptr := 3; Wasm.owner := None |})
                     (Z.to_nat k) = Some 0%Z
               | None => List.length ys <= Z.to_nat j
               end)
            [0%Z] indices'.
Proof.
  apply (undoFilter_inverts_applyFilter string CellFiltering.keep_columns
           CellFiltering.example_inputs
           (CellFiltering.cache (fst (Wasm.final (CellFiltering.example_run CellFiltering.use_all))))
           (snd (Wasm.final (CellFiltering.example_run CellFiltering.use_all)))
           4 {| Wasm.ptr := 3; Wasm.owner := None |} ["a"; "b"; "c"] [0%Z]).
  - reflexivity.
  - reflexivity.
  - reflexivity.
  - vm_compute. reflexivity.
Defined.

(** X13.  [undoFilter] refuses an array that holds an index below zero
    or not below the number of cells of the filtered matrix: it throws
    before it has changed any entry.  Without a discard vector in the
    cache it leaves every entry as it is. *)
Theorem undoFilter_checks_indices :
  forall (filterCells : Wasm.matrix -> list Z -> result Wasm.matrix)
         (inputs : CellFiltering.inputs_state) (c : CellFiltering.cache_t) (h : Wasm.heap)
         (m : Wasm.addr) (indices : list Z),
    CellFiltering.filtered c = Some m ->
    ((exists x, In x indices /\
                ((x < 0)%Z \/ (Z.of_nat (CellFiltering.numberOfColumns h (Some m)) <= x)%Z)) ->
     exists message,
       CellFilteringMore.undoFilter filterCells inputs c h indices
       = Wasm.Thrown (Error message) (map Some indices, c, h)) /\
    ((forall x, In x indices ->
                (0 <= x < Z.of_nat (CellFiltering.numberOfColumns h (Some m)))%Z) ->
     CellFiltering.discard_buffer c = None ->
     CellFilteringMore.undoFilter filterCells inputs c h indices
     = Wasm.Returned (map Some indices, c, h)).
Proof.
  intros fC inputs c h m indices Hm.
  unfold CellFilteringMore.undoFilter, CellFiltering.fetchFilteredMatrix.
  rewrite Hm. cbv beta iota zeta. rewrite Hm. split.
  - intros (x & Hin & Hx).
    replace (existsb _ indices) with true; [eexists; reflexivity|].
    symmetry. apply existsb_exists. exists x. split; [exact Hin|].
    unfold CellFilteringMore.out_of_range. apply orb_true_iff.
    destruct Hx as [Hx|Hx]; [left; apply Z.ltb_lt|right; apply Z.leb_le]; exact Hx.
  - intros Hall Hd.
    replace (existsb _ indices) with false; [rewrite Hd; reflexivity|].
    symmetry. apply not_true_is_false. intros Hex. apply existsb_exists in Hex.
    destruct Hex as (x & Hin & Hx). specialize (Hall x Hin).
    unfold CellFilteringMore.out_of_range in Hx. apply orb_true_iff in Hx.
    destruct Hx as [Hx|Hx]; [apply Z.ltb_lt in Hx|apply Z.leb_le in Hx]; lia.
Qed.

Lemma undoFilter_checks_indices_witness :
  exists message,
    CellFilteringMore.undoFilter CellFiltering.keep_columns CellFiltering.example_inputs
      (CellFiltering.cache (fst (Wasm.final (CellFiltering.example_run CellFiltering.use_all))))
      (snd (Wasm.final (CellFiltering.example_run CellFiltering.use_all))) [0%Z; 1%Z]
    = Wasm.Thrown (Error message)
        (map Some [0%Z; 1%Z],
         CellFiltering.cache (fst (Wasm.final (CellFiltering.example_run CellFiltering.use_all))),
         snd (Wasm.final (CellFiltering.example_run CellFiltering.use_all))).
Proof.
  apply (undoFilter_checks_indices CellFiltering.keep_columns CellFiltering.example_inputs
           (CellFiltering.cache (fst (Wasm.final (CellFiltering.example_run CellFiltering.use_all))))
           (snd (Wasm.final (CellFiltering.example_run CellFiltering.use_all)))
           4 [0%Z; 1%Z]).
  - reflexivity.
  - exists 1%Z. split; [right; left; reflexivity|]. right. vm_compute. discriminate.
Defined.

(** X14.  A file without the "cell_filtering" group is loaded with
    every [use_] parameter set, and only when at most one quality
    control step is valid: the combined discard vector is then the view
    on the vector of that step, or absent when there is none.  With two
    valid steps or more [unserialize] throws. *)
Theorem cell_filtering_unserialize_missing_step :
  forall (handle : CellFiltering.h5_node) (qs : CellFiltering.qc_states) (h : Wasm.heap),
    CellFiltering.open "cell_filtering" handle = None ->
    let valid := CellFiltering.findValidUpstreamStates qs in
    ((exists out, CellFilteringMore.unserialize handle qs h = Ret out)
     <-> List.length valid <= 1) /\
    (forall st' h',
        CellFilteringMore.unserialize handle qs h = Ret (st', h') ->
        h' = h /\
        CellFiltering.params st'
        = {| CellFiltering.use_rna := Some true; CellFiltering.use_adt := Some true;
             CellFiltering.use_crispr := Some true |} /\
        CellFiltering.discard_buffer (CellFiltering.cache st')
        = (fun k => Wasm.view (CellFiltering.qc_discards (CellFiltering.qc_get qs k)))
            <$> head valid).
Proof.
  intros handle qs h Hopen valid.
  unfold CellFilteringMore.unserialize, CellFilteringMore.read_file. rewrite Hopen.
  cbn [bind]. unfold CellFiltering.find_usable_upstream_states.
  fold valid.
  assert (Hall : List.filter
                   (CellFiltering.in_use
                      {| CellFiltering.arg_use_rna := true; CellFiltering.arg_use_adt := true;
                         CellFiltering.arg_use_crispr := true |}) valid = valid).
  { clear. induction valid as [|k l IH]; [reflexivity|].
    cbn [List.filter]. destruct k; cbn; rewrite IH; reflexivity. }
  rewrite Hall. destruct valid as [|k [|k2 rest]]; cbn [map List.length head fmap option_fmap option_map].
  - split.
    + split; [intros _; lia|intros _; eexists; reflexivity].
    + intros st' h' [= <- <-]. split_and!; reflexivity.
  - split.
    + split; [intros _; lia|intros _; eexists; reflexivity].
    + intros st' h' [= <- <-]. split_and!; reflexivity.
  - split.
    + split; [intros [out H]; discriminate|intros H; lia].
    + intros st' h' H. discriminate.
Qed.

Lemma cell_filtering_unserialize_missing_step_witness :
  ((exists out, CellFilteringMore.unserialize (CellFiltering.H5Group [])
                  CellFiltering.example_qc CellFiltering.example_heap = Ret out)
   <-> List.length (CellFiltering.findValidUpstreamStates CellFiltering.example_qc) <= 1) /\
  (forall st' h',
      CellFilteringMore.unserialize (CellFiltering.H5Group [])
        CellFiltering.example_qc CellFiltering.example_heap = Ret (st', h') ->
      h' = CellFiltering.example_heap /\
      CellFiltering.params st'
      = {| CellFiltering.use_rna := Some true; CellFiltering.use_adt := Some true;
           CellFiltering.use_crispr := Some true |} /\
      CellFiltering.discard_buffer (CellFiltering.cache st')
      = (fun k => Wasm.view (CellFiltering.qc_discards
                               (CellFiltering.qc_get CellFiltering.example_qc k)))
          <$> head (CellFiltering.findValidUpstreamStates CellFiltering.example_qc)).
Proof.
  apply (cell_filtering_unserialize_missing_step (CellFiltering.H5Group [])
           CellFiltering.example_qc CellFiltering.example_heap).
  reflexivity.
Defined.

(** ** More facts about the cell labelling step *)

Section CellLabellingMoreFacts.
Import CellLabelling CellLabellingMore.

Lemma choose_features_best up :
  choose_features up
  = (match fst (best_type (gene_types up)) with
     | Some k => snd <$> List.find (fun kv => String.eqb (fst kv) k) (genes up)
     | None => None
     end, snd (best_type (gene_types up))).
Proof.
  unfold choose_features, best_type.
  destruct (fold_left _ (gene_types up) (None, None)) as [bf b]. reflexivity.
Qed.

(** The loop keeps the first entry of the greatest confidence met so
    far. *)
Lemma best_type_loop (types seen : list (string * gene_type)) key best :
  (forall kv, In kv seen -> (gt_confidence (snd kv) <= gt_confidence best)%Q) ->
  (exists pre post, seen = pre ++ (key, best) :: post /\
                    forall kv, In kv pre -> (gt_confidence (snd kv) < gt_confidence best)%Q) ->
  exists key' best',
    fold_left (fun '(best_feature, best) '(key, val) =>
                 match best with
                 | None => (Some key, Some val)
                 | Some b =>
                     if negb (Qle_bool (gt_confidence val) (gt_confidence b))
                     then (Some key, Some val)
                     else (best_feature, best)
                 end)
              types (Some key, Some best) = (Some key', Some best') /\
    (forall kv, In kv (seen ++ types) ->
                (gt_confidence (snd kv) <= gt_confidence best')%Q) /\
    (exists pre post, seen ++ types = pre ++ (key', best') :: post /\
                      forall kv, In kv pre ->
                                 (gt_confidence (snd kv) < gt_confidence best')%Q).
Proof.
  revert seen key best. induction types as [|[k v] types IH]; intros seen key best Hmax Hfirst.
  - exists key, best. rewrite app_nil_r. cbn. auto.
  - cbn [fold_left].
    replace (seen ++ (k, v) :: types) with ((seen ++ [(k, v)]) ++ types)
      by (rewrite <- app_assoc; reflexivity).
    destruct (Qle_bool (gt_confidence v) (gt_confidence best)) eqn:Hle; cbn [negb].
    + apply Qle_bool_iff in Hle. apply IH.
      * intros kv Hin. apply in_app_or in Hin. destruct Hin as [Hin|[<-|[]]]; auto.
      * destruct Hfirst as (pre & post & -> & Hpre).
        exists pre, (post ++ [(k, v)]). split; [|exact Hpre].
        rewrite <- app_assoc. reflexivity.
    + assert (Hlt : (gt_confidence best < gt_confidence v)%Q).
      { apply Qnot_le_lt. intros H. apply Qle_bool_iff in H. congruence. }
      apply IH.
      * intros kv Hin. apply in_app_or in Hin. destruct Hin as [Hin|[<-|[]]].
        -- apply Qlt_le_weak. eapply Qle_lt_trans; [apply Hmax; exact Hin|exact Hlt].
        -- apply Qle_refl.
      * exists seen, []. split; [reflexivity|].
        intros kv Hin. eapply Qle_lt_trans; [apply Hmax; exact Hin|exact Hlt].
Qed.

End CellLabellingMoreFacts.

(** X15.  [choose_features] takes the annotation of the greatest
    confidence, the first one among equals, and the gene identifiers of
    its name. *)
Theorem choose_features_greatest_confidence :
  forall (up : CellLabelling.upstream),
    CellLabelling.gene_types up <> [] ->
    exists (key : string) (best : CellLabelling.gene_type)
           (pre post : list (string * CellLabelling.gene_type)),
      CellLabelling.choose_features up
      = (snd <$> List.find (fun kv => String.eqb (fst kv) key) (CellLabelling.genes up),
         Some best) /\
      CellLabelling.gene_types up = pre ++ (key, best) :: post /\
      (forall kv, In kv pre ->
         (CellLabelling.gt_confidence (snd kv) < CellLabelling.gt_confidence best)%Q) /\
      (forall kv, In kv post ->
         (CellLabelling.gt_confidence (snd kv) <= CellLabelling.gt_confidence best)%Q).
Proof.
  intros up Hne. rewrite choose_features_best. unfold CellLabellingMore.best_type.
  destruct (CellLabelling.gene_types up) as [|[k v] types]; [congruence|].
  cbn [fold_left].
  destruct (best_type_loop types [(k, v)] k v) as (key & best & Hfold & Hmax & Hfirst).
  - intros kv [<-|[]]. apply Qle_refl.
  - exists [], []. split; [reflexivity|]. intros kv [].
  - rewrite Hfold. cbn [fst snd]. cbn [app] in Hmax, Hfirst.
    destruct Hfirst as (pre & post & Heq & Hpre).
    exists key, best, pre, post. split_and!; auto.
    intros kv Hin. apply Hmax. rewrite Heq. apply in_or_app. right. right. exact Hin.
Qed.

Lemma choose_features_greatest_confidence_witness :
  exists (key : string) (best : CellLabelling.gene_type)
         (pre post : list (string * CellLabelling.gene_type)),
    CellLabelling.choose_features CellLabellingMore.two_annotations
    = (snd <$> List.find (fun kv => String.eqb (fst kv) key)
                 (CellLabelling.genes CellLabellingMore.two_annotations),
       Some best) /\
    CellLabelling.gene_types CellLabellingMore.two_annotations
    = pre ++ (key, best) :: post /\
    (forall kv, In kv pre ->
       (CellLabelling.gt_confidence (snd kv) < CellLabelling.gt_confidence best)%Q) /\
    (forall kv, In kv post ->
       (CellLabelling.gt_confidence (snd kv) <= CellLabelling.gt_confidence best)%Q).
Proof.
  apply (choose_features_greatest_confidence CellLabellingMore.two_annotations).
  discriminate.
Defined.

(** X16.  [fetchParameters] throws a TypeError on a state that has never
    computed; after a [compute] that returned it gives the references
    that this [compute] was called with, whether the step ran again or
    not. *)
Theorem labelling_fetchParameters :
  (exists what,
      CellLabellingMore.fetchParameters CellLabelling.constructor = Throw (TypeError what)) /\
  (forall (up : CellLabelling.upstream) (a : CellLabelling.arguments)
          (st st' : CellLabelling.state) (h h' : Wasm.heap),
      CellLabelling.compute up a st h = Wasm.Returned (st', h') ->
      CellLabellingMore.fetchParameters st' = Ret a).
Proof.
  split; [eexists; reflexivity|].
  intros up a st st' h h' H. apply labelling_returned in H.
  unfold CellLabellingMore.fetchParameters. destruct a as [hs ms].
  destruct H as [(Hu & -> & _)|(_ & _ & Hp)].
  - unfold CellLabelling.unchanged in Hu.
    apply andb_true_iff in Hu as [Hu Hm]. apply andb_true_iff in Hu as [_ Hh].
    apply compare_arrays_spec in Hh, Hm. cbn in Hh, Hm |- *.
    rewrite Hh, Hm. reflexivity.
  - rewrite Hp. reflexivity.
Qed.

Lemma labelling_fetchParameters_witness :
  CellLabellingMore.fetchParameters
    (fst (Wasm.final (CellLabelling.compute CellLabelling.quiet_upstream CellLabelling.blueprint
                        CellLabelling.labelled_state CrisprPca.empty_heap)))
  = Ret CellLabelling.blueprint.
Proof.
  destruct labelling_fetchParameters as [_ H].
  apply (H CellLabelling.quiet_upstream CellLabelling.blueprint CellLabelling.labelled_state _
           CrisprPca.empty_heap
           (snd (Wasm.final (CellLabelling.compute CellLabelling.quiet_upstream
                               CellLabelling.blueprint CellLabelling.labelled_state
                               CrisprPca.empty_heap)))).
  reflexivity.
Defined.

(** ** More facts about the enrichment step *)

Section EnrichmentMoreFacts.
Import FeatureSetEnrichment Standalone.

Lemma backfill_loop_length (scores : list Q) (l : list (nat * nat)) (b : list (option Q)) :
  List.length (fold_left (fun backfilled '(i, x) => <[x := nth_error scores i]> backfilled) l b)
  = List.length b.
Proof.
  revert b. induction l as [|[i x] l IH]; intros b; cbn [fold_left]; [reflexivity|].
  rewrite IH. apply length_insert.
Qed.

Lemma backfill_loop_other (scores : list Q) (l : list (nat * nat)) (b : list (option Q)) p :
  ~ In p (map snd l) ->
  fold_left (fun backfilled '(i, x) => <[x := nth_error scores i]> backfilled) l b !! p
  = b !! p.
Proof.
  revert b. induction l as [|[i x] l IH]; intros b Hp; cbn [fold_left]; [reflexivity|].
  cbn [map snd In] in Hp. rewrite IH by tauto.
  apply list_lookup_insert_ne. tauto.
Qed.

Lemma backfill_loop_stored (scores : list Q) (l : list (nat * nat)) (b : list (option Q)) i x :
  NoDup (map snd l) -> In (i, x) l -> x < List.length b ->
  fold_left (fun backfilled '(i, x) => <[x := nth_error scores i]> backfilled) l b !! x
  = Some (nth_error scores i).
Proof.
  revert b. induction l as [|[i' x'] l IH]; intros b Hnd Hin Hx; [destruct Hin|].
  cbn [fold_left]. cbn [map snd] in Hnd. apply NoDup_cons in Hnd as [Hnotin Hnd].
  destruct Hin as [[= -> ->]|Hin].
  - rewrite backfill_loop_other by (rewrite <- list_elem_of_In; exact Hnotin).
    apply list_lookup_insert_eq. exact Hx.
  - apply IH; [exact Hnd|exact Hin|]. rewrite length_insert. exact Hx.
Qed.

Lemma snd_combine_seq {A : Type} (l : list A) (s : nat) :
  map snd (combine (seq s (List.length l)) l) = l.
Proof.
  revert s. induction l as [|a l IH]; intros s; cbn; [reflexivity|]. rewrite IH. reflexivity.
Qed.

Lemma in_combine_seq {A : Type} (l : list A) (s i : nat) (a : A) :
  l !! i = Some a -> In (s + i, a) (combine (seq s (List.length l)) l).
Proof.
  revert s i. induction l as [|b l IH]; intros s [|i] H; try discriminate; cbn in *.
  - injection H as ->. left. rewrite Nat.add_0_r. reflexivity.
  - right. replace (s + S i) with (S s + i) by lia. apply IH. exact H.
Qed.

Lemma lookup_repeat {A : Type} (a : A) (n i : nat) : i < n -> repeat a n !! i = Some a.
Proof.
  revert i. induction n as [|n IH]; intros [|i] H; cbn; try lia; [reflexivity|].
  apply IH. lia.
Qed.

End EnrichmentMoreFacts.

(** X17.  The scores of [computePerCellScores] after the backfill: the
    array is as long as the scores of the cells that were kept; the
    score of a kept cell is stored at the index that the cell had
    before, when that index is inside the array, and every other entry
    is NaN. *)
Theorem standalone_backfill :
  forall (backmap : list nat) (scores : list Q),
    NoDup backmap ->
    exists backfilled : list (option Q),
      Standalone.computePerCellScores true (Some backmap) scores = Ret backfilled /\
      List.length backfilled = List.length scores /\
      (forall i x, backmap !! i = Some x -> x < List.length scores ->
                   backfilled !! x = Some (nth_error scores i)) /\
      (forall p, p < List.length scores -> ~ In p backmap -> backfilled !! p = Some None).
Proof.
  intros backmap scores Hnd. eexists. split; [reflexivity|].
  unfold Standalone.backfill.
  split_and!.
  - rewrite backfill_loop_length. apply repeat_length.
  - intros i x Hi Hx. apply backfill_loop_stored.
    + rewrite snd_combine_seq. exact Hnd.
    + apply (in_combine_seq backmap 0 i x Hi).
    + rewrite repeat_length. exact Hx.
  - intros p Hp Hnotin.
    rewrite backfill_loop_other by (rewrite snd_combine_seq; exact Hnotin).
    apply lookup_repeat. exact Hp.
Qed.

Lemma standalone_backfill_witness :
  exists backfilled : list (option Q),
    Standalone.computePerCellScores true (Some [0; 2]) [(1 # 2); (1 # 3)]%Q = Ret backfilled /\
    List.length backfilled = List.length [(1 # 2); (1 # 3)]%Q /\
    (forall i x, [0; 2] !! i = Some x -> x < List.length [(1 # 2); (1 # 3)]%Q ->
                 backfilled !! x = Some (nth_error [(1 # 2); (1 # 3)]%Q i)) /\
    (forall p, p < List.length [(1 # 2); (1 # 3)]%Q -> ~ In p [0; 2] ->
               backfilled !! p = Some None).
Proof.
  apply (standalone_backfill [0; 2] [(1 # 2); (1 # 3)]%Q).
  repeat constructor; cbn; intros H; apply list_elem_of_In in H; cbn in H; intuition lia.
Defined.

(** X18.  In the standalone class the feature set collections are
    prepared by the first [ready()] at the latest.  That call leaves
    the stored parameters empty; from then on [ready()] compares the
    stored parameters with themselves, so that whatever
    [setParameters] has stored in between, it does not call
    [manager.prepare] again.  [changedParameters] is only taken to
    report no change between a value and itself. *)
Theorem standalone_prepares_once :
  forall (changedParameters : option (list string) -> option (list string) -> bool)
         (g : FeatureSetEnrichment.guesses),
    (forall x, changedParameters x x = false) ->
    (forall s : Standalone.state,
        Standalone.sa_manager s = None ->
        Standalone.sa_parameters (fst (Standalone.ready changedParameters g s))
        = FeatureSetEnrichment.empty /\
        Standalone.sa_manager (fst (Standalone.ready changedParameters g s)) <> None) /\
    (forall (s : Standalone.state) (p : FeatureSetEnrichment.parameters),
        Standalone.sa_manager s <> None ->
        Standalone.ready changedParameters g (Standalone.setParameters p s)
        = (Standalone.setParameters p s, None)).
Proof.
  intros cP g Hrefl. split.
  - intros s Hm. unfold Standalone.ready. rewrite Hm.
    destruct (Standalone._buildCollections _ _ _ _ _ _ _); cbn; split; congruence.
  - intros s p Hm. unfold Standalone.ready.
    destruct (Standalone.sa_manager (Standalone.setParameters p s)) as [calls|] eqn:Hs;
      [|cbn in Hs; congruence].
    unfold Standalone._buildCollections.
    rewrite !bool_decide_eq_true_2 by reflexivity. rewrite Hrefl.
    cbn [negb orb]. rewrite andb_false_r. reflexivity.
Qed.

Lemma standalone_prepares_once_witness :
  Standalone.ready (fun old new => negb (bool_decide (old = new)))
    FeatureSetEnrichment.no_guesses
    (Standalone.setParameters
       {| FeatureSetEnrichment.skip := None;
          FeatureSetEnrichment.automatic := Some false;
          FeatureSetEnrichment.species := Some ["10090"];
          FeatureSetEnrichment.gene_id_column := Some None;
          FeatureSetEnrichment.gene_id_type := Some "SYMBOL";
          FeatureSetEnrichment.top_markers := Some 50%Z |}
       (fst (Standalone.ready (fun old new => negb (bool_decide (old = new)))
               FeatureSetEnrichment.no_guesses Standalone.constructor)))
  = (Standalone.setParameters
       {| FeatureSetEnrichment.skip := None;
          FeatureSetEnrichment.automatic := Some false;
          FeatureSetEnrichment.species := Some ["10090"];
          FeatureSetEnrichment.gene_id_column := Some None;
          FeatureSetEnrichment.gene_id_type := Some "SYMBOL";
          FeatureSetEnrichment.top_markers := Some 50%Z |}
       (fst (Standalone.ready (fun old new => negb (bool_decide (old = new)))
               FeatureSetEnrichment.no_guesses Standalone.constructor)),
     None).
Proof.
  destruct (standalone_prepares_once (fun old new => negb (bool_decide (old = new)))
              FeatureSetEnrichment.no_guesses) as [_ H].
  - intros x. rewrite bool_decide_eq_true_2 by reflexivity. reflexivity.
  - apply H. cbn. discriminate.
Defined.

Section ConfigureFacts.
Import FeatureSetEnrichment.

Lemma configure_loop (cols seen : list (string * guess)) (key : option column) (best : guess) :
  (forall kv, In kv seen -> (g_confidence (snd kv) <= g_confidence best)%Q) ->
  (match key with
   | Some (ColumnName k) => In (k, best) seen
   | Some (ColumnIndex _) => False
   | None => True
   end) ->
  exists key' best',
    fold_left (fun '(best_key, best) '(key, val) =>
                 if negb (Qle_bool (g_confidence val) (g_confidence best))
                 then (Some (ColumnName key), val) else (best_key, best))
              cols (key, best) = (key', best') /\
    (g_confidence best <= g_confidence best')%Q /\
    (forall kv, In kv (seen ++ cols) -> (g_confidence (snd kv) <= g_confidence best')%Q) /\
    (match key' with
     | Some (ColumnName k) => In (k, best') (seen ++ cols)
     | Some (ColumnIndex _) => False
     | None => key = None /\ best' = best
     end).
Proof.
  revert seen key best. induction cols as [|[k v] cols IH]; intros seen key best Hmax Hkey.
  - exists key, best. rewrite app_nil_r. cbn. split_and!; auto; [apply Qle_refl|].
    destruct key as [[k|i]|]; auto.
  - cbn [fold_left].
    replace (seen ++ (k, v) :: cols) with ((seen ++ [(k, v)]) ++ cols)
      by (rewrite <- app_assoc; reflexivity).
    destruct (Qle_bool (g_confidence v) (g_confidence best)) eqn:Hle; cbn [negb].
    + apply Qle_bool_iff in Hle.
      destruct (IH (seen ++ [(k, v)]) key best) as (key' & best' & Hf & Hb & Hm & Hk).
      * intros kv Hin. apply in_app_or in Hin. destruct Hin as [Hin|[<-|[]]]; auto.
      * destruct key as [[k0|i]|]; auto. apply in_or_app. left. exact Hkey.
      * exists key', best'. split_and!; auto.
    + assert (Hlt : (g_confidence best < g_confidence v)%Q).
      { apply Qnot_le_lt. intros H. apply Qle_bool_iff in H. congruence. }
      destruct (IH (seen ++ [(k, v)]) (Some (ColumnName k)) v)
        as (key' & best' & Hf & Hb & Hm & Hk).
      * intros kv Hin. apply in_app_or in Hin. destruct Hin as [Hin|[<-|[]]].
        -- apply Qlt_le_weak. eapply Qle_lt_trans; [apply Hmax; exact Hin|exact Hlt].
        -- apply Qle_refl.
      * apply in_or_app. right. left. reflexivity.
      * exists key', best'. split_and!; auto.
        -- apply Qlt_le_weak. eapply Qlt_le_trans; eassumption.
        -- destruct key' as [[k'|i]|]; auto. destruct Hk as [Hk _]. discriminate.
Qed.

End ConfigureFacts.

(** X19.  [_configureFeatureParameters] follows the guess of the greatest
    confidence among the default (symbol, human, confidence zero), the
    row names and the columns: the identifier type is the type of that
    guess in upper case and the species is its species.  A column is
    named only when its guess is the one followed; when no column is
    named, the guess followed is that of the row names, with a
    confidence above zero, or the default. *)
Theorem configureFeatureParameters_best_guess :
  forall g : FeatureSetEnrichment.guesses,
    exists best : FeatureSetEnrichment.guess,
      FeatureSetEnrichment.p_gene_id_type (FeatureSetEnrichment._configureFeatureParameters g)
      = FeatureSetEnrichment.upper (FeatureSetEnrichment.g_type best) /\
      FeatureSetEnrichment.p_species (FeatureSetEnrichment._configureFeatureParameters g)
      = [FeatureSetEnrichment.g_species best] /\
      (0 <= FeatureSetEnrichment.g_confidence best)%Q /\
      (forall v, FeatureSetEnrichment.row_names g = Some v ->
         (FeatureSetEnrichment.g_confidence v <= FeatureSetEnrichment.g_confidence best)%Q) /\
      (forall kv, In kv (FeatureSetEnrichment.columns g) ->
         (FeatureSetEnrichment.g_confidence (snd kv)
          <= FeatureSetEnrichment.g_confidence best)%Q) /\
      match FeatureSetEnrichment.p_gene_id_column
              (FeatureSetEnrichment._configureFeatureParameters g) with
      | Some (FeatureSetEnrichment.ColumnName k) =>
          In (k, best) (FeatureSetEnrichment.columns g)
      | Some (FeatureSetEnrichment.ColumnIndex _) => False
      | None =>
          (0 < FeatureSetEnrichment.g_confidence best)%Q
          /\ FeatureSetEnrichment.row_names g = Some best
          \/ best = {| FeatureSetEnrichment.g_type := "symbol";
                       FeatureSetEnrichment.g_species := "human";
                       FeatureSetEnrichment.g_confidence := 0%Q |}
      end.
Proof.
  intros g. unfold FeatureSetEnrichment._configureFeatureParameters.
  set (start := {| FeatureSetEnrichment.g_type := "symbol";
                   FeatureSetEnrichment.g_species := "human";
                   FeatureSetEnrichment.g_confidence := 0%Q |}).
  set (best0 := match FeatureSetEnrichment.row_names g with
                | Some val =>
                    if negb (Qle_bool (FeatureSetEnrichment.g_confidence val)
                                      (FeatureSetEnrichment.g_confidence start))
                    then val else start
                | None => start
                end).
  assert (H0 : (0 <= FeatureSetEnrichment.g_confidence best0)%Q /\
               (forall v, FeatureSetEnrichment.row_names g = Some v ->
                  (FeatureSetEnrichment.g_confidence v
                   <= FeatureSetEnrichment.g_confidence best0)%Q) /\
               ((0 < FeatureSetEnrichment.g_confidence best0)%Q
                /\ FeatureSetEnrichment.row_names g = Some best0 \/ best0 = start)).
  { unfold best0. destruct (FeatureSetEnrichment.row_names g) as [val|].
    - destruct (Qle_bool (FeatureSetEnrichment.g_confidence val)
                         (FeatureSetEnrichment.g_confidence start)) eqn:Hle; cbn [negb].
      + apply Qle_bool_iff in Hle. split_and!; [apply Qle_refl| |right; reflexivity].
        intros v [= <-]. exact Hle.
      + assert (Hlt : (0 < FeatureSetEnrichment.g_confidence val)%Q).
        { apply Qnot_le_lt. intros H. apply Qle_bool_iff in H. cbn in Hle. congruence. }
        split_and!; [apply Qlt_le_weak; exact Hlt| |left; split; [exact Hlt|reflexivity]].
        intros v [= <-]. apply Qle_refl.
    - split_and!; [apply Qle_refl| |right; reflexivity]. intros v H. discriminate. }
  destruct H0 as (Hpos & Hrow & Hstart).
  destruct (configure_loop (FeatureSetEnrichment.columns g) [] None best0)
    as (key' & best' & Hf & Hb & Hm & Hk).
  { intros kv []. }
  { exact I. }
  rewrite Hf. cbn [FeatureSetEnrichment.p_gene_id_type FeatureSetEnrichment.p_species
                   FeatureSetEnrichment.p_gene_id_column].
  exists best'. split_and!; auto.
  - eapply Qle_trans; eassumption.
  - intros v Hv. eapply Qle_trans; [apply Hrow; exact Hv|exact Hb].
  - destruct key' as [[k|i]|]; auto. destruct Hk as [_ ->]. exact Hstart.
Qed.

(** ** More facts about src/readers/utils/features.js *)

Section FeaturesMoreFacts.
Import Features FeaturesMore.

Lemma lookup_add_position level i by_f k :
  lookup_key k (add_position level i by_f)
  = if String.eqb level k then Some (default [] (lookup_key level by_f) ++ [i])
    else lookup_key k by_f.
Proof.
  unfold lookup_key. induction by_f as [|[k' ids] rest IH]; cbn [add_position].
  - cbn. destruct (String.eqb level k); reflexivity.
  - destruct (String.eqb k' level) eqn:Hk'.
    + apply String.eqb_eq in Hk'. subst k'. cbn. rewrite String.eqb_refl. cbn.
      destruct (String.eqb level k); reflexivity.
    + cbn [List.find fst]. destruct (String.eqb k' k) eqn:Hkk.
      * apply String.eqb_eq in Hkk. subst k'. rewrite String.eqb_sym, Hk'. reflexivity.
      * rewrite IH. rewrite Hk'. reflexivity.
Qed.

Lemma presplit_fold_lookup (types : list string) (s : nat) (acc : list (string * list Z)) k :
  lookup_key k (fold_left (fun by_f '(i, x) => add_position x (Z.of_nat i) by_f)
                          (combine (seq s (List.length types)) types) acc)
  = match lookup_key k acc with
    | Some ids => Some (ids ++ positions_from s k types)
    | None => match positions_from s k types with
              | [] => None
              | p :: ps => Some (p :: ps)
              end
    end.
Proof.
  revert s acc. induction types as [|t rest IH]; intros s acc.
  - cbn [List.length seq combine fold_left positions_from].
    destruct (lookup_key k acc); [rewrite app_nil_r|]; reflexivity.
  - cbn [List.length seq combine fold_left positions_from]. rewrite IH.
    rewrite lookup_add_position. destruct (String.eqb t k) eqn:Htk.
    + apply String.eqb_eq in Htk. subst t.
      destruct (lookup_key k acc) as [ids|]; cbn [default from_option id].
      * rewrite <- app_assoc. reflexivity.
      * reflexivity.
    + reflexivity.
Qed.

Lemma presplit_lookup (types : list string) k :
  lookup_key k (presplitFactor types)
  = match positions_from 0 k types with
    | [] => None
    | p :: ps => Some (p :: ps)
    end.
Proof. unfold presplitFactor. rewrite presplit_fold_lookup. reflexivity. Qed.

Lemma positions_from_nil s k types :
  positions_from s k types = [] <-> ~ In k types.
Proof.
  revert s. induction types as [|t rest IH]; intros s; cbn.
  - tauto.
  - destruct (String.eqb t k) eqn:Htk.
    + apply String.eqb_eq in Htk. split; [discriminate|]. intros H. exfalso. auto.
    + apply String.eqb_neq in Htk. rewrite IH. tauto.
Qed.

(** Picking the entries of a column at the positions of a type gives
    the entries on the rows of that type. *)
Lemma pick_positions {A : Type} (d : A) (pre column : list A) (types : list string) k :
  List.length column = List.length types ->
  pick d (pre ++ column) (positions_from (List.length pre) k types)
  = rows_of_type k types column.
Proof.
  revert pre column. induction types as [|t rest IH]; intros pre [|a column] Hlen;
    try discriminate; [reflexivity|].
  cbn [positions_from]. unfold rows_of_type. cbn [combine List.filter].
  assert (Hrest : pick d (pre ++ a :: column)
                    (positions_from (S (List.length pre)) k rest)
                  = rows_of_type k rest column).
  { replace (pre ++ a :: column) with ((pre ++ [a]) ++ column)
      by (rewrite <- app_assoc; reflexivity).
    replace (S (List.length pre)) with (List.length (pre ++ [a]))
      by (rewrite length_app; cbn; lia).
    apply IH. cbn in Hlen. lia. }
  destruct (String.eqb t k).
  - cbn [map snd]. unfold pick in *. cbn [map]. rewrite Hrest.
    rewrite Nat2Z.id. rewrite app_nth2 by lia. rewrite Nat.sub_diag. reflexivity.
  - exact Hrest.
Qed.

End FeaturesMoreFacts.

Section ReportFacts.
Import Features FeaturesMore.

Lemma lookup_key_map {A B : Type} (f : A -> B) (l : list (string * A)) k :
  lookup_key k (map (fun '(k, a) => (k, f a)) l) = f <$> lookup_key k l.
Proof.
  unfold lookup_key. induction l as [|[k' a] l IH]; cbn; [reflexivity|].
  destruct (String.eqb k' k); [reflexivity|exact IH].
Qed.

End ReportFacts.

(** X20.  [reportFeatures] splits the annotation by feature type: for
    a type of the type column, the frame under its name holds the other
    columns, each with its entries on the rows of that type, in their
    order; a name that is not in the type column has no frame.  Without
    a type column the whole annotation is reported under the empty
    name. *)
Theorem reportFeatures_splits_by_type :
  forall (rawFeatures : Features.DataFrame) (typeField : string),
    (forall types,
        Features.lookup_key typeField rawFeatures = Some types ->
        Forall (fun kv => List.length (snd kv) = List.length types) rawFeatures ->
        forall k,
          (In k types ->
           Features.lookup_key k (FeaturesMore.reportFeatures rawFeatures typeField)
           = Some (map (fun '(name, column) =>
                          (name, FeaturesMore.rows_of_type k types column))
                       (FeaturesMore.removeColumn typeField rawFeatures))) /\
          (~ In k types ->
           Features.lookup_key k (FeaturesMore.reportFeatures rawFeatures typeField)
           = None)) /\
    (Features.lookup_key typeField rawFeatures = None ->
     FeaturesMore.reportFeatures rawFeatures typeField = [("", rawFeatures)]).
Proof.
  intros raw field. split.
  - intros types Hcol Hlen k. unfold FeaturesMore.reportFeatures. rewrite Hcol.
    unfold Features.SPLIT_df. cbv zeta.
    rewrite (lookup_key_map (Features.SLICE_df (FeaturesMore.removeColumn field raw))).
    rewrite presplit_lookup.
    destruct (FeaturesMore.positions_from 0 k types) as [|p ps] eqn:Hpos.
    + apply positions_from_nil in Hpos. split; [intros H; contradiction|reflexivity].
    + assert (Hin : In k types).
      { destruct (in_dec string_dec k types) as [H|H]; [exact H|].
        apply positions_from_nil with (s := 0) in H. congruence. }
      split; [|intros H; contradiction]. intros _.
      cbn [fmap option_fmap option_map].
      f_equal. rewrite <- Hpos. unfold Features.SLICE_df.
      apply map_ext_in. intros [name column] Hnc.
      f_equal. apply (pick_positions "" [] column types k).
      unfold FeaturesMore.removeColumn in Hnc. apply filter_In in Hnc as [Hnc _].
      rewrite List.Forall_forall in Hlen. apply (Hlen _ Hnc).
  - intros Hcol. unfold FeaturesMore.reportFeatures. rewrite Hcol. reflexivity.
Qed.

Lemma reportFeatures_splits_by_type_witness :
  Features.lookup_key "ADT"
    (FeaturesMore.reportFeatures
       [("id", ["g1"; "a1"; "g2"]); ("type", ["RNA"; "ADT"; "RNA"])] "type")
  = Some (map (fun '(name, column) =>
                 (name, FeaturesMore.rows_of_type "ADT" ["RNA"; "ADT"; "RNA"] column))
              (FeaturesMore.removeColumn "type"
                 [("id", ["g1"; "a1"; "g2"]); ("type", ["RNA"; "ADT"; "RNA"])])).
Proof.
  destruct (reportFeatures_splits_by_type
              [("id", ["g1"; "a1"; "g2"]); ("type", ["RNA"; "ADT"; "RNA"])] "type")
    as [H _].
  apply (H ["RNA"; "ADT"; "RNA"]).
  - reflexivity.
  - repeat constructor.
  - right. left. reflexivity.
Defined.

Section SplitFacts.
Import Features FeaturesMore.

Lemma add_position_values level i by_f :
  Permutation (concat (map snd (add_position level i by_f)))
              (i :: concat (map snd by_f)).
Proof.
  induction by_f as [|[k ids] rest IH]; cbn [add_position].
  - apply Permutation_refl.
  - destruct (String.eqb k level); cbn [map snd concat].
    + rewrite <- app_assoc. cbn [app].
      apply Permutation_sym. apply Permutation_middle.
    + eapply Permutation_trans; [apply Permutation_app_head; exact IH|].
      apply Permutation_sym. apply Permutation_middle.
Qed.

Lemma presplit_fold_values (types : list string) (s : nat) (acc : list (string * list Z)) :
  Permutation
    (concat (map snd (fold_left (fun by_f '(i, x) => add_position x (Z.of_nat i) by_f)
                                (combine (seq s (List.length types)) types) acc)))
    (concat (map snd acc) ++ map Z.of_nat (seq s (List.length types))).
Proof.
  revert s acc. induction types as [|t rest IH]; intros s acc.
  - cbn. rewrite app_nil_r. apply Permutation_refl.
  - cbn [List.length seq combine fold_left map].
    eapply Permutation_trans; [apply IH|].
    eapply Permutation_trans; [apply Permutation_app_tail; apply add_position_values|].
    cbn [app]. apply Permutation_middle.
Qed.

Lemma presplit_values (types : list string) :
  Permutation (concat (map snd (presplitFactor types)))
              (map Z.of_nat (seq 0 (List.length types))).
Proof. unfold presplitFactor. apply (presplit_fold_values types 0 []). Qed.

Lemma split_ids_values (ids : list Z) (by_type : list (string * list Z)) :
  concat (map snd (SPLIT_ids ids by_type)) = pick 0%Z ids (concat (map snd by_type)).
Proof.
  unfold SPLIT_ids, pick. induction by_type as [|[k ps] rest IH]; cbn; [reflexivity|].
  rewrite IH, map_app. reflexivity.
Qed.

Lemma pick_all {A : Type} (d : A) (pre xs : list A) :
  pick d (pre ++ xs) (map Z.of_nat (seq (List.length pre) (List.length xs))) = xs.
Proof.
  revert pre. induction xs as [|x xs IH]; intros pre; [reflexivity|].
  cbn [List.length seq map]. unfold pick in *. cbn [map].
  rewrite Nat2Z.id, app_nth2 by lia. rewrite Nat.sub_diag. cbn [nth]. f_equal.
  replace (pre ++ x :: xs) with ((pre ++ [x]) ++ xs) by (rewrite <- app_assoc; reflexivity).
  replace (S (List.length pre)) with (List.length (pre ++ [x]))
    by (rewrite length_app; cbn; lia).
  apply IH.
Qed.

Lemma split_keys {A : Type} (f : list Z -> A) (by_type : list (string * list Z)) :
  map fst (map (fun '(k, ids) => (k, f ids)) by_type) = map fst by_type.
Proof.
  induction by_type as [|[k ids] rest IH]; cbn; [reflexivity|]. rewrite IH. reflexivity.
Qed.

Lemma lookup_slice_length field raw ids types :
  lookup_key field (SLICE_df raw ids) = Some types -> List.length types = List.length ids.
Proof.
  unfold SLICE_df. intros H.
  rewrite (lookup_key_map (fun col => pick "" col ids) raw field) in H.
  destruct (lookup_key field raw) as [col|]; [|discriminate].
  injection H as <-. unfold pick. apply length_map.
Qed.

Lemma select_types_nothing (mapping : list (string * option string))
    (by_type acc : list (string * list Z)) :
  (forall k v, In (k, Some v) mapping -> lookup_key v by_type = None) ->
  fold_left (fun selected '(k, v) =>
               match v with
               | Some v' =>
                   match lookup_key v' by_type with
                   | Some ids => selected ++ [(k, ids)]
                   | None => selected
                   end
               | None => selected
               end) mapping acc = acc.
Proof.
  revert acc. induction mapping as [|[k [v|]] rest IH]; intros acc H; cbn [fold_left].
  - reflexivity.
  - rewrite (H k v) by (left; reflexivity). apply IH. intros k' v' Hin. apply (H k' v').
    right. exact Hin.
  - apply IH. intros k' v' Hin. apply (H k' v'). right. exact Hin.
Qed.

End SplitFacts.

(** X21.  Without a mapping of the feature types,
    [splitScranMatrixAndFeatures] assigns every row to exactly one
    modality: the row identifiers of the modalities, taken together,
    are the row identifiers of the loaded matrix, each of them once;
    the matrices, the annotations and the row identifiers are reported
    under the same names. *)
Theorem split_keeps_every_row :
  forall (loaded : Features.loaded_matrix) (rawFeatures : Features.DataFrame)
         (typeField : option string) (featureTypeDefault : string)
         (calls : list Features.scran_call) (out : Features.split_output),
    Features.splitScranMatrixAndFeatures loaded rawFeatures typeField None featureTypeDefault
    = (calls, Ret out) ->
    (forall field types,
        Features.l_row_ids loaded = None -> typeField = Some field ->
        Features.lookup_key field rawFeatures = Some types ->
        List.length types = List.length (Features.l_matrix loaded)) ->
    Permutation (concat (map snd (Features.o_row_ids out))) (FeaturesMore.out_ids loaded) /\
    map fst (Features.o_matrix out) = map fst (Features.o_row_ids out) /\
    map fst (Features.o_features out) = map fst (Features.o_row_ids out).
Proof.
  intros loaded raw typeField default calls out H Hrows.
  unfold Features.splitScranMatrixAndFeatures in H.
  destruct (Features.split_body loaded raw typeField None default) as [calls' [out'|e]] eqn:Hb;
    [|discriminate].
  injection H as _ <-. unfold Features.split_body in Hb.
  assert (Hpair : exists (current : Features.DataFrame) (ids : list Z),
             match Features.l_row_ids loaded with
             | Some ids => (Features.SLICE_df raw ids, ids)
             | None => (raw, map Z.of_nat (seq 0 (List.length (Features.l_matrix loaded))))
             end = (current, ids) /\
             FeaturesMore.out_ids loaded = ids /\
             forall field types,
               typeField = Some field -> Features.lookup_key field current = Some types ->
               List.length types = List.length ids).
  { unfold FeaturesMore.out_ids. destruct (Features.l_row_ids loaded) as [ids|] eqn:Hids.
    - eexists _, _. split_and!; try reflexivity.
      intros field types _ Hcol. eapply lookup_slice_length; eauto.
    - eexists _, _. split_and!; try reflexivity.
      intros field types Hf Hcol. rewrite length_map, length_seq.
      eapply Hrows; eauto. }
  destruct Hpair as (current & ids & Hpair & -> & Hlen). rewrite Hpair in Hb. clear Hpair.
  assert (Hdefault : forall calls0,
             (calls0,
              Ret {| Features.o_matrix := [(default, Features.l_matrix loaded)];
                     Features.o_row_ids := [(default, ids)];
                     Features.o_features := [(default, current)] |}) = (calls', Ret out') ->
             Permutation (concat (map snd (Features.o_row_ids out'))) ids /\
             map fst (Features.o_matrix out') = map fst (Features.o_row_ids out') /\
             map fst (Features.o_features out') = map fst (Features.o_row_ids out')).
  { intros calls0 [= _ <-]. cbn. rewrite app_nil_r. split_and!; reflexivity. }
  destruct typeField as [field|]; [|exact (Hdefault _ Hb)].
  destruct (Features.lookup_key field current) as [types|] eqn:Hcol;
    [|exact (Hdefault _ Hb)].
  specialize (Hlen field types eq_refl Hcol).
  destruct (Features.is_subset_noop _ _) as [skip|e] eqn:Hnoop; [|discriminate].
  assert (Hids : Permutation
                   (concat (map snd (Features.SPLIT_ids ids (Features.presplitFactor types))))
                   ids).
  { rewrite split_ids_values. unfold Features.pick.
    eapply Permutation_trans; [apply Permutation_map; apply presplit_values|].
    rewrite Hlen. pose proof (pick_all 0%Z [] ids) as Hall.
    unfold Features.pick in Hall. cbn [app List.length] in Hall. rewrite Hall.
    apply Permutation_refl. }
  destruct (_ || _) eqn:Hcond in Hb; injection Hb as _ <-;
    cbn [Features.o_row_ids Features.o_matrix Features.o_features];
    (split; [exact Hids|]);
    unfold Features.splitRows, Features.SPLIT_df, Features.SPLIT_ids;
    rewrite !split_keys.
  - split; reflexivity.
  - split; [|reflexivity].
    apply orb_false_iff in Hcond as [Hone _]. apply Nat.ltb_ge in Hone.
    rewrite length_map in Hone.
    destruct (Features.presplitFactor types) as [|[k ps] [|kp rest]]; cbn in *;
      [discriminate|reflexivity|lia].
Qed.

Lemma split_keeps_every_row_witness :
  Permutation
    (concat (map snd (Features.o_row_ids
       {| Features.o_matrix := [("RNA", [[1; 0]; [3; 1]]%Z); ("ADT", [[0; 2]]%Z)];
          Features.o_row_ids := [("RNA", [0; 2]%Z); ("ADT", [1]%Z)];
          Features.o_features :=
            [("RNA", [("id", ["g1"; "g2"]); ("type", ["RNA"; "RNA"])]);
             ("ADT", [("id", ["a1"]); ("type", ["ADT"])])] |})))
    (FeaturesMore.out_ids
       {| Features.l_matrix := [[1; 0]; [0; 2]; [3; 1]]%Z; Features.l_row_ids := None |}) /\
  map fst (Features.o_matrix
     {| Features.o_matrix := [("RNA", [[1; 0]; [3; 1]]%Z); ("ADT", [[0; 2]]%Z)];
        Features.o_row_ids := [("RNA", [0; 2]%Z); ("ADT", [1]%Z)];
        Features.o_features :=
          [("RNA", [("id", ["g1"; "g2"]); ("type", ["RNA"; "RNA"])]);
           ("ADT", [("id", ["a1"]); ("type", ["ADT"])])] |})
  = map fst (Features.o_row_ids
     {| Features.o_matrix := [("RNA", [[1; 0]; [3; 1]]%Z); ("ADT", [[0; 2]]%Z)];
        Features.o_row_ids := [("RNA", [0; 2]%Z); ("ADT", [1]%Z)];
        Features.o_features :=
          [("RNA", [("id", ["g1"; "g2"]); ("type", ["RNA"; "RNA"])]);
           ("ADT", [("id", ["a1"]); ("type", ["ADT"])])] |}) /\
  map fst (Features.o_features
     {| Features.o_matrix := [("RNA", [[1; 0]; [3; 1]]%Z); ("ADT", [[0; 2]]%Z)];
        Features.o_row_ids := [("RNA", [0; 2]%Z); ("ADT", [1]%Z)];
        Features.o_features :=
          [("RNA", [("id", ["g1"; "g2"]); ("type", ["RNA"; "RNA"])]);
           ("ADT", [("id", ["a1"]); ("type", ["ADT"])])] |})
  = map fst (Features.o_row_ids
     {| Features.o_matrix := [("RNA", [[1; 0]; [3; 1]]%Z); ("ADT", [[0; 2]]%Z)];
        Features.o_row_ids := [("RNA", [0; 2]%Z); ("ADT", [1]%Z)];
        Features.o_features :=
          [("RNA", [("id", ["g1"; "g2"]); ("type", ["RNA"; "RNA"])]);
           ("ADT", [("id", ["a1"]); ("type", ["ADT"])])] |}).
Proof.
  apply (split_keeps_every_row
           {| Features.l_matrix := [[1; 0]; [0; 2]; [3; 1]]%Z; Features.l_row_ids := None |}
           [("id", ["g1"; "a1"; "g2"]); ("type", ["RNA"; "ADT"; "RNA"])]
           (Some "type") "RNA" [Features.CallSplitRows; Features.CallFree]).
  - reflexivity.
  - intros field types _ [= <-] [= <-]. reflexivity.
Defined.

(** X22.  When the mapping of the feature types names no type that
    occurs in the type column, [splitScranMatrixAndFeatures] has no
    modality left: it releases the matrix and throws the TypeError of
    reading [length] on [undefined]. *)
Theorem split_unmatched_mapping :
  forall (loaded : Features.loaded_matrix) (rawFeatures : Features.DataFrame)
         (typeField : string) (featureTypeMapping : list (string * option string))
         (featureTypeDefault : string) (types : list string),
    Features.lookup_key typeField (FeaturesMore.current_features loaded rawFeatures)
    = Some types ->
    (forall k v, In (k, Some v) featureTypeMapping -> ~ In v types) ->
    Features.splitScranMatrixAndFeatures loaded rawFeatures (Some typeField)
      (Some featureTypeMapping) featureTypeDefault
    = ([Features.CallFree], Throw (TypeError "indices.length")).
Proof.
  intros loaded raw field mapping default types Hcol Hnone.
  unfold Features.splitScranMatrixAndFeatures, Features.split_body.
  unfold FeaturesMore.current_features in Hcol.
  assert (Hsel : Features.select_types mapping (Features.presplitFactor types) = []).
  { unfold Features.select_types. apply select_types_nothing.
    intros k v Hin. rewrite presplit_lookup.
    rewrite (proj2 (positions_from_nil 0 v types) (Hnone k v Hin)). reflexivity. }
  destruct (Features.l_row_ids loaded) as [ids|]; rewrite Hcol, Hsel; reflexivity.
Qed.

Lemma split_unmatched_mapping_witness :
  Features.splitScranMatrixAndFeatures
    {| Features.l_matrix := [[1; 0]; [0; 2]]%Z; Features.l_row_ids := None |}
    [("id", ["g1"; "g2"]); ("type", ["Gene Expression"; "Gene Expression"])]
    (Some "type") (Some [("RNA", Some "RNA"); ("ADT", None)]) "RNA"
  = ([Features.CallFree], Throw (TypeError "indices.length")).
Proof.
  apply (split_unmatched_mapping
           {| Features.l_matrix := [[1; 0]; [0; 2]]%Z; Features.l_row_ids := None |}
           [("id", ["g1"; "g2"]); ("type", ["Gene Expression"; "Gene Expression"])]
           "type" [("RNA", Some "RNA"); ("ADT", None)] "RNA"
           ["Gene Expression"; "Gene Expression"]).
  - reflexivity.
  - intros k v [[= <- <-]|[[=]|[]]] [H1|[H2|[]]]; discriminate.
Defined.

(** ** Facts about src/steps/utils/viz_parent.js *)

Section VizParentFacts.
Import VizParent.

Ltac lookup_cases p :=
  repeat match goal with
         | |- context [delete ?q _ !! p] =>
             destruct (decide (q = p)) as [?|?];
             [subst p; rewrite lookup_delete_eq|rewrite lookup_delete_ne by assumption]
         | |- context [<[?q := _]> _ !! p] =>
             destruct (decide (q = p)) as [?|?];
             [subst p; rewrite lookup_insert_eq|rewrite lookup_insert_ne by assumption]
         end.

Variable findNearestNeighbors : nat -> result neighbors.
Variable has_room : wasm -> nat -> bool.

Lemma computeNeighbors_live num_obs k h :
  (forall p, next h <= p -> live h !! p = None) ->
  live (snd (computeNeighbors findNearestNeighbors has_room num_obs k h)) = live h.
Proof.
  intros Hfresh. unfold computeNeighbors, try_block, create, allocate.
  destruct (findNearestNeighbors k) as [found|e]; [|reflexivity].
  repeat match goal with
         | |- context [if has_room ?h ?n then _ else _] => destruct (has_room h n)
         end;
    cbn [free_unless_null free live next snd l_results l_rbuf l_ibuf l_dbuf];
    apply map_eq; intros p; lookup_cases p;
    try reflexivity; try congruence; try lia;
    symmetry; apply Hfresh; lia.
Qed.

End VizParentFacts.

(** X23.  [computeNeighbors] leaves the Wasm heap as it found it: the
    search results and the arrays that it allocated are released when it
    returns and when it throws, whether the search fails or one of the
    allocations does.  When it returns, the output holds copies of what
    the search found. *)
Theorem computeNeighbors_releases :
  forall (findNearestNeighbors : nat -> result VizParent.neighbors)
         (has_room : VizParent.wasm -> nat -> bool)
         (num_obs k : nat) (h : VizParent.wasm),
    (forall p, VizParent.next h <= p -> VizParent.live h !! p = None) ->
    VizParent.live
      (snd (VizParent.computeNeighbors findNearestNeighbors has_room num_obs k h))
    = VizParent.live h /\
    forall out,
      fst (VizParent.computeNeighbors findNearestNeighbors has_room num_obs k h) = Ret out ->
      exists found,
        findNearestNeighbors k = Ret found /\
        out = {| VizParent.o_num_obs := num_obs;
                 VizParent.o_size := VizParent.size found;
                 VizParent.o_runs := VizParent.runs found;
                 VizParent.o_indices := VizParent.indices found;
                 VizParent.o_distances := VizParent.distances found |}.
Proof.
  intros fNN room num_obs k h Hfresh. split.
  - apply computeNeighbors_live. exact Hfresh.
  - intros out.
    unfold VizParent.computeNeighbors, VizParent.try_block, VizParent.create,
      VizParent.allocate.
    destruct (fNN k) as [found|e]; [|discriminate].
    cbv beta iota zeta.
    destruct (room _ (VizParent.numberOfCells found)); [|discriminate]. cbv beta iota zeta.
    destruct (room _ (VizParent.size found)); [|discriminate]. cbv beta iota zeta.
    destruct (room _ (VizParent.size found)); [|discriminate]. cbv beta iota zeta.
    cbn [fst]. intros H. injection H as H. subst out. exists found. split; reflexivity.
Qed.

Lemma computeNeighbors_releases_witness :
  VizParent.live
    (snd (VizParent.computeNeighbors
            (fun _ => Ret {| VizParent.numberOfCells := 2; VizParent.size := 2;
                             VizParent.runs := [1; 1]%Z; VizParent.indices := [1; 0]%Z;
                             VizParent.distances := [1; 1]%Q |})
            (fun h _ => (VizParent.next h <? 2)%nat) 2 1
            {| VizParent.live := ∅; VizParent.next := 0 |}))
  = VizParent.live {| VizParent.live := ∅; VizParent.next := 0 |} /\
  forall out,
    fst (VizParent.computeNeighbors
           (fun _ => Ret {| VizParent.numberOfCells := 2; VizParent.size := 2;
                            VizParent.runs := [1; 1]%Z; VizParent.indices := [1; 0]%Z;
                            VizParent.distances := [1; 1]%Q |})
           (fun h _ => (VizParent.next h <? 2)%nat) 2 1
           {| VizParent.live := ∅; VizParent.next := 0 |}) = Ret out ->
    exists found,
      (fun _ : nat => Ret {| VizParent.numberOfCells := 2; VizParent.size := 2;
                       VizParent.runs := [1; 1]%Z; VizParent.indices := [1; 0]%Z;
                       VizParent.distances := [1; 1]%Q |}) 1 = Ret found /\
      out = {| VizParent.o_num_obs := 2;
               VizParent.o_size := VizParent.size found;
               VizParent.o_runs := VizParent.runs found;
               VizParent.o_indices := VizParent.indices found;
               VizParent.o_distances := VizParent.distances found |}.
Proof.
  apply (computeNeighbors_releases
           (fun _ => Ret {| VizParent.numberOfCells := 2; VizParent.size := 2;
                            VizParent.runs := [1; 1]%Z; VizParent.indices := [1; 0]%Z;
                            VizParent.distances := [1; 1]%Q |})
           (fun h _ => (VizParent.next h <? 2)%nat) 2 1
           {| VizParent.live := ∅; VizParent.next := 0 |}).
  intros p _. apply lookup_empty.
Defined.

Section WorkerFacts.
Import VizParent.
Context {worker payload : Type}.

Lemma counted_no_workers : counted worker payload (no_workers worker payload).
Proof.
  split.
  - intros w i p [].
  - intros w c i H. discriminate.
  - constructor.
Qed.

Lemma counted_sendTask worker_id p (r r' : registry worker payload) i :
  counted _ _ r -> sendTask _ _ worker_id p r = Ret (i, r') -> counted _ _ r'.
Proof.
  intros [Hp Hq Hn] H. unfold sendTask in H.
  destruct (worker_cache_registry _ _ r !! worker_id) as [c|] eqn:Hc; [|discriminate].
  injection H as <- <-.
  assert (Hlt : worker_id < List.length (worker_cache_registry _ _ r))
    by (eapply lookup_lt_Some; exact Hc).
  split; cbn [posted worker_cache_registry].
  - intros w i p' Hin. apply in_app_or in Hin. destruct Hin as [Hin|[[= <- <- <-]|[]]].
    + destruct (Hp w i p' Hin) as (c' & Hc' & Hi).
      destruct (decide (w = worker_id)) as [->|Hne].
      * rewrite list_lookup_insert_eq by exact Hlt. eexists. split; [reflexivity|].
        cbn. rewrite Hc in Hc'. injection Hc' as <-. lia.
      * rewrite list_lookup_insert_ne by congruence. eauto.
    + rewrite list_lookup_insert_eq by exact Hlt. eexists. split; [reflexivity|]. cbn. lia.
  - intros w c' i. destruct (decide (w = worker_id)) as [->|Hne].
    + rewrite list_lookup_insert_eq by exact Hlt. intros [= <-]. cbn.
      rewrite elem_of_union, elem_of_singleton. intros [->|Hi]; [lia|].
      specialize (Hq worker_id c i Hc Hi). lia.
    + rewrite list_lookup_insert_ne by congruence. apply Hq.
  - rewrite map_app. cbn [map task_key fst snd]. apply NoDup_app. split_and!.
    + exact Hn.
    + intros k Hk Hk'. apply list_elem_of_In in Hk, Hk'.
      destruct Hk' as [<-|[]].
      apply in_map_iff in Hk. destruct Hk as ([[w i] p'] & Heq & Hin).
      unfold task_key in Heq. cbn [fst snd] in Heq. injection Heq as -> ->.
      destruct (Hp _ _ _ Hin) as (c' & Hc' & Hi). rewrite Hc in Hc'.
      injection Hc' as <-. lia.
    + apply NoDup_singleton.
Qed.

Lemma counted_push (r : registry worker payload) w :
  counted _ _ r ->
  counted _ _ {| worker_registry := worker_registry _ _ r ++ [Some w];
                 worker_cache_registry :=
                   worker_cache_registry _ _ r ++ [{| counter := 0; promises := ∅ |}];
                 posted := posted _ _ r |}.
Proof.
  intros [Hp Hq Hn]. split; cbn [posted worker_cache_registry].
  - intros w' i p Hin. destruct (Hp w' i p Hin) as (c & Hc & Hi).
    exists c. split; [|exact Hi]. apply lookup_app_l_Some. exact Hc.
  - intros w' c i Hc Hi. apply lookup_app_Some in Hc.
    destruct Hc as [Hc|[_ Hc]]; [eapply Hq; eauto|].
    apply list_lookup_singleton_Some in Hc. destruct Hc as [_ <-].
    cbn in Hi. apply elem_of_empty in Hi. destruct Hi.
  - exact Hn.
Qed.

Lemma counted_receive worker_id msg (r r' : registry worker payload) e :
  counted _ _ r -> receive _ _ worker_id msg r = Ret (e, r') -> counted _ _ r'.
Proof.
  intros [Hp Hq Hn] H. unfold receive in H.
  destruct (worker_cache_registry _ _ r !! worker_id) as [c|] eqn:Hc; [|discriminate].
  assert (Hlt : worker_id < List.length (worker_cache_registry _ _ r))
    by (eapply lookup_lt_Some; exact Hc).
  destruct (callback c msg) as [[e' c']|err] eqn:Hcb; [|discriminate].
  cbn [bind fst snd] in H. injection H as <- <-.
  assert (Hc' : counter c' = counter c /\ promises c' ⊆ promises c).
  { unfold callback in Hcb. destruct (Markers.ends_with "_iter" (m_type msg)).
    - injection Hcb as _ <-. split; reflexivity.
    - destruct (bool_decide _); [|discriminate]. injection Hcb as _ <-.
      cbn. split; [reflexivity|].
      intros x Hx. apply elem_of_difference in Hx. tauto. }
  destruct Hc' as [Hcount Hsub].
  split; cbn [posted worker_cache_registry].
  - intros w i p Hin. destruct (Hp w i p Hin) as (c0 & Hc0 & Hi).
    destruct (decide (w = worker_id)) as [->|Hne].
    + rewrite list_lookup_insert_eq by exact Hlt. eexists. split; [reflexivity|].
      rewrite Hc in Hc0. injection Hc0 as <-. lia.
    + rewrite list_lookup_insert_ne by congruence. eauto.
  - intros w c0 i. destruct (decide (w = worker_id)) as [->|Hne].
    + rewrite list_lookup_insert_eq by exact Hlt. intros [= <-] Hi.
      rewrite Hcount. eapply Hq; [exact Hc|]. apply Hsub. exact Hi.
    + rewrite list_lookup_insert_ne by congruence. apply Hq.
  - exact Hn.
Qed.

Lemma counted_do_step (r : registry worker payload) s :
  counted _ _ r -> counted _ _ (do_step _ _ r s).
Proof.
  intros Hr. destruct s as [w init|worker_id p|worker_id msg]; cbn [do_step].
  - unfold initializeWorker.
    destruct (sendTask _ _ _ init _) as [[i r']|e] eqn:Hs; cbn [bind]; [|exact Hr].
    cbn [fst snd]. eapply counted_sendTask; [|exact Hs]. apply counted_push. exact Hr.
  - destruct (sendTask _ _ worker_id p r) as [[i r']|e] eqn:Hs; [|exact Hr].
    eapply counted_sendTask; eauto.
  - destruct (receive _ _ worker_id msg r) as [[e r']|err] eqn:Hs; [|exact Hr].
    eapply counted_receive; eauto.
Qed.

Lemma counted_run steps : counted _ _ (run worker payload steps).
Proof.
  unfold run. generalize (counted_no_workers).
  generalize (no_workers worker payload).
  induction steps as [|s steps IH]; intros r Hr; cbn [fold_left]; [exact Hr|].
  apply IH. apply counted_do_step. exact Hr.
Qed.

End WorkerFacts.

(** X24.  The tasks sent to the workers never share an identifier with
    another task of the same worker: whatever workers were initialized,
    tasks sent and messages received before, [sendTask] names the new
    task by an identifier that no pending promise of the worker has,
    and no two of the tasks sent so far to one worker have the same
    identifier. *)
Theorem sendTask_fresh_identifier :
  forall (worker payload : Type) (steps : list (VizParent.step worker payload)),
    NoDup (map (VizParent.task_key payload)
               (VizParent.posted _ _ (VizParent.run worker payload steps))) /\
    forall (worker_id : nat) (p : payload) (id : nat)
           (r' : VizParent.registry worker payload),
      VizParent.sendTask _ _ worker_id p (VizParent.run worker payload steps) = Ret (id, r') ->
      exists c,
        VizParent.worker_cache_registry _ _ (VizParent.run worker payload steps) !! worker_id
        = Some c /\
        (id ∉ VizParent.promises c) /\
        VizParent.worker_cache_registry _ _ r' !! worker_id
        = Some {| VizParent.counter := S id;
                  VizParent.promises := {[ id ]} ∪ VizParent.promises c |}.
Proof.
  intros worker payload steps.
  pose proof (counted_run (worker := worker) (payload := payload) steps) as [Hp Hq Hn].
  split; [exact Hn|].
  intros worker_id p id r' H. unfold VizParent.sendTask in H.
  destruct (VizParent.worker_cache_registry _ _ (VizParent.run worker payload steps)
              !! worker_id) as [c|] eqn:Hc; [|discriminate].
  injection H as <- <-. exists c. split_and!.
  - reflexivity.
  - intros Hin. specialize (Hq worker_id c _ Hc Hin). lia.
  - cbn. apply list_lookup_insert_eq. eapply lookup_lt_Some. exact Hc.
Qed.

(** X25.  A reply settles the promise of its task once: after a
    message that is not an animation frame has been handled, the
    promise of its identifier is gone, so that a second reply for the
    same task makes the callback throw a TypeError; an animation frame
    settles no promise at all. *)
Theorem callback_settles_once :
  forall (c c' : VizParent.cache) (msg : VizParent.message) (e : VizParent.effect),
    VizParent.callback c msg = Ret (e, c') ->
    if Markers.ends_with "_iter" (VizParent.m_type msg)
    then c' = c /\ exists name, e = VizParent.Animate name
    else
      (VizParent.m_id msg ∈ VizParent.promises c) /\
      (e = VizParent.Resolve (VizParent.m_id msg) \/ e = VizParent.Reject (VizParent.m_id msg)) /\
      VizParent.promises c' = VizParent.promises c ∖ {[ VizParent.m_id msg ]} /\
      forall msg',
        VizParent.m_id msg' = VizParent.m_id msg ->
        Markers.ends_with "_iter" (VizParent.m_type msg') = false ->
        exists what, VizParent.callback c' msg' = Throw (TypeError what).
Proof.
  intros c c' msg e H. unfold VizParent.callback in H.
  destruct (Markers.ends_with "_iter" (VizParent.m_type msg)).
  - injection H as <- <-. split; [reflexivity|]. eexists. reflexivity.
  - destruct (bool_decide (VizParent.m_id msg ∈ VizParent.promises c)) eqn:Hin;
      [|discriminate].
    apply bool_decide_eq_true in Hin. injection H as <- <-. split_and!.
    + exact Hin.
    + destruct (String.eqb _ _); [right|left]; reflexivity.
    + reflexivity.
    + intros msg' Hid Hiter. unfold VizParent.callback. rewrite Hiter, Hid.
      cbn [VizParent.promises]. rewrite bool_decide_eq_false_2.
      * eexists. reflexivity.
      * intros Hx. apply elem_of_difference in Hx as [_ Hx]. apply Hx.
        apply elem_of_singleton. reflexivity.
Qed.

Lemma callback_settles_once_witness :
  (VizParent.m_id {| VizParent.m_type := "umap_run"; VizParent.m_id := 1 |}
   ∈ VizParent.promises {| VizParent.counter := 2; VizParent.promises := {[ 0; 1 ]} |}) /\
  (VizParent.Resolve 1
   = VizParent.Resolve (VizParent.m_id {| VizParent.m_type := "umap_run"; VizParent.m_id := 1 |})
   \/ VizParent.Resolve 1
      = VizParent.Reject (VizParent.m_id {| VizParent.m_type := "umap_run"; VizParent.m_id := 1 |})) /\
  VizParent.promises {| VizParent.counter := 2; VizParent.promises := {[ 0; 1 ]} ∖ {[ 1 ]} |}
  = VizParent.promises {| VizParent.counter := 2; VizParent.promises := {[ 0; 1 ]} |}
    ∖ {[ VizParent.m_id {| VizParent.m_type := "umap_run"; VizParent.m_id := 1 |} ]} /\
  forall msg',
    VizParent.m_id msg'
    = VizParent.m_id {| VizParent.m_type := "umap_run"; VizParent.m_id := 1 |} ->
    Markers.ends_with "_iter" (VizParent.m_type msg') = false ->
    exists what,
      VizParent.callback
        {| VizParent.counter := 2; VizParent.promises := {[ 0; 1 ]} ∖ {[ 1 ]} |} msg'
      = Throw (TypeError what).
Proof.
  apply (callback_settles_once
           {| VizParent.counter := 2; VizParent.promises := {[ 0; 1 ]} |}
           {| VizParent.counter := 2; VizParent.promises := {[ 0; 1 ]} ∖ {[ 1 ]} |}
           {| VizParent.m_type := "umap_run"; VizParent.m_id := 1 |}
           (VizParent.Resolve 1)).
  reflexivity.
Defined.

Lemma sendTask_fresh_identifier_witness :
  exists c,
    VizParent.worker_cache_registry _ _
      (VizParent.run unit string [VizParent.Initialize unit string tt "INIT"]) !! 0
    = Some c /\
    (1 ∉ VizParent.promises c) /\
    VizParent.worker_cache_registry _ _
      (match VizParent.sendTask _ _ 0 "RUN"
               (VizParent.run unit string [VizParent.Initialize unit string tt "INIT"]) with
       | Ret (_, r') => r'
       | Throw _ => VizParent.no_workers unit string
       end) !! 0
    = Some {| VizParent.counter := 2; VizParent.promises := {[ 1 ]} ∪ VizParent.promises c |}.
Proof.
  destruct (sendTask_fresh_identifier unit string
              [VizParent.Initialize unit string tt "INIT"]) as [_ H].
  apply (H 0 "RUN" 1). reflexivity.
Defined.

(** ** FeatureSetManager.prepare *)

Section PrepareFacts.

Import FeatureSetManagerPrepare.

Variable ids : Type.
Variable searchGenes : string -> option ids -> list string -> result (list (list nat)).
Variable fetchGenesForAllSets : string -> result (list (list nat)).
Variable reindexGenesForAllSets : list (list nat) -> list (list nat) -> list (list nat).
Variable fetchAllSets : string -> result (list set_details).
Variable fetchSetsForAllGenes : string -> result (list (list nat)).
Variable reindexSetsForAllGenes : list (list nat) -> list (list nat) -> list (list Z).
Variable fetchAllCollections : string -> result (list collection_details).
Variable store : Z -> Z.

Local Abbreviation step :=
  (species_step ids searchGenes fetchGenesForAllSets reindexGenesForAllSets fetchAllSets
                fetchSetsForAllGenes reindexSetsForAllGenes fetchAllCollections store).
Local Abbreviation loop :=
  (species_loop ids searchGenes fetchGenesForAllSets reindexGenesForAllSets fetchAllSets
                fetchSetsForAllGenes reindexSetsForAllGenes fetchAllCollections store).

Lemma describe_sets_spec offset set_indices all_sets :
  forall i described,
    describe_sets offset set_indices i all_sets = Ret described ->
    map (fun d => fst (fst (fst d))) described = map sd_name all_sets /\
    map (fun d => snd (fst d)) described
    = map (fun d => to_int32 (sd_collection d + offset)) all_sets /\
    Forall2 (fun d genes => snd d = to_int32 (Z.of_nat (List.length genes)))
            described (firstn (List.length all_sets) (skipn i set_indices)).
Proof.
  induction all_sets as [|current rest IH]; intros i described H; cbn in H.
  - injection H as <-. cbn. split_and!; constructor.
  - destruct (set_indices !! i) as [genes|] eqn:Hi; [|discriminate].
    destruct (describe_sets offset set_indices (S i) rest) as [later|] eqn:Hl;
      [|discriminate].
    cbn in H. injection H as <-.
    destruct (IH _ _ Hl) as (Hn & Hc & Hs).
    cbn [map fst snd]. rewrite Hn, Hc. split_and!; try reflexivity.
    cbn [List.length firstn].
    rewrite (drop_S _ _ _ Hi). constructor; [reflexivity | exact Hs].
Qed.

(** What one turn of the loop over the species appends. *)
Lemma species_step_tables data_id_col types st spec st' :
  step data_id_col types st spec = Ret st' ->
  exists all_sets all_collections,
    fetchAllSets spec = Ret all_sets /\
    fetchAllCollections spec = Ret all_collections /\
    collection_offset st'
    = (collection_offset st + Z.of_nat (List.length all_collections))%Z /\
    all_collection_names st' = all_collection_names st ++ [map cd_name all_collections] /\
    all_collection_species st'
    = all_collection_species st ++ [map (fun _ => spec) all_collections] /\
    all_set_names st' = all_set_names st ++ [map sd_name all_sets] /\
    all_set_collections st'
    = all_set_collections st
      ++ [map (fun d => to_int32 (sd_collection d + collection_offset st)) all_sets].
Proof.
  unfold species_step. intros H.
  destruct (searchGenes spec data_id_col types) as [gene_mapping|]; [|discriminate].
  cbn [bind] in H.
  destruct (fetchGenesForAllSets spec) as [all_sets2genes|]; [|discriminate].
  cbn [bind] in H.
  destruct (fetchAllSets spec) as [all_sets|]; [|discriminate].
  cbn [bind] in H.
  destruct (describe_sets _ _ 0 all_sets) as [described|] eqn:Hd; [|discriminate].
  cbn [bind] in H.
  destruct (fetchSetsForAllGenes spec) as [all_genes2sets|]; [|discriminate].
  cbn [bind] in H.
  destruct (remap_loop _ _ _ _ _ _) as [remapped'|]; [|discriminate].
  cbn [bind] in H.
  destruct (fetchAllCollections spec) as [all_collections|]; [|discriminate].
  cbn [bind] in H. injection H as <-.
  destruct (describe_sets_spec _ _ _ _ _ Hd) as (Hn & Hc & _).
  exists all_sets, all_collections. cbn. rewrite Hn, Hc. split_and!; reflexivity.
Qed.

Local Abbreviation sets_before := (sets_before fetchAllSets).
Local Abbreviation collections_before := (collections_before fetchAllCollections).

Lemma species_loop_extends data_id_col types species :
  forall st final,
    loop data_id_col types st species = Ret final ->
    exists names collections cnames cspecies,
      concat (all_set_names final) = concat (all_set_names st) ++ names /\
      concat (all_set_collections final) = concat (all_set_collections st) ++ collections /\
      concat (all_collection_names final) = concat (all_collection_names st) ++ cnames /\
      concat (all_collection_species final)
      = concat (all_collection_species st) ++ cspecies.
Proof.
  induction species as [|spec rest IH]; intros st final H; cbn in H.
  - injection H as <-. exists [], [], [], []. rewrite !app_nil_r. split_and!; reflexivity.
  - destruct (step data_id_col types st spec) as [st'|] eqn:Hstep; [|discriminate].
    cbn [bind] in H.
    destruct (species_step_tables _ _ _ _ _ Hstep)
      as (all_sets & all_collections & _ & _ & _ & Hcn & Hcs & Hsn & Hsc).
    destruct (IH _ _ H) as (n & c & cn & cs & E1 & E2 & E3 & E4).
    rewrite E1, E2, E3, E4, Hcn, Hcs, Hsn, Hsc.
    rewrite !concat_app. cbn [concat]. rewrite !app_nil_r, <- !app_assoc.
    eexists _, _, _, _. split_and!; reflexivity.
Qed.

Lemma prepare_loop_namespaces data_id_col types species :
  forall st final k spec all_sets all_collections i current coll,
    loop data_id_col types st species = Ret final ->
    balanced st ->
    species !! k = Some spec ->
    fetchAllSets spec = Ret all_sets ->
    all_sets !! i = Some current ->
    fetchAllCollections spec = Ret all_collections ->
    (0 <= sd_collection current)%Z ->
    all_collections !! Z.to_nat (sd_collection current) = Some coll ->
    (Z.of_nat (List.length (concat (all_collection_names st))
               + collections_before species (S k)) < 2 ^ 31)%Z ->
    let j := (List.length (concat (all_set_names st)) + sets_before species k + i)%nat in
    concat (all_set_names final) !! j = Some (sd_name current) /\
    exists c : Z,
      concat (all_set_collections final) !! j = Some c /\
      (0 <= c)%Z /\
      concat (all_collection_names final) !! Z.to_nat c = Some (cd_name coll) /\
      concat (all_collection_species final) !! Z.to_nat c = Some spec.
Proof.
  induction species as [|spec0 rest IH];
    intros st final k spec all_sets all_collections i current coll
           H (Hoff & Hsp & Hsc) Hk Hsets Hi Hcols Hpos Hcoll Hfit j;
    [destruct k; discriminate|].
  cbn in H.
  destruct (step data_id_col types st spec0) as [st'|] eqn:Hstep; [|discriminate].
  cbn [bind] in H.
  destruct (species_step_tables _ _ _ _ _ Hstep)
    as (sets0 & cols0 & Hs0 & Hc0 & Hoff' & Hcn & Hcs & Hsn & Hscl).
  assert (Hbal : balanced st').
  { unfold balanced. rewrite Hoff', Hcn, Hcs, Hsn, Hscl, Hoff.
    rewrite !concat_app. cbn [concat]. rewrite !app_nil_r, !length_app, !length_map.
    split_and!; lia. }
  destruct k as [|k].
  - cbn in Hk. injection Hk as ->.
    rewrite Hs0 in Hsets. injection Hsets as ->.
    rewrite Hc0 in Hcols. injection Hcols as ->.
    destruct (species_loop_extends _ _ _ _ _ H) as (n & c & cn & cs & E1 & E2 & E3 & E4).
    assert (Hlt := lookup_lt_Some _ _ _ Hcoll).
    unfold collections_before, number_of_collections in Hfit.
    cbn [firstn map list_sum fold_right] in Hfit. rewrite Hc0 in Hfit.
    assert (Hc : to_int32 (sd_collection current + collection_offset st)
                 = (sd_collection current + collection_offset st)%Z).
    { unfold to_int32. rewrite Z.mod_small; lia. }
    subst j. unfold sets_before. cbn [firstn map list_sum fold_right].
    rewrite Nat.add_0_r.
    rewrite E1, E2, E3, E4, Hsn, Hscl, Hcn, Hcs.
    rewrite !concat_app. cbn [concat]. rewrite !app_nil_r.
    split.
    + apply lookup_app_l_Some. rewrite lookup_app_r by lia.
      replace (_ + i - _)%nat with i by lia.
      rewrite list_lookup_fmap, Hi. reflexivity.
    + exists (sd_collection current + collection_offset st)%Z. split_and!.
      * apply lookup_app_l_Some. rewrite lookup_app_r by lia.
        rewrite Hsc. replace (_ + i - _)%nat with i by lia.
        rewrite list_lookup_fmap, Hi. cbn. rewrite Hc. reflexivity.
      * lia.
      * apply lookup_app_l_Some. rewrite lookup_app_r by lia.
        replace (Z.to_nat _ - _)%nat with (Z.to_nat (sd_collection current)) by lia.
        rewrite list_lookup_fmap, Hcoll. reflexivity.
      * apply lookup_app_l_Some. rewrite lookup_app_r by lia.
        replace (Z.to_nat _ - _)%nat with (Z.to_nat (sd_collection current)) by lia.
        rewrite list_lookup_fmap, Hcoll. reflexivity.
  - cbn in Hk.
    assert (Hfit' : (Z.of_nat (List.length (concat (all_collection_names st'))
                               + collections_before rest (S k)) < 2 ^ 31)%Z).
    { rewrite Hcn, concat_app. cbn [concat]. rewrite app_nil_r, length_app, length_map.
      unfold collections_before, list_sum in *. cbn [firstn map fold_right] in Hfit.
      unfold number_of_collections in Hfit at 1. rewrite Hc0 in Hfit. lia. }
    pose proof (IH st' final k spec all_sets all_collections i current coll
                   H Hbal Hk Hsets Hi Hcols Hpos Hcoll Hfit') as Hrec.
    cbv zeta in Hrec.
    replace j with (List.length (concat (all_set_names st')) + sets_before rest k + i)%nat;
      [exact Hrec|].
    subst j. rewrite Hsn, concat_app. cbn [concat]. rewrite app_nil_r, length_app, length_map.
    unfold sets_before, list_sum. cbn [firstn map fold_right].
    unfold number_of_sets at 2. rewrite Hs0. lia.
Qed.

(** X26.  In the tables that [prepare] combines over the species, the
    set at position [i] of the species at position [k] stands after
    the sets of the species before it, under its own name, and its
    collection index points, in the combined collection tables, at the
    collection it has in its own species and at that species: the
    offsets keep the collections of different species apart.  (The
    identifiers are there to search, the collection index of the set
    is valid for its species, and the collections up to this species
    are fewer than 2^31, the range of the Int32Array.) *)
Theorem prepare_namespaces_collections
    (feats : annotation ids) (species : list string)
    (gene_id_column : option FeatureSetEnrichment.column) (gene_id_type : string)
    (cache : prepared) (k : nat) (spec : string)
    (all_sets : list set_details) (all_collections : list collection_details)
    (i : nat) (current : set_details) (coll : collection_details) :
  prepare ids searchGenes fetchGenesForAllSets reindexGenesForAllSets fetchAllSets
          fetchSetsForAllGenes reindexSetsForAllGenes fetchAllCollections store
          feats species gene_id_column gene_id_type = Ret cache ->
  is_Some gene_id_column \/ is_Some (rowNames ids feats) ->
  species !! k = Some spec ->
  fetchAllSets spec = Ret all_sets ->
  all_sets !! i = Some current ->
  fetchAllCollections spec = Ret all_collections ->
  (0 <= sd_collection current)%Z ->
  all_collections !! Z.to_nat (sd_collection current) = Some coll ->
  (Z.of_nat (collections_before species (S k)) < 2 ^ 31)%Z ->
  let j := (sets_before species k + i)%nat in
  names (p_sets cache) !! j = Some (sd_name current) /\
  exists c : Z,
    collections (p_sets cache) !! j = Some c /\
    (0 <= c)%Z /\
    c_names (p_collections cache) !! Z.to_nat c = Some (cd_name coll) /\
    c_species (p_collections cache) !! Z.to_nat c = Some spec.
Proof.
  intros H Hids Hk Hsets Hi Hcols Hpos Hcoll Hfit j.
  unfold prepare in H.
  destruct (identifiers ids feats species gene_id_column) as [[data_id_col searched]|] eqn:Hf;
    [|discriminate].
  cbn [bind fst snd] in H.
  assert (searched = species) as ->.
  { unfold identifiers in Hf. destruct gene_id_column as [c|].
    - destruct (column ids feats c); [|discriminate]. cbn in Hf. congruence.
    - destruct Hids as [[? ?]|[names Hn]]; [discriminate|].
      rewrite Hn in Hf. congruence. }
  match type of H with
  | bind ?l _ = _ => destruct l as [st|] eqn:Hloop; [|discriminate]
  end.
  cbn [bind] in H. injection H as <-. cbn [p_sets p_collections names collections
                                            c_names c_species].
  apply (prepare_loop_namespaces _ _ _ _ _ k spec all_sets all_collections i current coll
                                 Hloop); try assumption.
  unfold balanced, initial. cbn. split_and!; reflexivity.
Qed.

Lemma insert_number_perm x l : Permutation (insert_number x l) (x :: l).
Proof.
  induction l as [|y l IH]; cbn; [reflexivity|].
  destruct (x <=? y)%Z; [reflexivity|].
  rewrite IH. apply perm_swap.
Qed.

Lemma sort_numbers_perm l : Permutation (sort_numbers l) l.
Proof.
  induction l as [|x l IH]; cbn; [reflexivity|].
  rewrite insert_number_perm, IH. reflexivity.
Qed.

Lemma insert_number_sorted x l :
  StronglySorted Z.le l -> StronglySorted Z.le (insert_number x l).
Proof.
  induction 1 as [|y l Hs IH Hall]; cbn; [repeat constructor|].
  destruct (Z.leb_spec x y) as [Hle|Hgt].
  - constructor; [constructor; assumption|].
    constructor; [exact Hle|].
    eapply List.Forall_impl; [|exact Hall]. cbn. intros; lia.
  - constructor; [exact IH|].
    eapply Permutation_Forall; [symmetry; apply insert_number_perm|].
    constructor; [lia | exact Hall].
Qed.

Lemma sort_numbers_sorted l : StronglySorted Z.le (sort_numbers l).
Proof.
  induction l as [|x l IH]; cbn; [constructor|].
  apply insert_number_sorted, IH.
Qed.

Lemma sorted_nodup_strict l :
  StronglySorted Z.le l -> List.NoDup l -> StronglySorted Z.lt l.
Proof.
  induction 1 as [|x l Hs IH Hall]; intros Hnd; [constructor|].
  inversion Hnd as [|? ? Hnot Hnd']; subst.
  constructor; [apply IH, Hnd'|].
  rewrite List.Forall_forall in *. intros y Hy.
  specialize (Hall y Hy). destruct (Z.eq_dec x y) as [->|]; [contradiction|lia].
Qed.

Lemma add_mapped_spec gene_mapping mapped (r : nat) :
  r ∈ add_mapped gene_mapping mapped <->
  r ∈ mapped \/
  exists genes : list nat, gene_mapping !! r = Some genes /\ (0 < List.length genes)%nat.
Proof.
  unfold add_mapped.
  assert (Hgen : forall (l : list (list nat)) (start : nat) (acc : gset nat),
             r ∈ fold_left (fun (acc : gset nat) '(i, genes) =>
                              if (0 <? List.length genes)%nat then {[ i ]} ∪ acc else acc)
                           (combine (seq start (List.length l)) l) acc <->
             r ∈ acc \/
             exists genes : list nat, (start <= r)%nat /\ l !! (r - start)%nat = Some genes /\
                           (0 < List.length genes)%nat).
  { induction l as [|g l IH]; intros start acc; cbn [List.length seq combine fold_left].
    - split; [auto|]. intros [H|(genes & _ & H & _)]; [exact H|discriminate].
    - rewrite IH. split.
      + intros [H|(genes & Hle & Hl & Hne)].
        * destruct (Nat.ltb_spec 0 (List.length g)) as [Hpos|Hz]; [|auto].
          apply elem_of_union in H as [H|H]; [|auto].
          apply elem_of_singleton in H as ->.
          right. exists g. rewrite Nat.sub_diag. split_and!; [lia|reflexivity|exact Hpos].
        * right. exists genes. split_and!; [lia| |exact Hne].
          replace (r - start)%nat with (S (r - S start)) by lia. exact Hl.
      + intros [H|(genes & Hle & Hl & Hne)].
        * left. destruct (0 <? List.length g)%nat; [|exact H]. apply elem_of_union. auto.
        * destruct (decide (r = start)) as [->|Hneq].
          -- rewrite Nat.sub_diag in Hl. cbn in Hl. injection Hl as ->.
             left. destruct (Nat.ltb_spec 0 (List.length genes)) as [_|Hz]; [|lia].
             apply elem_of_union. left. apply elem_of_singleton. reflexivity.
          -- right. exists genes. split_and!; [lia| |exact Hne].
             replace (r - start)%nat with (S (r - S start)) in Hl by lia. exact Hl. }
  rewrite Hgen. rewrite Nat.sub_0_r. split.
  - intros [H|(genes & _ & H)]; [auto|eauto].
  - intros [H|(genes & H)]; [auto|]. right. exists genes. split; [lia|exact H].
Qed.

Lemma remap_loop_length set_offset current_remapped todo :
  forall i remapped remapped',
    remap_loop store set_offset current_remapped todo i remapped = Ret remapped' ->
    List.length remapped' = List.length remapped /\
    (0 < todo -> i + todo <= List.length remapped)%nat.
Proof.
  induction todo as [|todo IH]; intros i remapped remapped' H; cbn in H.
  - injection H as <-. split; [reflexivity|lia].
  - destruct (current_remapped !! i) as [current|]; [|discriminate].
    destruct (remapped !! i) as [row|] eqn:Hrow; [|discriminate].
    apply IH in H as [Hlen Hle]. rewrite length_insert in Hlen, Hle.
    apply lookup_lt_Some in Hrow. split; [exact Hlen|]. intros _.
    destruct todo; lia.
Qed.

Lemma species_step_mapped data_id_col types st spec st' :
  step data_id_col types st spec = Ret st' ->
  exists gene_mapping,
    searchGenes spec data_id_col types = Ret gene_mapping /\
    mapped_genes st' = add_mapped gene_mapping (mapped_genes st) /\
    List.length (remapped st') = List.length (remapped st) /\
    (List.length gene_mapping <= List.length (remapped st))%nat.
Proof.
  unfold species_step. intros H.
  destruct (searchGenes spec data_id_col types) as [gene_mapping|]; [|discriminate].
  cbn [bind] in H.
  destruct (fetchGenesForAllSets spec) as [all_sets2genes|]; [|discriminate].
  cbn [bind] in H.
  destruct (fetchAllSets spec) as [all_sets|]; [|discriminate].
  cbn [bind] in H.
  destruct (describe_sets _ _ 0 all_sets) as [described|]; [|discriminate].
  cbn [bind] in H.
  destruct (fetchSetsForAllGenes spec) as [all_genes2sets|]; [|discriminate].
  cbn [bind] in H.
  destruct (remap_loop _ _ _ _ _ _) as [remapped'|] eqn:Hr; [|discriminate].
  cbn [bind] in H.
  destruct (fetchAllCollections spec) as [all_collections|]; [|discriminate].
  cbn [bind] in H. injection H as <-.
  apply remap_loop_length in Hr as [Hlen Hle].
  exists gene_mapping. cbn. split_and!; [reflexivity|reflexivity|exact Hlen|].
  destruct (List.length gene_mapping); lia.
Qed.

Lemma species_loop_mapped data_id_col types species :
  forall st final,
    loop data_id_col types st species = Ret final ->
    List.length (remapped final) = List.length (remapped st) /\
    (forall spec gene_mapping,
       In spec species -> searchGenes spec data_id_col types = Ret gene_mapping ->
       (List.length gene_mapping <= List.length (remapped st))%nat) /\
    forall r : nat,
      r ∈ mapped_genes final <->
      r ∈ mapped_genes st \/
      exists spec gene_mapping (genes : list nat),
        In spec species /\
        searchGenes spec data_id_col types = Ret gene_mapping /\
        gene_mapping !! r = Some genes /\ (0 < List.length genes)%nat.
Proof.
  induction species as [|spec rest IH]; intros st final H; cbn in H.
  - injection H as <-. split_and!; [reflexivity|intros ? ? []|].
    intros r. split; [auto|].
    intros [H|(? & ? & ? & [] & _)]. exact H.
  - destruct (step data_id_col types st spec) as [st'|] eqn:Hstep; [|discriminate].
    cbn [bind] in H.
    destruct (species_step_mapped _ _ _ _ _ Hstep) as (gm & Hgm & Hmap & Hlen & Hle).
    destruct (IH _ _ H) as (Hlen' & Hbound & Hin).
    split_and!; [congruence| |].
    { intros s g [<-|Hs] Hg.
      - rewrite Hgm in Hg. injection Hg as <-. exact Hle.
      - rewrite <- Hlen. eapply Hbound; eassumption. }
    intros r. rewrite Hin, Hmap, add_mapped_spec.
    split.
    + intros [[H1|(genes & Hl & Hne)]|(s & g & genes & Hs & Hg & Hl & Hne)].
      * auto.
      * right. exists spec, gm, genes. split_and!; try assumption. left; reflexivity.
      * right. exists s, g, genes. split_and!; try assumption. right. exact Hs.
    + intros [H1|(s & g & genes & [<-|Hs] & Hg & Hl & Hne)].
      * auto.
      * left. right. exists genes. rewrite Hgm in Hg. injection Hg as <-. auto.
      * right. exists s, g, genes. split_and!; assumption.
Qed.

(** X27.  The universe that [prepare] stores lists, in increasing order
    and each once, exactly the rows for which the search found a gene in
    at least one species, and every row it lists has its entry in
    [mapping_to_sets], which has one entry per row of the annotation.
    (The rows are fewer than 2^31, the range of the Int32Array.) *)
Theorem prepare_universe
    (feats : annotation ids) (species : list string)
    (gene_id_column : option FeatureSetEnrichment.column) (gene_id_type : string)
    (cache : prepared) (data_id_col : option ids) (searched : list string) :
  prepare ids searchGenes fetchGenesForAllSets reindexGenesForAllSets fetchAllSets
          fetchSetsForAllGenes reindexSetsForAllGenes fetchAllCollections store
          feats species gene_id_column gene_id_type = Ret cache ->
  identifiers ids feats species gene_id_column = Ret (data_id_col, searched) ->
  (Z.of_nat (numberOfRows ids feats) < 2 ^ 31)%Z ->
  StronglySorted Z.lt (universe cache) /\
  (forall g : Z,
     In g (universe cache) <->
     exists (r : nat) spec gene_mapping (genes : list nat),
       g = Z.of_nat r /\ In spec searched /\
       searchGenes spec data_id_col [lower gene_id_type] = Ret gene_mapping /\
       gene_mapping !! r = Some genes /\ (0 < List.length genes)%nat) /\
  (forall g : Z,
     In g (universe cache) ->
     (0 <= g)%Z /\ is_Some (mapping_to_sets cache !! Z.to_nat g)) /\
  List.length (mapping_to_sets cache) = numberOfRows ids feats.
Proof.
  intros H Hf Hfit. unfold prepare in H. rewrite Hf in H. cbn [bind fst snd] in H.
  match type of H with
  | bind ?l _ = _ => destruct l as [st|] eqn:Hloop; [|discriminate]
  end.
  cbn [bind] in H. injection H as <-. cbn [universe mapping_to_sets].
  destruct (species_loop_mapped _ _ _ _ _ Hloop) as (Hlen & Hbound & Hin).
  cbn [initial remapped mapped_genes] in Hlen, Hbound, Hin.
  rewrite repeat_length in Hlen, Hbound.
  assert (Hrows : forall r : nat, r ∈ mapped_genes st -> (r < numberOfRows ids feats)%nat).
  { intros r Hr. apply Hin in Hr as [Hr|(s & g & genes & Hs & Hg & Hl & _)].
    - apply elem_of_empty in Hr as [].
    - apply lookup_lt_Some in Hl. specialize (Hbound _ _ Hs Hg). lia. }
  assert (Hsmall : forall r : nat, r ∈ mapped_genes st ->
                                   to_int32 (Z.of_nat r) = Z.of_nat r).
  { intros r Hr. apply Hrows in Hr. unfold to_int32. rewrite Z.mod_small; lia. }
  assert (Hmem : forall g : Z,
             In g (sort_numbers (map (fun i => to_int32 (Z.of_nat i))
                                     (elements (mapped_genes st)))) <->
             exists r : nat, g = Z.of_nat r /\ r ∈ mapped_genes st).
  { intros g. split.
    - intros Hg. apply (Permutation_in _ (sort_numbers_perm _)) in Hg.
      apply in_map_iff in Hg as (r & <- & Hr).
      apply list_elem_of_In, elem_of_elements in Hr.
      exists r. split; [apply Hsmall, Hr|exact Hr].
    - intros (r & -> & Hr).
      apply (Permutation_in _ (Permutation_sym (sort_numbers_perm _))).
      apply in_map_iff. exists r. split; [apply Hsmall, Hr|].
      apply list_elem_of_In, elem_of_elements, Hr. }
  assert (Hmlen : List.length (if (0 <? List.length searched)%nat
                               then map (fun row => concat row) (remapped st)
                               else map (fun _ => []) (remapped st))
                  = numberOfRows ids feats).
  { destruct (0 <? List.length searched)%nat; rewrite length_map; exact Hlen. }
  split_and!.
  - apply sorted_nodup_strict; [apply sort_numbers_sorted|].
    eapply Permutation_NoDup; [symmetry; apply sort_numbers_perm|].
    apply NoDup_ListNoDup, NoDup_fmap_2_strong; [|apply NoDup_elements].
    intros x y Hx Hy Heq. apply elem_of_elements in Hx, Hy.
    rewrite (Hsmall _ Hx), (Hsmall _ Hy) in Heq. lia.
  - intros g. rewrite Hmem. split.
    + intros (r & -> & Hr).
      apply Hin in Hr as [Hr|(s & gm & genes & Hs & Hg & Hl & Hne)];
        [apply elem_of_empty in Hr as []|].
      exists r, s, gm, genes. split_and!; try assumption; reflexivity.
    + intros (r & s & gm & genes & -> & Hs & Hg & Hl & Hne).
      exists r. split; [reflexivity|]. apply Hin. right.
      exists s, gm, genes. split_and!; assumption.
  - intros g Hg. apply Hmem in Hg as (r & -> & Hr). split; [lia|].
    rewrite Nat2Z.id. apply lookup_lt_is_Some. rewrite Hmlen. apply Hrows, Hr.
  - exact Hmlen.
Qed.

(** The rows that the loop over the rows goes through get the shifted
    identifiers appended, the others are left alone. *)
Lemma remap_loop_rows set_offset current_remapped todo :
  forall i remapped remapped',
    remap_loop store set_offset current_remapped todo i remapped = Ret remapped' ->
    forall r : nat,
      if bool_decide (i <= r < i + todo)%nat then
        exists row current,
          remapped !! r = Some row /\ current_remapped !! r = Some current /\
          remapped' !! r
          = Some (row ++ [map (fun x => store (x + set_offset)%Z) current])
      else remapped' !! r = remapped !! r.
Proof.
  induction todo as [|todo IH]; intros i remapped remapped' H r; cbn in H.
  - injection H as <-. rewrite bool_decide_eq_false_2 by lia. reflexivity.
  - destruct (current_remapped !! i) as [current|] eqn:Hcur; [|discriminate].
    destruct (remapped !! i) as [row|] eqn:Hrow; [|discriminate].
    specialize (IH _ _ _ H r).
    destruct (decide (r = i)) as [->|Hne].
    + rewrite bool_decide_eq_false_2 in IH by lia.
      rewrite bool_decide_eq_true_2 by lia.
      exists row, current. split_and!; [exact Hrow|exact Hcur|].
      rewrite IH. apply list_lookup_insert_eq. eapply lookup_lt_Some, Hrow.
    + rewrite list_lookup_insert_ne in IH by congruence.
      destruct (decide (i <= r < i + S todo)%nat) as [Hin|Hout].
      * rewrite bool_decide_eq_true_2 in IH by lia.
        rewrite bool_decide_eq_true_2 by lia. exact IH.
      * rewrite bool_decide_eq_false_2 in IH by lia.
        rewrite bool_decide_eq_false_2 by lia. exact IH.
Qed.

Lemma species_step_rows data_id_col types st spec st' :
  step data_id_col types st spec = Ret st' ->
  exists gene_mapping all_genes2sets,
    searchGenes spec data_id_col types = Ret gene_mapping /\
    fetchSetsForAllGenes spec = Ret all_genes2sets /\
    set_offset st' = (set_offset st + Z.of_nat (number_of_sets fetchAllSets spec))%Z /\
    forall r : nat,
      if bool_decide (r < List.length gene_mapping)%nat then
        exists row current,
          remapped st !! r = Some row /\
          reindexSetsForAllGenes gene_mapping all_genes2sets !! r = Some current /\
          remapped st' !! r
          = Some (row ++ [map (fun x => store (x + set_offset st)%Z) current])
      else remapped st' !! r = remapped st !! r.
Proof.
  unfold species_step, number_of_sets. intros H.
  destruct (searchGenes spec data_id_col types) as [gene_mapping|]; [|discriminate].
  cbn [bind] in H.
  destruct (fetchGenesForAllSets spec) as [all_sets2genes|]; [|discriminate].
  cbn [bind] in H.
  destruct (fetchAllSets spec) as [all_sets|]; [|discriminate].
  cbn [bind] in H.
  destruct (describe_sets _ _ 0 all_sets) as [described|]; [|discriminate].
  cbn [bind] in H.
  destruct (fetchSetsForAllGenes spec) as [all_genes2sets|]; [|discriminate].
  cbn [bind] in H.
  destruct (remap_loop _ _ _ _ _ _) as [remapped'|] eqn:Hr; [|discriminate].
  cbn [bind] in H.
  destruct (fetchAllCollections spec) as [all_collections|]; [|discriminate].
  cbn [bind] in H. injection H as <-.
  exists gene_mapping, all_genes2sets. cbn [set_offset remapped].
  split_and!; try reflexivity.
  intros r. pose proof (remap_loop_rows _ _ _ _ _ _ Hr r) as Hrow.
  destruct (decide (r < List.length gene_mapping)%nat).
  - rewrite bool_decide_eq_true_2 in Hrow by lia.
    rewrite bool_decide_eq_true_2 by lia. exact Hrow.
  - rewrite bool_decide_eq_false_2 in Hrow by lia.
    rewrite bool_decide_eq_false_2 by lia. exact Hrow.
Qed.

Lemma species_loop_rows data_id_col types species :
  forall st final (r : nat) (row' : list (list Z)),
    loop data_id_col types st species = Ret final ->
    remapped final !! r = Some row' ->
    exists row,
      remapped st !! r = Some row /\
      forall s : Z,
        In s (concat row') <->
        In s (concat row) \/
        exists (k : nat) spec gene_mapping all_genes2sets current x,
          species !! k = Some spec /\
          searchGenes spec data_id_col types = Ret gene_mapping /\
          (r < List.length gene_mapping)%nat /\
          fetchSetsForAllGenes spec = Ret all_genes2sets /\
          reindexSetsForAllGenes gene_mapping all_genes2sets !! r = Some current /\
          In x current /\
          s = store (x + (set_offset st + Z.of_nat (sets_before species k)))%Z.
Proof.
  induction species as [|spec rest IH]; intros st final r row' H Hrow'; cbn in H.
  - injection H as <-. exists row'. split; [exact Hrow'|]. intros s. split; [auto|].
    intros [Hs|(k & ? & ? & ? & ? & ? & Hk & _)]; [exact Hs|]. destruct k; discriminate.
  - destruct (step data_id_col types st spec) as [st'|] eqn:Hstep; [|discriminate].
    cbn [bind] in H.
    destruct (species_step_rows _ _ _ _ _ Hstep) as (gm & g2s & Hgm & Hg2s & Hoff & Hrows).
    destruct (IH _ _ _ _ H Hrow') as (row1 & Hrow1 & Hin).
    specialize (Hrows r).
    assert (Hshift : forall k, (set_offset st' + Z.of_nat (sets_before rest k)
                                = set_offset st + Z.of_nat (sets_before (spec :: rest) (S k)))%Z).
    { intros k. rewrite Hoff. unfold FeatureSetManagerPrepare.sets_before, list_sum.
      cbn [firstn map fold_right]. lia. }
    destruct (decide (r < List.length gm)%nat) as [Hlt|Hge].
    + rewrite bool_decide_eq_true_2 in Hrows by lia.
      destruct Hrows as (row & current & Hrow & Hcur & Hnew).
      rewrite Hrow1 in Hnew. injection Hnew as ->.
      exists row. split; [exact Hrow|]. intros s. rewrite Hin.
      rewrite concat_app, in_app_iff. cbn [concat]. rewrite app_nil_r, in_map_iff.
      split.
      * intros [[Hs|(x & <- & Hx)]|(k & sp & g & g2 & cur & x & Hk & Hg & Hl & Hg2 & Hc & Hx & ->)].
        -- auto.
        -- right. exists 0%nat, spec, gm, g2s, current, x.
           split_and!; try assumption; [reflexivity|].
           unfold FeatureSetManagerPrepare.sets_before. cbn. f_equal. lia.
        -- right. exists (S k), sp, g, g2, cur, x.
           split_and!; try assumption. rewrite Hshift. reflexivity.
      * intros [Hs|(k & sp & g & g2 & cur & x & Hk & Hg & Hl & Hg2 & Hc & Hx & ->)]; [auto|].
        destruct k as [|k].
        -- cbn in Hk. injection Hk as <-.
           rewrite Hgm in Hg. injection Hg as <-.
           rewrite Hg2s in Hg2. injection Hg2 as <-.
           rewrite Hcur in Hc. injection Hc as <-.
           left. right. exists x. split; [|exact Hx].
           unfold FeatureSetManagerPrepare.sets_before. cbn. f_equal. lia.
        -- cbn in Hk. right. exists k, sp, g, g2, cur, x.
           split_and!; try assumption. rewrite Hshift. reflexivity.
    + rewrite bool_decide_eq_false_2 in Hrows by lia.
      exists row1. split; [congruence|]. intros s. rewrite Hin. split.
      * intros [Hs|(k & sp & g & g2 & cur & x & Hk & Hg & Hl & Hg2 & Hc & Hx & ->)]; [auto|].
        right. exists (S k), sp, g, g2, cur, x.
        split_and!; try assumption. rewrite Hshift. reflexivity.
      * intros [Hs|(k & sp & g & g2 & cur & x & Hk & Hg & Hl & Hg2 & Hc & Hx & ->)]; [auto|].
        destruct k as [|k].
        -- cbn in Hk. injection Hk as <-. rewrite Hgm in Hg. injection Hg as <-. lia.
        -- cbn in Hk. right. exists k, sp, g, g2, cur, x.
           split_and!; try assumption. rewrite Hshift. reflexivity.
Qed.

(** X28.  The set identifiers that [prepare] attaches to a row are the
    identifiers that gesel gives for that row in one of the species,
    each shifted by the number of sets of the species before it, which
    is the shift of that species' sets in the combined tables; a row
    beyond the genes searched for a species gets nothing from it. *)
Theorem prepare_mapping_to_sets
    (feats : annotation ids) (species : list string)
    (gene_id_column : option FeatureSetEnrichment.column) (gene_id_type : string)
    (cache : prepared) (data_id_col : option ids) (searched : list string)
    (r : nat) (sets_of_row : list Z) :
  prepare ids searchGenes fetchGenesForAllSets reindexGenesForAllSets fetchAllSets
          fetchSetsForAllGenes reindexSetsForAllGenes fetchAllCollections store
          feats species gene_id_column gene_id_type = Ret cache ->
  identifiers ids feats species gene_id_column = Ret (data_id_col, searched) ->
  mapping_to_sets cache !! r = Some sets_of_row ->
  forall s : Z,
    In s sets_of_row <->
    exists (k : nat) spec gene_mapping all_genes2sets current x,
      searched !! k = Some spec /\
      searchGenes spec data_id_col [lower gene_id_type] = Ret gene_mapping /\
      (r < List.length gene_mapping)%nat /\
      fetchSetsForAllGenes spec = Ret all_genes2sets /\
      reindexSetsForAllGenes gene_mapping all_genes2sets !! r = Some current /\
      In x current /\
      s = store (x + Z.of_nat (sets_before searched k))%Z.
Proof.
  intros H Hf Hr s. unfold prepare in H. rewrite Hf in H. cbn [bind fst snd] in H.
  match type of H with
  | bind ?l _ = _ => destruct l as [st|] eqn:Hloop; [|discriminate]
  end.
  cbn [bind] in H. injection H as <-. cbn [mapping_to_sets] in Hr.
  destruct searched as [|spec0 rest].
  - cbn in Hr. rewrite list_lookup_fmap in Hr.
    destruct (remapped st !! r); [|discriminate]. cbn in Hr. injection Hr as <-.
    split; [intros []|]. intros (k & ? & ? & ? & ? & ? & Hk & _). destruct k; discriminate.
  - cbn [List.length Nat.ltb Nat.leb] in Hr. rewrite list_lookup_fmap in Hr.
    destruct (remapped st !! r) as [row'|] eqn:Hrow'; [|discriminate].
    cbn in Hr. injection Hr as <-.
    destruct (species_loop_rows _ _ _ _ _ _ _ Hloop Hrow') as (row & Hrow & Hin).
    cbn [initial remapped set_offset] in Hrow, Hin.
    assert (row = []) as ->
      by (eapply repeat_spec, list_elem_of_In, list_elem_of_lookup_2, Hrow).
    rewrite Hin. cbn [concat].
    split.
    + intros [[]|(k & sp & g & g2 & cur & x & Hk & Hg & Hl & Hg2 & Hc & Hx & ->)].
      exists k, sp, g, g2, cur, x. split_and!; try assumption. f_equal.
    + intros (k & sp & g & g2 & cur & x & Hk & Hg & Hl & Hg2 & Hc & Hx & ->).
      right. exists k, sp, g, g2, cur, x. split_and!; try assumption. f_equal.
Qed.

End PrepareFacts.

Lemma prepare_namespaces_collections_witness :
  FeatureSetManagerPrepare.example_prepare = Ret FeatureSetManagerPrepare.example_cache /\
  FeatureSetManagerPrepare.names
    (FeatureSetManagerPrepare.p_sets FeatureSetManagerPrepare.example_cache) !! 2%nat
  = Some "m1" /\
  exists c : Z,
    FeatureSetManagerPrepare.collections
      (FeatureSetManagerPrepare.p_sets FeatureSetManagerPrepare.example_cache) !! 2%nat
    = Some c /\
    (0 <= c)%Z /\
    FeatureSetManagerPrepare.c_names
      (FeatureSetManagerPrepare.p_collections FeatureSetManagerPrepare.example_cache)
      !! Z.to_nat c = Some "C" /\
    FeatureSetManagerPrepare.c_species
      (FeatureSetManagerPrepare.p_collections FeatureSetManagerPrepare.example_cache)
      !! Z.to_nat c = Some "mouse".
Proof.
  split; [vm_compute; reflexivity|].
  apply (prepare_namespaces_collections
           (list string) FeatureSetManagerPrepare.example_genes
           FeatureSetManagerPrepare.example_genes_of_sets (fun _ sets => sets)
           FeatureSetManagerPrepare.example_sets
           FeatureSetManagerPrepare.example_sets_of_genes
           (fun _ genes => map (map Z.of_nat) genes)
           FeatureSetManagerPrepare.example_collections (fun x => (x mod 2 ^ 32)%Z)
           FeatureSetManagerPrepare.example_annotation ["human"; "mouse"] None "SYMBOL"
           FeatureSetManagerPrepare.example_cache 1%nat "mouse"
           [ {| FeatureSetManagerPrepare.sd_name := "m1";
                FeatureSetManagerPrepare.sd_description := "third";
                FeatureSetManagerPrepare.sd_collection := 0 |} ]
           [ {| FeatureSetManagerPrepare.cd_name := "C";
                FeatureSetManagerPrepare.cd_description := "c" |} ]
           0%nat
           {| FeatureSetManagerPrepare.sd_name := "m1";
              FeatureSetManagerPrepare.sd_description := "third";
              FeatureSetManagerPrepare.sd_collection := 0 |}
           {| FeatureSetManagerPrepare.cd_name := "C";
              FeatureSetManagerPrepare.cd_description := "c" |}).
  - vm_compute; reflexivity.
  - right. eexists. reflexivity.
  - reflexivity.
  - reflexivity.
  - reflexivity.
  - reflexivity.
  - cbn. lia.
  - reflexivity.
  - vm_compute. reflexivity.
Defined.

Lemma prepare_universe_witness :
  FeatureSetManagerPrepare.example_prepare = Ret FeatureSetManagerPrepare.example_cache /\
  StronglySorted Z.lt [0; 1]%Z /\
  (forall g : Z,
     In g [0; 1]%Z <->
     exists (r : nat) spec gene_mapping (genes : list nat),
       g = Z.of_nat r /\ In spec ["human"; "mouse"] /\
       FeatureSetManagerPrepare.example_genes spec (Some ["g1"; "g2"]) ["symbol"]
       = Ret gene_mapping /\
       gene_mapping !! r = Some genes /\ (0 < List.length genes)%nat) /\
  (forall g : Z,
     In g [0; 1]%Z ->
     (0 <= g)%Z /\ is_Some ([[0; 1]; [2]]%Z !! Z.to_nat g)) /\
  List.length [[0; 1]; [2]]%Z = 2%nat.
Proof.
  split; [vm_compute; reflexivity|].
  apply (prepare_universe
           (list string) FeatureSetManagerPrepare.example_genes
           FeatureSetManagerPrepare.example_genes_of_sets (fun _ sets => sets)
           FeatureSetManagerPrepare.example_sets
           FeatureSetManagerPrepare.example_sets_of_genes
           (fun _ genes => map (map Z.of_nat) genes)
           FeatureSetManagerPrepare.example_collections (fun x => (x mod 2 ^ 32)%Z)
           FeatureSetManagerPrepare.example_annotation ["human"; "mouse"] None "SYMBOL"
           FeatureSetManagerPrepare.example_cache (Some ["g1"; "g2"]) ["human"; "mouse"]).
  - vm_compute; reflexivity.
  - reflexivity.
  - cbn. lia.
Defined.

Lemma prepare_mapping_to_sets_witness :
  FeatureSetManagerPrepare.example_prepare = Ret FeatureSetManagerPrepare.example_cache /\
  (In 2%Z [2%Z] <->
   exists (k : nat) spec gene_mapping all_genes2sets current x,
     ["human"; "mouse"] !! k = Some spec /\
     FeatureSetManagerPrepare.example_genes spec (Some ["g1"; "g2"]) ["symbol"]
     = Ret gene_mapping /\
     (1 < List.length gene_mapping)%nat /\
     FeatureSetManagerPrepare.example_sets_of_genes spec = Ret all_genes2sets /\
     map (map Z.of_nat) all_genes2sets !! 1%nat = Some current /\
     In x current /\
     2%Z = ((x + Z.of_nat (FeatureSetManagerPrepare.sets_before
                             FeatureSetManagerPrepare.example_sets ["human"; "mouse"] k))
            mod 2 ^ 32)%Z).
Proof.
  split; [vm_compute; reflexivity|].
  apply (prepare_mapping_to_sets
           (list string) FeatureSetManagerPrepare.example_genes
           FeatureSetManagerPrepare.example_genes_of_sets (fun _ sets => sets)
           FeatureSetManagerPrepare.example_sets
           FeatureSetManagerPrepare.example_sets_of_genes
           (fun _ genes => map (map Z.of_nat) genes)
           FeatureSetManagerPrepare.example_collections (fun x => (x mod 2 ^ 32)%Z)
           FeatureSetManagerPrepare.example_annotation ["human"; "mouse"] None "SYMBOL"
           FeatureSetManagerPrepare.example_cache (Some ["g1"; "g2"]) ["human"; "mouse"]
           1%nat [2%Z]).
  - vm_compute; reflexivity.
  - reflexivity.
  - reflexivity.
Defined.

(** ** The references of the labelling step *)

Section LabellingReferences.
Import Wasm CellLabelling.

Lemma key_present {A : Type} (o : list (string * A)) (k : string) :
  existsb (fun kv : string * A => String.eqb (fst kv) k) o = true <-> In k (map fst o).
Proof.
  rewrite existsb_exists, in_map_iff. split.
  - intros (kv & Hin & Heq). apply String.eqb_eq in Heq. eauto.
  - intros (kv & Heq & Hin). exists kv. split; [exact Hin|]. apply String.eqb_eq, Heq.
Qed.

Lemma assign_keys {A : Type} (o : list (string * A)) (k : string) (v : A) :
  map fst (assign o k v)
  = if existsb (fun kv : string * A => String.eqb (fst kv) k) o then map fst o
    else map fst o ++ [k].
Proof.
  unfold assign. destruct (existsb _ o).
  - rewrite map_map. apply map_ext. intros kv.
    destruct (String.eqb_spec (fst kv) k) as [->|]; reflexivity.
  - rewrite map_app. reflexivity.
Qed.

Lemma build_keys (species : string) (rebuild : bool) (references : list string) :
  forall valid : list (string * promise),
    List.NoDup (map fst valid) ->
    let final := fold_left (fun valid ref =>
                              assign valid ref (BuildReference ref species rebuild))
                           references valid in
    List.NoDup (map fst final) /\
    forall r, In r (map fst final) <-> In r (map fst valid) \/ In r references.
Proof.
  induction references as [|ref rest IH]; intros valid Hnd; cbn.
  - split; [exact Hnd|]. intros r. tauto.
  - assert (Hk := assign_keys valid ref (BuildReference ref species rebuild)).
    assert (Hp := key_present valid ref).
    destruct (IH (assign valid ref (BuildReference ref species rebuild))) as [Hnd' Hin].
    { rewrite Hk. destruct (existsb _ valid); [exact Hnd|].
      apply NoDup_ListNoDup, NoDup_app. split_and!.
      - apply NoDup_ListNoDup, Hnd.
      - intros x Hx Hx'. apply list_elem_of_singleton in Hx' as ->.
        apply list_elem_of_In, Hp in Hx. discriminate.
      - apply NoDup_singleton. }
    split; [exact Hnd'|]. intros r. rewrite Hin, Hk.
    destruct (existsb _ valid).
    + assert (In ref (map fst valid)) by (apply Hp; reflexivity).
      split; [tauto|]. intros [H'|[<-|H']]; auto.
    + rewrite in_app_iff. cbn. tauto.
Qed.

Lemma two_distinct (keys : list string) :
  List.NoDup keys ->
  (1 < List.length keys)%nat <-> exists r1 r2, In r1 keys /\ In r2 keys /\ r1 <> r2.
Proof.
  intros Hnd. split.
  - destruct keys as [|x [|y rest]]; cbn; try lia. intros _.
    exists x, y. split_and!; [auto|auto|].
    inversion Hnd as [|? ? Hnot _]; subst. intros ->. apply Hnot. left. reflexivity.
  - intros (r1 & r2 & H1 & H2 & Hne).
    destruct keys as [|x [|y rest]]; cbn; [destruct H1| |lia].
    destruct H1 as [<-|[]], H2 as [<-|[]]. contradiction.
Qed.

Lemma labelling_recomputed up a st h st' h' :
  compute up a st h = Returned (st', h') ->
  changed st' = true ->
  exists d,
    feature_details (cache st') = Some (Some d) /\
    let valid :=
      if String.eqb (gt_species d) "human"
      then build_all (arg_human_references a) "human" (inputs_changed up)
      else if String.eqb (gt_species d) "mouse"
      then build_all (arg_mouse_references a) "mouse" (inputs_changed up)
      else [] in
    used (cache st') = Some (map fst valid) /\
    results (cache st') = map (fun '(key, _) => (key, LabelCells key)) valid /\
    integrated_results (cache st')
    = if (1 <? List.length (map fst valid))%nat
      then Some (IntegrateCellLabels (map fst valid)) else None.
Proof.
  unfold compute.
  destruct (unchanged up a st).
  { intros H. injection H as <- <-. discriminate. }
  intros H _.
  destruct (_ || _) in H.
  - destruct (choose_features up) as [f d]. cbn [mjoin option_join] in H.
    destruct d as [d|]; [|discriminate]. destruct f as [f|]; [|discriminate].
    exists d.
    revert H.
    repeat match goal with
           | |- context [if (1 <? ?n)%nat then _ else _] => destruct (1 <? n)%nat
           | |- context [if (?x || ?y) then _ else _] => destruct (x || y)
           | |- context [let '(_, _) := ?x in _] => destruct x
           end; intros H; injection H as <- <-; cbn; split_and!; reflexivity.
  - destruct (feature_details (cache st)) as [[d|]|]; cbn [mjoin option_join] in H;
      try discriminate.
    destruct (mjoin (features (cache st))) eqn:Hf; [|discriminate].
    exists d.
    revert H.
    repeat match goal with
           | |- context [if (1 <? ?n)%nat then _ else _] => destruct (1 <? n)%nat
           | |- context [if (?x || ?y) then _ else _] => destruct (x || y)
           | |- context [let '(_, _) := ?x in _] => destruct x
           end; intros H; injection H as <- <-; cbn; split_and!; reflexivity.
Qed.

(** X29.  When the labelling step recomputes and returns, it labels
    against each distinct reference requested for the species of the
    chosen annotation once (the human references for "human", the
    mouse references for "mouse", none for any other species), and it
    integrates the labels exactly when two different references are in
    use: a reference named twice does not count twice. *)
Theorem labelling_references
    (up : upstream) (a : arguments) (st st' : state) (h h' : heap) :
  compute up a st h = Returned (st', h') ->
  changed st' = true ->
  exists (d : gene_type) (keys : list string),
    feature_details (cache st') = Some (Some d) /\
    used (cache st') = Some keys /\
    results (cache st') = map (fun k => (k, LabelCells k)) keys /\
    List.NoDup keys /\
    (forall r, In r keys <->
               (gt_species d = "human" /\ In r (arg_human_references a)) \/
               (gt_species d = "mouse" /\ In r (arg_mouse_references a))) /\
    (is_Some (integrated_results (cache st')) <->
     exists r1 r2, In r1 keys /\ In r2 keys /\ r1 <> r2).
Proof.
  intros H Hc. destruct (labelling_recomputed _ _ _ _ _ _ H Hc) as (d & Hd & Hrest).
  cbv zeta in Hrest. destruct Hrest as (Hu & Hres & Hi).
  set (valid := if String.eqb (gt_species d) "human"
                then build_all (arg_human_references a) "human" (inputs_changed up)
                else if String.eqb (gt_species d) "mouse"
                then build_all (arg_mouse_references a) "mouse" (inputs_changed up)
                else []) in *.
  assert (Hkeys : List.NoDup (map fst valid) /\
                  forall r, In r (map fst valid) <->
                            (gt_species d = "human" /\ In r (arg_human_references a)) \/
                            (gt_species d = "mouse" /\ In r (arg_mouse_references a))).
  { subst valid. unfold build_all.
    destruct (String.eqb_spec (gt_species d) "human") as [Eh|Nh].
    - destruct (build_keys "human" (inputs_changed up) (arg_human_references a) [])
        as [Hnd Hin]; [constructor|].
      split; [exact Hnd|]. intros r. rewrite Hin. cbn. rewrite Eh.
      split; [intros [[]|Hr]; auto|]. intros [[_ Hr]|[Hm _]]; [auto|discriminate].
    - destruct (String.eqb_spec (gt_species d) "mouse") as [Em|Nm].
      + destruct (build_keys "mouse" (inputs_changed up) (arg_mouse_references a) [])
          as [Hnd Hin]; [constructor|].
        split; [exact Hnd|]. intros r. rewrite Hin. cbn.
        split; [intros [[]|Hr]; auto|]. intros [[Hh _]|[_ Hr]]; [contradiction|auto].
      + split; [constructor|]. intros r. cbn. split; [intros []|].
        intros [[Hh _]|[Hm _]]; contradiction. }
  destruct Hkeys as [Hnd Hin].
  exists d, (map fst valid). split_and!; try assumption.
  - rewrite Hres, map_map. apply map_ext. intros [k v]. reflexivity.
  - rewrite Hi, <- (two_distinct _ Hnd).
    destruct (Nat.ltb_spec 1 (List.length (map fst valid))) as [Hlt|Hge].
    + split; [intros _; exact Hlt|eauto].
    + split; [intros [x Hx]; discriminate|lia].
Qed.

End LabellingReferences.

Lemma labelling_references_witness :
  let st' := fst (Wasm.final (CellLabelling.compute CellLabellingMore.two_annotations
                                CellLabellingMore.repeated_references
                                CellLabelling.constructor CrisprPca.empty_heap)) in
  exists (d : CellLabelling.gene_type) (keys : list string),
    CellLabelling.feature_details (CellLabelling.cache st') = Some (Some d) /\
    CellLabelling.used (CellLabelling.cache st') = Some keys /\
    CellLabelling.results (CellLabelling.cache st')
    = map (fun k => (k, CellLabelling.LabelCells k)) keys /\
    List.NoDup keys /\
    (forall r, In r keys <->
               (CellLabelling.gt_species d = "human" /\
                In r (CellLabelling.arg_human_references
                        CellLabellingMore.repeated_references)) \/
               (CellLabelling.gt_species d = "mouse" /\
                In r (CellLabelling.arg_mouse_references
                        CellLabellingMore.repeated_references))) /\
    (is_Some (CellLabelling.integrated_results (CellLabelling.cache st')) <->
     exists r1 r2, In r1 keys /\ In r2 keys /\ r1 <> r2).
Proof.
  apply (labelling_references
           CellLabellingMore.two_annotations CellLabellingMore.repeated_references
           CellLabelling.constructor _ CrisprPca.empty_heap
           (snd (Wasm.final (CellLabelling.compute CellLabellingMore.two_annotations
                               CellLabellingMore.repeated_references
                               CellLabelling.constructor CrisprPca.empty_heap)))).
  - reflexivity.
  - reflexivity.
Defined.
